(* ===== verification/_CoqProject ===== *)
-Q . S2P
Prelude.v
Kv.v
Values.v
Random.v
Loader.v
Query.v
LoaderMain.v
Ring.v
ListQueue.v
WorkerPool.v
Returns.v
Ctx.v
Utility.v
Runtime.v
Chain.v
NewOrder.v
Payment.v
ReadTxns.v
Tfb.v
Keys.v
Handlers.v
Invariant.v
Entry.v
Lifecycle.v
Serve.v
Progress.v
Schema.v
Store.v
Scratch.v
Isolation.v
Contention.v
Transactions.v
Ledger.v
Books.v
Consistency.v
Loaded.v
Queries.v
Server.v
Startup.v
