(* ===== verification/Prelude.v ===== *)
(** * A verification development for h2o-bench-tpcc

    h2o-bench-tpcc is an HTTP server (h2o) that runs the TPC-C transactions and the
    TechEmpower tests against FoundationDB, with a loader that fills the store.  This library
    is a shallow embedding of its C code (everything under src/src/) and the theorems that
    say what the code does.  Names of definitions are those of the C code; callbacks that
    are static functions of the same name in several files carry a prefix ([no_] NewOrder,
    [pay_] Payment, [os_], [dl_], [sl_] the read transactions).

    ** How the C code is read

    - A C evaluation is an [outcome]: a value, or the undefined behaviour it shows ([ub]).
      Reads and writes of arrays, casts of [void *], signed arithmetic, [assert] and the
      loads of heap objects are all partial.  Stateful code is a state monad over
      [outcome]: [W] over [world] for the request handlers (Runtime), [SV] over the process
      (Server), [P] over the pool (WorkerPool), [L] over the loader.
    - A w-bit integer is a [Z] whose conversions are written out: [u8], [u32], [u64], [i16]
      wrap, [chk32] and [chk64] are signed arithmetic that overflows.  Memory and keys are
      lists of bytes.
    - A struct is a record; a [void *] handed to a callback is the address of a heap object
      of one of eight types, and a cast to another type is [TypeConfusion].
    - A function pointer is a constructor of [callback]; [run_callback] is the call.

    ** The parts

    - The keyspace.  Kv: the builders of src/tpcc_kv.c over an explicit buffer, against the
      abstract rows [row] and their keys [enc_key].  Keys: the keys of all twelve tables,
      those that Payment and the TechEmpower handlers build themselves included.  Values:
      the packed structs of tpcc_kv.h as bytes.
    - Leaf functions.  Random: get_random_number, nurand and the name generators.  Query:
      get_query_param and get_query_number over the memory behind a request's path.
      ListQueue: list.h.  Utility: the response helpers of utility.c, error.h and
      tpcc_procedures.c.
    - The worker pool.  Ring: spsc_ring.c, both as functions and as atomic steps of two
      threads under acquire and release.  WorkerPool and Returns: worker_pool.c on top of
      the ring, from [worker_pool_init] to [worker_pool_destroy], whose steps interleave
      with those of the worker threads it has not joined ([dstep]).  Nothing in the program
      calls the pool.
    - The request handlers.  Ctx: the context structs.  Runtime: the world the handlers share
      and the FoundationDB adapter of fdb_database.c.  NewOrder, Payment, ReadTxns, Tfb: the
      handlers of the four files, each an entry point and a chain of callbacks joined by
      futures.  Handlers: the routes, the harness, [run_callback], and [step], one event of
      the process (a request arrives, a future becomes ready, a client goes away).
    - The loader.  Loader and LoaderMain: tpcc_loader.c.
    - The process.  Server: main.c, thread.c and the start and stop of the network, the
      databases, the sockets and the threads.

    ** The specifications and what is proved

    - Chain states what a handler promises between two futures: a pure decision [next]
      (continue with another future, answer and finish, show an undefined behaviour) and its
      execution [exec_next]; each handler file proves that its callbacks are their
      decisions.  Invariant collects them ([decision], [chain_next], [chain_ok]) into the
      interface the rest of the library is proved against, [IsCtx] relates the eight context
      types to the heap.  Invariant, Entry and Lifecycle: the invariant of heap,
      transactions, futures and requests, kept by every event; no use after free, no
      request answered twice, none forgotten while the environment does not fail.
      Progress: runs without errors end.
    - Schema: every committed row has a key of the keyspace and the size of its struct.
      Store: FoundationDB as a finite map with its key selectors, serial runs against it, and
      what a range read of the adapter answers.  Transactions: the exact rows the callbacks
      of NewOrder and Payment commit when they are served, and their retries.  Queries:
      the read-only transactions and the TechEmpower tests.
    - Scratch: what a chain of callbacks knows at each of its futures; the fields a failed
      attempt has left in the context are never looked at.
    - Isolation: FoundationDB's optimistic concurrency control ([fdb_txn], [fdb_answers])
      under the handlers: runs in which any number of requests are in flight, read from
      their snapshots, conflict, fail and retry ([concurrent]); [recorded] notes for each
      request the context its entry left and for each commit the request it is of.  Every
      transaction committed with writes wrote what the chain of its request writes when it
      runs alone ([solo_commit_from]) from that context against the store its writes are
      applied to (a Payment by name has drawn its customer anew in each attempt,
      [attempt]), so an invariant of the store has to be shown for single chains only
      ([concurrent_keeps]).  Books states the first consistency condition of
      TPC-C, Consistency proves it for concurrent runs, with the bounds of the stock and the
      integrity of orders.  Loaded: the handlers on the store the loader leaves.
    - Contention: the retries end.  When commits are refused only for conflicts every chain
      that is refused pays with another's commit, so runs of any number of requests are
      bounded ([potential]) and all requests are answered.  Ledger: under the same
      assumption the answers and the commits go together one by one; when a commit's result
      is unknown they do not.
    - Ring, WorkerPool: refinement of bounded FIFO queues, data-race freedom and FIFO order
      under all interleavings.  Returns: the answers to finished work items, and the end of
      the pool in every interleaving with its threads.  Kv and Keys: the builders build the
      keys, keys identify rows and keep their order over the whole keyspace, ranges select
      their rows.  Values: the bytes of the eight structs and the way back.
    - Startup: what a started server looks like, every way to fail, the shutdown under
      running threads; no request that opens a transaction is served by it.

    ** The environment

    What is not in src/ is a parameter.  [RandR] is rand_r, with its range as the class
    [RandROk]; [Env] answers the calls of the handlers that may fail and the clock; [answer]
    is what a future holds, any error and any bytes; [LoadEnv] and [Host] are the same for
    the loader and for [main].  The safety theorems hold for every such environment; the
    theorems that something completes assume that no call fails ([EnvOk], [HostOk],
    [LoadEnvOk]), and each has a witness at a concrete environment.  There is no fuel in
    the handlers: an event runs one callback to its end, and the loops inside are structural
    over the C loop's range.  [get_query_param_loop] has the query length plus one as fuel,
    proved enough.

    ** Limits of the model

    - [main] gives the handlers a NULL FDB state ([server_has_no_fdb_state]), so the process
      as it is started serves no transaction.  The theorems about transactions start from
      worlds in which the handlers have a database ([booted], [launched]): [booted] without
      any request, [launched] with the chains of any requests just begun, NewOrders among
      them.  The distinction matters, since the entry of NewOrder divides by zero in every
      world, so that from [booted] no NewOrder chain ever starts; whatever is said of
      NewOrder is said of a chain that has been started.
    - A client that goes away ([EvClose]) is left out of the runs: no handler registers a
      dispose callback, so a chain of its request would use the disposed request.
    - [assert] is taken as compiled in (no NDEBUG); the target is little-endian with 64-bit
      [size_t], as the Dockerfile's.
    - The handlers run one event at a time.  In the process the worker threads of main.c
      share [g_seed], [g_handler_state.seed] and the World cache without synchronisation,
      and libfdb_c runs the callbacks on the thread of fdb_run_network; a data race has no
      meaning in C11, so interleavings inside an event are not modelled.  A callback that
      fdb_future_set_callback runs at once, because its future is ready, is an event of its
      own: no function does anything after it has submitted a future.
    - The arrays of /queries and /updates are part of their context object, so they live as
      long as it does; their [calloc] succeeds or fails by the environment, as does the
      [yajl_gen_alloc] of a handler that answers JSON.  The generator itself is the list of
      tokens given to it.
    - FoundationDB is its documented interface.  In Lifecycle and Progress an answer is any
      error or any bytes; in Store, Queries, Isolation and Consistency what the store
      holds, and for commits what optimistic concurrency control allows.  A range read leaves
      no read conflict in the model, since StockLevel, which makes the only one, never
      commits.
    - h2o's event loop and its sockets decide when a thread runs a round and which
      connections it accepts; message texts on stderr are not modelled.
    - The model-checking harnesses and the Lean files under src/test are tests of the
      program; database.c, event_loop.c and deprecated/ are empty. *)

From Stdlib Require Export ZArith Lia.
From stdpp Require Export base numbers strings option gmap list_numbers list.
#[global] Open Scope Z_scope.
#[global] Unset Printing Use Implicit Types.

(** ** Outcomes: a C evaluation yields a value or undefined behaviour *)

(** The ways the modelled code can leave the defined part of C11.  [DivByZero]
    is [%] with a zero divisor, [OutOfBounds] an access outside an array,
    [TypeConfusion] a [void *] used at a type it does not point to, [Uninit]
    the use of an object never written, [BadThread] the join of a thread that was never
    created, [Aborted] a failed [assert], [abort()] or [exit(1)]. *)
Inductive ub : Type :=
  | DivByZero | OutOfBounds | NullDeref | UseAfterFree | TypeConfusion
  | SignedOverflow | Uninit | BadThread | Aborted.

#[export] Instance ub_eq_dec : EqDecision ub.
Proof. solve_decision. Defined.

Inductive outcome (A : Type) : Type :=
  | Ok (a : A)
  | Ub (u : ub).
Arguments Ok {A} a.
Arguments Ub {A} u.

#[export] Instance outcome_ret : MRet outcome := λ A a, Ok a.
#[export] Instance outcome_bind : MBind outcome := λ A B f m,
  match m with Ok a => f a | Ub u => Ub u end.

#[export] Instance outcome_eq_dec {A} `{EqDecision A} : EqDecision (outcome A).
Proof. solve_decision. Defined.

Definition is_ok {A} (m : outcome A) : bool :=
  match m with Ok _ => true | Ub _ => false end.

(** [assert_or u b] continues when [b] holds and is the behaviour [u] otherwise. *)
Definition assert_or (u : ub) (b : bool) : outcome () :=
  if b then Ok () else Ub u.

Definition from_option_or {A} (u : ub) (o : option A) : outcome A :=
  match o with Some a => Ok a | None => Ub u end.

Section outcome_laws.
Context {A B C : Type}.

Lemma outcome_bind_Ok (a : A) (f : A → outcome B) : (Ok a ≫= f) = f a.
Proof. reflexivity. Qed.

Lemma outcome_bind_Ub (u : ub) (f : A → outcome B) : (Ub u ≫= f) = Ub u.
Proof. reflexivity. Qed.

Lemma outcome_bind_inv (m : outcome A) (f : A → outcome B) b :
  (m ≫= f) = Ok b → ∃ a, m = Ok a ∧ f a = Ok b.
Proof. destruct m; simpl; [eauto|discriminate]. Qed.

Lemma outcome_bind_assoc (m : outcome A) (f : A → outcome B) (g : B → outcome C) :
  ((m ≫= f) ≫= g) = (m ≫= λ a, f a ≫= g).
Proof. by destruct m. Qed.
End outcome_laws.

(** ** State passing: [M S A] threads a state of type [S] through outcomes *)

Definition M (S A : Type) : Type := S → outcome (A * S).

#[export] Instance M_ret S : MRet (M S) := λ A a s, Ok (a, s).
#[export] Instance M_bind S : MBind (M S) := λ A B f m s,
  match m s with Ok (a, s') => f a s' | Ub u => Ub u end.

Definition lift {S A} (m : outcome A) : M S A := λ s,
  match m with Ok a => Ok (a, s) | Ub u => Ub u end.
Definition get_st {S} : M S S := λ s, Ok (s, s).
Definition put_st {S} (s : S) : M S () := λ _, Ok ((), s).
Definition gets {S A} (f : S → A) : M S A := λ s, Ok (f s, s).
Definition modify {S} (f : S → S) : M S () := λ s, Ok ((), f s).
Definition fail_with {S A} (u : ub) : M S A := λ _, Ub u.

(** A counted loop: the body run on each index of the list, in order. *)
Fixpoint for_each {S X} (l : list X) (body : X → M S ()) : M S () :=
  match l with
  | [] => mret ()
  | x :: l => body x ≫= λ _, for_each l body
  end.

Section M_laws.
Context {S : Type}.

Lemma M_bind_run {A B} (m : M S A) (f : A → M S B) s :
  (m ≫= f) s = match m s with Ok (a, s') => f a s' | Ub u => Ub u end.
Proof. reflexivity. Qed.

Lemma M_bind_Ok {A B} (m : M S A) (f : A → M S B) s a s' :
  m s = Ok (a, s') → (m ≫= f) s = f a s'.
Proof. intros H. by rewrite M_bind_run, H. Qed.

Lemma M_bind_Ub {A B} (m : M S A) (f : A → M S B) s u :
  m s = Ub u → (m ≫= f) s = Ub u.
Proof. intros H. by rewrite M_bind_run, H. Qed.

Lemma M_bind_inv {A B} (m : M S A) (f : A → M S B) s b s'' :
  (m ≫= f) s = Ok (b, s'') → ∃ a s', m s = Ok (a, s') ∧ f a s' = Ok (b, s'').
Proof. rewrite M_bind_run. destruct (m s) as [[a s']|]; [eauto|discriminate]. Qed.

Lemma M_bind_assoc {A B C} (m : M S A) (f : A → M S B) (g : B → M S C) s :
  ((m ≫= f) ≫= g) s = (m ≫= λ a, f a ≫= g) s.
Proof. rewrite !M_bind_run. by destruct (m s) as [[a s']|]. Qed.

Lemma lift_Ok {A} (a : A) (s : S) : lift (Ok a) s = Ok (a, s).
Proof. reflexivity. Qed.
End M_laws.

(** ** Machine integers *)

(** An unsigned [w]-bit integer is a [Z] in [0, 2^w); [wrap_u] is the conversion
    to that type.  A signed one is a [Z] in [-2^(w-1), 2^(w-1)); [wrap_s] is the
    (two's complement) conversion. *)
Definition wrap_u (w x : Z) : Z := x mod 2 ^ w.
Definition wrap_s (w x : Z) : Z := (x + 2 ^ (w - 1)) mod 2 ^ w - 2 ^ (w - 1).

Definition in_u (w x : Z) : Prop := 0 <= x < 2 ^ w.
Definition in_s (w x : Z) : Prop := - 2 ^ (w - 1) <= x < 2 ^ (w - 1).

Abbreviation u8 := (wrap_u 8).
Abbreviation u16 := (wrap_u 16).
Abbreviation u32 := (wrap_u 32).
Abbreviation u64 := (wrap_u 64).
Abbreviation i16 := (wrap_s 16).
Abbreviation i32 := (wrap_s 32).
Abbreviation i64 := (wrap_s 64).

(** Signed arithmetic that must not overflow: the value, or undefined behaviour. *)
Definition fits_s (w x : Z) : bool := (- 2 ^ (w - 1) <=? x) && (x <? 2 ^ (w - 1)).
Definition chk_s (w x : Z) : outcome Z := if fits_s w x then Ok x else Ub SignedOverflow.
Abbreviation chk32 := (chk_s 32).
Abbreviation chk64 := (chk_s 64).

Section machine_integers.
Lemma wrap_u_range w x : 0 <= w → 0 <= wrap_u w x < 2 ^ w.
Proof. intros. apply Z.mod_pos_bound. lia. Qed.

Lemma wrap_u_id w x : in_u w x → wrap_u w x = x.
Proof. intros. by apply Z.mod_small. Qed.

Lemma wrap_s_range w x : 1 <= w → in_s w (wrap_s w x).
Proof.
  intros. unfold in_s, wrap_s.
  pose proof (Z.mod_pos_bound (x + 2 ^ (w - 1)) (2 ^ w) ltac:(lia)).
  assert (2 ^ w = 2 * 2 ^ (w - 1)) as Hw.
  { rewrite <- Z.pow_succ_r by lia. f_equal. lia. }
  lia.
Qed.

Lemma wrap_s_id w x : 1 <= w → in_s w x → wrap_s w x = x.
Proof.
  intros Hw [Hl Hh]. unfold wrap_s.
  assert (2 ^ w = 2 * 2 ^ (w - 1)) as E.
  { rewrite <- Z.pow_succ_r by lia. f_equal. lia. }
  rewrite Z.mod_small; lia.
Qed.

(** Reading a [w]-bit pattern back as signed recovers the signed value. *)
Lemma wrap_s_u w x : 1 <= w → wrap_s w (wrap_u w x) = wrap_s w x.
Proof.
  intros. unfold wrap_s, wrap_u. by rewrite Zplus_mod_idemp_l.
Qed.

Lemma fits_s_in w x : fits_s w x = true → in_s w x.
Proof. unfold fits_s, in_s. lia. Qed.
Lemma fits_s_true w x : in_s w x → fits_s w x = true.
Proof. intros [? ?]. by apply andb_true_iff; rewrite Z.leb_le, Z.ltb_lt. Qed.

Lemma chk_s_Ok w x : in_s w x → chk_s w x = Ok x.
Proof. intros Hx. unfold chk_s. by rewrite fits_s_true. Qed.

Lemma chk_s_inv w x y : chk_s w x = Ok y → y = x ∧ in_s w x.
Proof.
  unfold chk_s, fits_s, in_s. destruct (_ && _) eqn:E; [|discriminate].
  intros [= ->]. apply andb_true_iff in E as [? ?]. lia.
Qed.
End machine_integers.

(** ** Bytes, buffers and C strings *)

(** A byte is a [Z] in [0, 256); an array of bytes is a list of them. *)
Definition byte_ok (b : Z) : Prop := 0 <= b < 256.
Definition bytes_ok (bs : list Z) : Prop := Forall byte_ok bs.

(** The bytes of a string literal, without its terminator. *)
Fixpoint bytes_of_string (s : string) : list Z :=
  match s with
  | EmptyString => []
  | String a s => Z.of_N (Ascii.N_of_ascii a) :: bytes_of_string s
  end.

(** [memcpy(buf + off, bs, length bs)], undefined when it runs past the array. *)
Definition poke (buf : list Z) (off : nat) (bs : list Z) : outcome (list Z) :=
  if (off + length bs <=? length buf)%nat
  then Ok (take off buf ++ bs ++ drop (off + length bs) buf)
  else Ub OutOfBounds.

(** [memcpy(dst, buf + off, n)], undefined when it reads past the array. *)
Definition peek (buf : list Z) (off n : nat) : outcome (list Z) :=
  if (off + n <=? length buf)%nat then Ok (take n (drop off buf)) else Ub OutOfBounds.

(** [strlen] of the C string at the start of an array: the index of its first NUL,
    undefined when the array holds none. *)
Fixpoint strlen (buf : list Z) : outcome nat :=
  match buf with
  | [] => Ub OutOfBounds
  | b :: buf => if b =? 0 then Ok 0%nat else n ← strlen buf; mret (S n)
  end.

(** [strcat(buf, s)]: [s] and its NUL written over the NUL that ends [buf]. *)
Definition strcat (buf s : list Z) : outcome (list Z) :=
  n ← strlen buf; poke buf n (s ++ [0]).

(** A C string: bytes other than NUL. *)
Definition c_string (s : list Z) : Prop := Forall (λ b, 0 < b < 256) s.

Section buffers.
Implicit Types buf bs : list Z.

Lemma bytes_of_string_ok s : bytes_ok (bytes_of_string s).
Proof.
  induction s as [|a s IH]; constructor; [|done].
  pose proof (Ascii.N_ascii_bounded a). unfold byte_ok. lia.
Qed.

Lemma poke_app pre old bs rest :
  length old = length bs →
  poke (pre ++ old ++ rest) (length pre) bs = Ok (pre ++ bs ++ rest).
Proof.
  intros Hl. unfold poke. rewrite !length_app.
  destruct (Nat.leb_spec (length pre + length bs)
    (length pre + (length old + length rest))); [|lia].
  rewrite take_app_length, drop_app_add, <- Hl, drop_app_length. done.
Qed.

(** Writing after the bytes already built, in a buffer with room. *)
Lemma poke_step pre bs buf :
  (length pre + length bs <= length buf)%nat →
  poke (pre ++ drop (length pre) buf) (length pre) bs =
    Ok ((pre ++ bs) ++ drop (length (pre ++ bs)) buf).
Proof.
  intros Hl.
  rewrite <- (take_drop (length bs) (drop (length pre) buf)).
  rewrite poke_app, drop_drop, length_app, <- app_assoc; [done|].
  rewrite length_take, length_drop. lia.
Qed.

Lemma strlen_c_string s rest : c_string s → strlen (s ++ 0 :: rest) = Ok (length s).
Proof.
  induction 1 as [|b s Hb _ IH]; [done|]. simpl.
  destruct (Z.eqb_spec b 0); [lia|]. by rewrite IH.
Qed.

Lemma strcat_spec s t pad :
  c_string s → (length t <= length pad)%nat →
  strcat (s ++ 0 :: pad) t = Ok ((s ++ t) ++ 0 :: drop (length t) pad).
Proof.
  intros Hs Hl. unfold strcat. rewrite strlen_c_string by done. simpl.
  rewrite <- (take_drop (length t) pad) at 1.
  rewrite app_comm_cons, poke_app, <- !app_assoc; [done|].
  simpl. rewrite length_app, length_take. simpl. lia.
Qed.

Lemma strcat_overflow s t pad :
  c_string s → (length pad < length t)%nat →
  strcat (s ++ 0 :: pad) t = Ub OutOfBounds.
Proof.
  intros Hs Hl. unfold strcat. rewrite strlen_c_string by done. simpl.
  unfold poke. rewrite !length_app. simpl.
  destruct (Nat.leb_spec (length s + (length t + 1)) (length s + S (length pad)));
    [lia|done].
Qed.
End buffers.

(** ** Little-endian packing, big-endian values and byte order *)

Fixpoint le_bytes (n : nat) (x : Z) : list Z :=
  match n with
  | O => []
  | S n => x mod 256 :: le_bytes n (x / 256)
  end.

Fixpoint le_val (bs : list Z) : Z :=
  match bs with
  | [] => 0
  | b :: bs => b + 256 * le_val bs
  end.

Fixpoint be_val (bs : list Z) : Z :=
  match bs with
  | [] => 0
  | b :: bs => b * 256 ^ Z.of_nat (length bs) + be_val bs
  end.

(** The order a byte-ordered store keeps its keys in: [memcmp], then length. *)
Fixpoint lex_lt (a b : list Z) : bool :=
  match a, b with
  | _, [] => false
  | [], _ :: _ => true
  | x :: a, y :: b => (x <? y) || ((x =? y) && lex_lt a b)
  end.

Section byte_order.
Implicit Types a b c d bs : list Z.

Lemma le_bytes_length n x : length (le_bytes n x) = n.
Proof. revert x. induction n; simpl; auto. Qed.

Lemma le_bytes_ok n x : bytes_ok (le_bytes n x).
Proof.
  revert x. induction n; simpl; constructor; [|apply IHn].
  by apply Z.mod_pos_bound.
Qed.

Lemma le_val_bytes n x : le_val (le_bytes n x) = x mod 256 ^ Z.of_nat n.
Proof.
  revert x. induction n as [|n IH]; intros x.
  - simpl. by rewrite Z.mod_1_r.
  - cbn [le_bytes le_val]. rewrite IH, Nat2Z.inj_succ, Z.pow_succ_r by lia.
    rewrite (Z.rem_mul_r x 256) by lia. lia.
Qed.

Lemma le_bytes_le_val bs : bytes_ok bs → le_bytes (length bs) (le_val bs) = bs.
Proof.
  induction 1 as [|b bs Hb _ IH]; [done|]. cbn [length le_bytes le_val].
  rewrite (Z.mul_comm 256), Z.mod_add, Z.div_add by lia.
  unfold byte_ok in Hb. rewrite Z.mod_small, (Z.div_small b) by lia.
  by rewrite Z.add_0_l, IH.
Qed.

Lemma be_val_bound bs :
  bytes_ok bs → 0 <= be_val bs < 256 ^ Z.of_nat (length bs).
Proof.
  induction 1 as [|b bs Hb _ IH]; [simpl; lia|].
  cbn [be_val length]. rewrite Nat2Z.inj_succ, Z.pow_succ_r by lia.
  unfold byte_ok in Hb. nia.
Qed.

(** Byte order on strings of one length is numeric order of their big-endian values. *)
Lemma lex_lt_be_val a b :
  bytes_ok a → bytes_ok b → length a = length b →
  lex_lt a b = (be_val a <? be_val b).
Proof.
  intros Ha. revert b. induction Ha as [|x a Hx Ha IH]; intros [|y b] Hb Hl;
    try done.
  inversion_clear Hb as [|? ? Hy Hb']. injection Hl as Hl.
  cbn [lex_lt be_val]. rewrite (IH b) by done. rewrite Hl.
  pose proof (be_val_bound _ Ha). pose proof (be_val_bound _ Hb').
  rewrite Hl in *. unfold byte_ok in *.
  destruct (Z.ltb_spec x y), (Z.eqb_spec x y), (Z.ltb_spec (be_val a) (be_val b)); simpl;
    symmetry; (apply Z.ltb_lt || apply Z.ltb_ge); nia.
Qed.

Lemma lex_lt_app p a b : lex_lt (p ++ a) (p ++ b) = lex_lt a b.
Proof. induction p; simpl; [done|]. by rewrite Z.ltb_irrefl, Z.eqb_refl. Qed.

(** Comparison of concatenations whose first parts have one length. *)
Lemma lex_lt_app_same a b c d :
  length a = length b →
  lex_lt (a ++ c) (b ++ d) = lex_lt a b || (bool_decide (a = b) && lex_lt c d).
Proof.
  revert b. induction a as [|x a IH]; intros [|y b] Hl; try done.
  injection Hl as Hl. cbn [lex_lt app]. rewrite IH by done.
  destruct (Z.ltb_spec x y), (Z.eqb_spec x y); simpl; try done; try lia.
  - subst. destruct (lex_lt a b); simpl; [done|].
    by rewrite (bool_decide_ext (y :: a = y :: b) (a = b)) by naive_solver.
  - by rewrite bool_decide_eq_false_2 by naive_solver.
Qed.

Lemma lex_lt_irrefl a : lex_lt a a = false.
Proof. induction a; simpl; [done|]. by rewrite Z.ltb_irrefl, Z.eqb_refl. Qed.

Lemma lex_lt_trans a b c : lex_lt a b = true → lex_lt b c = true → lex_lt a c = true.
Proof.
  revert b c. induction a as [|x a IH]; intros [|y b] [|z c]; simpl; try done.
  intros Hab Hbc. specialize (IH b c).
  destruct (Z.ltb_spec x y), (Z.ltb_spec y z), (Z.ltb_spec x z), (Z.eqb_spec x y),
    (Z.eqb_spec y z), (Z.eqb_spec x z); simpl in *; try lia; try done; auto.
Qed.

Lemma lex_lt_total a b : lex_lt a b = false → lex_lt b a = false → a = b.
Proof.
  revert b. induction a as [|x a IH]; intros [|y b]; simpl; try done.
  destruct (Z.ltb_spec x y), (Z.ltb_spec y x), (Z.eqb_spec x y), (Z.eqb_spec y x);
    simpl; try lia; try done. intros. f_equal; [done|auto].
Qed.

Lemma lex_lt_asym a b : lex_lt a b = true → lex_lt b a = false.
Proof.
  intros Hab. destruct (lex_lt b a) eqn:Hba; [|done].
  pose proof (lex_lt_trans _ _ _ Hab Hba) as E. by rewrite lex_lt_irrefl in E.
Qed.

Lemma lex_le_lt_trans a b c : lex_lt b a = false → lex_lt b c = true → lex_lt a c = true.
Proof.
  intros Hba Hbc. destruct (lex_lt a b) eqn:Hab; [by eapply lex_lt_trans|].
  by rewrite (lex_lt_total _ _ Hab Hba).
Qed.
End byte_order.

(** ** Lists *)

(** The last binding of a key in a sequence of writes. *)
Fixpoint last_write {K V} `{EqDecision K} (k : K) (ws : list (K * V)) : option V :=
  match ws with
  | [] => None
  | (k', v) :: ws =>
      match last_write k ws with
      | Some v' => Some v'
      | None => if decide (k' = k) then Some v else None
      end
  end.

Lemma last_write_app {K V} `{EqDecision K} (k : K) (ws1 ws2 : list (K * V)) :
  last_write k (ws1 ++ ws2) =
    match last_write k ws2 with Some v => Some v | None => last_write k ws1 end.
Proof.
  induction ws1 as [|[k' v] ws1 IH]; simpl; [by destruct (last_write k ws2)|].
  rewrite IH. by destruct (last_write k ws2).
Qed.

Lemma last_write_None {K V} `{EqDecision K} (k : K) (ws : list (K * V)) :
  last_write k ws = None ↔ k ∉ ws.*1.
Proof.
  induction ws as [|[k' v] ws IH]; simpl; [set_solver|].
  rewrite not_elem_of_cons. destruct (last_write k ws) eqn:E.
  - naive_solver.
  - case_decide; naive_solver.
Qed.

Lemma last_write_Some {K V} `{EqDecision K} (k : K) (ws : list (K * V)) v :
  last_write k ws = Some v → (k, v) ∈ ws.
Proof.
  induction ws as [|[k' v'] ws IH]; simpl; [done|]. destruct (last_write k ws).
  - intros [= ->]. right. by apply IH.
  - case_decide; [|done]. intros [= ->]. subst. by left.
Qed.

(** ** Automation *)

(** Rewrites of calls that are known to succeed. *)
Create Rewrite HintDb c_eval.
#[export] Hint Rewrite @outcome_bind_Ok @outcome_bind_Ub @lift_Ok : c_eval.

(** Break a successful evaluation into the successes of its parts. *)
Ltac inv_bind :=
  repeat match goal with
  | H : (_ ≫= _) = Ok _ |- _ =>
      let a := fresh "a" in let E := fresh "E" in
      apply outcome_bind_inv in H as (a & E & H)
  | H : Ok _ = Ok _ |- _ => injection H as H
  | H : mret _ = Ok _ |- _ => injection H as H
  | H : Ub _ = Ok _ |- _ => discriminate H
  end; subst.

(** Integer side conditions: ranges of machine integers unfolded for [lia]. *)
Ltac range := unfold in_u, in_s, byte_ok in *; lia.

(** ** Byte-string intervals *)

(** [k] lies in the half-open interval of byte strings [b, e). *)
Definition in_range (k b e : list Z) : bool := negb (lex_lt k b) && lex_lt k e.

(** A string between two extensions of [p] extends [p]. *)
Lemma in_range_prefix k p x y : in_range k (p ++ x) (p ++ y) = true → ∃ z, k = p ++ z.
Proof.
  unfold in_range. revert k. induction p as [|a p IH]; intros k H; [by exists k|].
  destruct k as [|c k]; [done|]. cbn [lex_lt app] in H.
  destruct (Z.ltb_spec c a), (Z.eqb_spec c a); simpl in H; try done; try lia.
  subst. destruct (IH k H) as [z ->]. by exists z.
Qed.

Lemma in_range_app p z x y : in_range (p ++ z) (p ++ x) (p ++ y) = in_range z x y.
Proof. unfold in_range. by rewrite !lex_lt_app. Qed.

Lemma c_string_split s t x y :
  c_string s → c_string t → s ++ 0 :: x = t ++ 0 :: y → s = t ∧ x = y.
Proof.
  intros Hs. revert t. induction Hs as [|a s Ha _ IH]; intros t Ht.
  - destruct Ht as [|b t Hb _]; [naive_solver|]. intros [= ? _]. lia.
  - destruct Ht as [|b t Hb Ht]; [intros [= ? _]; lia|].
    intros [= -> E]. by destruct (IH t Ht E) as [-> ->].
Qed.

(** Writing after the bytes already built: the buffer, or the overflow. *)
Lemma poke_pre pre bs buf :
  (length pre <= length buf)%nat →
  poke (pre ++ drop (length pre) buf) (length pre) bs =
    if (length (pre ++ bs) <=? length buf)%nat
    then Ok ((pre ++ bs) ++ drop (length (pre ++ bs)) buf) else Ub OutOfBounds.
Proof.
  intros Hp. rewrite length_app.
  destruct (Nat.leb_spec (length pre + length bs) (length buf)).
  - rewrite poke_step by done. by rewrite length_app.
  - unfold poke. rewrite length_app, length_drop.
    destruct (Nat.leb_spec (length pre + length bs)
      (length pre + (length buf - length pre))); [lia|done].
Qed.

(** [Forall P [x1; ..; xn]] from the facts [P xi]. *)
Ltac forall_list :=
  repeat first [apply Forall_nil_2 | apply Forall_cons_2; [solve [assumption | range | done]|]].

(** ** Arrays *)

(** [a[i]] and [a[i] = x] on a C array; outside it they are undefined. *)
Definition arr_get {A} (a : list A) (i : Z) : outcome A :=
  if i <? 0 then Ub OutOfBounds else from_option_or OutOfBounds (a !! Z.to_nat i).
Definition arr_set {A} (a : list A) (i : Z) (x : A) : outcome (list A) :=
  if (0 <=? i) && (i <? Z.of_nat (length a)) then Ok (<[Z.to_nat i := x]> a)
  else Ub OutOfBounds.

(** The indices 0 .. n-1 of a counted loop. *)
Definition upto (n : Z) : list Z := Z.of_nat <$> seq 0 (Z.to_nat n).

Lemma elem_of_upto n i : i ∈ upto n ↔ 0 <= i < n.
Proof.
  unfold upto. rewrite list_elem_of_fmap. split.
  - intros (k & -> & Hk). apply elem_of_seq in Hk. lia.
  - intros Hi. exists (Z.to_nat i). rewrite elem_of_seq. lia.
Qed.

(** An element of an integer array that is known to be in bounds. *)
Definition arr0 (l : list Z) (i : Z) : Z := default 0 (l !! Z.to_nat i).

Lemma arr_get_Ok {A} (a : list A) i x : 0 <= i → a !! Z.to_nat i = Some x → arr_get a i = Ok x.
Proof. intros Hi Hx. unfold arr_get. destruct (Z.ltb_spec i 0); [lia|]. by rewrite Hx. Qed.

Lemma arr_get_lt {A} (a : list A) i :
  0 <= i < Z.of_nat (length a) → ∃ x, arr_get a i = Ok x ∧ a !! Z.to_nat i = Some x.
Proof.
  intros Hi. destruct (lookup_lt_is_Some_2 a (Z.to_nat i)) as [x Hx]; [lia|].
  exists x. split; [|done]. apply arr_get_Ok; [lia|done].
Qed.

Lemma arr_set_Ok {A} (a : list A) i x :
  0 <= i < Z.of_nat (length a) → arr_set a i x = Ok (<[Z.to_nat i := x]> a).
Proof.
  intros Hi. unfold arr_set.
  by rewrite (proj2 (Z.leb_le _ _)), (proj2 (Z.ltb_lt _ _)) by lia.
Qed.

Lemma arr0_insert_eq l i x :
  (Z.to_nat i < length l)%nat → arr0 (<[Z.to_nat i := x]> l) i = x.
Proof. intros Hi. unfold arr0. by rewrite list_lookup_insert_eq. Qed.

Lemma arr0_insert_ne l i j x : 0 <= i → 0 <= j → i ≠ j → arr0 (<[Z.to_nat j := x]> l) i = arr0 l i.
Proof. intros Hi Hj Hne. unfold arr0. by rewrite list_lookup_insert_ne by lia. Qed.

Lemma upto_S n : upto (Z.of_nat (S n)) = upto (Z.of_nat n) ++ [Z.of_nat n].
Proof. unfold upto. by rewrite !Nat2Z.id, seq_S, fmap_app. Qed.

(** The last write of a key by a loop over [0, n). *)
Lemma last_write_upto {K V} `{EqDecision K} (f : Z → K) (g : Z → V) n i :
  0 <= i < n → (∀ j, i < j < n → f j ≠ f i) →
  last_write (f i) ((λ i, (f i, g i)) <$> upto n) = Some (g i).
Proof.
  intros [Hi Hn]. rewrite <- (Z2Nat.id n) in * by lia.
  revert Hn. generalize (Z.to_nat n) as m. clear n.
  induction m as [|m IH]; intros Hm Hlast; [lia|].
  rewrite upto_S, fmap_app, last_write_app. cbn [fmap list_fmap last_write].
  destruct (decide (f (Z.of_nat m) = f i)) as [He|Hne].
  - destruct (decide (Z.of_nat m = i)) as [->|]; [done|]. destruct (Hlast (Z.of_nat m)); [lia|done].
  - apply IH; [|intros j Hj; apply Hlast; lia].
    destruct (decide (Z.of_nat m = i)) as [<-|]; [done|lia].
Qed.

Lemma last_write_loop_None {K V} `{EqDecision K} (f : Z → K) (g : Z → V) k n :
  (∀ j, 0 <= j < n → f j ≠ k) → last_write k ((λ i, (f i, g i)) <$> upto n) = None.
Proof.
  intros Hf. apply last_write_None. rewrite <- list_fmap_compose, list_elem_of_fmap.
  intros (j & -> & Hj). apply elem_of_upto in Hj. by apply (Hf j).
Qed.

(** ** Weakest preconditions: [wp E m Q s] holds when [m] run from [s] either ends in
    a value and state of [Q] or shows one of the undefined behaviours [E] admits *)

Definition wp {S A} (E : ub → Prop) (m : M S A) (Q : A → S → Prop) (s : S) : Prop :=
  match m s with Ok (a, s') => Q a s' | Ub u => E u end.

Section wp_laws.
Context {S : Type} (E : ub → Prop).

Lemma wp_ret {A} (a : A) (Q : A → S → Prop) s : Q a s → wp E (mret a) Q s.
Proof. done. Qed.

Lemma wp_bind {A B} (m : M S A) (f : A → M S B) (Q : B → S → Prop) s :
  wp E m (λ a, wp E (f a) Q) s → wp E (m ≫= f) Q s.
Proof. unfold wp. rewrite M_bind_run. by destruct (m s) as [[a s']|u]. Qed.

Lemma wp_mono {A} (m : M S A) (Q Q' : A → S → Prop) s :
  wp E m Q s → (∀ a s', Q a s' → Q' a s') → wp E m Q' s.
Proof. unfold wp. destruct (m s) as [[a s']|u]; auto. Qed.

(** A program is replaced by one that behaves the same from this state. *)
Lemma wp_eq {A} (m m' : M S A) (Q : A → S → Prop) s :
  m s = m' s → wp E m' Q s → wp E m Q s.
Proof. unfold wp. by intros ->. Qed.

Lemma wp_lift {A} (o : outcome A) (Q : A → S → Prop) s :
  match o with Ok a => Q a s | Ub u => E u end → wp E (lift o) Q s.
Proof. unfold wp, lift. by destruct o. Qed.

Lemma wp_lift_Ok {A} (o : outcome A) a (Q : A → S → Prop) s :
  o = Ok a → Q a s → wp E (lift o) Q s.
Proof. intros -> H. by apply wp_lift. Qed.

Lemma wp_modify (f : S → S) (Q : () → S → Prop) s : Q () (f s) → wp E (modify f) Q s.
Proof. done. Qed.

Lemma wp_gets {A} (f : S → A) (Q : A → S → Prop) s : Q (f s) s → wp E (gets f) Q s.
Proof. done. Qed.

(** A loop keeps an invariant indexed by the part of the list already done. *)
Lemma wp_for_each {X} (l : list X) (body : X → M S ()) (I : list X → S → Prop) s :
  I [] s →
  (∀ d x s, I d s → x ∈ l → wp E (body x) (λ _, I (d ++ [x])) s) →
  wp E (for_each l body) (λ _, I l) s.
Proof.
  intros Hs Hstep.
  cut (∀ l' d s, (∀ x, x ∈ l' → x ∈ l) → I d s →
    wp E (for_each l' body) (λ _, I (d ++ l')) s).
  { intros H. by apply (H l [] s). }
  clear Hs. induction l' as [|x l' IH]; intros d s0 Hin Hs.
  - by rewrite app_nil_r.
  - cbn [for_each]. apply wp_bind. eapply wp_mono.
    + apply Hstep; [done|]. apply Hin. set_solver.
    + intros [] s' Hs'. rewrite cons_middle, app_assoc. apply IH; [|done]. set_solver.
Qed.
End wp_laws.

(** ** Sums over maps *)

Section map_sum.
Context `{Countable K} {A : Type}.
Implicit Types (g : A → Z) (m : gmap K A).

Definition map_sum g m : Z := map_fold (λ _ x n, g x + n) 0 m.

Lemma map_sum_empty g : map_sum g ∅ = 0.
Proof. reflexivity. Qed.

Lemma map_sum_insert g m i x :
  m !! i = None → map_sum g (<[i := x]> m) = g x + map_sum g m.
Proof.
  intros Hi. unfold map_sum. rewrite map_fold_insert_L; [done| |done]. intros; lia.
Qed.

Lemma map_sum_delete g m i x :
  m !! i = Some x → map_sum g m = g x + map_sum g (delete i m).
Proof.
  intros Hi. rewrite <- (map_sum_insert g (delete i m) i x) by apply lookup_delete_eq.
  by rewrite insert_delete_id.
Qed.

(** Weights that grow by at most [d]. *)
Lemma map_sum_le g g' d m :
  (∀ i x, m !! i = Some x → g x <= g' x + d) →
  map_sum g m <= map_sum g' m + d * Z.of_nat (size m).
Proof.
  induction m as [|i x m Hi IH] using map_ind;
    [rewrite map_size_empty, !map_sum_empty; lia|]. intros Hle.
  rewrite !map_sum_insert, map_size_insert_None by done.
  pose proof (Hle i x (lookup_insert_eq _ _ _)).
  assert (map_sum g m <= map_sum g' m + d * Z.of_nat (size m)); [|lia].
  apply IH. intros j y Hj. apply (Hle j). rewrite lookup_insert_ne; [done|]. congruence.
Qed.

Lemma map_sum_ext g g' m :
  (∀ i x, m !! i = Some x → g x = g' x) → map_sum g m = map_sum g' m.
Proof.
  intros Hext. apply Z.le_antisymm; etrans; [apply (map_sum_le g g' 0)| |apply (map_sum_le g' g 0)|];
    try lia; intros i x Hi; rewrite (Hext i x Hi); lia.
Qed.

Lemma map_sum_bounds g lo hi m :
  (∀ i x, m !! i = Some x → lo <= g x <= hi) →
  lo * Z.of_nat (size m) <= map_sum g m <= hi * Z.of_nat (size m).
Proof.
  induction m as [|i x m Hi IH] using map_ind;
    [rewrite map_size_empty, map_sum_empty; lia|]. intros Hb.
  rewrite map_sum_insert, map_size_insert_None by done.
  pose proof (Hb i x (lookup_insert_eq _ _ _)). destruct IH; [|lia].
  intros j y Hj. apply (Hb j). rewrite lookup_insert_ne; [done|]. congruence.
Qed.
End map_sum.
