(* ===== verification/Kv.v ===== *)
(** * Keys of the FoundationDB keyspace: src/tpcc_kv.c and src/tpcc_kv.h

    The key builders write a subspace prefix and big-endian 32-bit components
    into a caller's buffer and return the length.  They are translated with the
    buffer and the offset threaded explicitly, so a write past the buffer is
    visible.  [row] names the rows of the keyspace, [enc_key] is the key each
    one promises, and the lemmas relate the two: every builder builds its
    [enc_key], the encoding is injective over the whole keyspace and the range
    builders delimit exactly the rows they are for.  That the keys identify the
    rows and keep their order, in all tables, is Keys. *)

From S2P Require Import Prelude.

(** ** Subspace prefixes *)

Definition SS_WAREHOUSE := bytes_of_string "tpcc/w/".
Definition SS_DISTRICT := bytes_of_string "tpcc/d/".
Definition SS_CUSTOMER := bytes_of_string "tpcc/c/".
Definition SS_CUST_NAME := bytes_of_string "tpcc/cn/".
Definition SS_HISTORY := bytes_of_string "tpcc/h/".
Definition SS_ITEM := bytes_of_string "tpcc/i/".
Definition SS_STOCK := bytes_of_string "tpcc/s/".
Definition SS_OORDER := bytes_of_string "tpcc/o/".
Definition SS_OORDER_CID := bytes_of_string "tpcc/oc/".
Definition SS_NEW_ORDER := bytes_of_string "tpcc/no/".
Definition SS_ORDER_LINE := bytes_of_string "tpcc/ol/".
Definition SS_NEXT_O_ID := bytes_of_string "tpcc/nid/".

(** ** Integer encodings *)

Definition kv_encode_u32_be (buf : list Z) (off : nat) (val : Z) : outcome (list Z) :=
  poke buf off
    [Z.land (Z.shiftr val 24) 0xFF; Z.land (Z.shiftr val 16) 0xFF;
     Z.land (Z.shiftr val 8) 0xFF; Z.land val 0xFF].

Definition kv_decode_u32_be (buf : list Z) : outcome Z :=
  bs ← peek buf 0 4;
  match bs with
  | [b0; b1; b2; b3] =>
      Ok (Z.lor (Z.lor (Z.lor (u32 (Z.shiftl b0 24)) (u32 (Z.shiftl b1 16)))
            (u32 (Z.shiftl b2 8))) b3)
  | _ => Ub OutOfBounds
  end.

(** [int64_t val = next_o_id]: the sign-extended value, shifted arithmetically. *)
Definition kv_encode_next_o_id (buf : list Z) (next_o_id : Z) : outcome (list Z) :=
  let val := next_o_id in
  poke buf 0
    [Z.land (Z.shiftr val 56) 0xFF; Z.land (Z.shiftr val 48) 0xFF;
     Z.land (Z.shiftr val 40) 0xFF; Z.land (Z.shiftr val 32) 0xFF;
     Z.land (Z.shiftr val 24) 0xFF; Z.land (Z.shiftr val 16) 0xFF;
     Z.land (Z.shiftr val 8) 0xFF; Z.land val 0xFF].

(** [(int64_t)buf[0] << 56] is the two's complement result (the compiler the
    build uses defines it so), and the final cast keeps the low 32 bits. *)
Definition kv_decode_next_o_id (buf : list Z) (len : Z) : outcome Z :=
  if len <? 8 then Ok 0
  else
    bs ← peek buf 0 8;
    match bs with
    | [b0; b1; b2; b3; b4; b5; b6; b7] =>
        Ok (i32 (Z.lor (i64 (Z.shiftl b0 56)) (Z.lor (Z.shiftl b1 48)
          (Z.lor (Z.shiftl b2 40) (Z.lor (Z.shiftl b3 32) (Z.lor (Z.shiftl b4 24)
          (Z.lor (Z.shiftl b5 16) (Z.lor (Z.shiftl b6 8) b7))))))))
    | _ => Ub OutOfBounds
    end.

(** ** Key builders *)

Definition append_prefix (buf prefix : list Z) : outcome (list Z * nat) :=
  let len := length prefix in
  buf ← poke buf 0 prefix;
  mret (buf, len).

Definition kv_warehouse_key (buf : list Z) (w_id : Z) : outcome (list Z * nat) :=
  '(buf, off) ← append_prefix buf SS_WAREHOUSE;
  buf ← kv_encode_u32_be buf off w_id;
  mret (buf, (off + 4)%nat).

Definition kv_district_key (buf : list Z) (w_id d_id : Z) : outcome (list Z * nat) :=
  '(buf, off) ← append_prefix buf SS_DISTRICT;
  buf ← kv_encode_u32_be buf off w_id;
  let off := (off + 4)%nat in
  buf ← kv_encode_u32_be buf off d_id;
  mret (buf, (off + 4)%nat).

Definition kv_customer_key (buf : list Z) (w_id d_id c_id : Z) : outcome (list Z * nat) :=
  '(buf, off) ← append_prefix buf SS_CUSTOMER;
  buf ← kv_encode_u32_be buf off w_id;
  let off := (off + 4)%nat in
  buf ← kv_encode_u32_be buf off d_id;
  let off := (off + 4)%nat in
  buf ← kv_encode_u32_be buf off c_id;
  mret (buf, (off + 4)%nat).

(** [c_last] and [c_first] are the memory the two pointers point to: [strlen]
    finds where each string ends. *)
Definition kv_customer_name_key (buf : list Z) (w_id d_id : Z)
    (c_last c_first : list Z) (c_id : Z) : outcome (list Z * nat) :=
  '(buf, off) ← append_prefix buf SS_CUST_NAME;
  buf ← kv_encode_u32_be buf off w_id;
  let off := (off + 4)%nat in
  buf ← kv_encode_u32_be buf off d_id;
  let off := (off + 4)%nat in
  slen ← strlen c_last;
  buf ← poke buf off (take slen c_last);
  let off := (off + slen)%nat in
  buf ← poke buf off [0];
  let off := (off + 1)%nat in
  slen ← strlen c_first;
  buf ← poke buf off (take slen c_first);
  let off := (off + slen)%nat in
  buf ← poke buf off [0];
  let off := (off + 1)%nat in
  buf ← kv_encode_u32_be buf off c_id;
  mret (buf, (off + 4)%nat).

Definition kv_item_key (buf : list Z) (i_id : Z) : outcome (list Z * nat) :=
  '(buf, off) ← append_prefix buf SS_ITEM;
  buf ← kv_encode_u32_be buf off i_id;
  mret (buf, (off + 4)%nat).

Definition kv_stock_key (buf : list Z) (w_id i_id : Z) : outcome (list Z * nat) :=
  '(buf, off) ← append_prefix buf SS_STOCK;
  buf ← kv_encode_u32_be buf off w_id;
  let off := (off + 4)%nat in
  buf ← kv_encode_u32_be buf off i_id;
  mret (buf, (off + 4)%nat).

Definition kv_oorder_key (buf : list Z) (w_id d_id o_id : Z) : outcome (list Z * nat) :=
  '(buf, off) ← append_prefix buf SS_OORDER;
  buf ← kv_encode_u32_be buf off w_id;
  let off := (off + 4)%nat in
  buf ← kv_encode_u32_be buf off d_id;
  let off := (off + 4)%nat in
  buf ← kv_encode_u32_be buf off o_id;
  mret (buf, (off + 4)%nat).

Definition kv_new_order_key (buf : list Z) (w_id d_id o_id : Z) : outcome (list Z * nat) :=
  '(buf, off) ← append_prefix buf SS_NEW_ORDER;
  buf ← kv_encode_u32_be buf off w_id;
  let off := (off + 4)%nat in
  buf ← kv_encode_u32_be buf off d_id;
  let off := (off + 4)%nat in
  buf ← kv_encode_u32_be buf off o_id;
  mret (buf, (off + 4)%nat).

Definition kv_order_line_key (buf : list Z) (w_id d_id o_id ol_number : Z)
    : outcome (list Z * nat) :=
  '(buf, off) ← append_prefix buf SS_ORDER_LINE;
  buf ← kv_encode_u32_be buf off w_id;
  let off := (off + 4)%nat in
  buf ← kv_encode_u32_be buf off d_id;
  let off := (off + 4)%nat in
  buf ← kv_encode_u32_be buf off o_id;
  let off := (off + 4)%nat in
  buf ← kv_encode_u32_be buf off ol_number;
  mret (buf, (off + 4)%nat).

Definition kv_next_o_id_key (buf : list Z) (w_id d_id : Z) : outcome (list Z * nat) :=
  '(buf, off) ← append_prefix buf SS_NEXT_O_ID;
  buf ← kv_encode_u32_be buf off w_id;
  let off := (off + 4)%nat in
  buf ← kv_encode_u32_be buf off d_id;
  mret (buf, (off + 4)%nat).

(** ** Range builders *)

Definition kv_stock_range_begin (buf : list Z) (w_id : Z) : outcome (list Z * nat) :=
  '(buf, off) ← append_prefix buf SS_STOCK;
  buf ← kv_encode_u32_be buf off w_id;
  let off := (off + 4)%nat in
  buf ← kv_encode_u32_be buf off 0;
  mret (buf, (off + 4)%nat).

Definition kv_stock_range_end (buf : list Z) (w_id : Z) : outcome (list Z * nat) :=
  '(buf, off) ← append_prefix buf SS_STOCK;
  buf ← kv_encode_u32_be buf off w_id;
  let off := (off + 4)%nat in
  buf ← kv_encode_u32_be buf off 0xFFFFFFFF;
  mret (buf, (off + 4)%nat).

Definition kv_new_order_range_begin (buf : list Z) (w_id d_id : Z)
    : outcome (list Z * nat) :=
  '(buf, off) ← append_prefix buf SS_NEW_ORDER;
  buf ← kv_encode_u32_be buf off w_id;
  let off := (off + 4)%nat in
  buf ← kv_encode_u32_be buf off d_id;
  let off := (off + 4)%nat in
  buf ← kv_encode_u32_be buf off 0;
  mret (buf, (off + 4)%nat).

Definition kv_new_order_range_end (buf : list Z) (w_id d_id : Z)
    : outcome (list Z * nat) :=
  '(buf, off) ← append_prefix buf SS_NEW_ORDER;
  buf ← kv_encode_u32_be buf off w_id;
  let off := (off + 4)%nat in
  buf ← kv_encode_u32_be buf off d_id;
  let off := (off + 4)%nat in
  buf ← kv_encode_u32_be buf off 0xFFFFFFFF;
  mret (buf, (off + 4)%nat).

Definition kv_order_line_range_begin (buf : list Z) (w_id d_id o_id : Z)
    : outcome (list Z * nat) :=
  '(buf, off) ← append_prefix buf SS_ORDER_LINE;
  buf ← kv_encode_u32_be buf off w_id;
  let off := (off + 4)%nat in
  buf ← kv_encode_u32_be buf off d_id;
  let off := (off + 4)%nat in
  buf ← kv_encode_u32_be buf off o_id;
  let off := (off + 4)%nat in
  buf ← kv_encode_u32_be buf off 0;
  mret (buf, (off + 4)%nat).

Definition kv_order_line_range_end (buf : list Z) (w_id d_id o_id : Z)
    : outcome (list Z * nat) :=
  '(buf, off) ← append_prefix buf SS_ORDER_LINE;
  buf ← kv_encode_u32_be buf off w_id;
  let off := (off + 4)%nat in
  buf ← kv_encode_u32_be buf off d_id;
  let off := (off + 4)%nat in
  buf ← kv_encode_u32_be buf off o_id;
  let off := (off + 4)%nat in
  buf ← kv_encode_u32_be buf off 0xFFFFFFFF;
  mret (buf, (off + 4)%nat).

(** ** The rows of the keyspace and the key each one promises *)

Inductive row : Type :=
  | RWarehouse (w : Z)
  | RDistrict (w d : Z)
  | RCustomer (w d c : Z)
  | RCustName (w d : Z) (c_last c_first : list Z) (c : Z)
  | RHistory (w c_w c_d c t : Z)
  | RItem (i : Z)
  | RStock (w i : Z)
  | ROorder (w d o : Z)
  | RNewOrder (w d o : Z)
  | ROrderLine (w d o n : Z)
  | RNextOId (w d : Z)
  | RWorld (id : Z).

Inductive table : Type :=
  | TWarehouse | TDistrict | TCustomer | TCustName | THistory | TItem | TStock
  | TOorder | TNewOrder | TOrderLine | TNextOId | TWorld.

#[export] Instance table_eq_dec : EqDecision table.
Proof. solve_decision. Defined.
#[export] Instance row_eq_dec : EqDecision row.
Proof. solve_decision. Defined.

Definition row_table (r : row) : table :=
  match r with
  | RWarehouse _ => TWarehouse | RDistrict _ _ => TDistrict
  | RCustomer _ _ _ => TCustomer | RCustName _ _ _ _ _ => TCustName
  | RHistory _ _ _ _ _ => THistory | RItem _ => TItem | RStock _ _ => TStock
  | ROorder _ _ _ => TOorder | RNewOrder _ _ _ => TNewOrder
  | ROrderLine _ _ _ _ => TOrderLine | RNextOId _ _ => TNextOId
  | RWorld _ => TWorld
  end.

(** [TFB_WORLD_PREFIX] of tfb_handlers.h. *)
Definition TFB_WORLD_PREFIX := bytes_of_string "tfb/w/".

Definition table_prefix (t : table) : list Z :=
  match t with
  | TWarehouse => SS_WAREHOUSE | TDistrict => SS_DISTRICT | TCustomer => SS_CUSTOMER
  | TCustName => SS_CUST_NAME | THistory => SS_HISTORY | TItem => SS_ITEM
  | TStock => SS_STOCK | TOorder => SS_OORDER | TNewOrder => SS_NEW_ORDER
  | TOrderLine => SS_ORDER_LINE | TNextOId => SS_NEXT_O_ID
  | TWorld => TFB_WORLD_PREFIX
  end.

(** The integer components of a row's key, in key order. *)
Definition row_comps (r : row) : list Z :=
  match r with
  | RWarehouse w => [w] | RDistrict w d => [w; d] | RCustomer w d c => [w; d; c]
  | RCustName w d _ _ c => [w; d; c]
  | RHistory w c_w c_d c t => [w; c_w; c_d; c; t]
  | RItem i => [i] | RStock w i => [w; i] | ROorder w d o => [w; d; o]
  | RNewOrder w d o => [w; d; o] | ROrderLine w d o n => [w; d; o; n]
  | RNextOId w d => [w; d] | RWorld id => [id]
  end.

(** A 32-bit value, most significant byte first. *)
Definition be32 (x : Z) : list Z :=
  [x / 2 ^ 24 mod 256; x / 2 ^ 16 mod 256; x / 2 ^ 8 mod 256; x mod 256].

(** [htonl] and [ntohl] on a little-endian host swap the four bytes. *)
Definition htonl (x : Z) : Z := le_val (rev (le_bytes 4 x)).
Definition ntohl (x : Z) : Z := le_val (rev (le_bytes 4 x)).

(** [memcpy] of a [uint32_t]. *)
Definition u32_bytes (x : Z) : list Z := le_bytes 4 x.

Definition be32s (xs : list Z) : list Z := concat (be32 <$> xs).

Definition row_tail (r : row) : list Z :=
  match r with
  | RCustName w d c_last c_first c =>
      be32s [w; d] ++ c_last ++ 0 :: c_first ++ 0 :: be32s [c]
  | _ => be32s (row_comps r)
  end.

Definition enc_key (r : row) : list Z := table_prefix (row_table r) ++ row_tail r.

(** Components are 32-bit and names are C strings. *)
Definition row_ok (r : row) : Prop :=
  Forall (in_u 32) (row_comps r) ∧
  match r with
  | RCustName _ _ c_last c_first _ => c_string c_last ∧ c_string c_first
  | _ => True
  end.

(** The builder of tpcc_kv.c for a row; history and World keys have none there. *)
Definition kv_key (buf : list Z) (r : row) : option (outcome (list Z * nat)) :=
  match r with
  | RWarehouse w => Some (kv_warehouse_key buf w)
  | RDistrict w d => Some (kv_district_key buf w d)
  | RCustomer w d c => Some (kv_customer_key buf w d c)
  | RCustName w d c_last c_first c =>
      Some (kv_customer_name_key buf w d (c_last ++ [0]) (c_first ++ [0]) c)
  | RItem i => Some (kv_item_key buf i)
  | RStock w i => Some (kv_stock_key buf w i)
  | ROorder w d o => Some (kv_oorder_key buf w d o)
  | RNewOrder w d o => Some (kv_new_order_key buf w d o)
  | ROrderLine w d o n => Some (kv_order_line_key buf w d o n)
  | RNextOId w d => Some (kv_next_o_id_key buf w d)
  | RHistory _ _ _ _ _ | RWorld _ => None
  end.

(** What a builder leaves: the key at the front of the buffer and its length,
    or the overflow when the buffer is shorter than the key. *)
Definition built (buf key : list Z) : outcome (list Z * nat) :=
  if (length key <=? length buf)%nat
  then Ok (key ++ drop (length key) buf, length key) else Ub OutOfBounds.

(** [uint8_t key[n]] on the stack.  Its contents are indeterminate; the builders
    never read the buffer, so zeros stand for them. *)
Definition stack_buf (n : nat) : list Z := replicate n 0.

(** The bytes a caller passes on: the first [klen] of the buffer. *)
Definition key_bytes (built_key : outcome (list Z * nat)) : outcome (list Z) :=
  '(buf, klen) ← built_key; mret (take klen buf).

(** ** Lemmas: bytes *)

Lemma be32_kv x :
  [Z.land (Z.shiftr x 24) 0xFF; Z.land (Z.shiftr x 16) 0xFF;
   Z.land (Z.shiftr x 8) 0xFF; Z.land x 0xFF] = be32 x.
Proof.
  unfold be32. change 0xFF with (Z.ones 8).
  rewrite !Z.land_ones, !Z.shiftr_div_pow2 by lia. done.
Qed.

Lemma kv_encode_u32_be_eq buf off x : kv_encode_u32_be buf off x = poke buf off (be32 x).
Proof. unfold kv_encode_u32_be. by rewrite be32_kv. Qed.

Lemma be32_bytes_ok x : bytes_ok (be32 x).
Proof. repeat constructor; apply Z.mod_pos_bound; lia. Qed.

Lemma rev_le_bytes_be32 x : rev (le_bytes 4 x) = be32 x.
Proof.
  unfold be32; cbn [le_bytes rev app]. rewrite !Z.div_div by lia. reflexivity.
Qed.

Lemma htonl_bytes x : u32_bytes (htonl x) = be32 x.
Proof.
  unfold u32_bytes, htonl. rewrite rev_le_bytes_be32.
  apply (le_bytes_le_val (be32 x)), be32_bytes_ok.
Qed.

Lemma be32_val x : in_u 32 x → be_val (be32 x) = x.
Proof.
  unfold in_u. intros Hx. unfold be32. cbn [be_val length].
  change (256 ^ Z.of_nat 3) with (2 ^ 24). change (256 ^ Z.of_nat 2) with (2 ^ 16).
  change (256 ^ Z.of_nat 1) with (2 ^ 8). change (256 ^ Z.of_nat 0) with 1.
  Z.to_euclidean_division_equations. lia.
Qed.

Lemma be32_inj x y : in_u 32 x → in_u 32 y → be32 x = be32 y → x = y.
Proof.
  intros Hx Hy E. rewrite <- (be32_val x), <- (be32_val y) by done. by rewrite E.
Qed.

Lemma be32s_cons x xs : be32s (x :: xs) = be32 x ++ be32s xs.
Proof. done. Qed.

Lemma be32s_length xs : length (be32s xs) = (4 * length xs)%nat.
Proof. induction xs; [done|]. rewrite be32s_cons, length_app, IHxs. simpl. lia. Qed.

Lemma be32s_inj xs ys :
  Forall (in_u 32) xs → Forall (in_u 32) ys → be32s xs = be32s ys → xs = ys.
Proof.
  intros Hx. revert ys. induction Hx as [|x xs Hx _ IH]; intros ys Hy;
    destruct Hy as [|y ys Hy Hys]; try done.
  rewrite !be32s_cons. intros [E1 E2]%app_inj_1; [|done].
  f_equal; [by apply be32_inj|by apply IH].
Qed.

(** Encoded tuples of one arity compare as the tuples do. *)
Lemma be32s_lex_lt xs ys :
  Forall (in_u 32) xs → Forall (in_u 32) ys → length xs = length ys →
  lex_lt (be32s xs) (be32s ys) = lex_lt xs ys.
Proof.
  intros Hx. revert ys. induction Hx as [|x xs Hx _ IH]; intros ys Hy Hl;
    destruct Hy as [|y ys Hy Hys]; try done.
  injection Hl as Hl. rewrite !be32s_cons, lex_lt_app_same by done. cbn [lex_lt].
  rewrite IH, lex_lt_be_val, !be32_val by (done || apply be32_bytes_ok).
  f_equal. f_equal. destruct (Z.eqb_spec x y); [by subst; rewrite bool_decide_eq_true_2|].
  apply bool_decide_eq_false_2. intros E. by apply be32_inj in E.
Qed.

(** No table's prefix begins a key of another table. *)
Lemma table_prefix_free t1 t2 x y :
  table_prefix t1 ++ x = table_prefix t2 ++ y → t1 = t2 ∧ x = y.
Proof.
  intros H. destruct t1, t2; cbn in H; try discriminate H; by simplify_eq.
Qed.

(** ** Lemmas: builders *)

Lemma append_prefix_eq buf p :
  append_prefix buf p =
    if (length p <=? length buf)%nat
    then Ok (p ++ drop (length p) buf, length p) else Ub OutOfBounds.
Proof.
  unfold append_prefix. change buf with ([] ++ drop (length (@nil Z)) buf) at 1.
  change 0%nat with (length (@nil Z)) at 1.
  rewrite poke_pre by (simpl; lia). simpl. by destruct (_ <=? _)%nat.
Qed.

(** One component more: the bytes built grow by its encoding. *)
Lemma kv_encode_pre pre x buf :
  (length pre <= length buf)%nat →
  kv_encode_u32_be (pre ++ drop (length pre) buf) (length pre) x =
    if (length (pre ++ be32 x) <=? length buf)%nat
    then Ok ((pre ++ be32 x) ++ drop (length (pre ++ be32 x)) buf) else Ub OutOfBounds.
Proof. rewrite kv_encode_u32_be_eq. apply poke_pre. Qed.

Lemma built_enough buf key :
  (length key <= length buf)%nat →
  built buf key = Ok (key ++ drop (length key) buf, length key).
Proof. intros. unfold built. by destruct (Nat.leb_spec (length key) (length buf)); [|lia]. Qed.

Lemma built_short buf key : (length buf < length key)%nat → built buf key = Ub OutOfBounds.
Proof. intros. unfold built. by destruct (Nat.leb_spec (length key) (length buf)); [lia|]. Qed.

(** One write of a builder that has built [pre] so far. *)
Lemma poke_at pre n bs buf :
  n = length pre → (n <= length buf)%nat →
  poke (pre ++ drop n buf) n bs =
    if (n + length bs <=? length buf)%nat
    then Ok ((pre ++ bs) ++ drop (n + length bs) buf) else Ub OutOfBounds.
Proof. intros -> Hp. rewrite poke_pre by done. by rewrite length_app. Qed.

Lemma kv_encode_at pre n x buf :
  n = length pre → (n <= length buf)%nat →
  kv_encode_u32_be (pre ++ drop n buf) n x =
    if (n + 4 <=? length buf)%nat
    then Ok ((pre ++ be32 x) ++ drop (n + 4) buf) else Ub OutOfBounds.
Proof. rewrite kv_encode_u32_be_eq. apply poke_at. Qed.

Lemma built_eq buf key pre n :
  pre = key → n = length key → (n <= length buf)%nat →
  Ok (pre ++ drop n buf, n) = built buf key.
Proof. intros -> -> ?. by rewrite built_enough. Qed.

(** Run a builder: each write either fits, or the key does not. *)
Ltac ss_length :=
  change (length SS_WAREHOUSE) with 7%nat in *; change (length SS_DISTRICT) with 7%nat in *;
  change (length SS_CUSTOMER) with 7%nat in *; change (length SS_CUST_NAME) with 8%nat in *;
  change (length SS_ITEM) with 7%nat in *; change (length SS_STOCK) with 7%nat in *;
  change (length SS_OORDER) with 7%nat in *; change (length SS_NEW_ORDER) with 8%nat in *;
  change (length SS_ORDER_LINE) with 8%nat in *; change (length SS_NEXT_O_ID) with 9%nat in *.
Ltac kv_side := rewrite ?length_app, ?take_app_length; simpl;
  repeat (rewrite ?length_app, ?be32s_length; simpl); ss_length; lia.
Ltac kv_short :=
  simpl; symmetry; apply built_short; unfold enc_key; kv_side.
Ltac kv_run :=
  rewrite append_prefix_eq; ss_length;
  match goal with |- context [(?a <=? ?b)%nat] =>
    destruct (Nat.leb_spec a b); [|kv_short] end;
  cbn [mbind outcome_bind];
  repeat (
    first [rewrite kv_encode_at by kv_side | rewrite strlen_c_string by done; cbn [mbind outcome_bind]; rewrite ?take_app_length
          | rewrite poke_at by kv_side; change (length [0]) with 1%nat];
    try (match goal with |- context [(?a <=? ?b)%nat] =>
      destruct (Nat.leb_spec a b); [|kv_short] end);
    cbn [mbind outcome_bind]).

Lemma kv_key_built buf r out :
  row_ok r → kv_key buf r = Some out → out = built buf (enc_key r).
Proof.
  intros [_ Hn] H. destruct r; cbn [kv_key] in H; try discriminate H; injection H as <-;
  unfold kv_warehouse_key, kv_district_key, kv_customer_key, kv_customer_name_key,
    kv_item_key, kv_stock_key, kv_oorder_key, kv_new_order_key, kv_order_line_key,
    kv_next_o_id_key.
  4: destruct Hn as [Hl Hf].
  all: kv_run.
  all: apply built_eq; [|kv_side|kv_side].
  all: unfold enc_key; cbn; rewrite <- ?app_assoc; reflexivity.
Qed.

(** ** What the callers read back *)

Lemma key_bytes_built buf key :
  (length key <= length buf)%nat → key_bytes (built buf key) = Ok key.
Proof. intros. unfold key_bytes. rewrite built_enough by done. simpl. by rewrite take_app_length. Qed.

Lemma enc_key_length r :
  length (enc_key r) =
    (length (table_prefix (row_table r)) + 4 * length (row_comps r) +
     match r with RCustName _ _ l f _ => length l + length f + 2 | _ => 0 end)%nat.
Proof.
  unfold enc_key. rewrite length_app.
  destruct r; cbn [row_table row_tail row_comps]; rewrite ?length_app; simpl; try lia.
  rewrite !length_app. simpl. rewrite ?length_app. simpl. lia.
Qed.

(** Every key without names fits the 64-byte buffers of the handlers. *)
Lemma key_bytes_kv_key n r out :
  row_ok r → (length (enc_key r) <= n)%nat → kv_key (stack_buf n) r = Some out →
  key_bytes out = Ok (enc_key r).
Proof.
  intros Hr Hn Hk. rewrite (kv_key_built _ _ _ Hr Hk).
  apply key_bytes_built. unfold stack_buf. by rewrite length_replicate.
Qed.

(** The handlers' key computations, as rewrites. *)
Section handler_keys.
Local Ltac one_key r :=
  intros; apply (key_bytes_kv_key 64 r);
  [split; [cbn [row_comps]; forall_list|exact I] | simpl; lia | reflexivity].

Lemma warehouse_key_bytes w :
  in_u 32 w → key_bytes (kv_warehouse_key (stack_buf 64) w) = Ok (enc_key (RWarehouse w)).
Proof. one_key (RWarehouse w). Qed.
Lemma district_key_bytes w d :
  in_u 32 w → in_u 32 d →
  key_bytes (kv_district_key (stack_buf 64) w d) = Ok (enc_key (RDistrict w d)).
Proof. one_key (RDistrict w d). Qed.
Lemma customer_key_bytes w d c :
  in_u 32 w → in_u 32 d → in_u 32 c →
  key_bytes (kv_customer_key (stack_buf 64) w d c) = Ok (enc_key (RCustomer w d c)).
Proof. one_key (RCustomer w d c). Qed.
Lemma item_key_bytes i :
  in_u 32 i → key_bytes (kv_item_key (stack_buf 64) i) = Ok (enc_key (RItem i)).
Proof. one_key (RItem i). Qed.
Lemma stock_key_bytes w i :
  in_u 32 w → in_u 32 i →
  key_bytes (kv_stock_key (stack_buf 64) w i) = Ok (enc_key (RStock w i)).
Proof. one_key (RStock w i). Qed.
Lemma oorder_key_bytes w d o :
  in_u 32 w → in_u 32 d → in_u 32 o →
  key_bytes (kv_oorder_key (stack_buf 64) w d o) = Ok (enc_key (ROorder w d o)).
Proof. one_key (ROorder w d o). Qed.
Lemma new_order_key_bytes w d o :
  in_u 32 w → in_u 32 d → in_u 32 o →
  key_bytes (kv_new_order_key (stack_buf 64) w d o) = Ok (enc_key (RNewOrder w d o)).
Proof. one_key (RNewOrder w d o). Qed.
Lemma order_line_key_bytes w d o n :
  in_u 32 w → in_u 32 d → in_u 32 o → in_u 32 n →
  key_bytes (kv_order_line_key (stack_buf 64) w d o n) = Ok (enc_key (ROrderLine w d o n)).
Proof. one_key (ROrderLine w d o n). Qed.
Lemma next_o_id_key_bytes w d :
  in_u 32 w → in_u 32 d →
  key_bytes (kv_next_o_id_key (stack_buf 64) w d) = Ok (enc_key (RNextOId w d)).
Proof. one_key (RNextOId w d). Qed.
End handler_keys.

(** ** Lemmas: the encoding *)

Lemma row_tail_inj r1 r2 :
  row_table r1 = row_table r2 → row_ok r1 → row_ok r2 → row_tail r1 = row_tail r2 → r1 = r2.
Proof.
  intros Ht [H1 N1] [H2 N2] E.
  assert (row_comps r1 = row_comps r2 ∧
    match r1, r2 with
    | RCustName _ _ l f _, RCustName _ _ l' f' _ => l = l' ∧ f = f'
    | _, _ => True end) as [Hc Hn].
  { destruct r1, r2; try discriminate Ht; cbn [row_tail] in E;
      try (split; [by apply be32s_inj|exact I]).
    apply app_inj_1 in E as [Ewd E]; [|done].
    destruct N1, N2. apply c_string_split in E as [-> E]; try done.
    apply c_string_split in E as [-> E]; try done.
    cbn [row_comps] in *.
    repeat match goal with H : Forall _ (_ :: _) |- _ => inversion_clear H end.
    apply be32s_inj in Ewd; [|by forall_list..].
    apply be32s_inj in E; [|by forall_list..]. by simplify_eq/=. }
  destruct r1, r2; try discriminate Ht; cbn [row_comps] in Hc; naive_solver.
Qed.

Lemma enc_key_inj r1 r2 : row_ok r1 → row_ok r2 → enc_key r1 = enc_key r2 → r1 = r2.
Proof.
  intros H1 H2 E. apply table_prefix_free in E as [Ht E]. by apply row_tail_inj.
Qed.

(** Distinct rows have distinct keys, in the form lookups use. *)
Lemma enc_key_ne r1 r2 : row_ok r1 → row_ok r2 → r1 ≠ r2 → enc_key r1 ≠ enc_key r2.
Proof. intros ??? ?. by apply H1, enc_key_inj. Qed.

(** ** Lemmas: ranges *)

Lemma row_tail_comps r : row_table r ≠ TCustName → row_tail r = be32s (row_comps r).
Proof. by destruct r. Qed.

Lemma be32s_snoc xs x : be32s (xs ++ [x]) = be32s xs ++ be32s [x].
Proof. unfold be32s. by rewrite fmap_app, concat_app. Qed.

(** The rows of a range: those of one table whose leading components are [p]. *)
Lemma in_range_row t p lo hi r :
  row_ok r → Forall (in_u 32) p → in_u 32 lo → in_u 32 hi → t ≠ TCustName →
  (∀ r', row_table r' = t → length (row_comps r') = S (length p)) →
  in_range (enc_key r) (table_prefix t ++ be32s (p ++ [lo]))
    (table_prefix t ++ be32s (p ++ [hi])) = true ↔
  row_table r = t ∧ ∃ x, row_comps r = p ++ [x] ∧ lo <= x < hi.
Proof.
  intros [Hr Hn] Hp Hlo Hhi Ht Har.
  assert (∀ x, in_u 32 x → in_range (be32s [x]) (be32s [lo]) (be32s [hi]) = true ↔
    lo <= x < hi) as Hcmp.
  { intros x Hx. unfold in_range. rewrite !be32s_lex_lt by (done || forall_list).
    simpl. rewrite !andb_false_r, !orb_false_r, andb_true_iff, negb_true_iff.
    rewrite Z.ltb_ge, Z.ltb_lt. done. }
  rewrite !be32s_snoc, !app_assoc. split.
  - intros H. destruct (in_range_prefix _ _ _ _ H) as [z Hz].
    pose proof Hz as Hz'. unfold enc_key in Hz'. rewrite <- app_assoc in Hz'.
    apply table_prefix_free in Hz' as [Hrt Hz']. split; [done|].
    rewrite row_tail_comps in Hz' by congruence. pose proof (Har r Hrt) as Hlen.
    destruct (exists_last (l := row_comps r)) as (q & x & Hq);
      [intros E; by rewrite E in Hlen|].
    rewrite Hq in *. rewrite length_app in Hlen. simpl in Hlen.
    rewrite be32s_snoc in Hz'. rewrite Hz, in_range_app in H.
    apply Forall_app in Hr as [Hq' Hx]. inversion_clear Hx.
    apply app_inj_1 in Hz' as [E1 E2]; [|rewrite !be32s_length; lia].
    apply be32s_inj in E1; [|done..]. subst q.
    exists x. split; [done|]. apply Hcmp; [done|]. by rewrite <- H, <- E2.
  - intros [Hrt (x & Hx & Hb)].
    unfold enc_key. rewrite row_tail_comps, Hx, be32s_snoc, Hrt, app_assoc, in_range_app
      by congruence.
    rewrite Hx in Hr. apply Forall_app in Hr as [_ Hr]. inversion_clear Hr.
    by apply Hcmp.
Qed.

(** The range builders build the keys of the two extreme rows. *)
Section range_keys.
Implicit Types buf : list Z.
Lemma stock_range_begin_eq buf w : kv_stock_range_begin buf w = kv_stock_key buf w 0.
Proof. reflexivity. Qed.
Lemma stock_range_end_eq buf w : kv_stock_range_end buf w = kv_stock_key buf w 0xFFFFFFFF.
Proof. reflexivity. Qed.
Lemma new_order_range_begin_eq buf w d :
  kv_new_order_range_begin buf w d = kv_new_order_key buf w d 0.
Proof. reflexivity. Qed.
Lemma new_order_range_end_eq buf w d :
  kv_new_order_range_end buf w d = kv_new_order_key buf w d 0xFFFFFFFF.
Proof. reflexivity. Qed.
Lemma order_line_range_begin_eq buf w d o :
  kv_order_line_range_begin buf w d o = kv_order_line_key buf w d o 0.
Proof. reflexivity. Qed.
Lemma order_line_range_end_eq buf w d o :
  kv_order_line_range_end buf w d o = kv_order_line_key buf w d o 0xFFFFFFFF.
Proof. reflexivity. Qed.
End range_keys.

(** ** Lemmas: decoding *)

(** The byte at bit [k], put back at bit [k]. *)
Lemma byte_at_testbit x k i :
  0 <= k → 0 <= i →
  Z.testbit (Z.shiftl (Z.land (Z.shiftr x k) 0xFF) k) i =
    (k <=? i) && (i <? k + 8) && Z.testbit x i.
Proof.
  intros Hk Hi. rewrite Z.shiftl_spec, Z.land_spec by done.
  destruct (Z.leb_spec k i); simpl.
  - rewrite Z.shiftr_spec by lia. replace (i - k + k) with i by lia.
    change 0xFF with (Z.ones 8). rewrite Z.testbit_ones by lia.
    rewrite (proj2 (Z.leb_le 0 (i - k))) by lia. simpl. rewrite andb_comm. f_equal.
    destruct (Z.ltb_spec (i - k) 8), (Z.ltb_spec i (k + 8)); lia.
  - by rewrite (Z.testbit_neg_r (Z.shiftr x k)) by lia.
Qed.

Lemma u32_byte_at x k :
  0 <= k <= 24 →
  u32 (Z.shiftl (Z.land (Z.shiftr x k) 0xFF) k) = Z.shiftl (Z.land (Z.shiftr x k) 0xFF) k.
Proof.
  intros Hk. apply wrap_u_id. unfold in_u. change 0xFF with (Z.ones 8).
  rewrite Z.land_ones, Z.shiftl_mul_pow2 by lia.
  pose proof (Z.mod_pos_bound (Z.shiftr x k) (2 ^ 8) ltac:(lia)).
  assert (2 ^ k <= 2 ^ 24) by (apply Z.pow_le_mono_r; lia).
  assert (0 < 2 ^ k) by lia. change (2 ^ 32) with (2 ^ 8 * 2 ^ 24). nia.
Qed.

Lemma wrap_s_testbit w x i : 0 <= i < w → Z.testbit (wrap_s w x) i = Z.testbit x i.
Proof.
  intros Hi. rewrite <- (Z.mod_pow2_bits_low (wrap_s w x) w i) by lia.
  rewrite <- (Z.mod_pow2_bits_low x w i) by lia. f_equal. unfold wrap_s.
  rewrite Zminus_mod_idemp_l. f_equal. lia.
Qed.

Ltac kv_bits i :=
  rewrite ?Z.lor_spec, ?byte_at_testbit by lia;
  repeat match goal with
  | |- context [?a <=? i] =>
      first [rewrite (proj2 (Z.leb_le a i)) by lia | rewrite (proj2 (Z.leb_gt a i)) by lia]
  | |- context [i <? ?b] =>
      first [rewrite (proj2 (Z.ltb_lt i b)) by lia | rewrite (proj2 (Z.ltb_ge i b)) by lia]
  end; cbn [andb orb]; rewrite ?orb_false_r; reflexivity.

Lemma kv_lor4 x :
  Z.lor (Z.lor (Z.lor (Z.shiftl (Z.land (Z.shiftr x 24) 0xFF) 24)
    (Z.shiftl (Z.land (Z.shiftr x 16) 0xFF) 16))
    (Z.shiftl (Z.land (Z.shiftr x 8) 0xFF) 8)) (Z.land x 0xFF) = x mod 2 ^ 32.
Proof.
  apply Z.bits_inj'. intros i Hi.
  replace (Z.land x 0xFF) with (Z.shiftl (Z.land (Z.shiftr x 0) 0xFF) 0)
    by (by rewrite Z.shiftl_0_r, Z.shiftr_0_r).
  destruct (Z.lt_ge_cases i 32).
  - rewrite Z.mod_pow2_bits_low by lia.
    assert (i < 8 ∨ 8 <= i < 16 ∨ 16 <= i < 24 ∨ 24 <= i) as Hc by lia.
    destruct Hc as [?|[?|[?|?]]]; kv_bits i.
  - rewrite Z.mod_pow2_bits_high by lia. kv_bits i.
Qed.

Lemma kv_decode_encode_u32 buf off x buf' :
  in_u 32 x → kv_encode_u32_be buf off x = Ok buf' →
  kv_decode_u32_be (drop off buf') = Ok x.
Proof.
  intros Hx He. unfold kv_encode_u32_be, poke in He.
  destruct (_ <=? _)%nat eqn:E; [|discriminate]. injection He as <-.
  apply Nat.leb_le in E. simpl in E. unfold kv_decode_u32_be, peek.
  rewrite drop_app_length' by (rewrite length_take; lia). simpl.
  rewrite !u32_byte_at by lia. by rewrite kv_lor4, Z.mod_small.
Qed.

Lemma kv_lor8_low v i :
  0 <= i < 32 →
  Z.testbit (Z.lor (i64 (Z.shiftl (Z.land (Z.shiftr v 56) 0xFF) 56))
    (Z.lor (Z.shiftl (Z.land (Z.shiftr v 48) 0xFF) 48)
    (Z.lor (Z.shiftl (Z.land (Z.shiftr v 40) 0xFF) 40)
    (Z.lor (Z.shiftl (Z.land (Z.shiftr v 32) 0xFF) 32)
    (Z.lor (Z.shiftl (Z.land (Z.shiftr v 24) 0xFF) 24)
    (Z.lor (Z.shiftl (Z.land (Z.shiftr v 16) 0xFF) 16)
    (Z.lor (Z.shiftl (Z.land (Z.shiftr v 8) 0xFF) 8)
      (Z.land v 0xFF)))))))) i = Z.testbit v i.
Proof.
  intros Hi.
  replace (Z.land v 0xFF) with (Z.shiftl (Z.land (Z.shiftr v 0) 0xFF) 0)
    by (by rewrite Z.shiftl_0_r, Z.shiftr_0_r).
  rewrite Z.lor_spec, wrap_s_testbit by lia.
  assert (i < 8 ∨ 8 <= i < 16 ∨ 16 <= i < 24 ∨ 24 <= i) as Hc by lia.
  destruct Hc as [?|[?|[?|?]]]; kv_bits i.
Qed.

Lemma kv_next_o_id_roundtrip buf v buf' :
  in_s 32 v → kv_encode_next_o_id buf v = Ok buf' → kv_decode_next_o_id buf' 8 = Ok v.
Proof.
  intros Hv He. unfold kv_encode_next_o_id, poke in He. cbv zeta in He.
  destruct (_ <=? _)%nat eqn:E; [|discriminate]. injection He as <-.
  apply Nat.leb_le in E. simpl in E.
  unfold kv_decode_next_o_id, peek. simpl.
  f_equal. rewrite <- (wrap_s_id 32 v) at 9 by (lia || done).
  rewrite <- (wrap_s_u 32), <- (wrap_s_u 32 v) by lia. f_equal. unfold wrap_u.
  apply Z.bits_inj'. intros i Hi. destruct (Z.lt_ge_cases i 32).
  - rewrite !Z.mod_pow2_bits_low by lia. apply kv_lor8_low. lia.
  - by rewrite !Z.mod_pow2_bits_high by lia.
Qed.

(** ** Properties *)

(** C19: every key builder of tpcc_kv.c builds exactly the key of its row, with its
    length, in every buffer that can hold it, and writes past the buffer in every
    shorter one. *)
Theorem kv_builders_build_row_keys (buf : list Z) (r : row) (out : outcome (list Z * nat)) :
  row_ok r → kv_key buf r = Some out →
  out = if (length (enc_key r) <=? length buf)%nat
        then Ok (enc_key r ++ drop (length (enc_key r)) buf, length (enc_key r))
        else Ub OutOfBounds.
Proof. intros Hr Hk. by rewrite (kv_key_built _ _ _ Hr Hk). Qed.

(** C25: the three range builders delimit exactly the rows they are for: a key of any
    table lies in [begin, end) iff it is a stock row of the warehouse, a new-order
    row of the district or an order line of the order, with its last component
    below 2^32 - 1 (the end key itself is excluded). *)
Theorem kv_ranges_select_their_rows (w d o : Z) (r : row)
    (sb se nb ne lb le : list Z) :
  in_u 32 w → in_u 32 d → in_u 32 o → row_ok r →
  key_bytes (kv_stock_range_begin (stack_buf 64) w) = Ok sb →
  key_bytes (kv_stock_range_end (stack_buf 64) w) = Ok se →
  key_bytes (kv_new_order_range_begin (stack_buf 64) w d) = Ok nb →
  key_bytes (kv_new_order_range_end (stack_buf 64) w d) = Ok ne →
  key_bytes (kv_order_line_range_begin (stack_buf 64) w d o) = Ok lb →
  key_bytes (kv_order_line_range_end (stack_buf 64) w d o) = Ok le →
  (in_range (enc_key r) sb se = true ↔ ∃ i, r = RStock w i ∧ i < 0xFFFFFFFF) ∧
  (in_range (enc_key r) nb ne = true ↔ ∃ x, r = RNewOrder w d x ∧ x < 0xFFFFFFFF) ∧
  (in_range (enc_key r) lb le = true ↔ ∃ x, r = ROrderLine w d o x ∧ x < 0xFFFFFFFF).
Proof.
  intros Hw Hd Ho Hr Esb Ese Enb Ene Elb Ele.
  rewrite stock_range_begin_eq in Esb. rewrite stock_range_end_eq in Ese.
  rewrite new_order_range_begin_eq in Enb. rewrite new_order_range_end_eq in Ene.
  rewrite order_line_range_begin_eq in Elb. rewrite order_line_range_end_eq in Ele.
  assert (in_u 32 0 ∧ in_u 32 0xFFFFFFFF) as [H0 Hm] by range.
  rewrite stock_key_bytes in Esb, Ese by done.
  rewrite new_order_key_bytes in Enb, Ene by done.
  rewrite order_line_key_bytes in Elb, Ele by done.
  simplify_eq.
  assert (Forall (in_u 32) (row_comps r)) as Hc by apply Hr.
  split; [|split].
  - etransitivity; [apply (in_range_row TStock [w] 0 0xFFFFFFFF r);
      (done || forall_list || by intros [])|].
    split; [intros [Ht (x & Hx & Hb)]|intros (x & -> & Hb)].
    + destruct r; try discriminate Ht. exists i. split; [|]; simplify_eq/=; [done|lia].
    + split; [done|]. exists x. inversion_clear Hc as [|?? _ Hc'].
      inversion_clear Hc'. split; [done|range].
  - etransitivity; [apply (in_range_row TNewOrder [w; d] 0 0xFFFFFFFF r);
      (done || forall_list || by intros [])|].
    split; [intros [Ht (x & Hx & Hb)]|intros (x & -> & Hb)].
    + destruct r; try discriminate Ht. exists o0. split; [|]; simplify_eq/=; [done|lia].
    + split; [done|]. exists x. cbn [row_comps] in Hc.
      rewrite !Forall_cons_iff in Hc. split; [done|range].
  - etransitivity; [apply (in_range_row TOrderLine [w; d; o] 0 0xFFFFFFFF r);
      (done || forall_list || by intros [])|].
    split; [intros [Ht (x & Hx & Hb)]|intros (x & -> & Hb)].
    + destruct r; try discriminate Ht. exists n. split; [|]; simplify_eq/=; [done|lia].
    + split; [done|]. exists x. cbn [row_comps] in Hc.
      rewrite !Forall_cons_iff in Hc. split; [done|range].
Qed.

(** the integer codecs round-trip: a 32-bit value written at any offset is read
    back, an order id of any sign is read back from its 8 bytes, and a counter
    value shorter than 8 bytes reads as 0. *)
Theorem kv_integers_round_trip (buf buf' nbuf' : list Z) (off : nat) (x v len : Z) :
  in_u 32 x → in_s 32 v →
  kv_encode_u32_be buf off x = Ok buf' → kv_encode_next_o_id buf v = Ok nbuf' →
  kv_decode_u32_be (drop off buf') = Ok x ∧
  kv_decode_next_o_id nbuf' 8 = Ok v ∧
  (len < 8 → kv_decode_next_o_id nbuf' len = Ok 0).
Proof.
  intros Hx Hv E1 E2. split; [|split].
  - by apply kv_decode_encode_u32 in E1.
  - by apply kv_next_o_id_roundtrip in E2.
  - intros Hl. unfold kv_decode_next_o_id. by rewrite (proj2 (Z.ltb_lt len 8)).
Qed.

(** ** Witnesses: the properties at concrete rows *)

Lemma kv_builders_build_row_keys_witness :
  kv_customer_name_key (stack_buf 64) 1 2 (bytes_of_string "BAR" ++ [0])
      (bytes_of_string "A" ++ [0]) 7 =
    Ok (enc_key (RCustName 1 2 (bytes_of_string "BAR") (bytes_of_string "A") 7) ++
        replicate 38 0, 26%nat) ∧
  kv_customer_key (stack_buf 16) 1 2 3 = Ub OutOfBounds.
Proof.
  split.
  - rewrite (kv_builders_build_row_keys (stack_buf 64)
      (RCustName 1 2 (bytes_of_string "BAR") (bytes_of_string "A") 7) _);
      [vm_compute; reflexivity | | reflexivity].
    split; [cbn [row_comps]; forall_list|split; vm_compute; forall_list].
  - rewrite (kv_builders_build_row_keys (stack_buf 16) (RCustomer 1 2 3) _);
      [vm_compute; reflexivity | | reflexivity].
    split; [cbn [row_comps]; forall_list|exact I].
Defined.

Lemma kv_ranges_select_their_rows_witness :
  in_range (enc_key (RStock 1 100000)) (enc_key (RStock 1 0)) (enc_key (RStock 1 0xFFFFFFFF))
    = true.
Proof.
  destruct (kv_ranges_select_their_rows 1 2 3 (RStock 1 100000)
    (enc_key (RStock 1 0)) (enc_key (RStock 1 0xFFFFFFFF))
    (enc_key (RNewOrder 1 2 0)) (enc_key (RNewOrder 1 2 0xFFFFFFFF))
    (enc_key (ROrderLine 1 2 3 0)) (enc_key (ROrderLine 1 2 3 0xFFFFFFFF)))
    as [[_ H] _];
    [range|range|range| |vm_compute; reflexivity..|].
  - split; [cbn [row_comps]; forall_list|exact I].
  - apply H. exists 100000. split; [reflexivity|lia].
Defined.

Lemma kv_integers_round_trip_witness :
  kv_decode_u32_be (drop 2 [9; 9; 0; 0; 1; 2; 0; 0]) = Ok 258 ∧
  kv_decode_next_o_id [255; 255; 255; 255; 255; 255; 255; 254] 8 = Ok (-2).
Proof.
  pose proof (kv_integers_round_trip [9; 9; 9; 9; 9; 9; 0; 0]
    [9; 9; 0; 0; 1; 2; 0; 0] [255; 255; 255; 255; 255; 255; 255; 254] 2 258 (-2) 0)
    as H.
  destruct H as (H1 & H2 & _); [range|range|reflexivity|reflexivity|].
  split; [exact H1|exact H2].
Defined.
