(* ===== verification/Values.v ===== *)
(** * Packed row values: the structs of src/tpcc_kv.h

    Rows are [#pragma pack(push, 1)] structs stored and read back by casting the
    value bytes.  A struct is a record; its memory image is given by a layout
    (integers little-endian, as on the x86-64 target of the Dockerfile, and
    character arrays), shared by all eight structs through the class [Packed].
    [pack] is the bytes [(const uint8_t * )&v] points to, [load_struct] is the cast
    of a value pointer and the reads through it; the round trip is stated struct by
    struct, with the bytes written out. *)

From S2P Require Import Prelude.

(** ** Layouts *)

Inductive fld : Type :=
  | FInt (bytes : nat) (signed : bool)
  | FChars (n : nat).

Inductive fval : Type :=
  | VInt (x : Z)
  | VChars (bs : list Z).

Definition fld_size (f : fld) : nat :=
  match f with FInt n _ => n | FChars n => n end.

Definition layout_size (l : list fld) : nat := sum_list (fld_size <$> l).

Definition enc_fval (f : fld) (v : fval) : list Z :=
  match f, v with
  | FInt n _, VInt x => le_bytes n x
  | FChars _, VChars bs => bs
  | _, _ => []
  end.

Definition dec_fval (f : fld) (bs : list Z) : fval :=
  match f with
  | FInt n true => VInt (wrap_s (8 * Z.of_nat n) (le_val bs))
  | FInt n false => VInt (le_val bs)
  | FChars _ => VChars bs
  end.

(** The values of a field's C type. *)
Definition fval_ok (f : fld) (v : fval) : Prop :=
  match f, v with
  | FInt n true, VInt x => (1 <= n)%nat ∧ in_s (8 * Z.of_nat n) x
  | FInt n false, VInt x => in_u (8 * Z.of_nat n) x
  | FChars n, VChars bs => length bs = n
  | _, _ => False
  end.

Fixpoint enc_fvals (l : list fld) (vs : list fval) : list Z :=
  match l, vs with
  | f :: l, v :: vs => enc_fval f v ++ enc_fvals l vs
  | _, _ => []
  end.

Fixpoint dec_fvals (l : list fld) (bs : list Z) : list fval :=
  match l with
  | [] => []
  | f :: l => dec_fval f (take (fld_size f) bs) :: dec_fvals l (drop (fld_size f) bs)
  end.

(** ** Packed structs *)

Class Packed (A : Type) := {
  layout : list fld;
  to_fvals : A → list fval;
  of_fvals : list fval → option A;
}.
Arguments layout A {_}.

(** What an implementation promises the programs that store the struct. *)
Class PackedOk (A : Type) `{Packed A} : Prop := {
  of_to_fvals : ∀ a : A, of_fvals (to_fvals a) = Some a;
  of_dec_fvals : ∀ bs, ∃ a : A,
    of_fvals (dec_fvals (layout A) bs) = Some a ∧ to_fvals a = dec_fvals (layout A) bs;
}.

Definition sizeof (A : Type) `{Packed A} : nat := layout_size (layout A).

(** Every field holds a value of its type. *)
Definition struct_ok {A} `{Packed A} (a : A) : Prop :=
  Forall2 fval_ok (layout A) (to_fvals a).

Definition pack {A} `{Packed A} (a : A) : list Z := enc_fvals (layout A) (to_fvals a).

(** [(const A * )val] and the reads of all its fields: beyond the end of a value that
    is too short they are out of bounds. *)
Definition load_struct (A : Type) `{Packed A} (bs : list Z) : outcome A :=
  if (length bs <? sizeof A)%nat then Ub OutOfBounds
  else from_option_or OutOfBounds (of_fvals (dec_fvals (layout A) bs)).

(** ** The structs *)

Record warehouse_val_t : Type := mk_warehouse_val {
  w_name : list Z; w_street_1 : list Z; w_street_2 : list Z; w_city : list Z;
  w_state : list Z; w_zip : list Z; w_tax : Z; w_ytd : Z;
}.

Record district_val_t : Type := mk_district_val {
  d_name : list Z; d_street_1 : list Z; d_street_2 : list Z; d_city : list Z;
  d_state : list Z; d_zip : list Z; d_tax : Z; d_ytd : Z; d_next_o_id : Z;
}.

Record customer_val_t : Type := mk_customer_val {
  c_first : list Z; c_middle : list Z; c_last : list Z; c_street_1 : list Z;
  c_street_2 : list Z; c_city : list Z; c_state : list Z; c_zip : list Z;
  c_phone : list Z; c_since : Z; c_credit : list Z; c_credit_lim : Z;
  c_discount : Z; c_balance : Z; c_ytd_payment : Z; c_payment_cnt : Z;
  c_delivery_cnt : Z; c_data : list Z;
}.

Record history_val_t : Type := mk_history_val {
  h_date : Z; h_amount : Z; h_data : list Z;
}.

Record item_val_t : Type := mk_item_val {
  i_name : list Z; i_price : Z; i_data : list Z; i_im_id : Z;
}.

(** [s_dist[10][24]] is one array of 240 characters. *)
Record stock_val_t : Type := mk_stock_val {
  s_quantity : Z; s_dist : list Z; s_ytd : Z; s_order_cnt : Z; s_remote_cnt : Z;
  s_data : list Z;
}.

Record oorder_val_t : Type := mk_oorder_val {
  o_c_id : Z; o_carrier_id : Z; o_ol_cnt : Z; o_all_local : Z; o_entry_d : Z;
}.

Record order_line_val_t : Type := mk_order_line_val {
  ol_i_id : Z; ol_supply_w_id : Z; ol_delivery_d : Z; ol_quantity : Z; ol_amount : Z;
  ol_dist_info : list Z;
}.

#[export] Instance warehouse_packed : Packed warehouse_val_t := {
  layout := [FChars 10; FChars 20; FChars 20; FChars 20; FChars 2; FChars 9;
             FInt 4 true; FInt 8 true];
  to_fvals v := [VChars (w_name v); VChars (w_street_1 v); VChars (w_street_2 v);
    VChars (w_city v); VChars (w_state v); VChars (w_zip v); VInt (w_tax v);
    VInt (w_ytd v)];
  of_fvals vs := match vs with
    | [VChars a; VChars b; VChars c; VChars d; VChars e; VChars f; VInt g; VInt h] =>
        Some (mk_warehouse_val a b c d e f g h)
    | _ => None end;
}.

#[export] Instance district_packed : Packed district_val_t := {
  layout := [FChars 10; FChars 20; FChars 20; FChars 20; FChars 2; FChars 9;
             FInt 4 true; FInt 8 true; FInt 4 true];
  to_fvals v := [VChars (d_name v); VChars (d_street_1 v); VChars (d_street_2 v);
    VChars (d_city v); VChars (d_state v); VChars (d_zip v); VInt (d_tax v);
    VInt (d_ytd v); VInt (d_next_o_id v)];
  of_fvals vs := match vs with
    | [VChars a; VChars b; VChars c; VChars d; VChars e; VChars f; VInt g; VInt h;
       VInt i] => Some (mk_district_val a b c d e f g h i)
    | _ => None end;
}.

#[export] Instance customer_packed : Packed customer_val_t := {
  layout := [FChars 16; FChars 2; FChars 16; FChars 20; FChars 20; FChars 20; FChars 2;
             FChars 9; FChars 16; FInt 8 true; FChars 2; FInt 8 true; FInt 4 true;
             FInt 8 true; FInt 8 true; FInt 2 true; FInt 2 true; FChars 500];
  to_fvals v := [VChars (c_first v); VChars (c_middle v); VChars (c_last v);
    VChars (c_street_1 v); VChars (c_street_2 v); VChars (c_city v); VChars (c_state v);
    VChars (c_zip v); VChars (c_phone v); VInt (c_since v); VChars (c_credit v);
    VInt (c_credit_lim v); VInt (c_discount v); VInt (c_balance v);
    VInt (c_ytd_payment v); VInt (c_payment_cnt v); VInt (c_delivery_cnt v);
    VChars (c_data v)];
  of_fvals vs := match vs with
    | [VChars a; VChars b; VChars c; VChars d; VChars e; VChars f; VChars g; VChars h;
       VChars i; VInt j; VChars k; VInt l; VInt m; VInt n; VInt o; VInt p; VInt q;
       VChars r] => Some (mk_customer_val a b c d e f g h i j k l m n o p q r)
    | _ => None end;
}.

#[export] Instance history_packed : Packed history_val_t := {
  layout := [FInt 8 true; FInt 4 true; FChars 24];
  to_fvals v := [VInt (h_date v); VInt (h_amount v); VChars (h_data v)];
  of_fvals vs := match vs with
    | [VInt a; VInt b; VChars c] => Some (mk_history_val a b c)
    | _ => None end;
}.

#[export] Instance item_packed : Packed item_val_t := {
  layout := [FChars 24; FInt 4 true; FChars 50; FInt 4 true];
  to_fvals v := [VChars (i_name v); VInt (i_price v); VChars (i_data v); VInt (i_im_id v)];
  of_fvals vs := match vs with
    | [VChars a; VInt b; VChars c; VInt d] => Some (mk_item_val a b c d)
    | _ => None end;
}.

#[export] Instance stock_packed : Packed stock_val_t := {
  layout := [FInt 4 true; FChars 240; FInt 4 true; FInt 4 true; FInt 4 true; FChars 50];
  to_fvals v := [VInt (s_quantity v); VChars (s_dist v); VInt (s_ytd v);
    VInt (s_order_cnt v); VInt (s_remote_cnt v); VChars (s_data v)];
  of_fvals vs := match vs with
    | [VInt a; VChars b; VInt c; VInt d; VInt e; VChars f] =>
        Some (mk_stock_val a b c d e f)
    | _ => None end;
}.

#[export] Instance oorder_packed : Packed oorder_val_t := {
  layout := [FInt 4 false; FInt 4 true; FInt 2 true; FInt 2 true; FInt 8 true];
  to_fvals v := [VInt (o_c_id v); VInt (o_carrier_id v); VInt (o_ol_cnt v);
    VInt (o_all_local v); VInt (o_entry_d v)];
  of_fvals vs := match vs with
    | [VInt a; VInt b; VInt c; VInt d; VInt e] => Some (mk_oorder_val a b c d e)
    | _ => None end;
}.

#[export] Instance order_line_packed : Packed order_line_val_t := {
  layout := [FInt 4 false; FInt 4 false; FInt 8 true; FInt 2 true; FInt 4 true; FChars 24];
  to_fvals v := [VInt (ol_i_id v); VInt (ol_supply_w_id v); VInt (ol_delivery_d v);
    VInt (ol_quantity v); VInt (ol_amount v); VChars (ol_dist_info v)];
  of_fvals vs := match vs with
    | [VInt a; VInt b; VInt c; VInt d; VInt e; VChars f] =>
        Some (mk_order_line_val a b c d e f)
    | _ => None end;
}.

#[export] Instance warehouse_packed_ok : PackedOk warehouse_val_t.
Proof. split; [by intros []|]. intros bs. eexists. split; reflexivity. Qed.
#[export] Instance district_packed_ok : PackedOk district_val_t.
Proof. split; [by intros []|]. intros bs. eexists. split; reflexivity. Qed.
#[export] Instance customer_packed_ok : PackedOk customer_val_t.
Proof. split; [by intros []|]. intros bs. eexists. split; reflexivity. Qed.
#[export] Instance history_packed_ok : PackedOk history_val_t.
Proof. split; [by intros []|]. intros bs. eexists. split; reflexivity. Qed.
#[export] Instance item_packed_ok : PackedOk item_val_t.
Proof. split; [by intros []|]. intros bs. eexists. split; reflexivity. Qed.
#[export] Instance stock_packed_ok : PackedOk stock_val_t.
Proof. split; [by intros []|]. intros bs. eexists. split; reflexivity. Qed.
#[export] Instance oorder_packed_ok : PackedOk oorder_val_t.
Proof. split; [by intros []|]. intros bs. eexists. split; reflexivity. Qed.
#[export] Instance order_line_packed_ok : PackedOk order_line_val_t.
Proof. split; [by intros []|]. intros bs. eexists. split; reflexivity. Qed.

(** [memset(&v, 0, sizeof(v))]. *)
Definition zero_chars (n : nat) : list Z := replicate n 0.

Definition warehouse_zero : warehouse_val_t :=
  mk_warehouse_val (zero_chars 10) (zero_chars 20) (zero_chars 20) (zero_chars 20)
    (zero_chars 2) (zero_chars 9) 0 0.
Definition district_zero : district_val_t :=
  mk_district_val (zero_chars 10) (zero_chars 20) (zero_chars 20) (zero_chars 20)
    (zero_chars 2) (zero_chars 9) 0 0 0.
Definition customer_zero : customer_val_t :=
  mk_customer_val (zero_chars 16) (zero_chars 2) (zero_chars 16) (zero_chars 20)
    (zero_chars 20) (zero_chars 20) (zero_chars 2) (zero_chars 9) (zero_chars 16) 0
    (zero_chars 2) 0 0 0 0 0 0 (zero_chars 500).
Definition item_zero : item_val_t := mk_item_val (zero_chars 24) 0 (zero_chars 50) 0.
Definition stock_zero : stock_val_t :=
  mk_stock_val 0 (zero_chars 240) 0 0 0 (zero_chars 50).

(** ** Lemmas *)

Lemma enc_fval_length f v : fval_ok f v → length (enc_fval f v) = fld_size f.
Proof.
  destruct f as [n []|n], v; simpl; try done; intros; by rewrite ?le_bytes_length.
Qed.

Lemma dec_enc_fval f v : fval_ok f v → dec_fval f (enc_fval f v) = v.
Proof.
  assert (∀ n : nat, 256 ^ Z.of_nat n = 2 ^ (8 * Z.of_nat n)) as Hpow.
  { intros n. rewrite Z.pow_mul_r by lia. done. }
  destruct f as [n []|n], v; simpl; try done.
  - intros [Hn Hx]. rewrite le_val_bytes, Hpow. fold (wrap_u (8 * Z.of_nat n) x).
    by rewrite wrap_s_u, wrap_s_id by (lia || done).
  - intros Hx. rewrite le_val_bytes, Hpow. f_equal. by apply Z.mod_small.
Qed.

Lemma enc_fvals_length l vs :
  Forall2 fval_ok l vs → length (enc_fvals l vs) = layout_size l.
Proof.
  induction 1 as [|f v l vs Hf _ IH]; [done|]. cbn [enc_fvals]. unfold layout_size in *.
  cbn [fmap list_fmap sum_list]. rewrite length_app, IH, enc_fval_length by done. done.
Qed.

Lemma dec_enc_fvals l vs rest :
  Forall2 fval_ok l vs → dec_fvals l (enc_fvals l vs ++ rest) = vs.
Proof.
  induction 1 as [|f v l vs Hf _ IH]; [done|]. cbn [enc_fvals dec_fvals].
  rewrite <- app_assoc, take_app_length', drop_app_length' by
    (by rewrite enc_fval_length).
  by rewrite IH, dec_enc_fval.
Qed.

Section packed.
Context {A : Type} `{PackedOk A}.

Lemma pack_length (a : A) : struct_ok a → length (pack a) = sizeof A.
Proof. apply enc_fvals_length. Qed.

(** A stored struct is read back, whatever follows it. *)
Lemma load_pack (a : A) rest : struct_ok a → load_struct A (pack a ++ rest) = Ok a.
Proof.
  intros Ha. unfold load_struct. rewrite length_app, pack_length by done.
  destruct (Nat.ltb_spec (sizeof A + length rest) (sizeof A)); [lia|].
  unfold pack. by rewrite dec_enc_fvals, of_to_fvals.
Qed.

(** A value long enough is always read, whatever its bytes. *)
Lemma load_struct_enough bs :
  (sizeof A <= length bs)%nat →
  ∃ a, load_struct A bs = Ok a ∧ to_fvals a = dec_fvals (layout A) bs.
Proof.
  intros Hl. unfold load_struct. destruct (Nat.ltb_spec (length bs) (sizeof A)); [lia|].
  destruct (of_dec_fvals (A := A) bs) as (a & -> & Ha). by exists a.
Qed.

Lemma load_pack_exact (a : A) : struct_ok a → load_struct A (pack a) = Ok a.
Proof. intros. rewrite <- (app_nil_r (pack a)). by apply load_pack. Qed.

Lemma pack_inj (a b : A) : struct_ok a → struct_ok b → pack a = pack b → a = b.
Proof.
  intros Ha Hb E. apply (f_equal (load_struct A)) in E.
  rewrite !load_pack_exact in E by done. congruence.
Qed.
End packed.

Lemma zero_chars_length n : length (zero_chars n) = n.
Proof. apply length_replicate. Qed.

(** [struct_ok] of a record literal, field by field. *)
Ltac struct_fields :=
  unfold struct_ok; cbn -[fval_ok zero_chars];
  repeat (apply Forall2_cons_2 || apply Forall2_nil_2); cbn [fval_ok];
  change (8 * Z.of_nat 2) with 16; change (8 * Z.of_nat 4) with 32;
  change (8 * Z.of_nat 8) with 64;
  try solve [ apply zero_chars_length | assumption
            | split; [lia|]; (assumption || range)
            | range ].

(** The bytes of a [n]-byte integer, the least significant one first, in two's complement. *)
Definition little (n : nat) (x : Z) : list Z :=
  (λ k : nat, x / 256 ^ Z.of_nat k mod 256) <$> seq 0 n.

Lemma le_bytes_little n x : le_bytes n x = little n x.
Proof.
  unfold little. revert x. induction n as [|n IH]; intros x; [done|].
  cbn [le_bytes seq fmap list_fmap]. f_equal; [by rewrite Z.div_1_r|].
  rewrite IH, <- (fmap_S_seq 0 n), <- list_fmap_compose. apply list_fmap_ext.
  intros _ k _. cbn. rewrite Z.div_div, <- Z.pow_succ_r by lia.
  by rewrite Nat2Z.inj_succ.
Qed.

(** The goals of one struct: its bytes, their number and the round trip. *)
Ltac struct_round_trip :=
  let v := fresh "v" in let Hv := fresh "Hv" in
  intros v Hv; destruct_and! Hv;
  match goal with |- _ ∧ _ ∧ load_struct ?T (pack v ++ ?rest) = _ =>
    let Hok := fresh "Hok" in
    assert (struct_ok v) as Hok by struct_fields;
    split; [unfold pack; cbn -[le_bytes app little];
            rewrite <- ?le_bytes_little, ?app_nil_r; reflexivity|];
    split; [by rewrite pack_length|by apply load_pack]
  end.

(** ** Properties *)

(** C34: the memory image of the eight row structs and their way back.  A struct whose
    character arrays have the lengths of tpcc_kv.h and whose integers are in range is laid
    out field after field without padding, integers least significant byte first, and
    reading the fields of such a value through a pointer cast gives the struct back,
    whatever follows it. *)
Theorem packed_structs_round_trip (rest : list Z) :
  (∀ v : warehouse_val_t,
    length (w_name v) = 10%nat ∧ length (w_street_1 v) = 20%nat ∧
    length (w_street_2 v) = 20%nat ∧ length (w_city v) = 20%nat ∧ length (w_state v) = 2%nat ∧
    length (w_zip v) = 9%nat ∧ in_s 32 (w_tax v) ∧ in_s 64 (w_ytd v) →
    pack v =
      w_name v ++ w_street_1 v ++ w_street_2 v ++ w_city v ++ w_state v ++ w_zip v ++
      little 4 (w_tax v) ++ little 8 (w_ytd v) ∧
    length (pack v) = 93%nat ∧ load_struct warehouse_val_t (pack v ++ rest) = Ok v) ∧
  (∀ v : district_val_t,
    length (d_name v) = 10%nat ∧ length (d_street_1 v) = 20%nat ∧
    length (d_street_2 v) = 20%nat ∧ length (d_city v) = 20%nat ∧ length (d_state v) = 2%nat ∧
    length (d_zip v) = 9%nat ∧ in_s 32 (d_tax v) ∧ in_s 64 (d_ytd v) ∧ in_s 32 (d_next_o_id v) →
    pack v =
      d_name v ++ d_street_1 v ++ d_street_2 v ++ d_city v ++ d_state v ++ d_zip v ++
      little 4 (d_tax v) ++ little 8 (d_ytd v) ++ little 4 (d_next_o_id v) ∧
    length (pack v) = 97%nat ∧ load_struct district_val_t (pack v ++ rest) = Ok v) ∧
  (∀ v : customer_val_t,
    length (c_first v) = 16%nat ∧ length (c_middle v) = 2%nat ∧ length (c_last v) = 16%nat ∧
    length (c_street_1 v) = 20%nat ∧ length (c_street_2 v) = 20%nat ∧
    length (c_city v) = 20%nat ∧ length (c_state v) = 2%nat ∧ length (c_zip v) = 9%nat ∧
    length (c_phone v) = 16%nat ∧ in_s 64 (c_since v) ∧ length (c_credit v) = 2%nat ∧
    in_s 64 (c_credit_lim v) ∧ in_s 32 (c_discount v) ∧ in_s 64 (c_balance v) ∧
    in_s 64 (c_ytd_payment v) ∧ in_s 16 (c_payment_cnt v) ∧ in_s 16 (c_delivery_cnt v) ∧
    length (c_data v) = 500%nat →
    pack v =
      c_first v ++ c_middle v ++ c_last v ++ c_street_1 v ++ c_street_2 v ++ c_city v ++
      c_state v ++ c_zip v ++ c_phone v ++ little 8 (c_since v) ++ c_credit v ++
      little 8 (c_credit_lim v) ++ little 4 (c_discount v) ++ little 8 (c_balance v) ++
      little 8 (c_ytd_payment v) ++ little 2 (c_payment_cnt v) ++
      little 2 (c_delivery_cnt v) ++ c_data v ∧
    length (pack v) = 663%nat ∧ load_struct customer_val_t (pack v ++ rest) = Ok v) ∧
  (∀ v : history_val_t,
    in_s 64 (h_date v) ∧ in_s 32 (h_amount v) ∧ length (h_data v) = 24%nat →
    pack v =
      little 8 (h_date v) ++ little 4 (h_amount v) ++ h_data v ∧
    length (pack v) = 36%nat ∧ load_struct history_val_t (pack v ++ rest) = Ok v) ∧
  (∀ v : item_val_t,
    length (i_name v) = 24%nat ∧ in_s 32 (i_price v) ∧ length (i_data v) = 50%nat ∧
    in_s 32 (i_im_id v) →
    pack v =
      i_name v ++ little 4 (i_price v) ++ i_data v ++ little 4 (i_im_id v) ∧
    length (pack v) = 82%nat ∧ load_struct item_val_t (pack v ++ rest) = Ok v) ∧
  (∀ v : stock_val_t,
    in_s 32 (s_quantity v) ∧ length (s_dist v) = 240%nat ∧ in_s 32 (s_ytd v) ∧
    in_s 32 (s_order_cnt v) ∧ in_s 32 (s_remote_cnt v) ∧ length (s_data v) = 50%nat →
    pack v =
      little 4 (s_quantity v) ++ s_dist v ++ little 4 (s_ytd v) ++ little 4 (s_order_cnt v) ++
      little 4 (s_remote_cnt v) ++ s_data v ∧
    length (pack v) = 306%nat ∧ load_struct stock_val_t (pack v ++ rest) = Ok v) ∧
  (∀ v : oorder_val_t,
    in_u 32 (o_c_id v) ∧ in_s 32 (o_carrier_id v) ∧ in_s 16 (o_ol_cnt v) ∧
    in_s 16 (o_all_local v) ∧ in_s 64 (o_entry_d v) →
    pack v =
      little 4 (o_c_id v) ++ little 4 (o_carrier_id v) ++ little 2 (o_ol_cnt v) ++
      little 2 (o_all_local v) ++ little 8 (o_entry_d v) ∧
    length (pack v) = 20%nat ∧ load_struct oorder_val_t (pack v ++ rest) = Ok v) ∧
  (∀ v : order_line_val_t,
    in_u 32 (ol_i_id v) ∧ in_u 32 (ol_supply_w_id v) ∧ in_s 64 (ol_delivery_d v) ∧
    in_s 16 (ol_quantity v) ∧ in_s 32 (ol_amount v) ∧ length (ol_dist_info v) = 24%nat →
    pack v =
      little 4 (ol_i_id v) ++ little 4 (ol_supply_w_id v) ++ little 8 (ol_delivery_d v) ++
      little 2 (ol_quantity v) ++ little 4 (ol_amount v) ++ ol_dist_info v ∧
    length (pack v) = 46%nat ∧ load_struct order_line_val_t (pack v ++ rest) = Ok v).
Proof.
  split_and!; struct_round_trip.
Qed.

(** the packed sizes (rfd/0010 gives 109 bytes for a warehouse row, the struct has
    93) and the byte order: integers are stored least significant byte first, not in
    the network byte order tpcc_kv.h and rfd/0010 announce. *)
Theorem packed_sizes_and_byte_order :
  sizeof warehouse_val_t = 93%nat ∧ sizeof district_val_t = 97%nat ∧
  sizeof customer_val_t = 663%nat ∧ sizeof history_val_t = 36%nat ∧
  sizeof item_val_t = 82%nat ∧ sizeof stock_val_t = 306%nat ∧
  sizeof oorder_val_t = 20%nat ∧ sizeof order_line_val_t = 46%nat ∧
  (∀ q, take 4 (pack (mk_stock_val q (zero_chars 240) 0 0 0 (zero_chars 50))) =
    [q mod 256; q / 256 mod 256; q / 256 / 256 mod 256; q / 256 / 256 / 256 mod 256]).
Proof. repeat split. Qed.

Lemma packed_structs_round_trip_witness :
  load_struct oorder_val_t (pack (mk_oorder_val 17 (-1) 10 1 1700000000) ++ [9; 9]) =
    Ok (mk_oorder_val 17 (-1) 10 1 1700000000).
Proof.
  destruct (packed_structs_round_trip [9; 9]) as (_ & _ & _ & _ & _ & _ & Ho & _).
  destruct (Ho (mk_oorder_val 17 (-1) 10 1 1700000000)) as (_ & _ & H1).
  - cbn. split_and!; range.
  - exact H1.
Defined.
