(* ===== verification/Random.v ===== *)
(** * Random draws and customer names: src/utility.c, src/handlers/tpcc_procedures.c,
      and the [gen_c_last] of src/handlers/tpcc_payment.c and src/tpcc_loader.c

    [rand_r] belongs to the C library: it is the class [RandR], a function from
    the seed to the value and the next seed, and [RandROk] is its documented
    contract (a non-negative [int]).  Everything else is the program's. *)

From S2P Require Import Prelude.

(** ** The C library's generator *)

Class RandR := rand_r : Z → Z * Z.

Class RandROk `{RandR} : Prop := rand_r_ok : ∀ seed, in_u 32 seed →
  0 <= (rand_r seed).1 < 2 ^ 31 ∧ in_u 32 (rand_r seed).2.

(** The generator POSIX gives as an example, a concrete instance for witnesses. *)
Definition rand_r_posix : RandR := λ seed,
  let next := u32 (seed * 1103515245 + 12345) in (next / 65536 mod 32768, next).

Lemma rand_r_posix_ok : @RandROk rand_r_posix.
Proof.
  intros seed _. unfold rand_r, rand_r_posix; simpl. split.
  - pose proof (Z.mod_pos_bound
      (u32 (seed * 1103515245 + 12345) / 65536) 32768 ltac:(lia)). lia.
  - apply wrap_u_range. lia.
Qed.

(** ** Constants of tpcc_procedures.h *)

Definition NEW_ORDER_WEIGHT : Z := 45.
Definition PAYMENT_WEIGHT : Z := 43.
Definition ORDER_STATUS_WEIGHT : Z := 4.
Definition DELIVERY_WEIGHT : Z := 4.
Definition STOCK_LEVEL_WEIGHT : Z := 4.
Definition NURAND_C_LAST_A : Z := 255.
Definition NURAND_C_ID_A : Z := 1023.
Definition NURAND_OL_I_ID_A : Z := 8191.
Definition DISTRICTS_PER_WAREHOUSE : Z := 10.
Definition CUSTOMERS_PER_DISTRICT : Z := 3000.
Definition ITEM_COUNT : Z := 100000.

Section draws.
Context `{RandR}.

(** [(uint32_t)rand_r(seed) % n]: the draw and the next seed. *)
Definition rand_mod (n seed : Z) : outcome (Z * Z) :=
  let '(r, seed) := rand_r seed in
  if n =? 0 then Ub DivByZero else Ok (u32 r mod n, seed).

(** [return (uint32_t)rand_r(seed) % max + 1;] *)
Definition get_random_number (max seed : Z) : outcome (Z * Z) :=
  '(r, seed) ← rand_mod max seed;
  mret (u32 (r + 1), seed).

Definition nurand (A x y seed C : Z) : outcome (Z * Z) :=
  '(r1, seed) ← rand_mod (u32 (A + 1)) seed;
  '(r2, seed) ← rand_mod (u32 (y - x + 1)) seed;
  let r2 := u32 (x + r2) in
  mret (u32 (u32 (Z.lor r1 r2 + C) mod u32 (y - x + 1) + x), seed).

(** [nurand_item] and [nurand_customer] of tpcc_new_order.c. *)
Definition nurand_item (seed : Z) : outcome (Z * Z) :=
  '(C, seed) ← rand_mod (NURAND_OL_I_ID_A + 1) seed;
  nurand NURAND_OL_I_ID_A 1 ITEM_COUNT seed C.

Definition nurand_customer (seed : Z) : outcome (Z * Z) :=
  '(C, seed) ← rand_mod (NURAND_C_ID_A + 1) seed;
  nurand NURAND_C_ID_A 1 CUSTOMERS_PER_DISTRICT seed C.
End draws.

(** ** Customer last names *)

Definition syllables : list (list Z) :=
  bytes_of_string <$>
    ["BAR"; "OUGHT"; "ABLE"; "PRI"; "PRES"; "ESE"; "ANTI"; "CALLY"; "ATION"; "EING"]%string.

(** The loop body of [gen_c_last]: [i] runs over 2, 1, 0. *)
Definition gen_c_last_step (n : Z) (i : nat) (buf : list Z) : outcome (list Z) :=
  let idx := (n / (if (i =? 2)%nat then 100 else if (i =? 1)%nat then 10 else 1)) mod 10 in
  s ← from_option_or OutOfBounds (syllables !! Z.to_nat idx);
  strcat buf s.

Definition gen_c_last (n : Z) (buf : list Z) : outcome (list Z) :=
  buf ← gen_c_last_step n 2 buf;
  buf ← gen_c_last_step n 1 buf;
  gen_c_last_step n 0 buf.

(** The loader's copy clears the buffer first. *)
Definition loader_gen_c_last (n : Z) (buf : list Z) : outcome (list Z) :=
  buf ← poke buf 0 [0];
  buf ← gen_c_last_step n 2 buf;
  buf ← gen_c_last_step n 1 buf;
  gen_c_last_step n 0 buf.

(** The name the TPC-C specification gives a number: three syllables. *)
Definition syllable (d : Z) : list Z := default [] (syllables !! Z.to_nat d).
Definition last_name (n : Z) : list Z :=
  syllable (n / 100 mod 10) ++ syllable (n / 10 mod 10) ++ syllable (n mod 10).

(** ** Lemmas *)

Section draw_lemmas.
Context `{RandROk}.

Lemma rand_mod_ok n seed :
  0 < n → in_u 32 seed →
  ∃ r seed', rand_mod n seed = Ok (r, seed') ∧ 0 <= r < n ∧ in_u 32 seed'.
Proof.
  intros Hn Hs. destruct (rand_r_ok seed Hs) as [Hr Hs']. unfold rand_mod.
  destruct (rand_r seed) as [r s]. simpl in *.
  destruct (Z.eqb_spec n 0); [lia|]. eexists _, _; split; [done|]. split; [|done].
  by apply Z.mod_pos_bound.
Qed.

Lemma rand_mod_zero seed : rand_mod 0 seed = Ub DivByZero.
Proof. unfold rand_mod. by destruct (rand_r seed). Qed.

Lemma get_random_number_ok max seed :
  0 < max < 2 ^ 32 → in_u 32 seed →
  ∃ r seed', get_random_number max seed = Ok (r, seed') ∧ 1 <= r <= max ∧ in_u 32 seed'.
Proof.
  intros Hm Hs. unfold get_random_number.
  destruct (rand_mod_ok max seed) as (r & s & -> & Hr & Hs'); [lia|done|].
  eexists _, _; split; [done|]. rewrite wrap_u_id by range. split; [lia|done].
Qed.

(** A draw from a non-empty range is always defined. *)
Lemma get_random_number_defined max seed :
  max ≠ 0 → ∃ r seed', get_random_number max seed = Ok (r, seed').
Proof.
  intros Hm. unfold get_random_number, rand_mod. destruct (rand_r seed) as [r s].
  destruct (Z.eqb_spec max 0); [done|]. by eexists _, _.
Qed.

Lemma rand_mod_defined n seed : n ≠ 0 → ∃ r seed', rand_mod n seed = Ok (r, seed').
Proof.
  intros Hn. unfold rand_mod. destruct (rand_r seed) as [r s].
  destruct (Z.eqb_spec n 0); [done|]. by eexists _, _.
Qed.

Lemma nurand_defined A x y seed C :
  u32 (A + 1) ≠ 0 → u32 (y - x + 1) ≠ 0 →
  ∃ r seed', nurand A x y seed C = Ok (r, seed') ∧ in_u 32 r.
Proof.
  intros HA Hy. unfold nurand, rand_mod. destruct (rand_r seed) as [r1 s1].
  destruct (Z.eqb_spec (u32 (A + 1)) 0); [done|]. cbn [mbind outcome_bind].
  destruct (rand_r s1) as [r2 s2].
  destruct (Z.eqb_spec (u32 (y - x + 1)) 0); [done|]. cbn [mbind outcome_bind].
  eexists _, _. split; [done|]. by apply wrap_u_range.
Qed.

Lemma get_random_number_range max seed r seed' :
  0 < max < 2 ^ 32 → get_random_number max seed = Ok (r, seed') → 1 <= r <= max.
Proof.
  intros Hm. unfold get_random_number, rand_mod. destruct (rand_r seed) as [x s].
  destruct (Z.eqb_spec max 0); [lia|]. cbn [mbind outcome_bind]. intros [= <- <-].
  pose proof (Z.mod_pos_bound (u32 x) max ltac:(lia)). rewrite wrap_u_id by range. lia.
Qed.

Lemma get_random_number_zero seed : get_random_number 0 seed = Ub DivByZero.
Proof. unfold get_random_number. by rewrite rand_mod_zero. Qed.

Lemma nurand_ok A x y seed C :
  0 <= A < 2 ^ 32 - 1 → 0 <= x <= y → y < 2 ^ 32 → y - x + 1 < 2 ^ 32 → in_u 32 seed →
  ∃ r seed', nurand A x y seed C = Ok (r, seed') ∧ x <= r <= y ∧ in_u 32 seed'.
Proof.
  intros HA Hxy Hy Hw Hs. unfold nurand.
  rewrite (wrap_u_id 32 (A + 1)), (wrap_u_id 32 (y - x + 1)) by range.
  destruct (rand_mod_ok (A + 1) seed) as (r1 & s1 & -> & Hr1 & Hs1); [lia|done|].
  cbn [mbind outcome_bind].
  destruct (rand_mod_ok (y - x + 1) s1) as (r2 & s2 & -> & Hr2 & Hs2); [lia|done|].
  cbn [mbind outcome_bind].
  pose proof (Z.mod_pos_bound (u32 (Z.lor r1 (u32 (x + r2)) + C)) (y - x + 1) ltac:(lia)).
  eexists _, _; split; [done|]. rewrite wrap_u_id by range. split; [lia|done].
Qed.

Lemma nurand_item_ok seed :
  in_u 32 seed →
  ∃ r seed', nurand_item seed = Ok (r, seed') ∧ 1 <= r <= ITEM_COUNT ∧ in_u 32 seed'.
Proof.
  intros Hs. unfold nurand_item.
  destruct (rand_mod_ok (NURAND_OL_I_ID_A + 1) seed) as (C & s & -> & _ & Hs');
    [done|done|]. cbn [mbind outcome_bind].
  apply nurand_ok; unfold NURAND_OL_I_ID_A, ITEM_COUNT; (lia || done).
Qed.

Lemma nurand_customer_ok seed :
  in_u 32 seed →
  ∃ r seed', nurand_customer seed = Ok (r, seed') ∧
    1 <= r <= CUSTOMERS_PER_DISTRICT ∧ in_u 32 seed'.
Proof.
  intros Hs. unfold nurand_customer.
  destruct (rand_mod_ok (NURAND_C_ID_A + 1) seed) as (C & s & -> & _ & Hs');
    [done|done|]. cbn [mbind outcome_bind].
  apply nurand_ok; unfold NURAND_C_ID_A, CUSTOMERS_PER_DISTRICT; (lia || done).
Qed.
End draw_lemmas.

Lemma syllable_lookup d : 0 <= d < 10 → syllables !! Z.to_nat d = Some (syllable d).
Proof.
  intros Hd. unfold syllable.
  destruct (lookup_lt_is_Some_2 syllables (Z.to_nat d)) as [s ->]; [|done].
  change (length syllables) with 10%nat. lia.
Qed.

(** Facts about the ten syllables, by evaluation of each. *)
Lemma digit_cases d :
  0 <= d < 10 →
  d = 0 ∨ d = 1 ∨ d = 2 ∨ d = 3 ∨ d = 4 ∨ d = 5 ∨ d = 6 ∨ d = 7 ∨ d = 8 ∨ d = 9.
Proof. lia. Qed.

Ltac digit H := apply digit_cases in H; repeat destruct H as [->|H]; [..|subst].

Lemma syllable_ok d :
  0 <= d < 10 → c_string (syllable d) ∧ (3 <= length (syllable d) <= 5)%nat.
Proof.
  intros Hd. split.
  - digit Hd; vm_compute; repeat constructor.
  - digit Hd; vm_compute; lia.
Qed.

(** No syllable begins another: a name is read back one syllable at a time. *)
Lemma syllable_prefix_free d e x y :
  0 <= d < 10 → 0 <= e < 10 → syllable d ++ x = syllable e ++ y → d = e ∧ x = y.
Proof.
  intros Hd He. digit Hd; digit He; vm_compute; intros E;
    (discriminate E || (split; [reflexivity|congruence])).
Qed.

Lemma gen_c_last_step_spec n i s pad d :
  d = (n / (if (i =? 2)%nat then 100 else if (i =? 1)%nat then 10 else 1)) mod 10 →
  c_string s → (5 <= length pad)%nat →
  gen_c_last_step n i (s ++ 0 :: pad) =
    Ok ((s ++ syllable d) ++ 0 :: drop (length (syllable d)) pad).
Proof.
  intros -> Hs Hp. unfold gen_c_last_step.
  set (d := _ mod 10). assert (0 <= d < 10) as Hd by (by apply Z.mod_pos_bound).
  rewrite syllable_lookup by done. simpl.
  destruct (syllable_ok d Hd). apply strcat_spec; [done|lia].
Qed.

Lemma last_name_ok n : c_string (last_name n) ∧ (9 <= length (last_name n) <= 15)%nat.
Proof.
  unfold last_name.
  destruct (syllable_ok (n / 100 mod 10)) as [? ?]; [by apply Z.mod_pos_bound|].
  destruct (syllable_ok (n / 10 mod 10)) as [? ?]; [by apply Z.mod_pos_bound|].
  destruct (syllable_ok (n mod 10)) as [? ?]; [by apply Z.mod_pos_bound|].
  split; [by repeat apply Forall_app_2|]. rewrite !length_app. lia.
Qed.

Lemma gen_c_last_spec n pad :
  (15 <= length pad)%nat →
  gen_c_last n (0 :: pad) = Ok (last_name n ++ 0 :: drop (length (last_name n)) pad).
Proof.
  intros Hp. unfold gen_c_last, last_name.
  destruct (syllable_ok (n / 100 mod 10)) as [? ?]; [by apply Z.mod_pos_bound|].
  destruct (syllable_ok (n / 10 mod 10)) as [? ?]; [by apply Z.mod_pos_bound|].
  destruct (syllable_ok (n mod 10)) as [? ?]; [by apply Z.mod_pos_bound|].
  change (0 :: pad) with ([] ++ 0 :: pad).
  rewrite (gen_c_last_step_spec n 2 [] pad (n / 100 mod 10)) by (done || lia || by constructor).
  cbn [mbind outcome_bind app].
  rewrite (gen_c_last_step_spec n 1 _ _ (n / 10 mod 10))
    by (done || (rewrite length_drop; lia)).
  cbn [mbind outcome_bind].
  rewrite (gen_c_last_step_spec n 0 _ _ (n mod 10)).
  - by rewrite !drop_drop, !length_app, <- !app_assoc, !Nat.add_assoc.
  - simpl. by rewrite Z.div_1_r.
  - by apply Forall_app_2.
  - rewrite !length_drop. lia.
Qed.

Lemma last_name_inj n m : 0 <= n < 1000 → 0 <= m < 1000 → last_name n = last_name m → n = m.
Proof.
  intros Hn Hm E. unfold last_name in E.
  apply syllable_prefix_free in E as [E1 E]; [|by apply Z.mod_pos_bound..].
  apply syllable_prefix_free in E as [E2 E]; [|by apply Z.mod_pos_bound..].
  rewrite <- (app_nil_r (syllable (n mod 10))), <- (app_nil_r (syllable (m mod 10))) in E.
  apply syllable_prefix_free in E as [E3 _]; [|by apply Z.mod_pos_bound..].
  Z.to_euclidean_division_equations. lia.
Qed.

Lemma loader_gen_c_last_eq n b pad : loader_gen_c_last n (b :: pad) = gen_c_last n (0 :: pad).
Proof.
  reflexivity.
Qed.

(** ** Properties *)

(** [get_random_number max] is a draw from 1..max (the harness of test/cbmc and the
    callers' comments expect 0..max), and its only failure is the division by zero of
    [max = 0]; [nurand] stays in [x, y] for every constant [C] and every seed. *)
Theorem random_draws_in_range `{RandROk} (max A x y seed C : Z) :
  in_u 32 seed → in_u 32 max →
  0 <= A < 2 ^ 32 - 1 → 0 <= x <= y → y < 2 ^ 32 → y - x + 1 < 2 ^ 32 →
  match get_random_number max seed with
  | Ok (r, _) => 1 <= r <= max
  | Ub u => max = 0 ∧ u = DivByZero
  end ∧
  match nurand A x y seed C with Ok (r, _) => x <= r <= y | Ub _ => False end.
Proof.
  intros Hs Hm HA Hxy Hy Hw. split.
  - destruct (decide (max = 0)) as [->|Hm0]; [by rewrite get_random_number_zero|].
    destruct (get_random_number_ok max seed) as (r & s & -> & Hr & _); [range|done|done].
  - destruct (nurand_ok A x y seed C) as (r & s & -> & Hr & _); done.
Qed.

(** [gen_c_last] never writes past the 16-byte [c_last] of a fresh context, for any
    number, and leaves the NUL-terminated TPC-C name; the loader's copy leaves the
    same name whatever the buffer held; the thousand names are pairwise distinct. *)
Theorem gen_c_last_safe_and_injective (n m : Z) (junk : list Z) :
  length junk = 16%nat →
  gen_c_last n (replicate 16 0) =
    Ok (last_name n ++ replicate (16 - length (last_name n)) 0) ∧
  (length (last_name n) <= 15)%nat ∧
  (∃ rest, loader_gen_c_last n junk = Ok (last_name n ++ 0 :: rest)) ∧
  (0 <= n < 1000 → 0 <= m < 1000 → gen_c_last n (replicate 16 0) = gen_c_last m (replicate 16 0)
   → n = m).
Proof.
  intros Hj. pose proof (last_name_ok n) as [Hn Hln]. pose proof (last_name_ok m) as [Hm Hlm].
  assert (∀ k, (length (last_name k) <= 15)%nat → gen_c_last k (replicate 16 0) =
    Ok (last_name k ++ replicate (16 - length (last_name k)) 0)) as Hg.
  { intros k Hk. change (replicate 16 0) with (0 :: replicate 15 0).
    rewrite gen_c_last_spec by (rewrite length_replicate; lia).
    rewrite drop_replicate.
    by replace (16 - length (last_name k))%nat with (S (15 - length (last_name k))) by lia. }
  split; [apply Hg; lia|]. split; [lia|]. split.
  - destruct junk as [|b junk]; [done|]. injection Hj as Hj.
    rewrite loader_gen_c_last_eq, gen_c_last_spec by lia. eauto.
  - intros Hn0 Hm0. rewrite !Hg by lia. intros [= E].
    apply last_name_inj; [done..|].
    replace (16 - length (last_name n))%nat with (S (15 - length (last_name n))) in E by lia.
    replace (16 - length (last_name m))%nat with (S (15 - length (last_name m))) in E by lia.
    by apply c_string_split in E as [-> _].
Qed.

(** ** Witnesses *)

Lemma random_draws_in_range_witness :
  @get_random_number rand_r_posix 0 42 = Ub DivByZero ∧
  match @nurand rand_r_posix 1023 1 3000 42 17 with Ok (r, _) => 1 <= r <= 3000 | Ub _ => False end.
Proof.
  destruct (@random_draws_in_range rand_r_posix rand_r_posix_ok 0 1023 1 3000 42 17)
    as [H0 Hn]; [range|range|lia|lia|lia|lia|].
  split; [reflexivity|exact Hn].
Defined.

Lemma gen_c_last_safe_and_injective_witness :
  gen_c_last 371 (replicate 16 0) = Ok (bytes_of_string "PRICALLYOUGHT" ++ [0; 0; 0]).
Proof.
  destruct (gen_c_last_safe_and_injective 371 777 (replicate 16 255)) as [H _];
    [reflexivity|].
  rewrite H. reflexivity.
Defined.
