(* ===== verification/Loader.v ===== *)
(** * The data loader: src/tpcc_loader.c

    The loader's [main] as a computation over its seed and one open transaction at a time.
    [check_fdb] ends the process: [None].  What FoundationDB answers is the class
    [LoadEnv]; [l_batches] are the transactions that were applied. *)

From stdpp Require Import pretty.
From S2P Require Import Prelude Kv Random Values.
#[local] Open Scope Z_scope.

(** ** State and effects *)

(** [fdb_database_create_transaction], [fdb_future_block_until_ready] and
    [fdb_future_get_error] of a commit, by the number of the call, and whether a commit
    that reports an error was applied all the same. *)
Class LoadEnv := {
  le_create : nat → Z;
  le_ready : nat → Z;
  le_commit : nat → Z;
  le_unknown : nat → bool;
}.

Class LoadEnvOk `{LoadEnv} : Prop := {
  create_ok : ∀ t, le_create t = 0;
  ready_ok : ∀ t, le_ready t = 0;
  commit_ok : ∀ t, le_commit t = 0;
}.

Record lstate : Type := mk_lstate {
  l_seed : Z;
  l_pending : list (list Z * list Z);
  l_batches : list (list (list Z * list Z));
  l_tick : nat;
}.

Definition set_seed (seed : Z) (s : lstate) : lstate :=
  mk_lstate seed (l_pending s) (l_batches s) (l_tick s).
Definition set_pending (ws : list (list Z * list Z)) (s : lstate) : lstate :=
  mk_lstate (l_seed s) ws (l_batches s) (l_tick s).
Definition add_batch (ws : list (list Z * list Z)) (s : lstate) : lstate :=
  mk_lstate (l_seed s) (l_pending s) (l_batches s ++ [ws]) (l_tick s).
Definition next_call (s : lstate) : lstate :=
  mk_lstate (l_seed s) (l_pending s) (l_batches s) (S (l_tick s)).

(** Computations that may call [exit]. *)
Definition L (A : Type) : Type := M lstate (option A).

#[export] Instance L_ret : MRet L := λ A a s, Ok (Some a, s).
#[export] Instance L_bind : MBind L := λ A B f m s,
  match m s with
  | Ok (Some a, s') => f a s'
  | Ok (None, s') => Ok (None, s')
  | Ub u => Ub u
  end.

Definition L_lift {A} (o : outcome A) : L A := λ s,
  match o with Ok a => Ok (Some a, s) | Ub u => Ub u end.
Definition L_modify (f : lstate → lstate) : L () := λ s, Ok (Some (), f s).
Definition L_call {A} (f : nat → A) : L A := λ s, Ok (Some (f (l_tick s)), next_call s).

(** A counted loop. *)
Fixpoint for_range (idxs : list Z) (body : Z → L ()) : L () :=
  match idxs with
  | [] => mret ()
  | i :: idxs => _ ← body i; for_range idxs body
  end.

(** The numbers from 1 to [n]. *)
Definition one_to (n : Z) : list Z := (λ i, i + 1) <$> upto n.

Section loader.
Context `{LoadEnv} `{RandR}.

(** [check_fdb]: message and [exit(1)]. *)
Definition check_fdb (err : Z) : L () := λ s,
  if err =? 0 then Ok (Some (), s) else Ok (None, s).

(** [rand_r(&seed)] *)
Definition draw : L Z := λ s,
  let '(r, seed) := rand_r (l_seed s) in Ok (Some r, set_seed seed s).

(** [fdb_database_create_transaction]: an empty transaction. *)
Definition begin_transaction : L () :=
  err ← L_call le_create;
  _ ← check_fdb err;
  L_modify (set_pending []).

Definition fdb_transaction_set (key value : list Z) : L () := λ s,
  Ok (Some (), set_pending (l_pending s ++ [(key, value)]) s).

(** [fdb_transaction_commit] and [fdb_future_block_until_ready]: the commit's error. *)
Definition commit : L Z := λ s,
  let t := l_tick s in
  if le_ready t =? 0 then
    let s' := if (le_commit t =? 0) || le_unknown t then add_batch (l_pending s) s else s in
    Ok (Some (le_commit t), next_call s')
  else Ok (None, next_call s).

(** The commit inside the loops: its error is checked, the transaction reset. *)
Definition commit_and_reset : L () :=
  err ← commit;
  _ ← check_fdb err;
  L_modify (set_pending []).

(** The last commit: only [fdb_future_block_until_ready] is checked. *)
Definition final_commit : L () := _ ← commit; L_modify (set_pending []).

(** ** Formatting *)

(** ["%u"] and ["%03u"]. *)
Definition fmt_u (x : Z) : list Z := bytes_of_string (pretty (Z.to_N x)).
Definition fmt_03u (x : Z) : list Z :=
  replicate (3 - length (fmt_u x)) 48 ++ fmt_u x.

(** [snprintf(buf, sizeof(buf), ..)]: at most the buffer, NUL included. *)
Definition snprintf (buf text : list Z) : list Z :=
  let text := take (length buf - 1) text in
  text ++ [0] ++ drop (S (length text)) buf.

Arguments snprintf : simpl never.

(** ** Tables *)

Definition load_item (i : Z) : L () :=
  key ← L_lift (key_bytes (kv_item_key (stack_buf 64) i));
  price ← draw;
  im_id ← draw;
  r ← draw;
  let data :=
    if Z.rem r 10 =? 0 then snprintf (zero_chars 50) (bytes_of_string "ORIGINAL_ITEM_DATA_" ++ fmt_u i)
    else snprintf (zero_chars 50) (bytes_of_string "item_data_" ++ fmt_u i) in
  _ ← fdb_transaction_set key
    (pack (mk_item_val (snprintf (zero_chars 24) (bytes_of_string "Item-" ++ fmt_u i))
      (100 + Z.rem price 9900) data (1 + Z.rem im_id 10000)));
  if i mod 1000 =? 0 then commit_and_reset else mret ().

Definition load_items : L () :=
  _ ← begin_transaction;
  _ ← for_range (one_to ITEM_COUNT) load_item;
  final_commit.

Definition load_warehouse_row (w : Z) : L () :=
  key ← L_lift (key_bytes (kv_warehouse_key (stack_buf 64) w));
  r ← draw;
  fdb_transaction_set key
    (pack (mk_warehouse_val
      (snprintf (zero_chars 10) (bytes_of_string "Whse-" ++ fmt_u w))
      (snprintf (zero_chars 20) (fmt_u w ++ bytes_of_string " Main St"))
      (zero_chars 20)
      (snprintf (zero_chars 20) (bytes_of_string "City-" ++ fmt_u w))
      (bytes_of_string "CA")
      (snprintf (zero_chars 9) (bytes_of_string "94000" ++ fmt_03u w))
      (Z.rem r 2000) (300000 * 100))).

Definition load_warehouse (W : Z) : L () :=
  _ ← begin_transaction;
  _ ← for_range (one_to (u32 W)) load_warehouse_row;
  final_commit.

Definition load_district_row (w d : Z) : L () :=
  dkey ← L_lift (key_bytes (kv_district_key (stack_buf 64) w d));
  r ← draw;
  _ ← fdb_transaction_set dkey
    (pack (mk_district_val
      (snprintf (zero_chars 10) (bytes_of_string "Dist-" ++ fmt_u w ++ bytes_of_string "-" ++ fmt_u d))
      (snprintf (zero_chars 20) (fmt_u w ++ bytes_of_string "-" ++ fmt_u d ++ bytes_of_string " St"))
      (zero_chars 20)
      (snprintf (zero_chars 20) (bytes_of_string "City-" ++ fmt_u w))
      (bytes_of_string "CA")
      (snprintf (zero_chars 9) (bytes_of_string "94000" ++ fmt_03u w))
      (Z.rem r 2000) (30000 * 100) 3001));
  nkey ← L_lift (key_bytes (kv_next_o_id_key (stack_buf 64) w d));
  nbuf ← L_lift (kv_encode_next_o_id (stack_buf 8) 3001);
  fdb_transaction_set nkey nbuf.

(** [W * 10] is an [int] printed first. *)
Definition load_districts_and_next_o_id (W : Z) : L () :=
  _ ← L_lift (chk32 (W * 10));
  _ ← begin_transaction;
  _ ← for_range (one_to (u32 W))
        (λ w, for_range (one_to DISTRICTS_PER_WAREHOUSE) (load_district_row w));
  final_commit.

(** A stub: it prints. *)
Definition load_customer_and_orders (W : Z) : L () := mret ().

(** ["tfb/w/"] and the number in network byte order. *)
Definition load_world_row (i : Z) : L () :=
  key ← L_lift (key ← poke (stack_buf 16) 0 TFB_WORLD_PREFIX;
                key ← poke key 6 (u32_bytes (htonl i));
                mret (take 10 key));
  r ← draw;
  _ ← fdb_transaction_set key (u32_bytes (htonl (u32 (Z.rem r 10000))));
  if i mod 1000 =? 0 then commit_and_reset else mret ().

Definition load_world_table : L () :=
  _ ← begin_transaction;
  _ ← for_range (one_to 10000) load_world_row;
  final_commit.

(** The part of [main] after the connection is made. *)
Definition load_data (W : Z) : L () :=
  _ ← load_items;
  _ ← load_warehouse W;
  _ ← load_districts_and_next_o_id W;
  _ ← load_customer_and_orders W;
  load_world_table.
End loader.

(** ** What the loader is meant to store *)

Abbreviation entry := (list Z * list Z)%type.

Definition item_entry (i : Z) (kv : entry) : Prop :=
  kv.1 = enc_key (RItem i) ∧ ∃ iv : item_val_t, kv.2 = pack iv ∧ struct_ok iv ∧
    100 <= i_price iv <= 9999 ∧ 1 <= i_im_id iv <= 10000.
Definition warehouse_entry (w : Z) (kv : entry) : Prop :=
  kv.1 = enc_key (RWarehouse w) ∧ ∃ wv : warehouse_val_t, kv.2 = pack wv ∧ struct_ok wv ∧
    0 <= w_tax wv < 2000 ∧ w_ytd wv = 30000000.
Definition district_entries (w d : Z) (kvs : list entry) : Prop :=
  ∃ dv : district_val_t, kvs = [(enc_key (RDistrict w d), pack dv);
      (enc_key (RNextOId w d), [0; 0; 0; 0; 0; 0; 11; 185])] ∧
    struct_ok dv ∧ 0 <= d_tax dv < 2000 ∧ d_ytd dv = 3000000 ∧ d_next_o_id dv = 3001.
Definition world_entry (i : Z) (kv : entry) : Prop :=
  ∃ n, kv = (enc_key (RWorld i), be32 n) ∧ 0 <= n < 10000.

(** ** Lemmas *)

Lemma one_to_S n : one_to (Z.of_nat (S n)) = one_to (Z.of_nat n) ++ [Z.of_nat (S n)].
Proof. unfold one_to. rewrite upto_S, fmap_app. cbn [fmap list_fmap]. do 2 f_equal. lia. Qed.

Lemma elem_of_one_to n i : i ∈ one_to n ↔ 1 <= i <= n.
Proof.
  unfold one_to. rewrite list_elem_of_fmap. setoid_rewrite elem_of_upto. split.
  - intros (j & -> & Hj). lia.
  - intros Hi. exists (i - 1). lia.
Qed.

Lemma snprintf_length n text : (0 < n)%nat → length (snprintf (zero_chars n) text) = n.
Proof.
  intros Hn. unfold snprintf. rewrite !length_app, length_drop, zero_chars_length. cbn [length].
  rewrite length_take. lia.
Qed.

Lemma L_step {A B} (m : L A) (k : A → L B) s a s' :
  m s = Ok (Some a, s') → (m ≫= k) s = k a s'.
Proof. intros Hm. unfold mbind, L_bind. by rewrite Hm. Qed.

Lemma for_range_app xs ys body s :
  for_range (xs ++ ys) body s = (for_range xs body ≫= λ _, for_range ys body) s.
Proof.
  revert s. induction xs as [|x xs IH]; intros s; [done|]. cbn [app for_range].
  unfold mbind, L_bind. destruct (body x s) as [[[[]|] s1]|]; [apply IH|done|done].
Qed.

Section loader_lemmas.
Context `{LoadEnvOk} `{RandROk}.

(** The seed is an [unsigned int]. *)
Definition good (s : lstate) : Prop := in_u 32 (l_seed s).

(** A computation that appends writes of a kind to the transaction. *)
Definition appends (m : L ()) (R : list entry → Prop) : Prop :=
  ∀ s, good s → ∃ ws s', m s = Ok (Some (), s') ∧ R ws ∧
    l_pending s' = l_pending s ++ ws ∧ l_batches s' = l_batches s ∧ good s'.

Lemma draw_ok s :
  good s → ∃ r s', draw s = Ok (Some r, s') ∧ 0 <= r ∧ l_pending s' = l_pending s ∧
    l_batches s' = l_batches s ∧ good s'.
Proof.
  intros Hs. destruct (rand_r_ok (l_seed s) Hs) as [Hr Hs']. unfold draw.
  destruct (rand_r (l_seed s)) as [r seed]. cbn [fst snd] in *.
  exists r, (set_seed seed s). split_and!; (done || lia).
Qed.

Lemma appends_range idxs body (R : Z → list entry → Prop) :
  (∀ i, i ∈ idxs → appends (body i) (R i)) →
  appends (for_range idxs body) (λ ws, ∃ wss, ws = concat wss ∧ Forall2 R idxs wss).
Proof.
  intros Hbody s Hs. revert s Hs. induction idxs as [|i idxs IH]; intros s Hs.
  { exists [], s. split_and!; try done; [by exists []|by rewrite app_nil_r]. }
  destruct (Hbody i ltac:(by left) s Hs) as (ws & s1 & Hrun & HR & Hp & Hb & Hs1).
  destruct (IH (λ j Hj, Hbody j (proj2 (elem_of_cons _ _ _) (or_intror Hj))) s1 Hs1)
    as (ws' & s2 & Hrun2 & (wss & -> & HRs) & Hp2 & Hb2 & Hs2).
  exists (ws ++ concat wss), s2. split_and!; try done.
  - cbn [for_range]. unfold mbind, L_bind. by rewrite Hrun.
  - exists (ws :: wss). split; [done|by constructor].
  - by rewrite Hp2, Hp, <- app_assoc.
  - by rewrite Hb2.
Qed.

Lemma rem_bound r n : 0 <= r → 0 < n → 0 <= Z.rem r n < n.
Proof. intros. rewrite Z.rem_mod_nonneg by lia. by apply Z.mod_pos_bound. Qed.

Lemma appends_warehouse w :
  in_u 32 w → appends (load_warehouse_row w) (λ ws, ∃ kv, ws = [kv] ∧ warehouse_entry w kv).
Proof.
  intros Hw s Hs. unfold load_warehouse_row. rewrite warehouse_key_bytes by done.
  destruct (draw_ok s Hs) as (r & s1 & Hd & Hr & Hp & Hb & Hs1).
  pose proof (rem_bound r 2000 Hr ltac:(lia)).
  unfold mbind, L_bind, L_lift. rewrite Hd. cbv beta iota.
  eexists [_], _. split; [reflexivity|]. cbn [set_pending l_pending l_batches].
  split; [|by rewrite Hp].
  eexists. split; [done|]. split; [done|]. eexists. split; [done|].
  split; [|split; cbn; lia].
  struct_fields; try (apply snprintf_length; lia); (range || done).
Qed.

Lemma appends_district w d :
  in_u 32 w → in_u 32 d → appends (load_district_row w d) (district_entries w d).
Proof.
  intros Hw Hd s Hs. unfold load_district_row.
  rewrite district_key_bytes, next_o_id_key_bytes by done.
  destruct (draw_ok s Hs) as (r & s1 & Hdr & Hr & Hp & Hb & Hs1).
  pose proof (rem_bound r 2000 Hr ltac:(lia)).
  unfold mbind, L_bind, L_lift. rewrite Hdr. cbv beta iota.
  eexists [_; _], _. split; [reflexivity|]. cbn [set_pending l_pending l_batches].
  split; [|by rewrite Hp, <- app_assoc].
  eexists. split; [reflexivity|]. split; [|split_and!; cbn; lia].
  struct_fields; try (apply snprintf_length; lia); (range || done).
Qed.

(** One iteration of a loop that commits every thousandth row. *)
Definition batch_step (body : L ()) (i : Z) (E : entry → Prop) : Prop :=
  ∀ s, good s → ∃ kv s', body s = Ok (Some (), s') ∧ E kv ∧ good s' ∧
    if i mod 1000 =? 0
    then l_pending s' = [] ∧ l_batches s' = l_batches s ++ [l_pending s ++ [kv]]
    else l_pending s' = l_pending s ++ [kv] ∧ l_batches s' = l_batches s.

(** The end of an iteration: the write, and the commit of every thousandth row. *)
Lemma batch_tail (i : Z) kv (E : entry → Prop) s s1 :
  good s1 → l_pending s1 = l_pending s → l_batches s1 = l_batches s → E kv →
  ∃ kv' s', (_ ← fdb_transaction_set kv.1 kv.2;
             if i mod 1000 =? 0 then commit_and_reset else mret ()) s1 = Ok (Some (), s') ∧
    E kv' ∧ good s' ∧
    if i mod 1000 =? 0
    then l_pending s' = [] ∧ l_batches s' = l_batches s ++ [l_pending s ++ [kv']]
    else l_pending s' = l_pending s ++ [kv'] ∧ l_batches s' = l_batches s.
Proof.
  intros Hg Hp Hb He. exists kv. destruct kv as [k v]. cbn [fst snd].
  destruct (i mod 1000 =? 0).
  - unfold commit_and_reset, commit, check_fdb, L_modify, mbind, L_bind, fdb_transaction_set.
    cbn. rewrite ready_ok. cbn. rewrite commit_ok. cbn.
    eexists. split; [reflexivity|]. cbn. by rewrite Hp, Hb.
  - eexists. split; [reflexivity|]. cbn. by rewrite Hp, Hb.
Qed.

Lemma item_step i : in_u 32 i → batch_step (load_item i) i (item_entry i).
Proof.
  intros Hi s Hs. unfold load_item. rewrite item_key_bytes by done.
  destruct (draw_ok s Hs) as (r1 & s1 & Hd1 & Hr1 & Hp1 & Hb1 & Hs1).
  destruct (draw_ok s1 Hs1) as (r2 & s2 & Hd2 & Hr2 & Hp2 & Hb2 & Hs2).
  destruct (draw_ok s2 Hs2) as (r3 & s3 & Hd3 & Hr3 & Hp3 & Hb3 & Hs3).
  rewrite (L_step (L_lift (Ok _)) _ s _ s eq_refl), (L_step _ _ _ _ _ Hd1), (L_step _ _ _ _ _ Hd2),
    (L_step _ _ _ _ _ Hd3). cbv zeta. set (data := if Z.rem r3 10 =? 0 then _ else _).
  set (iv := mk_item_val _ _ data _).
  apply (batch_tail i (enc_key (RItem i), pack iv)); [done|congruence|congruence|].
  pose proof (rem_bound r1 9900 Hr1 ltac:(lia)). pose proof (rem_bound r2 10000 Hr2 ltac:(lia)).
  split; [done|]. exists iv. split; [done|]. split; [|cbn; lia].
  assert (length data = 50%nat) as Hdata
    by (unfold data; destruct (_ =? 0); apply snprintf_length; lia).
  unfold iv. struct_fields; try (apply snprintf_length; lia); (range || done).
Qed.

(** The key the loader builds by hand is that of the handlers. *)
Lemma loader_world_key i :
  (key ← poke (stack_buf 16) 0 TFB_WORLD_PREFIX;
   key ← poke key 6 (u32_bytes (htonl i)); mret (take 10 key)) = Ok (enc_key (RWorld i)).
Proof. rewrite htonl_bytes. reflexivity. Qed.

Lemma world_step i : batch_step (load_world_row i) i (world_entry i).
Proof.
  intros s Hs. unfold load_world_row. rewrite loader_world_key.
  destruct (draw_ok s Hs) as (r1 & s1 & Hd1 & Hr1 & Hp1 & Hb1 & Hs1).
  rewrite (L_step (L_lift (Ok _)) _ s _ s eq_refl), (L_step _ _ _ _ _ Hd1).
  pose proof (rem_bound r1 10000 Hr1 ltac:(lia)).
  rewrite htonl_bytes, wrap_u_id by range.
  refine (batch_tail i (enc_key (RWorld i), be32 (Z.rem r1 10000)) _ s s1 Hs1 Hp1 Hb1 _).
  by eexists.
Qed.

(** A whole loop: full batches of a thousand, then the rest pending. *)
Lemma batch_loop (body : Z → L ()) (E : Z → entry → Prop) n s :
  (∀ i, 1 <= i <= Z.of_nat n → batch_step (body i) i (E i)) → good s → l_pending s = [] →
  ∃ s' bs kvs, for_range (one_to (Z.of_nat n)) body s = Ok (Some (), s') ∧ good s' ∧
    Forall2 E (one_to (Z.of_nat n)) kvs ∧ l_batches s' = l_batches s ++ bs ∧
    concat bs ++ l_pending s' = kvs ∧ Forall (λ b, length b = Z.to_nat 1000) bs ∧
    Z.of_nat (length (l_pending s')) = Z.of_nat n mod 1000.
Proof.
  intros Hbody Hs Hp. induction n as [|n IH].
  { exists s, [], []. split_and!;
      [done|done|constructor|by rewrite app_nil_r|by rewrite Hp|constructor|by rewrite Hp]. }
  destruct IH as (s1 & bs & kvs & Hrun & Hs1 & HE & Hb & Hkv & Hbs & Hlen);
    [intros i Hi; apply Hbody; lia|].
  destruct (Hbody (Z.of_nat (S n)) ltac:(lia) s1 Hs1) as (kv & s2 & Hrun2 & He & Hs2 & Hcase).
  exists s2. rewrite one_to_S.
  assert (for_range (one_to (Z.of_nat n) ++ [Z.of_nat (S n)]) body s = Ok (Some (), s2)) as Hr.
  { rewrite for_range_app. unfold mbind, L_bind. rewrite Hrun. cbn [for_range].
    unfold mbind, L_bind. by rewrite Hrun2. }
  assert (Forall2 E (one_to (Z.of_nat n) ++ [Z.of_nat (S n)]) (kvs ++ [kv])) as HE'
    by (apply Forall2_app; [done|by repeat constructor]).
  pose proof (Z.mod_pos_bound (Z.of_nat (S n)) 1000 ltac:(lia)) as Hm.
  assert (Z.of_nat n mod 1000 = (Z.of_nat (S n) - 1) mod 1000) as Hn by (f_equal; lia).
  destruct (Z.eqb_spec (Z.of_nat (S n) mod 1000) 0) as [Hz|Hz]; destruct Hcase as [Hp2 Hb2].
  - exists (bs ++ [l_pending s1 ++ [kv]]), (kvs ++ [kv]). rewrite Hp2, Hb2, Hb.
    split_and!; try done.
    + by rewrite app_assoc.
    + rewrite concat_app, app_nil_r. cbn. by rewrite app_nil_r, app_assoc, Hkv.
    + apply Forall_app. split; [done|]. apply Forall_cons_2; [|apply Forall_nil_2].
      rewrite length_app. cbn [length]. rewrite Zminus_mod, Hz in Hn.
      change ((0 - 1 mod 1000) mod 1000) with 999 in Hn. lia.
  - exists bs, (kvs ++ [kv]). rewrite Hp2, Hb2. split_and!; try done.
    + by rewrite app_assoc, Hkv.
    + rewrite length_app. cbn [length].
      pose proof (Z.div_mod (Z.of_nat (S n)) 1000 ltac:(lia)).
      assert (Z.of_nat n mod 1000 = Z.of_nat (S n) mod 1000 - 1) as Hq; [|lia].
      symmetry. apply (Z.mod_unique_pos _ _ (Z.of_nat (S n) / 1000)); lia.
Qed.

Lemma begin_ok s : ∃ s', begin_transaction s = Ok (Some (), s') ∧ l_pending s' = [] ∧
  l_batches s' = l_batches s ∧ l_seed s' = l_seed s.
Proof.
  unfold begin_transaction, L_call, check_fdb, L_modify, mbind, L_bind. rewrite create_ok.
  cbn. by eexists.
Qed.

Lemma final_ok s : ∃ s', final_commit s = Ok (Some (), s') ∧
  l_batches s' = l_batches s ++ [l_pending s] ∧ l_seed s' = l_seed s.
Proof.
  unfold final_commit, commit, L_modify, mbind, L_bind. rewrite ready_ok. cbn.
  rewrite commit_ok. cbn. by eexists.
Qed.

(** A table loaded in batches of a thousand. *)
Lemma load_batched body E n s :
  (∀ i, 1 <= i <= Z.of_nat n → batch_step (body i) i (E i)) → good s →
  ∃ s' bs kvs last,
    (_ ← begin_transaction; _ ← for_range (one_to (Z.of_nat n)) body; final_commit) s =
      Ok (Some (), s') ∧
    good s' ∧ l_batches s' = l_batches s ++ bs ++ [last] ∧ concat bs ++ last = kvs ∧
    Forall (λ b, length b = Z.to_nat 1000) bs ∧
    Z.of_nat (length last) = Z.of_nat n mod 1000 ∧ Forall2 E (one_to (Z.of_nat n)) kvs.
Proof.
  intros Hbody Hs. destruct (begin_ok s) as (s1 & Hr1 & Hp1 & Hb1 & Hg1).
  destruct (batch_loop body E n s1 Hbody) as (s2 & bs & kvs & Hr2 & Hs2 & HE & Hb2 & Hkv & Hl & Hm);
    [by unfold good; rewrite Hg1|done|].
  destruct (final_ok s2) as (s3 & Hr3 & Hb3 & Hg3).
  exists s3, bs, kvs, (l_pending s2).
  rewrite (L_step _ _ _ _ _ Hr1), (L_step _ _ _ _ _ Hr2), Hr3, Hb3, Hb2, Hb1.
  split_and!; try done; [by unfold good; rewrite Hg3|by rewrite <- app_assoc].
Qed.

(** A table loaded in one transaction. *)
Lemma load_appended body R s :
  appends body R → good s →
  ∃ s' ws, (_ ← begin_transaction; _ ← body; final_commit) s = Ok (Some (), s') ∧
    good s' ∧ l_batches s' = l_batches s ++ [ws] ∧ R ws.
Proof.
  intros Hbody Hs. destruct (begin_ok s) as (s1 & Hr1 & Hp1 & Hb1 & Hg1).
  destruct (Hbody s1) as (ws & s2 & Hr2 & HR & Hp2 & Hb2 & Hs2);
    [by unfold good; rewrite Hg1|].
  destruct (final_ok s2) as (s3 & Hr3 & Hb3 & Hg3). exists s3, ws.
  rewrite (L_step _ _ _ _ _ Hr1), (L_step _ _ _ _ _ Hr2), Hr3, Hb3, Hb2, Hb1, Hp2, Hp1.
  split_and!; try done. by unfold good; rewrite Hg3.
Qed.
End loader_lemmas.

(** The rows of the whole load. *)
Definition warehouse_rows (W : Z) (kvs : list entry) : Prop :=
  Forall2 warehouse_entry (one_to W) kvs.
Definition district_rows (W : Z) (kvs : list entry) : Prop :=
  ∃ kvss, kvs = concat (concat kvss) ∧
    Forall2 (λ w, Forall2 (district_entries w) (one_to DISTRICTS_PER_WAREHOUSE)) (one_to W) kvss.

Section whole_load.
Context `{LoadEnvOk} `{RandROk}.

Lemma load_warehouse_rows W s :
  0 < W < 2 ^ 31 → good s →
  ∃ s' ws, load_warehouse W s = Ok (Some (), s') ∧ good s' ∧
    l_batches s' = l_batches s ++ [ws] ∧ warehouse_rows W ws.
Proof.
  intros HW Hs. unfold load_warehouse. rewrite wrap_u_id by range.
  destruct (load_appended (for_range (one_to W) load_warehouse_row) _ s
    (appends_range (one_to W) load_warehouse_row _
      (λ w Hw, appends_warehouse w ltac:(apply elem_of_one_to in Hw; range))) Hs)
    as (s' & ws & Hrun & Hs' & Hb & (wss & -> & Hwss)).
  exists s', (concat wss). split_and!; try done. unfold warehouse_rows. clear -Hwss.
  induction Hwss as [|w ws idxs wss (kv & -> & Hkv) _ IH]; [constructor|by constructor].
Qed.

Lemma load_district_rows W s :
  0 < W → W * 10 < 2 ^ 31 → good s →
  ∃ s' ws, load_districts_and_next_o_id W s = Ok (Some (), s') ∧ good s' ∧
    l_batches s' = l_batches s ++ [ws] ∧ district_rows W ws.
Proof.
  intros HW HW10 Hs. unfold load_districts_and_next_o_id. rewrite chk_s_Ok by range.
  rewrite (L_step (L_lift (Ok _)) _ s _ s eq_refl), wrap_u_id by range.
  destruct (load_appended (for_range (one_to W)
    (λ w, for_range (one_to DISTRICTS_PER_WAREHOUSE) (load_district_row w))) _ s
    (appends_range (one_to W) _ _ (λ w Hw, appends_range (one_to DISTRICTS_PER_WAREHOUSE)
      (load_district_row w) _ (λ d Hd, appends_district w d
        ltac:(apply elem_of_one_to in Hw; range)
        ltac:(apply elem_of_one_to in Hd; unfold DISTRICTS_PER_WAREHOUSE in Hd; range)))) Hs)
    as (s' & ws & Hrun & Hs' & Hb & (wss & -> & Hwss)).
  exists s', (concat wss). split_and!; try done. clear -Hwss. unfold district_rows.
  assert (∃ kvss : list (list (list entry)), wss = (λ k, concat k) <$> kvss ∧ Forall2 (λ w, Forall2 (district_entries w)
    (one_to DISTRICTS_PER_WAREHOUSE)) (one_to W) kvss) as (kvss & -> & Hk).
  { induction Hwss as [|w ws idxs wss (kvs & -> & Hkv) _ (kvss & -> & IH)].
    - exists []. split; [done|constructor].
    - exists (kvs :: kvss). split; [done|by constructor]. }
  exists kvss. split; [|done]. clear. induction kvss as [|kvs kvss IH]; [done|].
  cbn. by rewrite concat_app, IH.
Qed.
End whole_load.

(** A load that meets no error, table by table. *)
Lemma load_data_batches `{LoadEnvOk} `{RandROk} (W : Z) (s : lstate) :
  0 < W → W * 10 < 2 ^ 31 → in_u 32 (l_seed s) → l_batches s = [] →
  ∃ s' bi items ws ds bw worlds,
    load_data W s = Ok (Some (), s') ∧
    l_batches s' = bi ++ [[]] ++ [ws] ++ [ds] ++ bw ++ [[]] ∧
    concat bi = items ∧ Forall (λ b, length b = Z.to_nat 1000) bi ∧
    Forall2 item_entry (one_to 100000) items ∧
    warehouse_rows W ws ∧ district_rows W ds ∧
    concat bw = worlds ∧ Forall (λ b, length b = Z.to_nat 1000) bw ∧
    Forall2 world_entry (one_to 10000) worlds.
Proof.
  intros HW HW10 Hs Hnil.
  destruct (load_batched load_item item_entry (Z.to_nat 100000) s)
    as (s1 & bi & items & l1 & R1 & G1 & B1 & C1 & F1 & M1 & E1);
    [intros i Hi; apply item_step; range|done|].
  destruct (load_warehouse_rows W s1) as (s2 & ws & R2 & G2 & B2 & E2); [lia|done|].
  destruct (load_district_rows W s2) as (s3 & ds & R3 & G3 & B3 & E3); [done|done|done|].
  destruct (load_batched load_world_row world_entry (Z.to_nat 10000) s3)
    as (s4 & bw & worlds & l4 & R4 & G4 & B4 & C4 & F4 & M4 & E4);
    [intros i Hi; apply world_step|done|].
  rewrite Z2Nat.id in * by lia. change (100000 mod 1000) with 0 in M1.
  change (10000 mod 1000) with 0 in M4.
  destruct l1; [|cbn in M1; lia]. destruct l4; [|cbn in M4; lia].
  rewrite app_nil_r in C1, C4.
  exists s4, bi, items, ws, ds, bw, worlds. split_and!; try done.
  - unfold load_data. rewrite (L_step load_items _ _ _ _ R1), (L_step _ _ _ _ _ R2),
      (L_step _ _ _ _ _ R3). unfold load_customer_and_orders.
    rewrite (L_step (mret ()) _ _ () s3 eq_refl). exact R4.
  - rewrite B4, B3, B2, B1, Hnil. by rewrite <- !app_assoc.
Qed.

(** ** Properties *)

(** C21: when no call of FoundationDB fails, the loader ends and has applied: 100000 items in
    batches of a thousand, one row per warehouse, for each of the ten districts of every
    warehouse its row and a next-order-id row that agree on order id 3001, and the 10000
    World rows; prices, image ids, taxes and random numbers lie in their ranges.  No
    customer and no stock row is written. *)
Theorem loader_loads_every_row `{LoadEnvOk} `{RandROk} (W : Z) (s : lstate) :
  0 < W → W * 10 < 2 ^ 31 → in_u 32 (l_seed s) → l_batches s = [] →
  ∃ s' bi items ws ds bw worlds,
    load_data W s = Ok (Some (), s') ∧
    l_batches s' = bi ++ [[]] ++ [ws] ++ [ds] ++ bw ++ [[]] ∧
    concat bi = items ∧ Forall (λ b, length b = Z.to_nat 1000) bi ∧
    Forall2 item_entry (one_to 100000) items ∧
    warehouse_rows W ws ∧ district_rows W ds ∧
    concat bw = worlds ∧ Forall (λ b, length b = Z.to_nat 1000) bw ∧
    Forall2 world_entry (one_to 10000) worlds.
Proof. apply load_data_batches. Qed.

(** the last commit of a table is not checked: when FoundationDB refuses it, the loader
    carries on as if the rows were stored. *)
Theorem loader_ignores_a_failed_last_commit `{LoadEnv} (s : lstate) :
  le_ready (l_tick s) = 0 → le_commit (l_tick s) ≠ 0 → le_unknown (l_tick s) = false →
  ∃ s', final_commit s = Ok (Some (), s') ∧ l_batches s' = l_batches s.
Proof.
  intros Hr Hc Hu. unfold final_commit, commit, L_modify, mbind, L_bind.
  rewrite Hr, Hu. rewrite (proj2 (Z.eqb_neq _ _) Hc). cbn. by eexists.
Qed.

(** ** Witnesses *)

Definition load_env_ok : LoadEnv := Build_LoadEnv (λ _, 0) (λ _, 0) (λ _, 0) (λ _, false).
Definition load_env_refusing : LoadEnv :=
  Build_LoadEnv (λ _, 0) (λ _, 0) (λ _, 1020) (λ _, false).
Definition load_start : lstate := mk_lstate 42 [] [] 0.

Lemma loader_loads_every_row_witness :
  ∃ s' ws ds, @load_data load_env_ok rand_r_posix 2 load_start = Ok (Some (), s') ∧
    warehouse_rows 2 ws ∧ district_rows 2 ds.
Proof.
  destruct (@loader_loads_every_row load_env_ok ltac:(by split) rand_r_posix rand_r_posix_ok
    2 load_start) as (s' & bi & items & ws & ds & bw & worlds & Hrun & _ & _ & _ & _ & Hw & Hd & _).
  - lia.
  - lia.
  - by split.
  - done.
  - exists s', ws, ds. split; [exact Hrun|]. split; [exact Hw|exact Hd].
Defined.

Lemma loader_ignores_a_failed_last_commit_witness :
  ∃ s', @final_commit load_env_refusing (mk_lstate 42 [([1], [2])] [] 3) = Ok (Some (), s') ∧
    l_batches s' = [].
Proof.
  apply (@loader_ignores_a_failed_last_commit load_env_refusing
    (mk_lstate 42 [([1], [2])] [] 3)).
  - done.
  - done.
  - done.
Defined.
