(* ===== verification/Query.v ===== *)
(** * Query parameters: [get_query_param] of src/utility.c and [get_query_number] of
      src/handlers/tfb_handlers.c

    A request's path points into the connection's input buffer: [mem] is that memory
    from [req->path.base] on, of which the first [path_len] bytes are the path and the
    rest whatever the client sent next (nothing ends the path with a NUL). *)

From S2P Require Import Prelude.

Definition TFB_MAX_QUERIES : Z := 500.
Definition TFB_QUERIES_PARAMETER : list Z := bytes_of_string "queries=".

Definition AMP : Z := 38.

(** [memchr(p, c, n)] over the [n] bytes of the list: the index found. *)
Fixpoint memchr (bs : list Z) (c : Z) : option nat :=
  match bs with
  | [] => None
  | b :: bs => if b =? c then Some 0%nat else S <$> memchr bs c
  end.

(** [remaining >= name_len && memcmp(p, name, name_len) == 0]. *)
Definition starts_with (bs name : list Z) : bool :=
  (length name <=? length bs)%nat && bool_decide (take (length name) bs = name).

(** The loop of [get_query_param] from offset [p]; the outer [None] is fuel running out,
    the result the offset of the parameter's value or NULL. *)
Fixpoint get_query_param_loop (fuel : nat) (query name : list Z) (p : nat)
    : option (option nat) :=
  match fuel with
  | O => None
  | S fuel =>
      if (p <? length query)%nat then
        let rest := drop p query in
        if starts_with rest name then Some (Some (p + length name)%nat)
        else match memchr rest AMP with
             | None => Some None
             | Some next => get_query_param_loop fuel query name (p + next + 1)
             end
      else Some None
  end.

Definition get_query_param (query name : list Z) : option (option nat) :=
  get_query_param_loop (S (length query)) query name 0.

(** [atoi]: white space, a sign, decimal digits, up to the first other byte, as the C
    library's [(int)strtol(p, NULL, 10)]; it reads on past the path. *)
Definition is_space (b : Z) : bool := (b =? 32) || ((9 <=? b) && (b <=? 13)).
Definition is_digit (b : Z) : bool := (48 <=? b) && (b <=? 57).

Fixpoint digits_val (bs : list Z) (acc : Z) : outcome Z :=
  match bs with
  | [] => Ub OutOfBounds
  | b :: bs => if is_digit b then digits_val bs (acc * 10 + (b - 48)) else Ok acc
  end.

Definition clamp (lo hi x : Z) : Z := Z.max lo (Z.min hi x).

Definition atoi_result (v : Z) : Z := i32 (clamp (- 2 ^ 63) (2 ^ 63 - 1) v).

Fixpoint atoi (bs : list Z) : outcome Z :=
  match bs with
  | [] => Ub OutOfBounds
  | b :: bs' =>
      if is_space b then atoi bs'
      else if b =? 45 then v ← digits_val bs' 0; mret (atoi_result (- v))
      else if b =? 43 then v ← digits_val bs' 0; mret (atoi_result v)
      else v ← digits_val bs 0; mret (atoi_result v)
  end.

(** The request line as the handler sees it; [query_at] is SIZE_MAX without a query. *)
Record request_path : Type := mk_request_path {
  rp_mem : list Z;
  rp_len : nat;
  rp_query_at : option nat;
}.

(** The two bounds of [get_query_number]. *)
Definition bound_queries (n : Z) : Z :=
  let n := if n <? 1 then 1 else n in
  if TFB_MAX_QUERIES <? n then TFB_MAX_QUERIES else n.

(** [p += strlen(TFB_QUERIES_PARAMETER)] moves on from the value [get_query_param]
    returned. *)
Definition get_query_number (req : request_path) : outcome Z :=
  n ← match rp_query_at req with
      | Some query_at =>
          let qs := (query_at + 1)%nat in
          let qs_len := (rp_len req - query_at - 1)%nat in
          query ← peek (rp_mem req) qs qs_len;
          match get_query_param query TFB_QUERIES_PARAMETER with
          | Some (Some p) =>
              let p := (p + length TFB_QUERIES_PARAMETER)%nat in
              atoi (drop (qs + p) (rp_mem req))
          | _ => Ok 0
          end
      | None => Ok 0
      end;
  mret (bound_queries n).

(** ** What a parameter is *)

(** A parameter [name] starts at [p]: at the front of the query or after an ampersand. *)
Definition param_at (query name : list Z) (p : nat) : Prop :=
  (p < length query)%nat ∧ (p = 0%nat ∨ query !! pred p = Some AMP) ∧
  starts_with (drop p query) name = true.

(** ** Lemmas *)

Lemma memchr_Some bs c i :
  memchr bs c = Some i → bs !! i = Some c ∧ ∀ j, (j < i)%nat → bs !! j ≠ Some c.
Proof.
  revert i. induction bs as [|b bs IH]; intros i; simpl; [done|].
  destruct (Z.eqb_spec b c) as [->|Hne].
  - intros [= <-]. split; [done|]. lia.
  - destruct (memchr bs c) as [k|] eqn:E; simpl; [|done]. intros [= <-].
    destruct (IH k eq_refl) as [H1 H2]. split; [done|].
    intros [|j] Hj; simpl; [congruence|]. apply H2. lia.
Qed.

Lemma memchr_None bs c : memchr bs c = None → ∀ j, bs !! j ≠ Some c.
Proof.
  induction bs as [|b bs IH]; simpl; [done|].
  destruct (Z.eqb_spec b c) as [->|Hne]; [done|].
  destruct (memchr bs c); simpl; [done|]. intros _ [|j]; simpl; [congruence|by apply IH].
Qed.

Lemma get_query_param_loop_spec fuel query name p :
  (length query < fuel + p)%nat → (p <= length query)%nat →
  (p = 0%nat ∨ query !! pred p = Some AMP) →
  (∀ p', (p' < p)%nat → ¬ param_at query name p') →
  match get_query_param_loop fuel query name p with
  | Some (Some off) => ∃ q, param_at query name q ∧ off = (q + length name)%nat ∧
      ∀ p', (p' < q)%nat → ¬ param_at query name p'
  | Some None => ∀ q, ¬ param_at query name q
  | None => False
  end.
Proof.
  revert p. induction fuel as [|fuel IH]; intros p Hf Hle Hp Hnone;
    cbn [get_query_param_loop]; [lia|].
  destruct (Nat.ltb_spec p (length query)) as [Hlt|Hge].
  2: { intros q Hq. pose proof Hq as [Hq' _]. apply (Hnone q); [lia|done]. }
  destruct (starts_with (drop p query) name) eqn:Hsw.
  { exists p. by split_and!. }
  destruct (memchr (drop p query) AMP) as [next|] eqn:Hm.
  - apply memchr_Some in Hm as [Hamp Hbefore]. rewrite lookup_drop in Hamp.
    pose proof (lookup_lt_Some _ _ _ Hamp).
    apply IH; [lia|lia|right; by replace (pred (p + next + 1)) with (p + next)%nat by lia|].
    intros p' Hp' Hat. destruct (decide (p' < p)%nat); [by eapply Hnone|].
    destruct Hat as (_ & Hstart & Hsw'). destruct (decide (p' = p)) as [->|]; [congruence|].
    destruct Hstart as [->|Hstart]; [lia|].
    apply (Hbefore (pred p' - p)%nat); [lia|]. rewrite lookup_drop.
    by replace (p + (pred p' - p))%nat with (pred p') by lia.
  - intros q Hat. destruct (decide (q < p)%nat); [by eapply Hnone|].
    destruct Hat as (_ & Hstart & Hsw'). destruct (decide (q = p)) as [->|]; [congruence|].
    destruct Hstart as [->|Hstart]; [lia|].
    apply (memchr_None _ _ Hm (pred q - p)%nat). rewrite lookup_drop.
    by replace (p + (pred q - p))%nat with (pred q) by lia.
Qed.

Lemma get_query_param_spec query name :
  match get_query_param query name with
  | Some (Some off) => ∃ q, param_at query name q ∧ off = (q + length name)%nat ∧
      ∀ p', (p' < q)%nat → ¬ param_at query name p'
  | Some None => ∀ q, ¬ param_at query name q
  | None => False
  end.
Proof.
  pose proof (get_query_param_loop_spec (S (length query)) query name 0) as H.
  apply H; [lia|lia|by left|lia].
Qed.

Lemma bound_queries_range n : 1 <= bound_queries n <= 500.
Proof.
  unfold bound_queries, TFB_MAX_QUERIES. destruct (Z.ltb_spec n 1).
  - simpl. lia.
  - destruct (Z.ltb_spec 500 n); lia.
Qed.

Lemma get_query_number_range req n : get_query_number req = Ok n → 1 <= n <= 500.
Proof.
  unfold get_query_number. intros Hn. apply outcome_bind_inv in Hn as (m & _ & Hn).
  injection Hn as <-. apply bound_queries_range.
Qed.

Lemma digits_val_ub bs acc u : digits_val bs acc = Ub u → u = OutOfBounds.
Proof.
  revert acc. induction bs as [|b bs IH]; intros acc; cbn; [by intros [= <-]|].
  destruct (is_digit b); [apply IH|done].
Qed.

(** [atoi] of a terminated string is defined. *)
Lemma atoi_str_Ok bs : ∃ v, atoi (bs ++ [0]) = Ok v.
Proof.
  assert (∀ l acc, ∃ v, digits_val (l ++ [0]) acc = Ok v) as Hd.
  { induction l as [|b l IH]; intros acc; cbn; [by eexists|].
    destruct (is_digit b); [apply IH|by eexists]. }
  induction bs as [|b bs IH]; [by eexists|]. cbn [app atoi]. destruct (is_space b); [done|].
  destruct (Hd bs 0) as [v Hv], (Hd (b :: bs) 0) as [v' Hv'].
  cbn [app] in Hv'. rewrite Hv, Hv'. cbn. repeat case_match; by eexists.
Qed.

Lemma atoi_ub bs u : atoi bs = Ub u → u = OutOfBounds.
Proof.
  induction bs as [|b bs IH]; cbn -[digits_val]; [by intros [= <-]|].
  destruct (is_space b); [done|].
  destruct (b =? 45); [|destruct (b =? 43)]; destruct (digits_val _ _) eqn:E;
    cbn; intros [= <-]; by eapply digits_val_ub.
Qed.

(** Reading a malformed request can only run past the buffer. *)
Lemma get_query_number_ub req u : get_query_number req = Ub u → u = OutOfBounds.
Proof.
  unfold get_query_number, peek. destruct (rp_query_at req) as [at_|]; [|done].
  destruct (_ <=? _)%nat; cbn [mbind outcome_bind]; [|by intros [= <-]].
  destruct (get_query_param _ _) as [[p|]|]; [|done|done].
  destruct (atoi _) as [v|u'] eqn:E; cbn; intros [= <-]. by eapply atoi_ub.
Qed.

Lemma starts_with_app name rest : starts_with (name ++ rest) name = true.
Proof.
  unfold starts_with. rewrite length_app, take_app_length.
  rewrite (proj2 (Nat.leb_le _ _)) by lia. by apply bool_decide_eq_true.
Qed.

(** ** Properties *)

(** C38: [get_query_param] terminates and finds the first occurrence of the parameter,
    anchored at the front of the query or after an ampersand: it returns the offset of
    that parameter's value, or NULL exactly when there is none. *)
Theorem get_query_param_finds_first (query name : list Z) :
  match get_query_param query name with
  | Some (Some off) => ∃ q, param_at query name q ∧ off = (q + length name)%nat ∧
      ∀ p, (p < q)%nat → ¬ param_at query name p
  | Some None => ∀ q, ¬ param_at query name q
  | None => False
  end.
Proof. apply get_query_param_spec. Qed.

(** [get_query_number] skips the parameter name twice: for a path whose query starts
    with "queries=", it converts the bytes from the ninth one after the value's start
    on, whatever lies there, and not the value; the result is always within 1..500. *)
Theorem get_query_number_skips_value (path_pre value after : list Z) (n : Z) :
  let path := path_pre ++ [63] ++ TFB_QUERIES_PARAMETER ++ value in
  atoi (drop 8 (value ++ after)) = Ok n →
  get_query_number (mk_request_path (path ++ after) (length path) (Some (length path_pre)))
    = Ok (bound_queries n) ∧ 1 <= bound_queries n <= 500.
Proof.
  intros path Hn. split; [|apply bound_queries_range].
  unfold get_query_number; cbn [rp_query_at rp_mem rp_len].
  set (query := TFB_QUERIES_PARAMETER ++ value).
  assert (length path = (length path_pre + 1 + length query)%nat) as Hlen.
  { unfold path. rewrite !length_app. simpl. lia. }
  assert (drop (length path_pre + 1) (path ++ after) = query ++ after) as Hdrop.
  { replace (path ++ after) with ((path_pre ++ [63]) ++ query ++ after)
      by (unfold path, query; by rewrite <- !app_assoc).
    replace (length path_pre + 1)%nat with (length (path_pre ++ [63]))
      by (by rewrite length_app). by rewrite drop_app_length. }
  unfold peek. replace (length path - length path_pre - 1)%nat with (length query) by lia.
  rewrite (proj2 (Nat.leb_le _ _)) by (rewrite length_app; lia).
  rewrite Hdrop, take_app_length. cbn [mbind outcome_bind].
  assert (get_query_param query TFB_QUERIES_PARAMETER = Some (Some 8%nat)) as ->.
  { unfold get_query_param, query. cbn [get_query_param_loop].
    rewrite (proj2 (Nat.ltb_lt _ _)) by (rewrite length_app; simpl; lia).
    by rewrite drop_0, starts_with_app. }
  change (8 + length TFB_QUERIES_PARAMETER)%nat with 16%nat.
  rewrite <- drop_drop, Hdrop. unfold query.
  change 16%nat with (length TFB_QUERIES_PARAMETER + 8)%nat.
  by rewrite <- app_assoc, drop_app_add, Hn.
Qed.

(** ** Witness: a GET of twenty queries over HTTP/1.1 reads the "1" of "1.1" *)

Lemma get_query_number_skips_value_witness :
  get_query_number (mk_request_path
    (bytes_of_string "/queries?queries=20 HTTP/1.1 ") 19 (Some 8%nat)) = Ok 1.
Proof.
  destruct (get_query_number_skips_value (bytes_of_string "/queries")
    (bytes_of_string "20") (bytes_of_string " HTTP/1.1 ") 1) as [H _].
  - vm_compute. reflexivity.
  - exact H.
Defined.
