(* ===== verification/LoaderMain.v ===== *)
(** * The loader's [main]: src/tpcc_loader.c

    The command line, the FDB network around the load, and the exit codes.  [load_data]
    (Loader) is the load between the connection and the disconnection. *)

From S2P Require Import Prelude Kv Random Values Query Loader.
#[local] Open Scope Z_scope.

(** What [main] calls once each; the database and the network are libfdb_c's. *)
Class LoadHost := {
  lh_select_api : Z;
  lh_setup_network : Z;
  lh_create_database : Z;
  lh_stop_network : Z;
}.

(** [strncmp(arg, opt, 2) == 0] for the two letters of [opt], and [arg + 2]. *)
Definition option_value (opt arg : list Z) : option (list Z) :=
  match arg with
  | a :: b :: rest => if bool_decide ([a; b] = opt) then Some rest else None
  | _ => None
  end.

(** The loop over [argv]: [W] and the cluster file. *)
Fixpoint loader_options (args : list (list Z)) (W : Z) (cluster_file : list Z)
    : outcome (Z * list Z) :=
  match args with
  | [] => mret (W, cluster_file)
  | arg :: args =>
      match option_value [45; 119] arg with
      | Some n => W ← atoi (n ++ [0]); loader_options args W cluster_file
      | None =>
          match option_value [45; 99] arg with
          | Some f => loader_options args W f
          | None => loader_options args W cluster_file
          end
      end
  end.

Section loader_main.
Context `{LoadHost} `{LoadEnv} `{RandR}.

(** The exit code of the process is 0 when it ends with [Some ()], 1 with [None]. *)
Definition loader_main (args : list (list Z)) : L () :=
  '(W, _) ← L_lift (loader_options args 1 (bytes_of_string "/etc/foundationdb/fdb.cluster"));
  _ ← check_fdb lh_select_api;
  _ ← check_fdb lh_setup_network;
  _ ← check_fdb lh_create_database;
  _ ← load_data W;
  check_fdb lh_stop_network.

(** ** Lemmas *)

Lemma loader_options_Ok args W cf : ∃ r, loader_options args W cf = Ok r.
Proof.
  revert W cf. induction args as [|arg args IH]; intros W cf; cbn; [by eexists|].
  destruct (option_value _ arg) as [n|]; [|destruct (option_value _ arg); apply IH].
  destruct (atoi_str_Ok n) as [v ->]. apply IH.
Qed.

Lemma check_fdb_zero err (s : lstate) : err = 0 → check_fdb err s = Ok (Some (), s).
Proof. by intros ->. Qed.
Lemma check_fdb_error err (s : lstate) : err ≠ 0 → check_fdb err s = Ok (None, s).
Proof. intros He. unfold check_fdb. by rewrite (proj2 (Z.eqb_neq _ _)). Qed.

Lemma L_exit {A B} (m : L A) (k : A → L B) s s' :
  m s = Ok (None, s') → (m ≫= k) s = Ok (None, s').
Proof. intros Hm. unfold mbind, L_bind. by rewrite Hm. Qed.

(** The start of [main] with arguments that ask for [W] warehouses. *)
Lemma loader_main_start args W cf s :
  loader_options args 1 (bytes_of_string "/etc/foundationdb/fdb.cluster") = Ok (W, cf) →
  loader_main args s =
    (_ ← check_fdb lh_select_api; _ ← check_fdb lh_setup_network;
     _ ← check_fdb lh_create_database; _ ← load_data W; check_fdb lh_stop_network) s.
Proof. intros Ho. unfold loader_main. rewrite Ho. reflexivity. Qed.
End loader_main.

(** ** Properties *)

Section properties.
Context `{LoadHost}.

(** the loader's [main].  A failure of the API version, the network or the database ends
    the process with code 1 before anything is stored.  Otherwise it stores what
    [load_data] stores; a failure to stop the network turns the code into 1 although
    everything has been stored. *)
Theorem loader_main_exit_codes `{LoadEnv} `{RandR} (args : list (list Z)) (W : Z)
    (cf : list Z) (s : lstate) :
  loader_options args 1 (bytes_of_string "/etc/foundationdb/fdb.cluster") = Ok (W, cf) →
  (lh_select_api ≠ 0 ∨ lh_setup_network ≠ 0 ∨ lh_create_database ≠ 0 →
    loader_main args s = Ok (None, s)) ∧
  (lh_select_api = 0 → lh_setup_network = 0 → lh_create_database = 0 →
    loader_main args s = (_ ← load_data W; check_fdb lh_stop_network) s ∧
    ∀ s', load_data W s = Ok (Some (), s') →
      loader_main args s = Ok (if lh_stop_network =? 0 then Some () else None, s')).
Proof.
  intros Ho. rewrite (loader_main_start args W cf) by done. split.
  - intros Hf. destruct (decide (lh_select_api = 0)) as [E1|E1];
      [rewrite (L_step _ _ _ _ _ (check_fdb_zero _ s E1))
      |by apply L_exit, check_fdb_error].
    destruct (decide (lh_setup_network = 0)) as [E2|E2];
      [rewrite (L_step _ _ _ _ _ (check_fdb_zero _ s E2))
      |by apply L_exit, check_fdb_error].
    apply L_exit, check_fdb_error. naive_solver.
  - intros E1 E2 E3. rewrite (L_step _ _ _ _ _ (check_fdb_zero _ s E1)),
      (L_step _ _ _ _ _ (check_fdb_zero _ s E2)), (L_step _ _ _ _ _ (check_fdb_zero _ s E3)).
    split; [done|]. intros s' Hs'. rewrite (L_step _ _ _ _ _ Hs'). unfold check_fdb.
    by destruct (_ =? 0).
Qed.
End properties.

(** ** Witness *)

(** A network that cannot be stopped, and one that cannot be started. *)
Definition host_stuck : LoadHost := Build_LoadHost 0 0 0 2103.
Definition host_none : LoadHost := Build_LoadHost 0 2009 0 0.
Definition loader_args : list (list Z) := [bytes_of_string "-w2"; bytes_of_string "-cfdb"].

Lemma loader_main_exit_codes_witness :
  @loader_main host_none load_env_ok rand_r_posix loader_args load_start = Ok (None, load_start) ∧
  ∃ s', @loader_main host_stuck load_env_ok rand_r_posix loader_args load_start = Ok (None, s') ∧
    @load_data load_env_ok rand_r_posix 2 load_start = Ok (Some (), s').
Proof.
  split.
  - apply (proj1 (@loader_main_exit_codes host_none load_env_ok rand_r_posix loader_args 2
      (bytes_of_string "fdb") load_start eq_refl)). by right; left.
  - destruct (@load_data_batches load_env_ok ltac:(by split) rand_r_posix rand_r_posix_ok 2
      load_start) as (s' & _ & _ & _ & _ & _ & _ & Hrun & _); [lia|lia|by split|done|].
    exists s'. split; [|exact Hrun].
    apply (proj2 (@loader_main_exit_codes host_stuck load_env_ok rand_r_posix loader_args 2
      (bytes_of_string "fdb") load_start eq_refl)); [done|done|done|exact Hrun].
Defined.
