(* ===== verification/Ring.v ===== *)
(** * The SPSC ring buffer: src/spsc_ring.c and src/spsc_ring.h

    Two views of one data structure.  [spsc_ring_push] and [spsc_ring_pop] are the
    C functions run without interruption.  [rstep] runs them one atomic access at
    a time, producer and consumer interleaved, where an acquire load returns any
    value of the other thread's counter not older than the last one read (the
    release/acquire memory of C11: the counters have one writer each, so a load
    ranges over the stores of that writer in order).  Slots are plain memory.

    [head] and [tail] are 64-bit and wrap around; items are pointers, NULL is 0. *)

From S2P Require Import Prelude.

(** ** The C functions *)

Record spsc_ring_t : Type := mk_ring {
  slots : list Z;
  mask : Z;
  head : Z;
  tail : Z;
}.

(** [slots[i]] read and written. *)
Definition slot_get (sl : list Z) (i : Z) : outcome Z :=
  from_option_or OutOfBounds (sl !! Z.to_nat i).
Definition slot_set (sl : list Z) (i x : Z) : outcome (list Z) :=
  if (Z.to_nat i <? length sl)%nat then Ok (<[Z.to_nat i := x]> sl) else Ub OutOfBounds.

Definition spsc_ring_init (sl : list Z) (capacity : Z) : outcome spsc_ring_t :=
  _ ← assert_or Aborted
        ((0 <? capacity) && (Z.land capacity (u64 (capacity - 1)) =? 0));
  mret (mk_ring sl (u64 (capacity - 1)) 0 0).

Definition spsc_ring_push (ring : spsc_ring_t) (item : Z) : outcome (spsc_ring_t * bool) :=
  let h := head ring in
  let t := tail ring in
  if u64 (mask ring + 1) <=? u64 (h - t) then Ok (ring, false)
  else
    sl ← slot_set (slots ring) (Z.land h (mask ring)) item;
    mret (mk_ring sl (mask ring) (u64 (h + 1)) (tail ring), true).

Definition spsc_ring_pop (ring : spsc_ring_t) : outcome (spsc_ring_t * Z) :=
  let t := tail ring in
  let h := head ring in
  if t =? h then Ok (ring, 0)
  else
    item ← slot_get (slots ring) (Z.land t (mask ring));
    mret (mk_ring (slots ring) (mask ring) (head ring) (u64 (t + 1)), item).

Definition spsc_ring_size (ring : spsc_ring_t) : Z := u64 (head ring - tail ring).

Definition spsc_ring_empty (ring : spsc_ring_t) : bool := spsc_ring_size ring =? 0.

(** ** The two threads, one memory access at a time *)

(** Where the producer is in [spsc_ring_push], with its locals. *)
Inductive ppc : Type :=
  | PIdle
  | PHead (item h : Z)
  | PReady (item h : Z)
  | PWritten (item h : Z).

(** Where the consumer is in [spsc_ring_pop]. *)
Inductive cpc : Type :=
  | CIdle
  | CTail (t : Z)
  | CReady (t : Z)
  | CRead (t x : Z).

(** [r_heads] and [r_tails] are the values stored to the two counters, oldest first;
    [r_pview] and [r_cview] the positions of the newest store of the other thread each
    thread has read.  [r_accepted] and [r_taken] log the items of the pushes that
    returned true and the items the pops returned. *)
Record rstate : Type := mk_rstate {
  r_slots : list Z;
  r_mask : Z;
  r_heads : list Z;
  r_tails : list Z;
  r_pview : nat;
  r_cview : nat;
  r_ppc : ppc;
  r_cpc : cpc;
  r_accepted : list Z;
  r_taken : list Z;
}.

Inductive rlabel : Type :=
  | LPush (item : Z)      (** call push; load head (relaxed, own variable) *)
  | LLoadTail (i : nat)   (** load tail (acquire), reading the [i]-th store; test full *)
  | LWrite                (** write the slot *)
  | LPublish              (** store head (release); return true *)
  | LPop                  (** call pop; load tail (relaxed, own variable) *)
  | LLoadHead (i : nat)   (** load head (acquire), reading the [i]-th store; test empty *)
  | LRead                 (** read the slot *)
  | LRelease.             (** store tail (release); return the item *)

(** The newest store: what the writer of a counter reads back. *)
Definition newest (stores : list Z) : option Z := stores !! pred (length stores).
Arguments newest : simpl never.
#[local] Arguments Nat.ltb : simpl never.
#[local] Arguments Z.leb : simpl never.
#[local] Arguments Z.eqb : simpl never.

(** [None]: the step is not enabled. *)
Definition rstep (l : rlabel) (s : rstate) : option (outcome rstate) :=
  match s with
  | mk_rstate sl m hs ts pv cv pp cp acc tk =>
  match l, pp, cp with
  | LPush item, PIdle, _ =>
      match newest hs with
      | Some h => Some (Ok (mk_rstate sl m hs ts pv cv (PHead item h) cp acc tk))
      | None => None
      end
  | LLoadTail i, PHead item h, _ =>
      match ts !! i with
      | Some t =>
          if (i <? pv)%nat then None
          else Some (Ok (mk_rstate sl m hs ts i cv
            (if u64 (m + 1) <=? u64 (h - t) then PIdle else PReady item h) cp acc tk))
      | None => None
      end
  | LWrite, PReady item h, _ =>
      Some (match slot_set sl (Z.land h m) item with
            | Ok sl' => Ok (mk_rstate sl' m hs ts pv cv (PWritten item h) cp acc tk)
            | Ub u => Ub u
            end)
  | LPublish, PWritten item h, _ =>
      Some (Ok (mk_rstate sl m (hs ++ [u64 (h + 1)]) ts pv cv PIdle cp (acc ++ [item]) tk))
  | LPop, _, CIdle =>
      match newest ts with
      | Some t => Some (Ok (mk_rstate sl m hs ts pv cv pp (CTail t) acc tk))
      | None => None
      end
  | LLoadHead i, _, CTail t =>
      match hs !! i with
      | Some h =>
          if (i <? cv)%nat then None
          else Some (Ok (mk_rstate sl m hs ts pv i pp
            (if t =? h then CIdle else CReady t) acc tk))
      | None => None
      end
  | LRead, _, CReady t =>
      Some (match slot_get sl (Z.land t m) with
            | Ok x => Ok (mk_rstate sl m hs ts pv cv pp (CRead t x) acc tk)
            | Ub u => Ub u
            end)
  | LRelease, _, CRead t x =>
      Some (Ok (mk_rstate sl m hs (ts ++ [u64 (t + 1)]) pv cv pp CIdle acc (tk ++ [x])))
  | _, _, _ => None
  end
  end.

(** The state after [spsc_ring_init], and the states the two threads can reach. *)
Definition rstart (r : spsc_ring_t) : rstate :=
  mk_rstate (slots r) (mask r) [head r] [tail r] 0 0 PIdle CIdle [] [].

Inductive rreach (s0 : rstate) : rstate → Prop :=
  | rreach_refl : rreach s0 s0
  | rreach_step s l s' : rreach s0 s → rstep l s = Some (Ok s') → rreach s0 s'.

(** A sequence of steps, [None] when one of them is not enabled or faults. *)
Fixpoint rrun (ls : list rlabel) (s : rstate) : option rstate :=
  match ls with
  | [] => Some s
  | l :: ls => match rstep l s with Some (Ok s') => rrun ls s' | _ => None end
  end.

(** The C structure the state holds: the newest stores of the two counters. *)
Definition ring_of (s : rstate) : spsc_ring_t :=
  mk_ring (r_slots s) (r_mask s) (default 0 (newest (r_heads s)))
    (default 0 (newest (r_tails s))).

(** Loads that read the newest store: the steps of one uninterrupted call. *)
Definition push_steps (item : Z) (s : rstate) : list rlabel :=
  [LPush item; LLoadTail (pred (length (r_tails s)))].
Definition pop_steps (s : rstate) : list rlabel :=
  [LPop; LLoadHead (pred (length (r_heads s)))].

(** ** The abstract queue *)

Module spec.
Definition push (cap : nat) (q : list Z) (x : Z) : list Z * bool :=
  if (length q <? cap)%nat then (q ++ [x], true) else (q, false).
Definition pop (q : list Z) : list Z * Z :=
  match q with [] => ([], 0) | x :: q => (q, x) end.
End spec.

(** A power-of-two capacity that leaves the counters room to be compared. *)
Definition capacity_ok (cap : nat) : Prop := ∃ k, 0 <= k <= 63 ∧ Z.of_nat cap = 2 ^ k.

(** The items in flight when [n] items have been accepted and [t] taken: item [i] lies
    in slot [i mod cap]. *)
Definition holds (sl : list Z) (cap : nat) (t n : nat) (hist : list Z) : Prop :=
  ∀ i, (t <= i < n)%nat → sl !! (i mod cap)%nat = hist !! i.

(** A ring holds a queue: the counters are the wrapped numbers of items accepted and
    taken, the slots hold the items between. *)
Definition ring_holds (cap : nat) (r : spsc_ring_t) (q : list Z) : Prop :=
  ∃ (hist : list Z) (t : nat),
    length (slots r) = cap ∧ mask r = Z.of_nat cap - 1 ∧
    head r = u64 (Z.of_nat (length hist)) ∧ tail r = u64 (Z.of_nat t) ∧
    (t <= length hist <= t + cap)%nat ∧
    holds (slots r) cap t (length hist) hist ∧ q = drop t hist.

(** The values stored to a counter by the first [n] operations: 0, 1, .. wrapped. *)
Definition counters (n : nat) : list Z := (λ i, u64 (Z.of_nat i)) <$> seq 0 (S n).
Arguments counters : simpl never.

(** What the interleaved execution keeps: the counters are the wrapped numbers of
    items accepted and taken, each thread's view lies between what it has used and
    what exists, and the slots between are those of the accepted items. *)
Record ring_inv (cap : nat) (s : rstate) : Prop := {
  inv_slots : length (r_slots s) = cap;
  inv_mask : r_mask s = Z.of_nat cap - 1;
  inv_heads : r_heads s = counters (length (r_accepted s));
  inv_tails : r_tails s = counters (length (r_taken s));
  inv_views : (r_pview s <= length (r_taken s) <= r_cview s)%nat ∧
    (r_cview s <= length (r_accepted s) <= r_pview s + cap)%nat;
  inv_taken : r_taken s = take (length (r_taken s)) (r_accepted s);
  inv_holds : holds (r_slots s) cap (length (r_taken s)) (length (r_accepted s))
    (r_accepted s);
  inv_ppc : match r_ppc s with
    | PIdle => True
    | PHead _ h => h = u64 (Z.of_nat (length (r_accepted s)))
    | PReady _ h => h = u64 (Z.of_nat (length (r_accepted s))) ∧
        (length (r_accepted s) < r_pview s + cap)%nat
    | PWritten item h => h = u64 (Z.of_nat (length (r_accepted s))) ∧
        (length (r_accepted s) < r_pview s + cap)%nat ∧
        r_slots s !! (length (r_accepted s) mod cap)%nat = Some item
    end;
  inv_cpc : match r_cpc s with
    | CIdle => True
    | CTail t => t = u64 (Z.of_nat (length (r_taken s)))
    | CReady t => t = u64 (Z.of_nat (length (r_taken s))) ∧
        (length (r_taken s) < r_cview s)%nat
    | CRead t x => t = u64 (Z.of_nat (length (r_taken s))) ∧
        (length (r_taken s) < r_cview s)%nat ∧
        r_accepted s !! length (r_taken s) = Some x
    end;
}.

(** ** Lemmas: counters and slots *)

Section ring_lemmas.
Context (cap : nat) (Hcap : capacity_ok cap).

Lemma capacity_bounds : (0 < cap)%nat ∧ Z.of_nat cap <= 2 ^ 63.
Proof.
  destruct Hcap as (k & Hk & E).
  assert (2 ^ 0 <= 2 ^ k) by (apply Z.pow_le_mono_r; lia).
  assert (2 ^ k <= 2 ^ 63) by (apply Z.pow_le_mono_r; lia). lia.
Qed.

(** [counter & mask] is the item number modulo the capacity. *)
Lemma slot_index n :
  Z.to_nat (Z.land (u64 (Z.of_nat n)) (Z.of_nat cap - 1)) = (n mod cap)%nat.
Proof.
  destruct Hcap as (k & Hk & E). pose proof capacity_bounds as [Hc _].
  rewrite E. change (2 ^ k - 1) with (Z.pred (2 ^ k)).
  rewrite <- Z.ones_equiv, Z.land_ones by lia. unfold wrap_u.
  rewrite Z.mod_mod_divide.
  - rewrite <- E, <- Nat2Z.inj_mod, Nat2Z.id. done.
  - exists (2 ^ (64 - k)). rewrite <- Z.pow_add_r by lia. f_equal. lia.
Qed.

Lemma slot_index_lt n : (n mod cap < cap)%nat.
Proof. pose proof capacity_bounds as [? _]. apply Nat.mod_upper_bound. lia. Qed.

(** Items less than a capacity apart lie in different slots. *)
Lemma slot_index_ne n m : (n < m < n + cap)%nat → (n mod cap ≠ m mod cap)%nat.
Proof.
  intros Hnm E. pose proof capacity_bounds as [? _].
  pose proof (Nat.div_mod_eq n cap). pose proof (Nat.div_mod_eq m cap).
  assert (n / cap < m / cap)%nat by nia. nia.
Qed.

(** The difference of two wrapped counters at most a capacity apart. *)
Lemma counter_diff n m :
  (m <= n <= m + cap)%nat →
  u64 (u64 (Z.of_nat n) - u64 (Z.of_nat m)) = Z.of_nat (n - m).
Proof.
  intros Hnm. pose proof capacity_bounds as [_ Hc]. unfold wrap_u.
  rewrite <- Zminus_mod, Z.mod_small; lia.
Qed.

Lemma counter_full n m :
  (m <= n <= m + cap)%nat →
  (u64 (Z.of_nat cap - 1 + 1) <=? u64 (u64 (Z.of_nat n) - u64 (Z.of_nat m))) =
    (cap <=? n - m)%nat.
Proof.
  intros Hnm. pose proof capacity_bounds as [_ Hc].
  rewrite counter_diff, wrap_u_id by (done || range).
  destruct (Z.leb_spec (Z.of_nat cap - 1 + 1) (Z.of_nat (n - m))),
    (Nat.leb_spec cap (n - m)); lia.
Qed.

Lemma counter_eq n m :
  (m <= n <= m + cap)%nat → (u64 (Z.of_nat m) =? u64 (Z.of_nat n)) = (m =? n)%nat.
Proof.
  intros Hnm. destruct (Nat.eqb_spec m n) as [->|Hne]; [apply Z.eqb_refl|].
  apply Z.eqb_neq. intros E. pose proof (counter_diff n m Hnm) as Hd.
  rewrite E, Z.sub_diag in Hd. change (u64 0) with 0 in Hd. lia.
Qed.

Lemma counter_next n : u64 (u64 (Z.of_nat n) + 1) = u64 (Z.of_nat (S n)).
Proof. unfold wrap_u. rewrite Zplus_mod_idemp_l. f_equal. lia. Qed.

Lemma slot_set_item sl n x :
  length sl = cap →
  slot_set sl (Z.land (u64 (Z.of_nat n)) (Z.of_nat cap - 1)) x =
    Ok (<[(n mod cap)%nat := x]> sl).
Proof.
  intros Hl. unfold slot_set. rewrite slot_index, Hl.
  by rewrite (proj2 (Nat.ltb_lt _ _)) by apply slot_index_lt.
Qed.

Lemma slot_get_item sl t n hist i :
  holds sl cap t n hist → (t <= i < n)%nat → (n <= length hist)%nat →
  ∃ x, slot_get sl (Z.land (u64 (Z.of_nat i)) (Z.of_nat cap - 1)) = Ok x ∧
    hist !! i = Some x.
Proof.
  intros Hh Hi Hn. unfold slot_get. rewrite slot_index, (Hh i Hi).
  destruct (lookup_lt_is_Some_2 hist i) as [x ->]; [lia|]. by exists x.
Qed.

(** Writing the next item's slot keeps the items in flight. *)
Lemma holds_write sl t n hist x :
  holds sl cap t n hist → (n < t + cap)%nat → length sl = cap →
  holds (<[(n mod cap)%nat := x]> sl) cap t n hist.
Proof.
  intros Hh Hn Hl i Hi. rewrite list_lookup_insert_ne; [by apply Hh|].
  apply not_eq_sym, slot_index_ne. lia.
Qed.

Lemma holds_publish sl t n hist x :
  holds sl cap t n hist → length hist = n → sl !! (n mod cap)%nat = Some x →
  holds sl cap t (S n) (hist ++ [x]).
Proof.
  intros Hh Hn Hx i Hi. destruct (decide (i = n)) as [->|Hne].
  - rewrite Hx, lookup_app_r, Hn, Nat.sub_diag by lia. done.
  - rewrite lookup_app_l by lia. apply Hh. lia.
Qed.

Lemma holds_release sl t n hist : holds sl cap t n hist → holds sl cap (S t) n hist.
Proof. intros Hh i Hi. apply Hh. lia. Qed.
End ring_lemmas.

(** The counter stores: the [i]-th store wrote the wrapped [i]. *)
Lemma counters_lookup n i c :
  counters n !! i = Some c → (i <= n)%nat ∧ c = u64 (Z.of_nat i).
Proof.
  unfold counters. rewrite list_lookup_fmap, fmap_Some. intros (k & Hk & ->).
  apply lookup_seq in Hk as [-> Hi]. simpl. split; [lia|done].
Qed.

Lemma counters_last n : newest (counters n) = Some (u64 (Z.of_nat n)).
Proof.
  unfold newest, counters. rewrite length_fmap, length_seq, list_lookup_fmap.
  rewrite lookup_seq_lt by lia. done.
Qed.

Lemma counters_snoc n :
  counters n ++ [u64 (u64 (Z.of_nat n) + 1)] = counters (S n).
Proof. unfold counters. rewrite (seq_S (S n)), fmap_app, counter_next. done. Qed.

Section ring_invariant.
Context (cap : nat) (Hcap : capacity_ok cap).

Lemma ring_inv_start sl :
  length sl = cap → ring_inv cap (rstart (mk_ring sl (Z.of_nat cap - 1) 0 0)).
Proof.
  intros Hl. split; simpl; try done.
  - lia.
  - intros i Hi. simpl in Hi. lia.
Qed.

(** Producer steps. *)
Lemma ring_inv_push item s s' :
  ring_inv cap s → rstep (LPush item) s = Some s' → ∃ s2, s' = Ok s2 ∧ ring_inv cap s2.
Proof.
  intros [] Hs. destruct s; cbn in *. destruct r_ppc0; try discriminate Hs.
  rewrite inv_heads0, counters_last in Hs. injection Hs as <-.
  eexists; split; [done|]. by split.
Qed.

Lemma ring_inv_load_tail i s s' :
  ring_inv cap s → rstep (LLoadTail i) s = Some s' → ∃ s2, s' = Ok s2 ∧ ring_inv cap s2.
Proof.
  intros [] Hs. destruct s; cbn in *. destruct r_ppc0; try discriminate Hs.
  destruct (r_tails0 !! i) as [t|] eqn:Ht; [|discriminate].
  rewrite inv_tails0 in Ht. apply counters_lookup in Ht as [Hi ->].
  destruct (Nat.ltb_spec i r_pview0); [discriminate|]. injection Hs as <-.
  eexists; split; [done|]. subst h r_mask0.
  rewrite counter_full by (done || lia).
  destruct (Nat.leb_spec cap (length r_accepted0 - i)); split; cbn; try done; lia.
Qed.

Lemma ring_inv_write s s' :
  ring_inv cap s → rstep LWrite s = Some s' → ∃ s2, s' = Ok s2 ∧ ring_inv cap s2.
Proof.
  intros [] Hs. destruct s; cbn in *. destruct r_ppc0; try discriminate Hs.
  destruct inv_ppc0 as [-> Hr]. subst r_mask0.
  rewrite slot_set_item in Hs by done. injection Hs as <-.
  eexists; split; [done|].
  split; cbn; rewrite ?length_insert; try done.
  - apply holds_write; (done || lia).
  - split; [done|]. split; [done|]. apply list_lookup_insert_eq.
    rewrite inv_slots0. by apply slot_index_lt.
Qed.

Lemma ring_inv_publish s s' :
  ring_inv cap s → rstep LPublish s = Some s' → ∃ s2, s' = Ok s2 ∧ ring_inv cap s2.
Proof.
  intros [] Hs. destruct s; cbn in *. destruct r_ppc0; try discriminate Hs.
  destruct inv_ppc0 as (-> & Hr & Hx). injection Hs as <-.
  eexists; split; [done|].
  split; cbn; rewrite ?length_app; simpl; rewrite ?Nat.add_1_r; try done; try lia.
  - by rewrite inv_heads0, counters_snoc.
  - rewrite take_app_le by lia. done.
  - by apply holds_publish.
  - destruct r_cpc0; try done. destruct inv_cpc0 as (? & ? & ?).
    split; [done|]. split; [done|]. by apply lookup_app_l_Some.
Qed.

(** Consumer steps. *)
Lemma ring_inv_pop s s' :
  ring_inv cap s → rstep LPop s = Some s' → ∃ s2, s' = Ok s2 ∧ ring_inv cap s2.
Proof.
  intros [] Hs. destruct s; cbn in *. destruct r_cpc0; try (by destruct r_ppc0).
  assert (match newest r_tails0 with
    | Some t => Some (Ok (mk_rstate r_slots0 r_mask0 r_heads0 r_tails0 r_pview0 r_cview0
        r_ppc0 (CTail t) r_accepted0 r_taken0))
    | None => None end = Some s') as Hs' by (by destruct r_ppc0). clear Hs.
  rewrite inv_tails0, counters_last in Hs'. injection Hs' as <-.
  eexists; split; [done|]. by split.
Qed.

Lemma ring_inv_load_head i s s' :
  ring_inv cap s → rstep (LLoadHead i) s = Some s' → ∃ s2, s' = Ok s2 ∧ ring_inv cap s2.
Proof.
  intros [] Hs. destruct s; cbn in *. destruct r_cpc0; try (by destruct r_ppc0).
  assert (match r_heads0 !! i with
    | Some h => if (i <? r_cview0)%nat then None
        else Some (Ok (mk_rstate r_slots0 r_mask0 r_heads0 r_tails0 r_pview0 i
          r_ppc0 (if t =? h then CIdle else CReady t) r_accepted0 r_taken0))
    | None => None end = Some s') as Hs' by (by destruct r_ppc0). clear Hs.
  destruct (r_heads0 !! i) as [h|] eqn:Hh; [|discriminate].
  rewrite inv_heads0 in Hh. apply counters_lookup in Hh as [Hi ->].
  destruct (Nat.ltb_spec i r_cview0); [discriminate|]. injection Hs' as <-.
  eexists; split; [done|]. subst t. rewrite (counter_eq cap) by (done || lia).
  destruct (Nat.eqb_spec (length r_taken0) i); split; cbn; try done; lia.
Qed.

Lemma ring_inv_read s s' :
  ring_inv cap s → rstep LRead s = Some s' → ∃ s2, s' = Ok s2 ∧ ring_inv cap s2.
Proof.
  intros [] Hs. destruct s; cbn in *. destruct r_cpc0; try (by destruct r_ppc0).
  destruct inv_cpc0 as [-> Hr]. subst r_mask0.
  destruct (slot_get_item cap Hcap r_slots0 (length r_taken0) (length r_accepted0)
    r_accepted0 (length r_taken0)) as (x & Hx & Hl); [done|lia|lia|].
  rewrite Hx in Hs. assert (s' = Ok (mk_rstate r_slots0 (Z.of_nat cap - 1) r_heads0
    r_tails0 r_pview0 r_cview0 r_ppc0 (CRead (u64 (Z.of_nat (length r_taken0))) x)
    r_accepted0 r_taken0)) as -> by (destruct r_ppc0; by injection Hs).
  eexists; split; [done|]. by split.
Qed.

Lemma ring_inv_release s s' :
  ring_inv cap s → rstep LRelease s = Some s' → ∃ s2, s' = Ok s2 ∧ ring_inv cap s2.
Proof.
  intros [] Hs. destruct s; cbn in *. destruct r_cpc0; try (by destruct r_ppc0).
  destruct inv_cpc0 as (-> & Hr & Hx).
  assert (s' = Ok (mk_rstate r_slots0 r_mask0 r_heads0
    (r_tails0 ++ [u64 (u64 (Z.of_nat (length r_taken0)) + 1)]) r_pview0 r_cview0 r_ppc0
    CIdle r_accepted0 (r_taken0 ++ [x]))) as -> by (destruct r_ppc0; by injection Hs).
  eexists; split; [done|].
  split; cbn; rewrite ?length_app; simpl; rewrite ?Nat.add_1_r; try done; try lia.
  - by rewrite inv_tails0, counters_snoc.
  - by rewrite inv_taken0, (take_S_r _ _ _ Hx) at 1.
  - by apply holds_release.
Qed.

Lemma ring_inv_step l s s' :
  ring_inv cap s → rstep l s = Some s' → ∃ s2, s' = Ok s2 ∧ ring_inv cap s2.
Proof.
  destruct l; eauto using ring_inv_push, ring_inv_load_tail, ring_inv_write,
    ring_inv_publish, ring_inv_pop, ring_inv_load_head, ring_inv_read, ring_inv_release.
Qed.

Lemma ring_inv_reach s0 s : ring_inv cap s0 → rreach s0 s → ring_inv cap s.
Proof.
  intros H0. induction 1 as [|s l s' _ IH Hs]; [done|].
  destruct (ring_inv_step l s (Ok s') IH Hs) as (s2 & [= <-] & ?). done.
Qed.
End ring_invariant.

(** ** Lemmas: the uninterrupted calls *)

Lemma rrun_reach ls s0 s s' : rreach s0 s → rrun ls s = Some s' → rreach s0 s'.
Proof.
  revert s. induction ls as [|l ls IH]; intros s Hr Hs; simpl in Hs; [by simplify_eq|].
  destruct (rstep l s) as [[s1|]|] eqn:E; try discriminate.
  eapply IH; [|done]. by eapply rreach_step.
Qed.

Lemma newest_snoc l x : newest (l ++ [x]) = Some x.
Proof.
  unfold newest. rewrite length_app. simpl. rewrite Nat.add_1_r. simpl.
  by rewrite lookup_app_r, Nat.sub_diag by lia.
Qed.

Lemma counters_length n : length (counters n) = S n.
Proof. unfold counters. by rewrite length_fmap, length_seq. Qed.

Lemma push_is_steps cap s item :
  capacity_ok cap → ring_inv cap s → r_ppc s = PIdle →
  ∃ s', match spsc_ring_push (ring_of s) item with
    | Ok (r', true) => rrun (push_steps item s ++ [LWrite; LPublish]) s = Some s' ∧
        ring_of s' = r' ∧ r_accepted s' = r_accepted s ++ [item]
    | Ok (r', false) => rrun (push_steps item s) s = Some s' ∧
        ring_of s' = r' ∧ r_ppc s' = PIdle ∧ r_accepted s' = r_accepted s
    | Ub _ => False
    end.
Proof.
  intros Hcap [] Hp. destruct s; cbn in *. subst r_ppc0 r_mask0 r_heads0 r_tails0.
  unfold spsc_ring_push, ring_of; cbn.
  rewrite !counters_last. cbn.
  assert (∃ n, pred (length (counters (length r_taken0))) = n ∧
    counters (length r_taken0) !! n = Some (u64 (Z.of_nat (length r_taken0))) ∧
    (n <? r_pview0)%nat = false) as (n & -> & Hn & Hlt).
  { eexists; split; [done|]. split; [apply counters_last|].
    rewrite counters_length. apply Nat.ltb_ge. simpl. lia. }
  rewrite Hn, Hlt. destruct (u64 _ <=? u64 _); cbn.
  - eexists. split_and!; try reflexivity. cbn. by rewrite !counters_last.
  - rewrite slot_set_item by done. cbn.
    eexists. split_and!; try reflexivity. cbn. by rewrite newest_snoc, counters_last.
Qed.

Lemma pop_is_steps cap s :
  capacity_ok cap → ring_inv cap s → r_ppc s = PIdle → r_cpc s = CIdle →
  ∃ s', match spsc_ring_pop (ring_of s) with
    | Ok (r', x) =>
        if tail (ring_of s) =? head (ring_of s)
        then rrun (pop_steps s) s = Some s' ∧ ring_of s' = r' ∧ r_taken s' = r_taken s ∧ x = 0
        else rrun (pop_steps s ++ [LRead; LRelease]) s = Some s' ∧ ring_of s' = r' ∧
          r_taken s' = r_taken s ++ [x]
    | Ub _ => False
    end.
Proof.
  intros Hcap [] Hp Hc. destruct s; cbn in *.
  subst r_ppc0 r_cpc0 r_mask0 r_heads0 r_tails0. unfold spsc_ring_pop, ring_of; cbn.
  rewrite !counters_last. cbn.
  assert (∃ n, pred (length (counters (length r_accepted0))) = n ∧
    counters (length r_accepted0) !! n = Some (u64 (Z.of_nat (length r_accepted0))) ∧
    (n <? r_cview0)%nat = false) as (n & -> & Hn & Hlt).
  { eexists; split; [done|]. split; [apply counters_last|].
    rewrite counters_length. apply Nat.ltb_ge. simpl. lia. }
  rewrite Hn, Hlt. rewrite (counter_eq cap) by (done || lia).
  destruct (Nat.eqb_spec (length r_taken0) (length r_accepted0)) as [E|E]; cbn.
  - eexists. split_and!; try reflexivity. cbn. by rewrite !counters_last.
  - destruct (slot_get_item cap Hcap r_slots0 (length r_taken0) (length r_accepted0)
      r_accepted0 (length r_taken0)) as (x & -> & _); [done|lia|lia|]. cbn.
    eexists. split_and!; try reflexivity. cbn. by rewrite newest_snoc, counters_last.
Qed.

Lemma capacity_test cap :
  capacity_ok cap →
  (0 <? Z.of_nat cap) && (Z.land (Z.of_nat cap) (u64 (Z.of_nat cap - 1)) =? 0) = true ∧
  u64 (Z.of_nat cap - 1) = Z.of_nat cap - 1.
Proof.
  intros Hcap. pose proof (capacity_bounds cap Hcap) as [Hp Hb].
  assert (u64 (Z.of_nat cap - 1) = Z.of_nat cap - 1) as E by (apply wrap_u_id; range).
  split; [|done]. rewrite E. destruct Hcap as (k & Hk & ->).
  rewrite (proj2 (Z.ltb_lt 0 (2 ^ k))) by lia. simpl.
  change (2 ^ k - 1) with (Z.pred (2 ^ k)). rewrite <- Z.ones_equiv, Z.land_ones by lia.
  by rewrite Z_mod_same_full.
Qed.

Lemma spsc_ring_init_ok cap sl :
  capacity_ok cap → length sl = cap →
  spsc_ring_init sl (Z.of_nat cap) = Ok (mk_ring sl (Z.of_nat cap - 1) 0 0).
Proof.
  intros Hcap Hl. destruct (capacity_test cap Hcap) as [Ht E].
  unfold spsc_ring_init. rewrite Ht, E. done.
Qed.

Lemma ring_holds_push cap r q x :
  capacity_ok cap → ring_holds cap r q →
  ∃ r', spsc_ring_push r x = Ok (r', (spec.push cap q x).2) ∧
    ring_holds cap r' (spec.push cap q x).1.
Proof.
  intros Hcap (hist & t & Hl & Hm & Hh & Ht & Hb & Hs & ->).
  destruct r as [sl m h tl]; simpl in *; subst m h tl.
  unfold spsc_ring_push, spec.push; simpl.
  rewrite counter_full by (done || lia). rewrite length_drop.
  destruct (Nat.leb_spec cap (length hist - t)) as [Hf|Hf].
  - rewrite (proj2 (Nat.ltb_ge _ _)) by lia. eexists; split; [done|]. by exists hist, t.
  - rewrite (proj2 (Nat.ltb_lt _ _)) by lia. rewrite slot_set_item by done. simpl.
    eexists; split; [done|]. exists (hist ++ [x]), t. simpl.
    rewrite length_insert, length_app, counter_next. simpl. rewrite Nat.add_1_r.
    split_and!; try done; try lia.
    + apply holds_publish; [|done|].
      * apply holds_write; (done || lia).
      * apply list_lookup_insert_eq. rewrite Hl. by apply slot_index_lt.
    + by rewrite drop_app_le by lia.
Qed.

Lemma ring_holds_pop cap r q :
  capacity_ok cap → ring_holds cap r q →
  ∃ r', spsc_ring_pop r = Ok (r', (spec.pop q).2) ∧ ring_holds cap r' (spec.pop q).1.
Proof.
  intros Hcap (hist & t & Hl & Hm & Hh & Ht & Hb & Hs & ->).
  destruct r as [sl m h tl]; simpl in *; subst m h tl.
  unfold spsc_ring_pop; simpl. rewrite (counter_eq cap) by (done || lia).
  destruct (Nat.eqb_spec t (length hist)) as [->|Hne].
  - rewrite drop_all. eexists; split; [done|]. exists hist, (length hist).
    by rewrite drop_all.
  - destruct (slot_get_item cap Hcap sl t (length hist) hist t) as (x & -> & Hx);
      [done|lia|lia|]. simpl. rewrite (drop_S hist x t) by done. simpl.
    eexists; split; [done|]. exists hist, (S t). simpl. rewrite counter_next.
    split_and!; try done; try lia. by apply holds_release.
Qed.

Lemma ring_holds_size cap r q :
  capacity_ok cap → ring_holds cap r q → spsc_ring_size r = Z.of_nat (length q).
Proof.
  intros Hcap (hist & t & Hl & Hm & Hh & Ht & Hb & Hs & ->).
  unfold spsc_ring_size. rewrite Hh, Ht, (counter_diff cap) by (done || lia).
  by rewrite length_drop.
Qed.

Lemma ring_holds_bound cap r q : ring_holds cap r q → (length q <= cap)%nat.
Proof. intros (hist & t & _ & _ & _ & _ & Hb & _ & ->). rewrite length_drop. lia. Qed.

Lemma push_spelled_out cap r q x :
  capacity_ok cap → ring_holds cap r q →
  if decide (length q = cap) then spsc_ring_push r x = Ok (r, false)
  else ∃ r1, spsc_ring_push r x = Ok (r1, true) ∧ ring_holds cap r1 (q ++ [x]).
Proof.
  intros Hcap Hr. pose proof (ring_holds_bound cap r q Hr) as Hb. destruct (decide _) as [Hf|Hf].
  - destruct Hr as (hist & t & Hl & Hm & Hh & Ht & Hbd & _ & ->). rewrite length_drop in Hf.
    destruct r as [sl m h tl]; simpl in *; subst m h tl. unfold spsc_ring_push; simpl.
    rewrite counter_full by (done || lia). by rewrite (proj2 (Nat.leb_le _ _)) by lia.
  - destruct (ring_holds_push cap r q x Hcap Hr) as (r1 & E1 & E2). revert E1 E2.
    unfold spec.push. rewrite (proj2 (Nat.ltb_lt _ _)) by lia. by exists r1.
Qed.

Lemma pop_spelled_out cap r q :
  capacity_ok cap → ring_holds cap r q →
  match q with
  | [] => spsc_ring_pop r = Ok (r, 0)
  | y :: q' => ∃ r2, spsc_ring_pop r = Ok (r2, y) ∧ ring_holds cap r2 q'
  end.
Proof.
  intros Hcap Hr. destruct q as [|y q']; [|by apply (ring_holds_pop cap r (y :: q'))].
  destruct Hr as (hist & t & Hl & Hm & Hh & Ht & Hbd & _ & Hq).
  apply (f_equal length) in Hq. rewrite length_drop in Hq. simpl in Hq.
  destruct r as [sl m h tl]; simpl in *; subst m h tl. unfold spsc_ring_pop; simpl.
  rewrite (counter_eq cap) by (done || lia). by rewrite (proj2 (Nat.eqb_eq _ _)) by lia.
Qed.

(** ** Properties *)

(** C14: the ring implements the bounded FIFO queue of its capacity, wherever its 64-bit
    counters stand: [spsc_ring_init] makes it empty; [spsc_ring_push] appends the item and
    returns true, or, when the queue is full, changes nothing and returns false;
    [spsc_ring_pop] removes the oldest item and returns it, or, when the queue is empty,
    changes nothing and returns NULL (an item that is NULL is returned as well, so the two
    differ only in the size); [spsc_ring_size] is the number of items and [spsc_ring_empty]
    tells whether there is one; a capacity that is not a positive power of two fails the
    assertion. *)
Theorem spsc_ring_implements_queue (cap : nat) (sl : list Z) (r : spsc_ring_t) (q : list Z)
    (x bad : Z) :
  capacity_ok cap → length sl = cap → ring_holds cap r q →
  (∃ r0, spsc_ring_init sl (Z.of_nat cap) = Ok r0 ∧ ring_holds cap r0 []) ∧
  (if decide (length q = cap) then spsc_ring_push r x = Ok (r, false)
   else ∃ r1, spsc_ring_push r x = Ok (r1, true) ∧ ring_holds cap r1 (q ++ [x])) ∧
  (match q with
   | [] => spsc_ring_pop r = Ok (r, 0)
   | y :: q' => ∃ r2, spsc_ring_pop r = Ok (r2, y) ∧ ring_holds cap r2 q'
   end) ∧
  (length q <= cap)%nat ∧ spsc_ring_size r = Z.of_nat (length q) ∧ (spsc_ring_empty r = true ↔ q = []) ∧
  (bad <= 0 ∨ Z.land bad (u64 (bad - 1)) ≠ 0 → spsc_ring_init sl bad = Ub Aborted).
Proof.
  intros Hcap Hsl Hr. split_and!.
  - rewrite spsc_ring_init_ok by done. eexists; split; [done|]. exists [], 0%nat.
    split_and!; simpl; try done; try lia. intros i Hi. simpl in Hi. lia.
  - by apply push_spelled_out.
  - by eapply pop_spelled_out.
  - by eapply ring_holds_bound.
  - by eapply ring_holds_size.
  - unfold spsc_ring_empty. erewrite ring_holds_size by done. rewrite Z.eqb_eq.
    destruct q; simpl; split; (done || lia).
  - intros Hbad. unfold spsc_ring_init, assert_or.
    destruct (Z.ltb_spec 0 bad), (Z.eqb_spec (Z.land bad (u64 (bad - 1))) 0); simpl;
      (done || lia).
Qed.

(** C15: under every interleaving of the two threads and every staleness of the loads the
    memory model allows, no access is out of bounds, the items popped are a prefix of
    the items pushed, in order, and at most a capacity of items is in flight. *)
Theorem spsc_ring_fifo_under_interleaving (cap : nat) (sl : list Z) (r : spsc_ring_t)
    (s : rstate) :
  capacity_ok cap → length sl = cap → spsc_ring_init sl (Z.of_nat cap) = Ok r →
  rreach (rstart r) s →
  (∃ rest, r_accepted s = r_taken s ++ rest ∧ (length rest <= cap)%nat) ∧
  (∀ l o, rstep l s = Some o → is_ok o = true).
Proof.
  intros Hcap Hsl Hi Hr. rewrite spsc_ring_init_ok in Hi by done. injection Hi as <-.
  assert (ring_inv cap s) as Hinv by (eapply ring_inv_reach; eauto using ring_inv_start).
  split.
  - destruct Hinv. exists (drop (length (r_taken s)) (r_accepted s)).
    split; [rewrite inv_taken0 at 1; by rewrite take_drop|]. rewrite length_drop. lia.
  - intros l o Ho. by destruct (ring_inv_step cap Hcap l s o Hinv Ho) as (s2 & -> & _).
Qed.

(** C20: the two threads never touch one slot at the same time: when the producer is about
    to write a slot and the consumer about to read one, they differ; and the producer
    has read the release of the slot's previous item before it writes, the consumer the
    publication of the item it reads. *)
Theorem spsc_ring_race_free (cap : nat) (sl : list Z) (r : spsc_ring_t) (s : rstate)
    (item h t : Z) :
  capacity_ok cap → length sl = cap → spsc_ring_init sl (Z.of_nat cap) = Ok r →
  rreach (rstart r) s → r_ppc s = PReady item h → r_cpc s = CReady t →
  Z.land h (r_mask s) ≠ Z.land t (r_mask s) ∧
  (length (r_accepted s) < r_pview s + cap)%nat ∧ (length (r_taken s) < r_cview s)%nat.
Proof.
  intros Hcap Hsl Hi Hr Hp Hc. rewrite spsc_ring_init_ok in Hi by done. injection Hi as <-.
  assert (ring_inv cap s) as Hinv by (eapply ring_inv_reach; eauto using ring_inv_start).
  destruct Hinv. rewrite Hp in inv_ppc0. rewrite Hc in inv_cpc0.
  destruct inv_ppc0 as [-> Hv], inv_cpc0 as [-> Hcv]. split; [|done].
  intros E. apply (f_equal Z.to_nat) in E. rewrite inv_mask0, !slot_index in E by done.
  symmetry in E. revert E. apply slot_index_ne; [done|]. lia.
Qed.

(** the uninterrupted C functions are the interleaved steps with loads of the newest
    stores: running the steps of one call from a reachable state where the thread is
    idle leaves the structure the function returns, and logs the item it returns. *)
Theorem spsc_ring_calls_are_steps (cap : nat) (sl : list Z) (r : spsc_ring_t) (s : rstate)
    (item : Z) :
  capacity_ok cap → length sl = cap → spsc_ring_init sl (Z.of_nat cap) = Ok r →
  rreach (rstart r) s → r_ppc s = PIdle → r_cpc s = CIdle →
  (∃ s', match spsc_ring_push (ring_of s) item with
    | Ok (r', true) => rrun (push_steps item s ++ [LWrite; LPublish]) s = Some s' ∧
        ring_of s' = r' ∧ r_accepted s' = r_accepted s ++ [item]
    | Ok (r', false) => rrun (push_steps item s) s = Some s' ∧
        ring_of s' = r' ∧ r_ppc s' = PIdle ∧ r_accepted s' = r_accepted s
    | Ub _ => False
    end) ∧
  (∃ s', match spsc_ring_pop (ring_of s) with
    | Ok (r', x) =>
        if tail (ring_of s) =? head (ring_of s)
        then rrun (pop_steps s) s = Some s' ∧ ring_of s' = r' ∧ r_taken s' = r_taken s ∧ x = 0
        else rrun (pop_steps s ++ [LRead; LRelease]) s = Some s' ∧ ring_of s' = r' ∧
          r_taken s' = r_taken s ++ [x]
    | Ub _ => False
    end).
Proof.
  intros Hcap Hsl Hi Hr Hp Hc. rewrite spsc_ring_init_ok in Hi by done. injection Hi as <-.
  assert (ring_inv cap s) as Hinv by (eapply ring_inv_reach; eauto using ring_inv_start).
  split; [by eapply push_is_steps|by eapply pop_is_steps].
Qed.

(** ** Witnesses: a ring of two slots *)

Definition two_slots : spsc_ring_t := mk_ring [0; 0] 1 0 0.

(** Two pushes, a push that finds the ring full through a stale tail, a pop in between,
    and at the end both threads at their slot accesses. *)
Definition two_slots_run : list rlabel :=
  [LPush 11; LLoadTail 0; LWrite; LPublish; LPush 12; LLoadTail 0; LPop; LWrite;
   LLoadHead 1; LPublish; LPush 13; LRead; LLoadTail 0; LRelease; LPush 14; LPop;
   LLoadTail 1; LLoadHead 2].

Lemma capacity_ok_2 : capacity_ok 2.
Proof. exists 1. split; [lia|reflexivity]. Qed.

(** The state the run ends in. *)
Definition two_slots_end : rstate :=
  mk_rstate [11; 12] 1 [0; 1; 2] [0; 1] 1 2 (PReady 14 2) (CReady 1) [11; 12] [11].

Lemma two_slots_runs : rrun two_slots_run (rstart two_slots) = Some two_slots_end.
Proof. vm_compute. reflexivity. Qed.

Lemma two_slots_reach : rreach (rstart two_slots) two_slots_end.
Proof. eapply rrun_reach; [apply rreach_refl|apply two_slots_runs]. Qed.

Lemma spsc_ring_implements_queue_witness :
  spsc_ring_push (mk_ring [7; 8] 1 3 2) 9 = Ok (mk_ring [7; 9] 1 4 2, true) ∧
  spsc_ring_size (mk_ring [7; 8] 1 3 2) = 1 ∧ spsc_ring_init [0; 0; 0] 3 = Ub Aborted.
Proof.
  destruct (spsc_ring_implements_queue 2 [0; 0] (mk_ring [7; 8] 1 3 2) [7] 9 3)
    as (_ & (r1 & H1 & _) & _ & _ & Hsize & _ & Hbad).
  - exact capacity_ok_2.
  - reflexivity.
  - exists [7; 8; 7], 2%nat. split_and!; simpl; try done; try lia.
    intros i Hi. simpl in Hi. assert (i = 2)%nat as -> by lia. reflexivity.
  - split; [vm_compute; reflexivity|]. split; [exact Hsize|].
    apply Hbad. right. vm_compute. discriminate.
Defined.

Lemma spsc_ring_fifo_under_interleaving_witness :
  rrun two_slots_run (rstart two_slots) = Some two_slots_end ∧
  ∃ rest, [11; 12] = [11] ++ rest ∧ (length rest <= 2)%nat.
Proof.
  split; [exact two_slots_runs|].
  exact (proj1 (spsc_ring_fifo_under_interleaving 2 [0; 0] two_slots two_slots_end
    capacity_ok_2 eq_refl eq_refl two_slots_reach)).
Defined.

Lemma spsc_ring_race_free_witness : Z.land 2 1 ≠ Z.land 1 1.
Proof.
  exact (proj1 (spsc_ring_race_free 2 [0; 0] two_slots two_slots_end 14 2 1 capacity_ok_2
    eq_refl eq_refl two_slots_reach eq_refl eq_refl)).
Defined.

Lemma spsc_ring_calls_are_steps_witness :
  ∃ s', rrun [LPush 5; LLoadTail 0; LWrite; LPublish] (rstart two_slots) = Some s' ∧
    ring_of s' = mk_ring [5; 0] 1 1 0.
Proof.
  destruct (spsc_ring_calls_are_steps 2 [0; 0] two_slots (rstart two_slots) 5 capacity_ok_2
    eq_refl eq_refl (rreach_refl _) eq_refl eq_refl) as [(s' & H) _].
  exists s'. by destruct H as (Hr & Hs & _).
Defined.
