(* ===== verification/ListQueue.v ===== *)
(** * The intrusive queue: src/list.h

    Nodes are embedded in the caller's objects, so the queue is pointers into a
    shared memory: [mem] gives the [next] field of every live node.  [tail] is a
    pointer to a pointer: to [q->head] while the queue is empty, to the last node's
    [next] afterwards.  Dereferencing a node that is not in [mem] is undefined. *)

From S2P Require Import Prelude.

Abbreviation node := nat.

(** [list_t **tail]. *)
Inductive tail_ptr : Type :=
  | TailHead            (** [&q->head] *)
  | TailNext (n : node) (** [&n->next] *).

Record queue_t : Type := mk_queue {
  q_head : option node;
  q_tail : tail_ptr;
}.

(** The memory a queue operation works on: the [next] fields and the queue. *)
Record qmem : Type := mk_qmem {
  mem : gmap node (option node);
  que : queue_t;
}.

Definition load_next (n : node) : M qmem (option node) := λ s,
  match mem s !! n with Some nx => Ok (nx, s) | None => Ub UseAfterFree end.

Definition store_next (n : node) (nx : option node) : M qmem () := λ s,
  match mem s !! n with
  | Some _ => Ok ((), mk_qmem (<[n := nx]> (mem s)) (que s))
  | None => Ub UseAfterFree
  end.

Definition set_head (h : option node) : M qmem () :=
  modify (λ s, mk_qmem (mem s) (mk_queue h (q_tail (que s)))).
Definition set_tail (t : tail_ptr) : M qmem () :=
  modify (λ s, mk_qmem (mem s) (mk_queue (q_head (que s)) t)).

Definition queue_init : M qmem () :=
  set_head None ≫= λ _, set_tail TailHead.

Definition queue_push (n : node) : M qmem () :=
  store_next n None ≫= λ _,
  gets (λ s, q_tail (que s)) ≫= λ tail,
  match tail with
  | TailHead => set_head (Some n)
  | TailNext m => store_next m (Some n)
  end ≫= λ _,
  set_tail (TailNext n).

Definition queue_pop : M qmem (option node) :=
  gets (λ s, q_head (que s)) ≫= λ head,
  match head with
  | Some n =>
      load_next n ≫= λ nx,
      set_head nx ≫= λ _,
      match nx with
      | None => set_tail TailHead
      | Some _ => mret ()
      end ≫= λ _,
      mret (Some n)
  | None => mret None
  end.

Definition queue_is_empty : M qmem bool :=
  gets (λ s, match q_head (que s) with None => true | Some _ => false end).

(** ** The list a queue holds *)

Fixpoint chain (m : gmap node (option node)) (p : option node) (ns : list node) : Prop :=
  match ns with
  | [] => p = None
  | n :: ns => p = Some n ∧ ∃ nx, m !! n = Some nx ∧ chain m nx ns
  end.

Definition tail_of (ns : list node) : tail_ptr :=
  match ns !! pred (length ns) with None => TailHead | Some n => TailNext n end.

Definition queue_rep (s : qmem) (ns : list node) : Prop :=
  chain (mem s) (q_head (que s)) ns ∧ NoDup ns ∧ q_tail (que s) = tail_of ns.

(** ** Lemmas *)

Section queue_lemmas.
Implicit Types m : gmap node (option node).
Implicit Types ns : list node.

Lemma tail_of_snoc ns n : tail_of (ns ++ [n]) = TailNext n.
Proof.
  unfold tail_of. rewrite length_app. simpl. rewrite Nat.add_1_r. simpl.
  by rewrite lookup_app_r, Nat.sub_diag by lia.
Qed.

Lemma tail_of_cons n n' ns : tail_of (n :: n' :: ns) = tail_of (n' :: ns).
Proof. done. Qed.

(** Writes outside the list leave it. *)
Lemma chain_insert_other m p ns n nx :
  n ∉ ns → chain m p ns → chain (<[n := nx]> m) p ns.
Proof.
  revert p. induction ns as [|n' ns IH]; intros p Hn; [done|].
  apply not_elem_of_cons in Hn as [Hne Hn].
  intros (-> & nx' & Hl & Hc). split; [done|]. exists nx'.
  rewrite lookup_insert_ne by done. auto.
Qed.

(** Linking the last node to a new one. *)
Lemma chain_link m p ns l n :
  chain m p (ns ++ [l]) → NoDup (ns ++ [l]) → n ∉ ns ++ [l] → m !! n = Some None →
  chain (<[l := Some n]> m) p ((ns ++ [l]) ++ [n]).
Proof.
  revert p. induction ns as [|n' ns IH]; intros p; simpl.
  - intros (-> & nx & Hl & _) _ Hn Hm. split; [done|]. exists (Some n).
    rewrite lookup_insert_eq. split; [done|]. split; [done|]. exists None.
    rewrite lookup_insert_ne by set_solver. done.
  - intros (-> & nx & Hl & Hc) [Hn' Hd]%NoDup_cons Hn Hm. split; [done|]. exists nx.
    rewrite lookup_insert_ne by set_solver. split; [done|]. apply IH; set_solver.
Qed.

Local Ltac run := unfold queue_push, queue_pop, set_head, set_tail, store_next, load_next,
  modify, gets, mbind, M_bind, mret, M_ret; simpl.

Lemma queue_push_rep s ns n :
  queue_rep s ns → is_Some (mem s !! n) → n ∉ ns →
  ∃ s', queue_push n s = Ok ((), s') ∧ queue_rep s' (ns ++ [n]) ∧
    (∀ k, k ≠ n → tail_of ns ≠ TailNext k → mem s' !! k = mem s !! k).
Proof.
  intros (Hc & Hd & Ht) [nx Hn] Hnin. destruct s as [m [h t]]; simpl in *.
  run. rewrite Hn. subst t. revert Hc Hd Hnin.
  destruct ns as [|l ns' _] using rev_ind; intros Hc Hd Hnin.
  - simpl. eexists; split; [done|]. simpl in *. subst h. split.
    + split_and!; simpl; [|apply NoDup_singleton|done].
      split; [done|]; exists None. by rewrite lookup_insert_eq.
    + intros k Hk _. by rewrite lookup_insert_ne.
  - rewrite tail_of_snoc. simpl.
    assert (n ≠ l) as Hnl by set_solver.
    assert (is_Some (<[n := None]> m !! l)) as [nx' Hl].
    { rewrite lookup_insert_ne by done. clear -Hc. revert h Hc.
      induction ns' as [|a ns' IH]; simpl; intros h (-> & nx & Hm & Hc); eauto. }
    rewrite Hl. eexists; split; [done|]. split; [split_and!; simpl|].
    + apply chain_link; [by apply chain_insert_other|done|done|].
      by rewrite lookup_insert_eq.
    + apply NoDup_app. split; [done|]. split; [set_solver|apply NoDup_singleton].
    + by rewrite tail_of_snoc.
    + simpl. intros k Hk Hkl. rewrite !lookup_insert_ne; [done|done|congruence].
Qed.

Lemma queue_pop_rep s ns :
  queue_rep s ns →
  ∃ s', queue_pop s = Ok (match ns with [] => None | n :: _ => Some n end, s') ∧
    queue_rep s' (tail ns) ∧ mem s' = mem s.
Proof.
  intros (Hc & Hd & Ht). destruct s as [m [h t]]; simpl in *. run.
  destruct ns as [|n ns]; simpl in Hc.
  - subst h. eexists; split; [done|]. by split.
  - destruct Hc as (-> & nx & Hn & Hc). simpl. rewrite Hn. simpl.
    apply NoDup_cons in Hd as [Hnin Hd].
    destruct ns as [|n' ns]; simpl in Hc.
    + subst nx. eexists; split; [done|]. split; [|done]. split; [done|]. split; [apply NoDup_nil_2|done].
    + destruct Hc as (-> & nx' & Hn' & Hc). eexists; split; [done|].
      split; [|done]. split; [|done]. simpl. split; [done|]. by exists nx'.
Qed.

Lemma queue_init_rep s :
  ∃ s', queue_init s = Ok ((), s') ∧ queue_rep s' [] ∧ mem s' = mem s.
Proof. eexists; split; [reflexivity|]. split; [|done]. split; [done|]. split; [apply NoDup_nil_2|done]. Qed.

Lemma queue_is_empty_rep s ns :
  queue_rep s ns → queue_is_empty s = Ok (bool_decide (ns = []), s).
Proof.
  intros (Hc & _). destruct s as [m [h t]]. unfold queue_is_empty, gets. simpl in *.
  destruct ns; simpl in Hc; [by subst|]. by destruct Hc as [-> _].
Qed.
End queue_lemmas.

(** ** Properties *)

(** C37: the intrusive queue is a FIFO list of nodes: [queue_init] makes it empty,
    [queue_push] of a live node that is not in it appends the node and writes only that
    node's and the last node's [next], [queue_pop] removes and returns the oldest node
    (NULL when empty) and writes no node, [queue_is_empty] tells which; none touches a
    node that is not live. *)
Theorem queue_is_fifo_list (s : qmem) (ns : list node) (n : node) :
  queue_rep s ns → is_Some (mem s !! n) → n ∉ ns →
  (∃ s0, queue_init s = Ok ((), s0) ∧ queue_rep s0 [] ∧ mem s0 = mem s) ∧
  (∃ s1, queue_push n s = Ok ((), s1) ∧ queue_rep s1 (ns ++ [n]) ∧
    (∀ k, k ≠ n → tail_of ns ≠ TailNext k → mem s1 !! k = mem s !! k)) ∧
  (∃ s2, queue_pop s = Ok (match ns with [] => None | n' :: _ => Some n' end, s2) ∧
    queue_rep s2 (tail ns) ∧ mem s2 = mem s) ∧
  queue_is_empty s = Ok (bool_decide (ns = []), s).
Proof.
  intros Hr Hn Hnin. split_and!.
  - apply queue_init_rep.
  - by apply queue_push_rep.
  - by apply queue_pop_rep.
  - by apply queue_is_empty_rep.
Qed.

(** Three live nodes, two of them queued. *)
Definition two_queued : qmem :=
  mk_qmem {[ 1%nat := Some 2%nat; 2%nat := None; 3%nat := None ]}
    (mk_queue (Some 1%nat) (TailNext 2)).

Lemma queue_is_fifo_list_witness :
  ∃ s1, queue_push 3 two_queued = Ok ((), s1) ∧ queue_rep s1 [1%nat; 2%nat; 3%nat].
Proof.
  destruct (queue_is_fifo_list two_queued [1%nat; 2%nat] 3) as (_ & (s1 & H1 & H2 & _) & _).
  - split_and!; simpl.
    + split; [done|]. exists (Some 2%nat). split; [reflexivity|].
      split; [done|]. exists None. split; reflexivity.
    + repeat constructor; set_solver.
    + reflexivity.
  - vm_compute. eauto.
  - set_solver.
  - exists s1. split; [exact H1|exact H2].
Defined.
