(* ===== verification/WorkerPool.v ===== *)
(** * The worker pool: src/worker_pool.c and src/worker_pool.h

    [worker_pool_dispatch] is the producer's side, run by the event loop's thread;
    [worker_iteration] is one round of [worker_thread].  Each worker's ring has this one
    producer and this one consumer, so a call of the pool uses [spsc_ring_push] and
    [spsc_ring_pop] as the uninterrupted functions of Ring.v: its interleaved model has
    their steps.  Work items are heap objects, named by their address.

    [pspec] is what the pool promises: one bounded first-in first-out queue per worker,
    filled in turn. *)

From S2P Require Import Prelude Ring.

Definition SPSC_CAPACITY : Z := 1024.

(** ** The C data *)

Record work_item_t : Type := mk_work_item {
  wi_req : nat;
  wi_handler : nat;
  wi_worker_data : nat;
}.

Record worker_t : Type := mk_worker {
  wk_ring : spsc_ring_t;
  wk_running : bool;
}.

Record worker_pool_t : Type := mk_worker_pool {
  workers : list worker_t;
  num_workers : Z;
  next_worker : Z;
}.

(** The pool, the allocated work items, the next fresh address and the handler calls made
    so far, with the worker that made them. *)
Record pstate : Type := mk_pstate {
  p_pool : worker_pool_t;
  p_items : gmap Z work_item_t;
  p_addr : Z;
  p_runs : list (nat * work_item_t);
}.

Definition upd_pool (f : worker_pool_t → worker_pool_t) (s : pstate) : pstate :=
  mk_pstate (f (p_pool s)) (p_items s) (p_addr s) (p_runs s).
Definition upd_items (f : gmap Z work_item_t → gmap Z work_item_t) (s : pstate) : pstate :=
  mk_pstate (p_pool s) (f (p_items s)) (p_addr s) (p_runs s).
Definition bump_addr (s : pstate) : pstate :=
  mk_pstate (p_pool s) (p_items s) (p_addr s + 1) (p_runs s).
Definition add_run (r : nat * work_item_t) (s : pstate) : pstate :=
  mk_pstate (p_pool s) (p_items s) (p_addr s) (p_runs s ++ [r]).
Definition set_worker (i : nat) (w : worker_t) (p : worker_pool_t) : worker_pool_t :=
  mk_worker_pool (<[i := w]> (workers p)) (num_workers p) (next_worker p).

Abbreviation P := (M pstate).

(** [&pool->workers[i]] read. *)
Definition get_worker (i : nat) : P worker_t :=
  p ← gets p_pool; lift (from_option_or OutOfBounds (workers p !! i)).

(** [free(item)]. *)
Definition free_item (item : Z) : P () :=
  items ← gets p_items;
  match items !! item with
  | None => fail_with UseAfterFree
  | Some _ => modify (upd_items (delete item))
  end.

(** ** The C functions *)

(** The workers that [worker_pool_init] sets up; [rc i] is what [pthread_create] returns
    for the i-th of them. *)
Fixpoint init_workers (rc : nat → Z) (i n : nat) : outcome (list worker_t) :=
  match n with
  | O => mret []
  | S n =>
      ring ← spsc_ring_init (replicate (Z.to_nat SPSC_CAPACITY) 0) SPSC_CAPACITY;
      _ ← assert_or Aborted (rc i =? 0);
      rest ← init_workers rc (S i) n;
      mret (mk_worker ring true :: rest)
  end.

(** A NULL from [calloc] is not tested. *)
Definition worker_pool_init (calloc_ok : bool) (rc : nat → Z) (num : Z)
    : outcome worker_pool_t :=
  _ ← assert_or Aborted (0 <? num);
  _ ← assert_or NullDeref calloc_ok;
  ws ← init_workers rc 0 (Z.to_nat num);
  mret (mk_worker_pool ws num 0).

Definition worker_pool_dispatch (malloc_ok : bool) (req handler worker_data : nat)
    : P bool :=
  pool ← gets p_pool;
  let old := next_worker pool in
  _ ← modify (upd_pool (λ p, mk_worker_pool (workers p) (num_workers p) (u64 (old + 1))));
  _ ← lift (assert_or DivByZero (negb (num_workers pool =? 0)));
  let idx := Z.to_nat (old mod num_workers pool) in
  w ← get_worker idx;
  if negb malloc_ok then mret false
  else
    item ← gets p_addr;
    _ ← modify bump_addr;
    _ ← modify (upd_items (<[item := mk_work_item req handler worker_data]>));
    '(ring, pushed) ← lift (spsc_ring_push (wk_ring w) item);
    _ ← modify (upd_pool (set_worker idx (mk_worker ring (wk_running w))));
    if negb pushed then _ ← free_item item; mret false
    else mret true.

(** The body of the loop of [worker_thread]. *)
Definition worker_body (i : nat) : P () :=
  w ← get_worker i;
  '(ring, item) ← lift (spsc_ring_pop (wk_ring w));
  _ ← modify (upd_pool (set_worker i (mk_worker ring (wk_running w))));
  if item =? 0 then mret ()
  else
    items ← gets p_items;
    match items !! item with
    | None => fail_with UseAfterFree
    | Some it =>
        _ ← modify (add_run (i, it));
        free_item item
    end.

(** One round of the loop, test included; [false] when the thread returns. *)
Definition worker_iteration (i : nat) : P bool :=
  w ← get_worker i;
  if negb (wk_running w) then mret false
  else _ ← worker_body i; mret true.

(** [running = false] for one worker; its thread leaves the loop at its next round. *)
Definition stop_worker (i : nat) : P () :=
  w ← get_worker i;
  modify (upd_pool (set_worker i (mk_worker (wk_ring w) false))).

(** ** Runs of the pool *)

Inductive pevent : Type :=
  | PDispatch (malloc_ok : bool) (req handler worker_data : nat)
  | PWork (i : nat)
  | PStop (i : nat).

Definition pstep (ev : pevent) : P bool :=
  match ev with
  | PDispatch ok req handler worker_data => worker_pool_dispatch ok req handler worker_data
  | PWork i => worker_iteration i
  | PStop i => _ ← stop_worker i; mret true
  end.

(** The answers of the calls, in order. *)
Fixpoint psteps (evs : list pevent) : P (list bool) :=
  match evs with
  | [] => mret []
  | ev :: evs => b ← pstep ev; bs ← psteps evs; mret (b :: bs)
  end.

Definition pool_start (p : worker_pool_t) : pstate := mk_pstate p ∅ 1 [].

(** ** The specification: queues filled in turn *)

Record pspec : Type := mk_pspec {
  q_queues : list (list work_item_t);
  q_running : list bool;
  q_turn : Z;
  q_runs : list (nat * work_item_t);
}.

Definition spec_dispatch (it : work_item_t) (a : pspec) : pspec * bool :=
  let i := Z.to_nat (q_turn a mod Z.of_nat (length (q_queues a))) in
  let q := default [] (q_queues a !! i) in
  let turn := u64 (q_turn a + 1) in
  if Z.of_nat (length q) <? SPSC_CAPACITY
  then (mk_pspec (<[i := q ++ [it]]> (q_queues a)) (q_running a) turn (q_runs a), true)
  else (mk_pspec (q_queues a) (q_running a) turn (q_runs a), false).

Definition spec_body (i : nat) (a : pspec) : pspec :=
  match default [] (q_queues a !! i) with
  | [] => a
  | it :: q => mk_pspec (<[i := q]> (q_queues a)) (q_running a) (q_turn a)
                 (q_runs a ++ [(i, it)])
  end.

Definition spec_work (i : nat) (a : pspec) : pspec * bool :=
  if default false (q_running a !! i) then (spec_body i a, true) else (a, false).

Definition spec_step (ev : pevent) (a : pspec) : pspec * bool :=
  match ev with
  | PDispatch true req handler worker_data =>
      spec_dispatch (mk_work_item req handler worker_data) a
  | PDispatch false _ _ _ =>
      (mk_pspec (q_queues a) (q_running a) (u64 (q_turn a + 1)) (q_runs a), false)
  | PWork i => spec_work i a
  | PStop i =>
      (mk_pspec (q_queues a) (<[i := false]> (q_running a)) (q_turn a) (q_runs a), true)
  end.

Fixpoint spec_steps (evs : list pevent) (a : pspec) : pspec * list bool :=
  match evs with
  | [] => (a, [])
  | ev :: evs => let '(a, b) := spec_step ev a in
                 let '(a, bs) := spec_steps evs a in (a, b :: bs)
  end.

Definition spec_start (n : nat) : pspec := mk_pspec (replicate n []) (replicate n true) 0 [].

(** The events name workers of the pool. *)
Definition in_pool (n : nat) (ev : pevent) : Prop :=
  match ev with PDispatch _ _ _ _ => True | PWork i | PStop i => (i < n)%nat end.

(** ** The refinement relation *)

Definition CAP : nat := Z.to_nat SPSC_CAPACITY.

(** The pool [s] holds the queues of [a]: [addrs] are the addresses in the rings, each of
    exactly one allocated item. *)
Record pool_rep_at (addrs : list (list Z)) (s : pstate) (a : pspec) : Prop := {
  pr_rings : Forall2 (λ w q, ring_holds CAP (wk_ring w) q) (workers (p_pool s)) addrs;
  pr_items : Forall2 (Forall2 (λ x it, p_items s !! x = Some it)) addrs (q_queues a);
  pr_running : wk_running <$> workers (p_pool s) = q_running a;
  pr_nodup : NoDup (concat addrs);
  pr_alloc : ∀ x, is_Some (p_items s !! x) ↔ x ∈ concat addrs;
  pr_fresh : ∀ x, x ∈ concat addrs → 0 < x < p_addr s;
  pr_addr : 0 < p_addr s;
  pr_num : num_workers (p_pool s) = Z.of_nat (length (workers (p_pool s)));
  pr_some : 0 < num_workers (p_pool s);
  pr_next : next_worker (p_pool s) = q_turn a;
  pr_turn : 0 <= q_turn a;
  pr_runs : p_runs s = q_runs a;
}.

Definition pool_rep (s : pstate) (a : pspec) : Prop := ∃ addrs, pool_rep_at addrs s a.

(** ** Lemmas *)

Lemma spec_step_length ev a :
  length (q_queues (spec_step ev a).1) = length (q_queues a).
Proof.
  destruct ev as [[] req handler worker_data|j|j]; cbn [spec_step]; try done.
  - unfold spec_dispatch. cbv zeta. destruct (_ <? _); cbn; [by rewrite length_insert|done].
  - unfold spec_work, spec_body. destruct (default false _); [|done].
    destruct (default [] _); cbn; [done|]. by rewrite length_insert.
Qed.

Lemma spec_steps_length evs a :
  length (q_queues (spec_steps evs a).1) = length (q_queues a).
Proof.
  revert a. induction evs as [|ev evs IH]; intros a; [done|]. cbn [spec_steps].
  pose proof (spec_step_length ev a) as Hs. destruct (spec_step ev a) as [a1 b].
  specialize (IH a1). destruct (spec_steps evs a1). cbn in *. congruence.
Qed.

Lemma cap_ok : capacity_ok CAP.
Proof. exists 10. split; [lia|]. unfold CAP, SPSC_CAPACITY. by rewrite Z2Nat.id. Qed.

Lemma concat_insert_perm {A} (qs : list (list A)) i q q' :
  qs !! i = Some q → concat (<[i := q']> qs) ++ q ≡ₚ concat qs ++ q'.
Proof.
  revert i. induction qs as [|q0 qs IH]; intros [|i] Hq; [done|done|..].
  - injection Hq as ->. change (concat (<[0%nat := q']> (q :: qs))) with (q' ++ concat qs).
    change (concat (q :: qs)) with (q ++ concat qs). solve_Permutation.
  - change (concat (<[S i := q']> (q0 :: qs))) with (q0 ++ concat (<[i := q']> qs)).
    change (concat (q0 :: qs)) with (q0 ++ concat qs).
    rewrite <- !app_assoc. by rewrite IH.
Qed.

(** The addresses after a push and after a pop. *)
Lemma concat_push {A} (qs : list (list A)) i q x :
  qs !! i = Some q → concat (<[i := q ++ [x]]> qs) ≡ₚ x :: concat qs.
Proof.
  intros Hq. apply (Permutation_app_inv_r q). rewrite (concat_insert_perm qs i q) by done.
  solve_Permutation.
Qed.

Lemma concat_pop {A} (qs : list (list A)) i q x :
  qs !! i = Some (x :: q) → concat qs ≡ₚ x :: concat (<[i := q]> qs).
Proof.
  intros Hq. apply (Permutation_app_inv_r q).
  rewrite <- (concat_insert_perm qs i (x :: q) q) by done. solve_Permutation.
Qed.

Lemma pool_worker addrs s a i :
  pool_rep_at addrs s a → (i < length (workers (p_pool s)))%nat →
  ∃ w qa q, workers (p_pool s) !! i = Some w ∧ addrs !! i = Some qa ∧
    q_queues a !! i = Some q ∧ q_running a !! i = Some (wk_running w) ∧
    ring_holds CAP (wk_ring w) qa ∧ Forall2 (λ x it, p_items s !! x = Some it) qa q ∧
    get_worker i s = Ok (w, s).
Proof.
  intros [H1 H2 H3 _ _ _ _ _ _ _ _ _] Hi.
  destruct (lookup_lt_is_Some_2 _ _ Hi) as [w Hw].
  destruct (Forall2_lookup_l _ _ _ _ _ H1 Hw) as (qa & Hqa & Hr).
  destruct (Forall2_lookup_l _ _ _ _ _ H2 Hqa) as (q & Hq & Hit).
  exists w, qa, q. split_and!; try done.
  - by rewrite <- H3, list_lookup_fmap, Hw.
  - unfold get_worker, gets, lift, mbind, M_bind. by rewrite Hw.
Qed.

Lemma pool_lengths addrs s a :
  pool_rep_at addrs s a → length (q_queues a) = length (workers (p_pool s)) ∧
    length addrs = length (workers (p_pool s)).
Proof.
  intros [H1 H2 _ _ _ _ _ _ _ _ _ _]. apply Forall2_length in H1, H2. lia.
Qed.

(** A worker's ring replaced by one that holds [qa']. *)
Lemma rings_insert ws addrs i w r qa' :
  Forall2 (λ w q, ring_holds CAP (wk_ring w) q) ws addrs → ring_holds CAP r qa' →
  Forall2 (λ w q, ring_holds CAP (wk_ring w) q)
    (<[i := mk_worker r (wk_running w)]> ws) (<[i := qa']> addrs).
Proof. intros. by apply Forall2_insert. Qed.

Lemma running_insert (ws : list worker_t) i w r :
  ws !! i = Some w → wk_running <$> <[i := mk_worker r (wk_running w)]> ws = wk_running <$> ws.
Proof.
  intros Hw. rewrite list_fmap_insert. cbn. apply list_insert_id.
  by rewrite list_lookup_fmap, Hw.
Qed.

(** Items in the queues are not touched by an allocation or a release elsewhere. *)
Lemma items_ne (m m' : gmap Z work_item_t) addrs qs :
  Forall2 (Forall2 (λ x it, m !! x = Some it)) addrs qs →
  (∀ x, x ∈ concat addrs → m' !! x = m !! x) →
  Forall2 (Forall2 (λ x it, m' !! x = Some it)) addrs qs.
Proof.
  intros Hq Hm. induction Hq as [|qa q addrs qs Hqq Hq IH]; [constructor|].
  cbn [concat] in Hm. constructor.
  - assert (∀ x, x ∈ qa → m' !! x = m !! x) as Hm' by (intros x Hx; apply Hm; set_solver).
    clear -Hqq Hm'. induction Hqq as [|x it qa q Hx Hqq IH]; constructor.
    + rewrite Hm' by set_solver. done.
    + apply IH. set_solver.
  - apply IH. intros x Hx. apply Hm. set_solver.
Qed.

(** A pool that only took its turn. *)
Definition turned (s : pstate) : pstate :=
  upd_pool (λ p, mk_worker_pool (workers p) (num_workers p) (u64 (next_worker (p_pool s) + 1))) s.

Lemma pool_rep_turned addrs s a :
  pool_rep_at addrs s a →
  pool_rep_at addrs (turned s)
    (mk_pspec (q_queues a) (q_running a) (u64 (q_turn a + 1)) (q_runs a)).
Proof.
  intros [R1 R2 R3 R4 R5 R6 R7 R8 R9 R10 R11 R12]. split; try done; cbn.
  - by rewrite R10.
  - by apply wrap_u_range.
Qed.

(** The worker whose turn it is. *)
Lemma pool_turn addrs s a :
  pool_rep_at addrs s a →
  (Z.to_nat (next_worker (p_pool s) mod num_workers (p_pool s)) <
    length (workers (p_pool s)))%nat.
Proof.
  intros [_ _ _ _ _ _ _ R8 R9 _ _ _].
  pose proof (Z.mod_pos_bound (next_worker (p_pool s)) (num_workers (p_pool s)) R9). lia.
Qed.

(** An allocated item pushed into the ring of worker [i]. *)
Lemma pool_rep_pushed addrs s a i w qa q r it :
  pool_rep_at addrs s a → workers (p_pool s) !! i = Some w → addrs !! i = Some qa →
  q_queues a !! i = Some q → ring_holds CAP r (qa ++ [p_addr s]) →
  pool_rep (upd_pool (set_worker i (mk_worker r (wk_running w)))
      (upd_items (<[p_addr s := it]>) (bump_addr s)))
    (mk_pspec (<[i := q ++ [it]]> (q_queues a)) (q_running a) (q_turn a) (q_runs a)).
Proof.
  intros [R1 R2 R3 R4 R5 R6 R7 R8 R9 R10 R11 R12] Hw Hqa Hq Hr.
  exists (<[i := qa ++ [p_addr s]]> addrs).
  assert (p_addr s ∉ concat addrs) as Hnew by (intros Hin; apply R6 in Hin; lia).
  pose proof (concat_push addrs i qa (p_addr s) Hqa) as Hperm.
  assert (∀ x, x ∈ concat addrs → <[p_addr s := it]> (p_items s) !! x = p_items s !! x) as Hne
    by (intros x Hx; apply lookup_insert_ne; naive_solver).
  split; cbn; try done.
  - by apply rings_insert.
  - apply Forall2_insert; [by eapply items_ne|].
    pose proof (items_ne _ _ _ _ R2 Hne) as Hall.
    destruct (Forall2_lookup_lr _ _ _ _ _ _ Hall Hqa Hq).
    + repeat constructor. apply lookup_insert_eq.
    + apply Forall2_app; [by constructor|]. repeat constructor. apply lookup_insert_eq.
  - by rewrite running_insert.
  - rewrite Hperm. by constructor.
  - intros x. rewrite Hperm, elem_of_cons, lookup_insert_is_Some, R5.
    destruct (decide (x = p_addr s)); naive_solver.
  - intros x. rewrite Hperm, elem_of_cons. intros [->|Hx]; [lia|]. specialize (R6 x Hx). lia.
  - lia.
  - by rewrite length_insert.
Qed.

(** An allocated item that the full ring of worker [i] refused and that was freed. *)
Lemma pool_rep_refused addrs s a i w qa r it :
  pool_rep_at addrs s a → workers (p_pool s) !! i = Some w → addrs !! i = Some qa →
  ring_holds CAP r qa →
  pool_rep (upd_items (delete (p_addr s)) (upd_pool (set_worker i (mk_worker r (wk_running w)))
      (upd_items (<[p_addr s := it]>) (bump_addr s)))) a.
Proof.
  intros [R1 R2 R3 R4 R5 R6 R7 R8 R9 R10 R11 R12] Hw Hqa Hr. exists addrs.
  assert (p_items s !! p_addr s = None) as Hnew.
  { destruct (p_items s !! p_addr s) eqn:E; [|done].
    assert (p_addr s ∈ concat addrs) as Hin%R6 by (apply R5; by eexists). lia. }
  split; cbn; try done; rewrite ?delete_insert_eq, ?delete_id by done; try done.
  - rewrite <- (list_insert_id addrs i qa Hqa). by apply rings_insert.
  - by rewrite running_insert.
  - intros x Hx. specialize (R6 x Hx). lia.
  - lia.
  - by rewrite length_insert.
Qed.

Lemma refines_dispatch addrs s a req handler worker_data :
  pool_rep_at addrs s a →
  let it := mk_work_item req handler worker_data in
  ∃ s', worker_pool_dispatch true req handler worker_data s =
      Ok ((spec_dispatch it a).2, s') ∧ pool_rep s' (spec_dispatch it a).1.
Proof.
  intros Hrep. cbn zeta. destruct (pool_lengths _ _ _ Hrep) as [Lq La].
  pose proof (pool_turn _ _ _ Hrep) as Hi. apply pool_rep_turned in Hrep as Hrep'.
  unfold worker_pool_dispatch, spec_dispatch.
  rewrite Lq, <- (pr_num _ _ _ Hrep), <- (pr_next _ _ _ Hrep).
  set (i := Z.to_nat (next_worker (p_pool s) mod num_workers (p_pool s))) in *.
  destruct (pool_worker _ _ _ i Hrep' Hi)
    as (w & qa & q & Hw & Hqa & Hq & _ & Hring & Hit & Hget).
  rewrite M_bind_run. cbn [gets]. rewrite M_bind_run. cbn [modify].
  pose proof (pr_some _ _ _ Hrep). rewrite (proj2 (Z.eqb_neq _ _)) by lia.
  rewrite M_bind_run. cbn [negb assert_or lift]. fold (turned s). fold i.
  rewrite M_bind_run, Hget. cbn [negb].
  rewrite M_bind_run. cbn [gets]. rewrite M_bind_run. cbn [modify].
  rewrite M_bind_run. cbn [modify]. rewrite M_bind_run.
  destruct (ring_holds_push CAP (wk_ring w) qa (p_addr s) cap_ok Hring) as (r & Hp & Hr).
  change (p_addr (turned s)) with (p_addr s). unfold lift. rewrite Hp.
  cbn [q_queues] in Hq. rewrite Hq. cbn [default id].
  apply Forall2_length in Hit as Hlen. unfold spec.push in *.
  assert ((Z.of_nat (length q) <? SPSC_CAPACITY) = (length qa <? CAP)%nat) as ->.
  { rewrite Hlen. unfold CAP. destruct (Z.ltb_spec (Z.of_nat (length q)) SPSC_CAPACITY),
      (Nat.ltb_spec (length q) (Z.to_nat SPSC_CAPACITY)); unfold SPSC_CAPACITY in *; lia. }
  rewrite M_bind_run. cbn [modify].
  destruct (length qa <? CAP)%nat; cbn [fst snd negb] in *.
  - eexists. split; [reflexivity|]. rewrite (pr_next _ _ _ Hrep).
    exact (pool_rep_pushed _ _ _ i w qa q r _ Hrep' Hw Hqa Hq Hr).
  - rewrite M_bind_run. unfold free_item. rewrite M_bind_run. cbn [gets upd_pool upd_items p_items].
    rewrite lookup_insert_eq. eexists. split; [reflexivity|].
    rewrite (pr_next _ _ _ Hrep).
    exact (pool_rep_refused _ _ _ i w qa r _ Hrep' Hw Hqa Hr).
Qed.

(** The ring of worker [i] replaced by one that holds the same queue. *)
Lemma pool_rep_same addrs s a i w qa r :
  pool_rep_at addrs s a → workers (p_pool s) !! i = Some w → addrs !! i = Some qa →
  ring_holds CAP r qa →
  pool_rep (upd_pool (set_worker i (mk_worker r (wk_running w))) s) a.
Proof.
  intros [R1 R2 R3 R4 R5 R6 R7 R8 R9 R10 R11 R12] Hw Hqa Hr. exists addrs.
  split; cbn; try done.
  - rewrite <- (list_insert_id addrs i qa Hqa). by apply rings_insert.
  - by rewrite running_insert.
  - by rewrite length_insert.
Qed.

(** The first item of worker [i] handled and freed. *)
Lemma pool_rep_popped addrs s a i w x qa it q r :
  pool_rep_at addrs s a → workers (p_pool s) !! i = Some w → addrs !! i = Some (x :: qa) →
  q_queues a !! i = Some (it :: q) → ring_holds CAP r qa →
  pool_rep (upd_items (delete x) (add_run (i, it)
      (upd_pool (set_worker i (mk_worker r (wk_running w))) s)))
    (mk_pspec (<[i := q]> (q_queues a)) (q_running a) (q_turn a) (q_runs a ++ [(i, it)])).
Proof.
  intros [R1 R2 R3 R4 R5 R6 R7 R8 R9 R10 R11 R12] Hw Hqa Hq Hr.
  exists (<[i := qa]> addrs). pose proof (concat_pop addrs i qa x Hqa) as Hperm.
  rewrite Hperm in R4. apply NoDup_cons in R4 as [Hx Hnd].
  assert (Forall2 (Forall2 (λ x it, p_items s !! x = Some it)) (<[i := qa]> addrs)
    (<[i := q]> (q_queues a))) as Hall.
  { apply Forall2_insert; [done|].
    pose proof (Forall2_lookup_lr _ _ _ _ _ _ R2 Hqa Hq) as Hf. by inversion Hf. }
  split; cbn; try done.
  - by apply rings_insert.
  - eapply items_ne; [exact Hall|]. intros y Hy. apply lookup_delete_ne. by intros ->.
  - by rewrite running_insert.
  - intros y. rewrite lookup_delete_is_Some, R5, Hperm, elem_of_cons.
    split; [naive_solver|]. intros Hy. split; [by intros ->|by right].
  - intros y Hy. apply R6. rewrite Hperm. by right.
  - by rewrite length_insert.
  - by rewrite R12.
Qed.

Lemma refines_body addrs s a i :
  pool_rep_at addrs s a → (i < length (workers (p_pool s)))%nat →
  ∃ s', worker_body i s = Ok ((), s') ∧ pool_rep s' (spec_body i a).
Proof.
  intros Hrep Hi. destruct (pool_worker _ _ _ i Hrep Hi)
    as (w & qa & q & Hw & Hqa & Hq & _ & Hring & Hit & Hget).
  unfold worker_body, spec_body. rewrite M_bind_run, Hget, Hq. cbn [default id].
  destruct (ring_holds_pop CAP (wk_ring w) qa cap_ok Hring) as (r & Hp & Hr).
  rewrite M_bind_run. unfold lift. rewrite Hp, M_bind_run. cbn [modify].
  destruct Hit as [|x it qa q Hx Hit]; cbn [spec.pop fst snd] in *.
  - cbn [Z.eqb]. eexists. split; [reflexivity|]. by eapply pool_rep_same.
  - assert (0 < x) as Hpos.
    { apply (pr_fresh _ _ _ Hrep). apply list_elem_of_In, in_concat. exists (x :: qa).
      split; [apply list_elem_of_In; by eapply list_elem_of_lookup_2|by left]. }
    rewrite (proj2 (Z.eqb_neq _ _)) by lia. rewrite M_bind_run. cbn [gets upd_pool p_items].
    rewrite Hx, M_bind_run. cbn [modify]. unfold free_item.
    rewrite M_bind_run. cbn [gets add_run upd_pool p_items]. rewrite Hx. cbn [modify].
    eexists. split; [reflexivity|]. by eapply pool_rep_popped.
Qed.

Lemma refines_work addrs s a i :
  pool_rep_at addrs s a → (i < length (workers (p_pool s)))%nat →
  ∃ s', worker_iteration i s = Ok ((spec_work i a).2, s') ∧ pool_rep s' (spec_work i a).1.
Proof.
  intros Hrep Hi. destruct (pool_worker _ _ _ i Hrep Hi)
    as (w & qa & q & Hw & Hqa & Hq & Hrun & Hring & Hit & Hget).
  unfold worker_iteration, spec_work. rewrite M_bind_run, Hget, Hrun. cbn [default id].
  destruct (wk_running w); cbn [negb]; [|exists s; split; [done|by exists addrs]].
  destruct (refines_body addrs s a i Hrep Hi) as (s' & Hs & Hrep'). exists s'.
  by rewrite M_bind_run, Hs.
Qed.

Lemma refines_stop addrs s a i :
  pool_rep_at addrs s a → (i < length (workers (p_pool s)))%nat →
  ∃ s', stop_worker i s = Ok ((), s') ∧
    pool_rep s' (mk_pspec (q_queues a) (<[i := false]> (q_running a)) (q_turn a) (q_runs a)).
Proof.
  intros Hrep Hi. destruct (pool_worker _ _ _ i Hrep Hi)
    as (w & qa & q & Hw & Hqa & Hq & Hrun & Hring & Hit & Hget).
  unfold stop_worker. rewrite M_bind_run, Hget. eexists. split; [reflexivity|].
  destruct Hrep as [R1 R2 R3 R4 R5 R6 R7 R8 R9 R10 R11 R12]. exists addrs.
  split; cbn; try done.
  - rewrite <- (list_insert_id addrs i qa Hqa). by apply Forall2_insert.
  - by rewrite list_fmap_insert, R3.
  - by rewrite length_insert.
Qed.

Lemma refines_step s a ev :
  pool_rep s a → in_pool (length (q_queues a)) ev →
  ∃ s', pstep ev s = Ok ((spec_step ev a).2, s') ∧ pool_rep s' (spec_step ev a).1.
Proof.
  intros [addrs Hrep] Hev. destruct (pool_lengths _ _ _ Hrep) as [Lq _].
  destruct ev as [[] req handler worker_data|i|i]; cbn [pstep spec_step in_pool] in *;
    rewrite ?Lq in Hev.
  - destruct (refines_dispatch addrs s a req handler worker_data Hrep) as (s' & Hs & Hrep').
    by exists s'.
  - exists (turned s). split; [|by exists addrs; apply pool_rep_turned].
    pose proof (pool_turn _ _ _ Hrep) as Hi. apply pool_rep_turned in Hrep as Hrep'.
    destruct (pool_worker _ _ _ _ Hrep' Hi) as (w & _ & _ & _ & _ & _ & _ & _ & _ & Hget).
    unfold worker_pool_dispatch. rewrite M_bind_run. cbn [gets]. rewrite M_bind_run.
    cbn [modify]. pose proof (pr_some _ _ _ Hrep). rewrite (proj2 (Z.eqb_neq _ _)) by lia.
    rewrite M_bind_run. cbn [negb assert_or lift]. fold (turned s).
    by rewrite M_bind_run, Hget.
  - destruct (refines_work addrs s a i Hrep Hev) as (s' & Hs & Hrep').
    by exists s'.
  - destruct (refines_stop addrs s a i Hrep Hev) as (s' & Hs & Hrep').
    exists s'. split; [|done]. by rewrite M_bind_run, Hs.
Qed.

Lemma refines_steps evs s a :
  pool_rep s a → Forall (in_pool (length (q_queues a))) evs →
  ∃ s', psteps evs s = Ok ((spec_steps evs a).2, s') ∧ pool_rep s' (spec_steps evs a).1.
Proof.
  intros Hrep Hevs. revert s a Hrep Hevs. induction evs as [|ev evs IH]; intros s a Hrep Hevs.
  { by exists s. }
  apply Forall_cons in Hevs as [Hev Hevs].
  destruct (refines_step s a ev Hrep Hev) as (s1 & Hs1 & Hrep1).
  rewrite <- (spec_step_length ev) in Hevs.
  destruct (IH s1 _ Hrep1 Hevs) as (s2 & Hs2 & Hrep2). exists s2.
  cbn [psteps spec_steps]. rewrite M_bind_run, Hs1, M_bind_run, Hs2.
  destruct (spec_step ev a) as [a1 b]. cbn [fst snd] in *.
  by destruct (spec_steps evs a1) as [a2 bs].
Qed.

Lemma init_workers_ok rc i n :
  (∀ j, (j < i + n)%nat → rc j = 0) →
  init_workers rc i n = Ok (replicate n
    (mk_worker (mk_ring (replicate (Z.to_nat SPSC_CAPACITY) 0) (SPSC_CAPACITY - 1) 0 0) true)).
Proof.
  revert i. induction n as [|n IH]; intros i Hrc; [done|]. cbn [init_workers].
  change SPSC_CAPACITY with (Z.of_nat CAP). rewrite Nat2Z.id.
  rewrite spsc_ring_init_ok; [|exact cap_ok|by rewrite length_replicate].
  cbn [mbind outcome_bind]. rewrite Hrc by lia. cbn [Z.eqb assert_or].
  rewrite IH; [|intros j Hj; apply Hrc; lia]. cbn [mbind outcome_bind].
  change (Z.of_nat CAP) with SPSC_CAPACITY. done.
Qed.

Lemma pool_rep_start rc n :
  (0 < n)%nat → (∀ j, (j < n)%nat → rc j = 0) →
  ∃ p, worker_pool_init true rc (Z.of_nat n) = Ok p ∧ pool_rep (pool_start p) (spec_start n).
Proof.
  intros Hn Hrc. unfold worker_pool_init. rewrite (proj2 (Z.ltb_lt _ _)) by lia.
  cbn [assert_or mbind outcome_bind]. rewrite Nat2Z.id, init_workers_ok by (intros; apply Hrc; lia).
  cbn [mbind outcome_bind mret outcome_ret]. eexists. split; [done|].
  exists (replicate n []).
  assert (concat (replicate n ([] : list Z)) = []) as Hnil by (clear; by induction n).
  split; cbn [pool_start p_pool workers p_items p_addr num_workers next_worker p_runs spec_start
    q_queues q_running q_turn q_runs]; rewrite ?Hnil; try done; try lia.
  - clear. induction n; cbn; constructor; [|done].
    exists [], 0%nat. split_and!; try done; try (cbn; lia).
    intros i Hi. cbn in Hi. lia.
  - clear. induction n; cbn; constructor; [constructor|done].
  - rewrite fmap_replicate. done.
  - constructor.
  - intros x. rewrite lookup_empty. split; [by intros []|set_solver].
  - set_solver.
  - by rewrite length_replicate.
Qed.

(** The queues hold one allocated item each address. *)
Lemma pool_rep_size s a :
  pool_rep s a → size (p_items s) = length (concat (q_queues a)).
Proof.
  intros [addrs [R1 R2 R3 R4 R5 R6 R7 R8 R9 R10 R11 R12]].
  assert (length (concat (q_queues a)) = length (concat addrs)) as ->.
  { clear -R2. induction R2 as [|qa q addrs qs Hq R2 IH]; [done|]. cbn.
    rewrite !length_app, IH. f_equal. symmetry. by eapply Forall2_length. }
  rewrite <- size_dom, <- (size_list_to_set (C := gset Z)) by done. f_equal.
  apply set_eq. intros x. by rewrite elem_of_dom, R5, elem_of_list_to_set.
Qed.

(** ** Order *)

(** The items of the dispatches that were accepted for worker [i] of [n]. *)
Fixpoint accepted (n i : nat) (turn : Z) (evs : list pevent) (bs : list bool)
    : list work_item_t :=
  match evs, bs with
  | PDispatch _ req handler worker_data :: evs, b :: bs =>
      (if b && (turn mod Z.of_nat n =? Z.of_nat i)
       then [mk_work_item req handler worker_data] else []) ++
      accepted n i (u64 (turn + 1)) evs bs
  | _ :: evs, _ :: bs => accepted n i turn evs bs
  | _, _ => []
  end.

(** The items worker [i] handled, and those it was given. *)
Definition handled (i : nat) (runs : list (nat * work_item_t)) : list work_item_t :=
  snd <$> List.filter (λ r, (r.1 =? i)%nat) runs.
Definition given (i : nat) (a : pspec) : list work_item_t :=
  handled i (q_runs a) ++ default [] (q_queues a !! i).

Lemma handled_snoc i runs j it :
  handled i (runs ++ [(j, it)]) = handled i runs ++ (if (j =? i)%nat then [it] else []).
Proof.
  unfold handled. rewrite List.filter_app, fmap_app. cbn. by destruct (j =? i)%nat.
Qed.

Lemma given_step n i ev a evs bs :
  length (q_queues a) = n → (i < n)%nat → in_pool n ev → 0 <= q_turn a →
  let a' := (spec_step ev a).1 in
  given i a' ++ accepted n i (q_turn a') evs bs =
    given i a ++ accepted n i (q_turn a) (ev :: evs) ((spec_step ev a).2 :: bs) ∧
  0 <= q_turn a' ∧ length (q_queues a') = n.
Proof.
  intros Hn Hi Hev Ht. assert (0 <= u64 (q_turn a + 1)) as Hu by (by apply wrap_u_range).
  destruct ev as [[] req handler worker_data|j|j]; cbn [spec_step in_pool accepted] in *; cbn zeta.
  - unfold spec_dispatch. rewrite Hn.
    pose proof (Z.mod_pos_bound (q_turn a) (Z.of_nat n) ltac:(lia)) as Hmod.
    set (k := Z.to_nat (q_turn a mod Z.of_nat n)).
    assert ((q_turn a mod Z.of_nat n =? Z.of_nat i) = (k =? i)%nat) as ->.
    { unfold k. destruct (Z.eqb_spec (q_turn a mod Z.of_nat n) (Z.of_nat i)),
        (Nat.eqb_spec (Z.to_nat (q_turn a mod Z.of_nat n)) i); lia. }
    destruct (_ <? SPSC_CAPACITY); cbn [fst snd q_turn q_queues andb app]; [|done].
    split; [|by rewrite length_insert]. rewrite app_assoc. f_equal. unfold given.
    cbn [q_runs q_queues]. rewrite <- app_assoc. f_equal.
    destruct (Nat.eqb_spec k i) as [->|Hne].
    + rewrite list_lookup_insert_eq by lia. done.
    + rewrite list_lookup_insert_ne by done. by rewrite app_nil_r.
  - done.
  - unfold spec_work, spec_body. destruct (default false _); [|done].
    destruct (default [] (q_queues a !! j)) as [|it q] eqn:Hq; cbn [fst snd q_turn q_queues];
      [done|]. split; [|by rewrite length_insert]. f_equal. unfold given.
    cbn [q_runs q_queues]. rewrite handled_snoc.
    destruct (Nat.eqb_spec j i) as [->|Hne].
    + rewrite list_lookup_insert_eq by lia. rewrite Hq. by rewrite <- app_assoc.
    + rewrite list_lookup_insert_ne by done. by rewrite app_nil_r.
  - done.
Qed.

Lemma given_steps n i evs a :
  length (q_queues a) = n → (i < n)%nat → Forall (in_pool n) evs → 0 <= q_turn a →
  given i (spec_steps evs a).1 =
    given i a ++ accepted n i (q_turn a) evs (spec_steps evs a).2.
Proof.
  intros Hn Hi Hevs. revert a Hn. induction Hevs as [|ev evs Hev Hevs IH]; intros a Hn Ht.
  { cbn. by rewrite app_nil_r. }
  cbn [spec_steps]. destruct (given_step n i ev a evs (spec_steps evs (spec_step ev a).1).2 Hn Hi Hev Ht)
    as (Hg & Ht' & Hn').
  specialize (IH (spec_step ev a).1 Hn' Ht').
  destruct (spec_step ev a) as [a1 b]. cbn [fst snd] in *.
  destruct (spec_steps evs a1) as [a2 bs]. cbn [fst snd] in *. by rewrite IH.
Qed.

(** ** Properties *)

(** C16: the worker pool refines one bounded first-in first-out queue per worker, filled in
    turn: for every order of dispatches, worker rounds and stops no call shows undefined
    behaviour, the calls answer and the handlers run as the queues say (a dispatch is
    refused exactly when the queue whose turn it is holds 1024 items), and the work items
    allocated are those in the queues. *)
Theorem worker_pool_refines_queues (rc : nat → Z) (n : nat) (evs : list pevent) :
  (0 < n)%nat → (∀ j, (j < n)%nat → rc j = 0) → Forall (in_pool n) evs →
  ∃ p s', worker_pool_init true rc (Z.of_nat n) = Ok p ∧
    psteps evs (pool_start p) = Ok ((spec_steps evs (spec_start n)).2, s') ∧
    let a := (spec_steps evs (spec_start n)).1 in
    p_runs s' = q_runs a ∧ size (p_items s') = length (concat (q_queues a)).
Proof.
  intros Hn Hrc Hevs. destruct (pool_rep_start rc n Hn Hrc) as (p & Hp & Hrep).
  destruct (refines_steps evs (pool_start p) (spec_start n) Hrep) as (s' & Hs & Hrep').
  { cbn. by rewrite length_replicate. }
  exists p, s'. cbv zeta. split_and!; [done|done| |by apply pool_rep_size].
  destruct Hrep' as [addrs Hrep']. by destruct Hrep'.
Qed.

(** no work item is lost, doubled or reordered: at every moment the items a worker has
    handled, followed by those waiting in its ring, are those the pool accepted for it, in
    the order of the dispatches. *)
Theorem worker_pool_keeps_order (rc : nat → Z) (n i : nat) (p : worker_pool_t)
    (evs : list pevent) (bs : list bool) (s' : pstate) :
  (∀ j, (j < n)%nat → rc j = 0) → (i < n)%nat → Forall (in_pool n) evs →
  worker_pool_init true rc (Z.of_nat n) = Ok p →
  psteps evs (pool_start p) = Ok (bs, s') →
  ∃ addrs queued w,
    workers (p_pool s') !! i = Some w ∧ ring_holds CAP (wk_ring w) addrs ∧
    Forall2 (λ x it, p_items s' !! x = Some it) addrs queued ∧
    handled i (p_runs s') ++ queued = accepted n i 0 evs bs.
Proof.
  intros Hrc Hi Hevs Hp Hs.
  destruct (pool_rep_start rc n ltac:(lia) Hrc) as (p' & Hp' & Hrep).
  rewrite Hp in Hp'. injection Hp' as <-.
  destruct (refines_steps evs (pool_start p) (spec_start n) Hrep) as (s1 & Hs1 & [addrs Hrep']).
  { cbn. by rewrite length_replicate. }
  rewrite Hs in Hs1. injection Hs1 as -> <-.
  pose proof (given_steps n i evs (spec_start n) (length_replicate _ _) Hi Hevs ltac:(done)) as Hg.
  assert (given i (spec_start n) = []) as H0.
  { unfold given. cbn. by rewrite lookup_replicate_2. }
  rewrite H0 in Hg. cbn [app] in Hg. change (q_turn (spec_start n)) with 0 in Hg.
  destruct (pool_lengths _ _ _ Hrep') as [Lq _].
  assert (length (q_queues (spec_steps evs (spec_start n)).1) = n) as Ln.
  { rewrite spec_steps_length. cbn. apply length_replicate. }
  destruct (pool_worker _ _ _ i Hrep' ltac:(lia))
    as (w & qa & q & Hw & Hqa & Hq & _ & Hring & Hit & _).
  exists qa, q, w. split_and!; try done. rewrite <- Hg. unfold given.
  by rewrite Hq, (pr_runs _ _ _ Hrep').
Qed.

(** ** Witnesses *)

Definition sample_events : list pevent :=
  [PDispatch true 11 0 5; PDispatch true 12 0 5; PDispatch true 13 0 5; PWork 0; PStop 1;
   PWork 1; PWork 0].

Lemma sample_events_in_pool : Forall (in_pool 2) sample_events.
Proof. repeat (apply Forall_cons_2; [cbn; (done || lia)|]). apply Forall_nil_2. Qed.

Lemma worker_pool_refines_queues_witness :
  ∃ p s', worker_pool_init true (λ _, 0) 2 = Ok p ∧
    psteps sample_events (pool_start p) =
      Ok ([true; true; true; true; true; false; true], s') ∧
    p_runs s' = [(0%nat, mk_work_item 11 0 5); (0%nat, mk_work_item 13 0 5)].
Proof.
  destruct (worker_pool_refines_queues (λ _, 0) 2 sample_events) as (p & s' & Hp & Hs & Hr & _).
  - lia.
  - done.
  - exact sample_events_in_pool.
  - exists p, s'. split; [exact Hp|]. split; [exact Hs|exact Hr].
Defined.

Lemma worker_pool_keeps_order_witness :
  accepted 2 0 0 sample_events [true; true; true; true; true; false; true] =
    [mk_work_item 11 0 5; mk_work_item 13 0 5] ∧
  ∃ p s', worker_pool_init true (λ _, 0) 2 = Ok p ∧
    psteps sample_events (pool_start p) =
      Ok ([true; true; true; true; true; false; true], s') ∧
    ∃ queued, handled 0 (p_runs s') ++ queued =
      accepted 2 0 0 sample_events [true; true; true; true; true; false; true].
Proof.
  split; [reflexivity|].
  destruct (pool_rep_start (λ _, 0) 2) as (p & Hp & Hrep); [lia|done|].
  destruct (refines_steps sample_events (pool_start p) (spec_start 2) Hrep) as (s' & Hs & _);
    [exact sample_events_in_pool|].
  exists p, s'. split; [exact Hp|]. split; [exact Hs|].
  destruct (worker_pool_keeps_order (λ _, 0) 2 0 p sample_events
    [true; true; true; true; true; false; true] s') as
    (addrs & queued & w & _ & _ & _ & Hq).
  - done.
  - lia.
  - exact sample_events_in_pool.
  - exact Hp.
  - exact Hs.
  - exists queued. exact Hq.
Defined.
