(* ===== verification/Returns.v ===== *)
(** * The way back from the worker pool, and its end: src/worker_pool.c

    [on_return_message] answers the requests whose results are waiting at a receiver;
    [worker_pool_process_returns] wakes the receivers; [worker_pool_destroy] stops and
    joins the workers, whose threads go on between its steps ([dstep]).  The receivers'
    lists of messages and the queues are h2o's; what is modelled of them is which messages
    wait and which queues exist. *)

From S2P Require Import Prelude Ring WorkerPool.

(** ** State *)

(** [return_message_t]: [rm_body] is the memory [body] points to. *)
Record return_message_t : Type := mk_return_message {
  rm_req : nat;
  rm_status_code : Z;
  rm_body : list Z;
  rm_body_len : nat;
}.

Inductive reply : Type :=
  | ReplyInline (body : list Z)
  | ReplyError (status : Z) (reason : string) (body : list Z).

(** A return queue and its receiver, with the messages waiting. *)
Inductive queue_state : Type := QRegistered | QUnregistered | QDestroyed.

(** Where [worker_thread] is: before the test of [running], past it, out of the loop; or
    joined. *)
Inductive thread_pc : Type := TTest | TBody | TExited | TJoined.

Record rstate : Type := mk_rstate {
  rs_pool : pstate;
  rs_messages : gmap Z return_message_t;
  rs_waiting : list (list Z);
  rs_queues : list queue_state;
  rs_threads : list thread_pc;
  rs_woken : list nat;
  rs_reqs : gset nat;
  rs_replies : list (nat * reply);
}.

Definition upd_rpool (f : pstate → pstate) (s : rstate) : rstate :=
  mk_rstate (f (rs_pool s)) (rs_messages s) (rs_waiting s) (rs_queues s) (rs_threads s)
    (rs_woken s) (rs_reqs s) (rs_replies s).
Definition upd_messages (f : gmap Z return_message_t → gmap Z return_message_t) (s : rstate)
    : rstate :=
  mk_rstate (rs_pool s) (f (rs_messages s)) (rs_waiting s) (rs_queues s) (rs_threads s)
    (rs_woken s) (rs_reqs s) (rs_replies s).
Definition upd_waiting (f : list (list Z) → list (list Z)) (s : rstate) : rstate :=
  mk_rstate (rs_pool s) (rs_messages s) (f (rs_waiting s)) (rs_queues s) (rs_threads s)
    (rs_woken s) (rs_reqs s) (rs_replies s).
Definition upd_queues (f : list queue_state → list queue_state) (s : rstate) : rstate :=
  mk_rstate (rs_pool s) (rs_messages s) (rs_waiting s) (f (rs_queues s)) (rs_threads s)
    (rs_woken s) (rs_reqs s) (rs_replies s).
Definition upd_threads (f : list thread_pc → list thread_pc) (s : rstate) : rstate :=
  mk_rstate (rs_pool s) (rs_messages s) (rs_waiting s) (rs_queues s) (f (rs_threads s))
    (rs_woken s) (rs_reqs s) (rs_replies s).
Definition upd_woken (f : list nat → list nat) (s : rstate) : rstate :=
  mk_rstate (rs_pool s) (rs_messages s) (rs_waiting s) (rs_queues s) (rs_threads s)
    (f (rs_woken s)) (rs_reqs s) (rs_replies s).
Definition answer_req (q : nat) (r : reply) (s : rstate) : rstate :=
  mk_rstate (rs_pool s) (rs_messages s) (rs_waiting s) (rs_queues s) (rs_threads s)
    (rs_woken s) (rs_reqs s ∖ {[q]}) (rs_replies s ++ [(q, r)]).

Abbreviation R := (M rstate).

(** A call of the pool's code. *)
Definition on_pool {A} (m : P A) : R A := λ s,
  match m (rs_pool s) with
  | Ok (a, p) => Ok (a, upd_rpool (λ _, p) s)
  | Ub u => Ub u
  end.

(** ** The return path *)

(** A C string. *)
Fixpoint c_str (mem : list Z) : outcome (list Z) :=
  match mem with
  | [] => Ub OutOfBounds
  | b :: mem => if b =? 0 then mret [] else s ← c_str mem; mret (b :: s)
  end.

(** What [h2o_send_inline] or [h2o_send_error_generic] sends for a message. *)
Definition reply_of (msg : return_message_t) : outcome reply :=
  if rm_status_code msg =? 200 then
    if (length (rm_body msg) <? rm_body_len msg)%nat then Ub OutOfBounds
    else mret (ReplyInline (take (rm_body_len msg) (rm_body msg)))
  else body ← c_str (rm_body msg); mret (ReplyError (rm_status_code msg) "Error" body).

(** A request is answered once: then h2o has disposed of it. *)
Definition send_reply (req : nat) (r : reply) : R () :=
  reqs ← gets rs_reqs;
  if decide (req ∈ reqs) then modify (answer_req req r) else fail_with UseAfterFree.

(** The body of the loop, for the node at the head of the list. *)
Definition return_message (node : Z) : R () :=
  messages ← gets rs_messages;
  match messages !! node with
  | None => fail_with UseAfterFree
  | Some msg =>
      r ← lift (reply_of msg);
      _ ← send_reply (rm_req msg) r;
      modify (upd_messages (delete node))
  end.

(** [while (!h2o_linklist_is_empty(messages))]: the head is unlinked and handled. *)
Fixpoint return_loop (i : nat) (messages : list Z) : R () :=
  match messages with
  | [] => mret ()
  | node :: rest =>
      _ ← modify (upd_waiting (<[i := rest]>));
      _ ← return_message node;
      return_loop i rest
  end.

Definition on_return_message (i : nat) : R () :=
  waiting ← gets rs_waiting;
  messages ← lift (from_option_or OutOfBounds (waiting !! i));
  return_loop i messages.

(** [h2o_multithread_send_message(receiver, NULL)]: a wake-up without a message. *)
Definition wake_receiver (i : nat) : R () :=
  queues ← gets rs_queues;
  match queues !! i with
  | Some QRegistered => modify (upd_woken (alter S i))
  | _ => fail_with UseAfterFree
  end.

Definition worker_pool_process_returns : R () :=
  p ← gets (λ s, p_pool (rs_pool s));
  for_each (seq 0 (Z.to_nat (num_workers p))) wake_receiver.

(** ** The end of the pool *)

(** [pthread_join] of a thread that has returned. *)
Definition pthread_join (i : nat) : R () :=
  threads ← gets rs_threads;
  match threads !! i with
  | Some TExited => modify (upd_threads (<[i := TJoined]>))
  | _ => fail_with BadThread
  end.

Definition unregister_receiver (i : nat) : R () :=
  queues ← gets rs_queues;
  match queues !! i with
  | Some QRegistered => modify (upd_queues (<[i := QUnregistered]>))
  | _ => fail_with UseAfterFree
  end.

Definition destroy_queue (i : nat) : R () :=
  queues ← gets rs_queues;
  match queues !! i with
  | Some QUnregistered => modify (upd_queues (<[i := QDestroyed]>))
  | _ => fail_with UseAfterFree
  end.

(** After [free(pool->workers)] there is no worker to access. *)
Definition free_workers (p : worker_pool_t) : worker_pool_t :=
  mk_worker_pool [] (num_workers p) (next_worker p).

(** Where [worker_pool_destroy] is: at the head of its loop, in [pthread_join], returned. *)
Inductive destroy_pc : Type := DLoop (i : nat) | DJoin (i : nat) | DReturned.

(** [worker_pool_destroy] from where it is to where other threads can come in between. *)
Definition worker_pool_destroy (pc : destroy_pc) : R destroy_pc :=
  p ← gets (λ s, p_pool (rs_pool s));
  match pc with
  | DLoop i =>
      if Z.of_nat i <? num_workers p then _ ← on_pool (stop_worker i); mret (DJoin i)
      else _ ← on_pool (modify (upd_pool free_workers)); mret DReturned
  | DJoin i =>
      _ ← pthread_join i;
      _ ← unregister_receiver i;
      _ ← destroy_queue i;
      mret (DLoop (S i))
  | DReturned => mret DReturned
  end.

(** [worker_thread] of worker [i]: its test of [running], or the body of its loop. *)
Definition worker_thread (i : nat) : R () :=
  threads ← gets rs_threads;
  match threads !! i with
  | Some TTest =>
      w ← on_pool (get_worker i);
      modify (upd_threads (<[i := if wk_running w then TBody else TExited]>))
  | Some TBody => _ ← on_pool (worker_body i); modify (upd_threads (<[i := TTest]>))
  | _ => mret ()
  end.

(** *** The threads side by side *)

Inductive dlabel : Type := LDestroy | LThread (i : nat).

Record dstate : Type := mk_dstate { ds_state : rstate; ds_pc : destroy_pc }.

(** Who can move: [pthread_join] waits for the thread to return. *)
Definition denabled (l : dlabel) (d : dstate) : bool :=
  match l with
  | LDestroy =>
      match ds_pc d with
      | DLoop _ => true
      | DJoin i => match rs_threads (ds_state d) !! i with Some TExited => true | _ => false end
      | DReturned => false
      end
  | LThread i =>
      match rs_threads (ds_state d) !! i with Some TTest | Some TBody => true | _ => false end
  end.

Definition dstep (l : dlabel) (d : dstate) : outcome dstate :=
  match l with
  | LDestroy =>
      '(pc, s) ← worker_pool_destroy (ds_pc d) (ds_state d); mret (mk_dstate s pc)
  | LThread i =>
      '(_, s) ← worker_thread i (ds_state d); mret (mk_dstate s (ds_pc d))
  end.

Inductive dreach (d0 : dstate) : dstate → Prop :=
  | dreach_refl : dreach d0 d0
  | dreach_step d l d' :
      dreach d0 d → denabled l d = true → dstep l d = Ok d' → dreach d0 d'.

(** The pool after [worker_pool_init], with its queues and receivers, and its threads
    where [threads] says. *)
Definition returns_start (n : nat) (s : pstate) (threads : list thread_pc) (reqs : gset nat)
    : rstate :=
  mk_rstate s ∅ (replicate n []) (replicate n QRegistered) threads (replicate n 0%nat) reqs [].

(** An event of a pool that is not being destroyed. *)
Definition serving_event (ev : pevent) : Prop :=
  match ev with PStop _ => False | _ => True end.

(** ** Lemmas *)

Section returns.

Lemma return_message_Ok node msg r s :
  rs_messages s !! node = Some msg → rm_req msg ∈ rs_reqs s → reply_of msg = Ok r →
  return_message node s = Ok ((), upd_messages (delete node) (answer_req (rm_req msg) r s)).
Proof.
  intros Hm Hq Hr. unfold return_message, send_reply, gets, modify, lift, mbind, M_bind.
  rewrite Hm, Hr. by rewrite decide_True.
Qed.

(** Messages elsewhere are not touched by a release. *)
Lemma messages_ne (m m' : gmap Z return_message_t) nodes msgs :
  Forall2 (λ x y, m !! x = Some y) nodes msgs → (∀ x, x ∈ nodes → m' !! x = m !! x) →
  Forall2 (λ x y, m' !! x = Some y) nodes msgs.
Proof.
  intros Hm. induction Hm as [|x y nodes msgs Hx Hm IH]; intros Hne; constructor.
  - rewrite Hne by set_solver. done.
  - apply IH. intros z Hz. apply Hne. by right.
Qed.

Lemma foldr_delete_swap (m : gmap Z return_message_t) x nodes :
  foldr delete (delete x m) nodes = delete x (foldr delete m nodes).
Proof. induction nodes as [|y nodes IH]; cbn; [done|]. by rewrite IH, delete_delete. Qed.

(** The messages [msgs] at the addresses [nodes], one after the other. *)
Lemma return_loop_Ok i nodes msgs rs s :
  NoDup nodes → Forall2 (λ x m, rs_messages s !! x = Some m) nodes msgs →
  NoDup (rm_req <$> msgs) → Forall (λ m, rm_req m ∈ rs_reqs s) msgs →
  Forall2 (λ m r, reply_of m = Ok r) msgs rs →
  rs_waiting s !! i = Some nodes →
  ∃ s', return_loop i nodes s = Ok ((), s') ∧ rs_pool s' = rs_pool s ∧
    rs_waiting s' = <[i := []]> (rs_waiting s) ∧
    rs_replies s' = rs_replies s ++ zip (rm_req <$> msgs) rs ∧
    rs_reqs s' = rs_reqs s ∖ list_to_set (rm_req <$> msgs) ∧
    rs_messages s' = foldr delete (rs_messages s) nodes.
Proof.
  intros Hnd Hms Hrq Hlive Hrs. revert rs s Hnd Hms Hlive Hrs.
  revert nodes. induction msgs as [|m msgs IH]; intros nodes rs s Hnd Hms Hlive Hrs Hw.
  - apply Forall2_nil_inv_r in Hms as ->. apply Forall2_nil_inv_l in Hrs as ->.
    exists s. cbn. rewrite app_nil_r, list_insert_id by done. split_and!; try done. set_solver.
  - apply Forall2_cons_inv_r in Hms as (x & nodes' & Hx & Hms & ->).
    apply Forall2_cons_inv_l in Hrs as (r & rs' & Hr & Hrs & ->).
    apply NoDup_cons in Hnd as [Hx' Hnd]. cbn in Hrq. apply NoDup_cons in Hrq as [Hq Hrq].
    apply Forall_cons in Hlive as [Hl Hlive]. cbn [return_loop].
    rewrite M_bind_run. cbn [modify]. rewrite M_bind_run.
    rewrite (return_message_Ok x m r) by done.
    edestruct (IH Hrq nodes' rs') as (s' & Hrun & E1 & E2 & E3 & E4 & E5);
      [done| | |done| |exists s'; split; [exact Hrun|]].
    + cbn. apply (messages_ne (rs_messages s)); [done|]. intros y Hy.
      apply lookup_delete_ne. by intros ->.
    + cbn. apply Forall_forall. intros m' Hm'.
      rewrite Forall_forall in Hlive. specialize (Hlive m' Hm').
      assert (rm_req m' ≠ rm_req m); [|set_solver].
      intros E. apply Hq. rewrite <- E. by apply list_elem_of_fmap_2.
    + cbn. apply list_lookup_insert_eq. by eapply lookup_lt_Some.
    + rewrite E1, E2, E3, E4, E5. cbn. rewrite list_insert_insert_eq, <- app_assoc.
      split_and!; try done; [set_solver|]. by rewrite foldr_delete_swap.
Qed.

(** ** The end of the pool *)

Lemma get_worker_Ok i w s : workers (p_pool s) !! i = Some w → get_worker i s = Ok (w, s).
Proof. intros Hw. unfold get_worker, gets, lift, mbind, M_bind. by rewrite Hw. Qed.

Lemma on_pool_Ok {A} (m : P A) a p s :
  m (rs_pool s) = Ok (a, p) → on_pool m s = Ok (a, upd_rpool (λ _, p) s).
Proof. intros Hm. unfold on_pool. by rewrite Hm. Qed.

Lemma spec_body_length i a : length (q_queues (spec_body i a)) = length (q_queues a).
Proof.
  unfold spec_body. destruct (default [] _); [done|]. apply length_insert.
Qed.

Lemma spec_body_running i a : q_running (spec_body i a) = q_running a.
Proof. unfold spec_body. by destruct (default [] _). Qed.

Lemma serving_running evs a :
  Forall serving_event evs → q_running (spec_steps evs a).1 = q_running a.
Proof.
  intros Hevs. revert a. induction Hevs as [|ev evs Hev _ IH]; intros a; [done|].
  cbn [spec_steps]. specialize (IH (spec_step ev a).1).
  assert (q_running (spec_step ev a).1 = q_running a) as E.
  { destruct ev as [[] req h w|i|i]; try done; cbn [spec_step].
    - unfold spec_dispatch. cbv zeta. by destruct (_ <? _).
    - unfold spec_work. destruct (default false _); [|done]. apply spec_body_running. }
  destruct (spec_step ev a) as [a1 b]. cbn [fst] in IH, E. destruct (spec_steps evs a1). cbn in *. congruence.
Qed.

(** What the workers have done since [a0]: each has handled the first items of its queue. *)
Definition progress (a0 a : pspec) : Prop :=
  ∀ i, ∃ more, default [] (q_queues a0 !! i) = more ++ default [] (q_queues a !! i) ∧
    handled i (q_runs a) = handled i (q_runs a0) ++ more.

Lemma progress_refl a : progress a a.
Proof. intros i. exists []. by rewrite app_nil_r. Qed.

Lemma progress_body a0 a i :
  progress a0 a → (i < length (q_queues a))%nat → progress a0 (spec_body i a).
Proof.
  intros Hp Hi. unfold spec_body.
  destruct (default [] (q_queues a !! i)) as [|it q] eqn:Hq; [done|].
  intros j. destruct (Hp j) as (more & E1 & E2). cbn [q_queues q_runs].
  rewrite handled_snoc, E2. destruct (Nat.eqb_spec i j) as [<-|Hne].
  - rewrite list_lookup_insert_eq by done. exists (more ++ [it]).
    rewrite E1, Hq. cbn. by rewrite <- !app_assoc.
  - rewrite list_lookup_insert_ne by done. exists more. by rewrite app_nil_r.
Qed.

(** [k] workers joined; [stop]: the flag of the [k]-th is cleared. *)
Record destroying (n : nat) (a0 : pspec) (reqs : gset nat) (k : nat) (stop : bool) (s : rstate)
    : Prop := {
  ds_rep : ∃ a, pool_rep (rs_pool s) a ∧ length (q_queues a) = n ∧ progress a0 a ∧
    ∀ j, (j < n)%nat → q_running a !! j = Some (negb ((j <? k)%nat || (stop && (j =? k)%nat)));
  ds_threads : length (rs_threads s) = n ∧ ∀ j pc, rs_threads s !! j = Some pc →
    if (j <? k)%nat then pc = TJoined else pc ≠ TJoined ∧ (pc = TExited → stop = true ∧ j = k);
  ds_queues : ∀ j, (j < n)%nat →
    rs_queues s !! j = Some (if (j <? k)%nat then QDestroyed else QRegistered);
  ds_rest : rs_reqs s = reqs ∧ rs_replies s = [];
}.

Inductive destroy_ok (n : nat) (a0 : pspec) (reqs : gset nat) : dstate → Prop :=
  | dk_loop k s : (k <= n)%nat → destroying n a0 reqs k false s →
      destroy_ok n a0 reqs (mk_dstate s (DLoop k))
  | dk_join k s : (k < n)%nat → destroying n a0 reqs k true s →
      destroy_ok n a0 reqs (mk_dstate s (DJoin k))
  | dk_returned s : destroying n a0 reqs n false s →
      destroy_ok n a0 reqs (mk_dstate (upd_rpool (upd_pool free_workers) s) DReturned).

(** No thread is past its test. *)
Definition between_items (s : rstate) : Prop := ∀ j, rs_threads s !! j ≠ Some TBody.

Lemma destroying_worker n a0 reqs k stop s i :
  destroying n a0 reqs k stop s → (i < n)%nat →
  num_workers (p_pool (rs_pool s)) = Z.of_nat n ∧
  ∃ w, workers (p_pool (rs_pool s)) !! i = Some w ∧
    wk_running w = negb ((i <? k)%nat || (stop && (i =? k)%nat)).
Proof.
  intros [(a & [addrs Hat] & Hlen & _ & Hrun) _ _ _] Hi.
  destruct (pool_lengths _ _ _ Hat) as [Lq _].
  split; [rewrite (pr_num _ _ _ Hat); lia|].
  destruct (pool_worker _ _ _ i Hat ltac:(lia)) as (w & _ & _ & Hw & _ & _ & Hr & _).
  exists w. split; [done|]. rewrite (Hrun i Hi) in Hr. congruence.
Qed.

(** A thread that has passed its test and is not joined may go on to [pc]. *)
Lemma destroying_thread n a0 reqs k stop s i pc :
  destroying n a0 reqs k stop s → (k <= i)%nat → pc ≠ TJoined →
  (pc = TExited → stop = true ∧ i = k) →
  destroying n a0 reqs k stop (upd_threads (<[i := pc]>) s).
Proof.
  intros [Hrep [Hlen Ht] Hq Hr] Hi Hpc He. split; try done. split; [cbn; by rewrite length_insert|].
  intros j pc' Hj. apply list_lookup_insert_Some in Hj as [(<- & <- & _)|[_ Hj]]; [|by apply Ht].
  by rewrite (proj2 (Nat.ltb_ge i k)).
Qed.

(** The test. *)
Lemma thread_test n a0 reqs k stop s i :
  destroying n a0 reqs k stop s → rs_threads s !! i = Some TTest →
  let pc := if negb (stop && (i =? k)%nat) then TBody else TExited in
  worker_thread i s = Ok ((), upd_threads (<[i := pc]>) s) ∧
  destroying n a0 reqs k stop (upd_threads (<[i := pc]>) s).
Proof.
  intros Hd Hi. pose proof Hd as [_ [Hlen Ht] _ _]. specialize (Ht i TTest Hi) as Hp.
  destruct (Nat.ltb_spec i k) as [|Hki]; [done|]. apply lookup_lt_Some in Hi as Hlt.
  destruct (destroying_worker n a0 reqs k stop s i Hd ltac:(lia)) as (_ & w & Hw & Hrun).
  rewrite (proj2 (Nat.ltb_ge i k)) in Hrun by done. cbn [orb] in Hrun. cbn zeta.
  rewrite <- Hrun. split.
  - unfold worker_thread. rewrite M_bind_run. cbn [gets]. rewrite Hi.
    rewrite (M_bind_Ok _ _ _ _ _ (on_pool_Ok (get_worker i) w (rs_pool s) s (get_worker_Ok i w _ Hw))).
    by destruct s.
  - apply destroying_thread; [done|done|by destruct (wk_running w)|].
    rewrite Hrun. destruct stop; cbn; [|done]. by destruct (Nat.eqb_spec i k).
Qed.

(** The body. *)
Lemma thread_body n a0 reqs k stop s i :
  destroying n a0 reqs k stop s → rs_threads s !! i = Some TBody →
  ∃ s', worker_thread i s = Ok ((), s') ∧ destroying n a0 reqs k stop s' ∧
    rs_threads s' = <[i := TTest]> (rs_threads s).
Proof.
  intros Hd Hi. pose proof Hd as [(a & [addrs Hat] & Hlen & Hpr & Hrun) [Hl Ht] Hq Hr].
  specialize (Ht i TBody Hi) as Hp. destruct (Nat.ltb_spec i k) as [|Hki]; [done|].
  apply lookup_lt_Some in Hi as Hlt. destruct (pool_lengths _ _ _ Hat) as [Lq _].
  destruct (refines_body addrs (rs_pool s) a i Hat ltac:(lia)) as (p & Hb & Hrep).
  exists (upd_threads (<[i := TTest]>) (upd_rpool (λ _, p) s)). split_and!; [| |done].
  - unfold worker_thread. rewrite M_bind_run. cbn [gets]. rewrite Hi.
    by rewrite (M_bind_Ok _ _ _ _ _ (on_pool_Ok (worker_body i) () p s Hb)).
  - apply destroying_thread; [|done|done|done]. split; [|done|done|done].
    exists (spec_body i a). rewrite spec_body_length, spec_body_running.
    split_and!; try done. apply progress_body; [done|lia].
Qed.

(** [running = false] for the next worker. *)
Lemma destroy_stop n a0 reqs k s :
  destroying n a0 reqs k false s → (k < n)%nat →
  ∃ s', worker_pool_destroy (DLoop k) s = Ok (DJoin k, s') ∧ destroying n a0 reqs k true s' ∧
    rs_threads s' = rs_threads s ∧ p_items (rs_pool s') = p_items (rs_pool s).
Proof.
  intros Hd Hk. destruct (destroying_worker n a0 reqs k false s k Hd Hk) as (Hnum & w & Hw & _).
  pose proof Hd as [(a & [addrs Hat] & Hlen & Hpr & Hrun) [Hl Ht] Hq Hr].
  destruct (pool_lengths _ _ _ Hat) as [Lq _].
  destruct (refines_stop addrs (rs_pool s) a k Hat ltac:(lia)) as (p & Hs & Hrep).
  exists (upd_rpool (λ _, p) s). split; [|split; [|split; [done|]]].
  - unfold worker_pool_destroy. rewrite M_bind_run. cbn [gets]. rewrite Hnum.
    rewrite (proj2 (Z.ltb_lt _ _)) by lia.
    by rewrite (M_bind_Ok _ _ _ _ _ (on_pool_Ok (stop_worker k) () p s Hs)).
  - split; [|split; [done|]|done|done].
    + eexists. split; [exact Hrep|]. cbn [q_queues q_running]. split_and!; [done|done|].
      intros j Hj. destruct (decide (j = k)) as [->|Hne].
      * rewrite list_lookup_insert_eq by (by eapply lookup_lt_Some, Hrun).
        by rewrite Nat.eqb_refl, orb_true_r.
      * rewrite list_lookup_insert_ne, (Hrun j Hj) by done.
        by rewrite (proj2 (Nat.eqb_neq j k)).
    + intros j pc Hj. specialize (Ht j pc Hj). destruct (j <? k)%nat; [done|].
      destruct Ht as [? He]. split; [done|]. intros E. by destruct (He E).
  - revert Hs. unfold stop_worker. rewrite M_bind_run, (get_worker_Ok k w) by done.
    cbn. by intros [= <-].
Qed.

(** The rest of the loop's body, for a thread that has returned. *)
Lemma destroy_join n a0 reqs k s :
  destroying n a0 reqs k true s → (k < n)%nat → rs_threads s !! k = Some TExited →
  ∃ s', worker_pool_destroy (DJoin k) s = Ok (DLoop (S k), s') ∧
    destroying n a0 reqs (S k) false s' ∧ rs_threads s' = <[k := TJoined]> (rs_threads s) ∧
    rs_pool s' = rs_pool s.
Proof.
  intros [(a & Hrep & Hlen & Hpr & Hrun) [Hl Ht] Hq Hr] Hk He.
  pose proof (Hq k Hk) as Hqk. rewrite Nat.ltb_irrefl in Hqk.
  exists (upd_queues (<[k := QDestroyed]>) (upd_threads (<[k := TJoined]>) s)).
  split; [|split; [|done]].
  - unfold worker_pool_destroy, pthread_join, unregister_receiver, destroy_queue, gets, modify,
      mbind, M_bind. cbn. rewrite He. cbn. rewrite Hqk. cbn.
    rewrite list_lookup_insert_eq by (by eapply lookup_lt_Some). unfold upd_queues. cbn.
    by rewrite list_insert_insert_eq.
  - split; [|split; [by cbn; rewrite length_insert|]|cbn [rs_queues upd_queues upd_threads]|done].
    + exists a. split_and!; try done. intros j Hj. rewrite (Hrun j Hj). cbn [andb].
      rewrite orb_false_r. do 2 f_equal.
      destruct (Nat.ltb_spec j k), (Nat.eqb_spec j k), (Nat.ltb_spec j (S k)); (done || lia).
    + intros j pc Hj. apply list_lookup_insert_Some in Hj as [(<- & <- & _)|[Hne Hj]].
      * by rewrite (proj2 (Nat.ltb_lt k (S k))) by lia.
      * specialize (Ht j pc Hj). destruct (Nat.ltb_spec j k), (Nat.ltb_spec j (S k)); try lia;
          [done|]. destruct Ht as [? Hx]. split; [done|]. intros E. by destruct (Hx E) as [_ ->].
    + intros j Hj. destruct (decide (j = k)) as [->|Hne].
      * rewrite list_lookup_insert_eq by (by eapply lookup_lt_Some).
        by rewrite (proj2 (Nat.ltb_lt k (S k))) by lia.
      * rewrite list_lookup_insert_ne, (Hq j Hj) by done.
        destruct (Nat.ltb_spec j k), (Nat.ltb_spec j (S k)); (done || lia).
Qed.

Lemma destroy_free n a0 reqs s :
  destroying n a0 reqs n false s → (0 < n)%nat →
  worker_pool_destroy (DLoop n) s =
    Ok (DReturned, upd_rpool (upd_pool free_workers) s).
Proof.
  intros Hd Hn. destruct (destroying_worker n a0 reqs n false s 0 Hd Hn) as [Hnum _].
  unfold worker_pool_destroy. rewrite M_bind_run. cbn [gets]. rewrite Hnum.
  by rewrite (proj2 (Z.ltb_ge _ _)) by lia.
Qed.

(** Every step that can happen keeps the destruction in order. *)
Lemma destroy_step n a0 reqs d l :
  (0 < n)%nat → destroy_ok n a0 reqs d → denabled l d = true →
  ∃ d', dstep l d = Ok d' ∧ destroy_ok n a0 reqs d'.
Proof.
  intros Hn Hok Hen.
  assert (∀ k stop s i, destroying n a0 reqs k stop s → denabled (LThread i) (mk_dstate s (ds_pc d)) = true →
    ∃ s', worker_thread i s = Ok ((), s') ∧ destroying n a0 reqs k stop s') as Hth.
  { intros k stop s i Hd He. cbn in He.
    destruct (rs_threads s !! i) as [[]|] eqn:Hi; try done.
    - destruct (thread_test n a0 reqs k stop s i Hd Hi) as [Hrun Hd']. by eexists.
    - destruct (thread_body n a0 reqs k stop s i Hd Hi) as (s' & Hrun & Hd' & _). by eexists. }
  destruct Hok as [k s Hk Hd|k s Hk Hd|s Hd], l as [|i]; cbn [dstep ds_pc ds_state] in *.
  - destruct (decide (k = n)) as [->|Hne].
    + rewrite (destroy_free n a0 reqs s) by done. eexists. split; [done|]. by constructor.
    + destruct (destroy_stop n a0 reqs k s Hd ltac:(lia)) as (s' & -> & Hd' & _).
      eexists. split; [done|]. constructor; [lia|done].
  - destruct (Hth k false s i Hd Hen) as (s' & -> & Hd'). eexists. split; [done|]. by constructor.
  - cbn in Hen. destruct (rs_threads s !! k) as [[]|] eqn:He; try done.
    destruct (destroy_join n a0 reqs k s Hd Hk He) as (s' & -> & Hd' & _).
    eexists. split; [done|]. constructor; [lia|done].
  - destruct (Hth k true s i Hd Hen) as (s' & -> & Hd'). eexists. split; [done|]. by constructor.
  - done.
  - exfalso. destruct Hd as [_ [Hl Ht] _ _]. cbn in Hen.
    destruct (rs_threads s !! i) as [pc|] eqn:Hi; [|done]. specialize (Ht i pc Hi).
    apply lookup_lt_Some in Hi. rewrite (proj2 (Nat.ltb_lt i n)) in Ht by lia. by subst pc.
Qed.

Lemma destroy_reach n a0 reqs d0 d :
  (0 < n)%nat → destroy_ok n a0 reqs d0 → dreach d0 d → destroy_ok n a0 reqs d.
Proof.
  intros Hn Hok. induction 1 as [|d l d' _ IH Hen Hstep]; [done|].
  destruct (destroy_step n a0 reqs d l Hn IH Hen) as (d2 & E & Hok'). congruence.
Qed.

Lemma dreach_trans d1 d2 d3 : dreach d1 d2 → dreach d2 d3 → dreach d1 d3.
Proof. intros H12. induction 1; [done|]. by eapply dreach_step. Qed.

(** The thread whose flag is cleared returns: at once when it is before its test. *)
Lemma thread_exits n a0 reqs k s :
  destroying n a0 reqs k true s → (k < n)%nat →
  ∃ s', dreach (mk_dstate s (DJoin k)) (mk_dstate s' (DJoin k)) ∧
    destroying n a0 reqs k true s' ∧ rs_threads s' !! k = Some TExited ∧
    (between_items s → between_items s' ∧ p_items (rs_pool s') = p_items (rs_pool s)).
Proof.
  intros Hd Hk.
  assert (∀ s, destroying n a0 reqs k true s → rs_threads s !! k = Some TTest →
    dreach (mk_dstate s (DJoin k)) (mk_dstate (upd_threads (<[k := TExited]>) s) (DJoin k)) ∧
    destroying n a0 reqs k true (upd_threads (<[k := TExited]>) s)) as Htest.
  { intros s1 Hd1 Ht. destruct (thread_test n a0 reqs k true s1 k Hd1 Ht) as [Hrun Hd'].
    rewrite Nat.eqb_refl in Hrun, Hd'. cbn in Hrun, Hd'. split; [|done].
    eapply (dreach_step _ _ (LThread k)); [apply dreach_refl|by cbn; rewrite Ht|].
    cbn [dstep ds_state ds_pc]. by rewrite Hrun. }
  pose proof Hd as [_ [Hl Ht] _ _]. destruct (lookup_lt_is_Some_2 (rs_threads s) k) as [pc Hpc]; [lia|].
  specialize (Ht k pc Hpc). rewrite Nat.ltb_irrefl in Ht. destruct Ht as [Hj _].
  destruct pc; [| | |done].
  - destruct (Htest s Hd Hpc) as [Hr Hd']. eexists. split; [exact Hr|]. split; [done|].
    cbn. split; [apply list_lookup_insert_eq; lia|]. intros Hb. split; [|done].
    intros j Hx. apply list_lookup_insert_Some in Hx as [(_ & ? & _)|[_ Hx]]; [done|by apply (Hb j)].
  - destruct (thread_body n a0 reqs k true s k Hd Hpc) as (s1 & Hrun & Hd1 & Eth).
    assert (rs_threads s1 !! k = Some TTest) as H1.
    { rewrite Eth. apply list_lookup_insert_eq. lia. }
    destruct (Htest s1 Hd1 H1) as [Hr Hd']. eexists. split; [|split; [exact Hd'|split]].
    + eapply dreach_trans; [|exact Hr].
      eapply (dreach_step _ _ (LThread k)); [apply dreach_refl|by cbn; rewrite Hpc|].
      cbn [dstep ds_state ds_pc]. by rewrite Hrun.
    + cbn. apply list_lookup_insert_eq. rewrite Eth, length_insert. lia.
    + intros Hb. exfalso. by apply (Hb k).
  - exists s. split; [apply dreach_refl|]. by split_and!.
Qed.

(** From the head of the loop to the end. *)
Lemma destroy_run n a0 reqs m k s :
  (0 < n)%nat → (k + m = n)%nat → destroying n a0 reqs k false s →
  ∃ s', dreach (mk_dstate s (DLoop k)) (mk_dstate s' DReturned) ∧
    (between_items s → p_items (rs_pool s') = p_items (rs_pool s)).
Proof.
  intros Hn. revert k s. induction m as [|m IH]; intros k s Hm Hd.
  - assert (k = n) as -> by lia. exists (upd_rpool (upd_pool free_workers) s). split; [|by intros _].
    eapply (dreach_step _ _ LDestroy); [apply dreach_refl|done|]. cbn [dstep ds_state ds_pc].
    by rewrite (destroy_free n a0 reqs s).
  - destruct (destroy_stop n a0 reqs k s Hd ltac:(lia)) as (s1 & E1 & Hd1 & Et1 & Ei1).
    destruct (thread_exits n a0 reqs k s1 Hd1 ltac:(lia)) as (s2 & Hr2 & Hd2 & Hx & Hb2).
    destruct (destroy_join n a0 reqs k s2 Hd2 ltac:(lia) Hx) as (s3 & E3 & Hd3 & Et3 & Ep3).
    destruct (IH (S k) s3 ltac:(lia) Hd3) as (s4 & Hr4 & Hi4). exists s4. split.
    + eapply dreach_trans; [|exact Hr4]. eapply (dreach_step _ (mk_dstate s2 (DJoin k)) LDestroy).
      * eapply dreach_trans; [|exact Hr2]. eapply (dreach_step _ _ LDestroy);
          [apply dreach_refl|done|]. cbn [dstep ds_state ds_pc]. by rewrite E1.
      * cbn. by rewrite Hx.
      * cbn [dstep ds_state ds_pc]. by rewrite E3.
    + intros Hb. destruct Hb2 as [Hb3 Ei2]; [by intros j; rewrite Et1; apply Hb|].
      rewrite Hi4, Ep3, Ei2, Ei1; [done|]. intros j. rewrite Et3. intros Hj.
      apply list_lookup_insert_Some in Hj as [(_ & ? & _)|[_ Hj]]; [done|by apply (Hb3 j)].
Qed.

(** From anywhere. *)
Lemma destroy_completes n a0 reqs d :
  (0 < n)%nat → destroy_ok n a0 reqs d → ∃ d', dreach d d' ∧ ds_pc d' = DReturned.
Proof.
  intros Hn [k s Hk Hd|k s Hk Hd|s Hd].
  - destruct (destroy_run n a0 reqs (n - k) k s Hn ltac:(lia) Hd) as (s' & Hr & _). by eexists.
  - destruct (thread_exits n a0 reqs k s Hd Hk) as (s2 & Hr2 & Hd2 & Hx & _).
    destruct (destroy_join n a0 reqs k s2 Hd2 Hk Hx) as (s3 & E3 & Hd3 & _).
    destruct (destroy_run n a0 reqs (n - S k) (S k) s3 Hn ltac:(lia) Hd3) as (s' & Hr & _).
    exists (mk_dstate s' DReturned). split; [|done].
    eapply dreach_trans; [exact Hr2|]. eapply dreach_trans; [|exact Hr].
    eapply (dreach_step _ _ LDestroy); [apply dreach_refl|by cbn; rewrite Hx|].
    cbn [dstep ds_state ds_pc]. by rewrite E3.
  - eexists. by split; [apply dreach_refl|].
Qed.

(** What is left at the end. *)
Lemma destroy_end n a0 reqs s' :
  destroy_ok n a0 reqs (mk_dstate s' DReturned) →
  workers (p_pool (rs_pool s')) = [] ∧ rs_reqs s' = reqs ∧ rs_replies s' = [] ∧
  (∀ i, (i < n)%nat → rs_threads s' !! i = Some TJoined ∧ rs_queues s' !! i = Some QDestroyed) ∧
  ∃ addrs rests, length rests = n ∧
    (∀ i, ∃ more, default [] (q_queues a0 !! i) = more ++ default [] (rests !! i) ∧
      handled i (p_runs (rs_pool s')) = handled i (q_runs a0) ++ more) ∧
    Forall2 (Forall2 (λ x it, p_items (rs_pool s') !! x = Some it)) addrs rests ∧
    NoDup (concat addrs) ∧ size (p_items (rs_pool s')) = length (concat rests).
Proof.
  intros Hok. inversion Hok as [| |s Hd E]; clear Hok; subst s'. destruct Hd as [(a & Hrep & Hlen & Hpr & _) [Hl Ht] Hq [Hr1 Hr2]].
  pose proof (pool_rep_size _ _ Hrep) as Hsize. destruct Hrep as [addrs Hat].
  split_and!; try done.
  - intros i Hi. cbn. destruct (lookup_lt_is_Some_2 (rs_threads s) i) as [pc Hpc]; [lia|].
    specialize (Ht i pc Hpc). specialize (Hq i Hi). rewrite (proj2 (Nat.ltb_lt i n)) in Ht, Hq by done.
    by subst pc.
  - exists addrs, (q_queues a). cbn. rewrite (pr_runs _ _ _ Hat).
    split_and!; [done|exact Hpr|exact (pr_items _ _ _ Hat)|exact (pr_nodup _ _ _ Hat)|done].
Qed.

(** Before the first step. *)
Lemma destroying_start n evs s threads reqs :
  Forall serving_event evs → length threads = n →
  Forall (λ pc, pc = TTest ∨ pc = TBody) threads →
  pool_rep s (spec_steps evs (spec_start n)).1 →
  destroying n (spec_steps evs (spec_start n)).1 reqs 0 false (returns_start n s threads reqs).
Proof.
  intros Hserv Hlen Hth Hrep. split; cbn -[Nat.ltb Nat.eqb]; try done.
  - eexists. split; [exact Hrep|]. rewrite spec_steps_length, serving_running by done. cbn.
    rewrite length_replicate. split_and!; [done|apply progress_refl|].
    intros j Hj. by rewrite lookup_replicate_2.
  - split; [done|]. intros j pc Hj. rewrite Forall_lookup in Hth. specialize (Hth j pc Hj).
    cbn. naive_solver.
  - intros j Hj. by rewrite lookup_replicate_2.
Qed.
End returns.

(** What a message is answered with. *)
Inductive replies_to (m : return_message_t) : reply → Prop :=
  | replies_inline body more :
      rm_status_code m = 200 → rm_body m = body ++ more → length body = rm_body_len m →
      replies_to m (ReplyInline body)
  | replies_error text more :
      rm_status_code m ≠ 200 → rm_body m = text ++ 0 :: more → 0 ∉ text →
      replies_to m (ReplyError (rm_status_code m) "Error" text).

Lemma c_str_Ok text more : 0 ∉ text → c_str (text ++ 0 :: more) = Ok text.
Proof.
  induction text as [|b text IH]; intros H0; [done|]. cbn [app c_str].
  rewrite (proj2 (Z.eqb_neq b 0)) by set_solver. by rewrite IH by set_solver.
Qed.

Lemma replies_to_reply m r : replies_to m r → reply_of m = Ok r.
Proof.
  intros [body more Hc Hb Hl|text more Hc Hb H0]; unfold reply_of.
  - rewrite Hc, Hb, <- Hl, length_app. cbn [Z.eqb Pos.eqb].
    rewrite (proj2 (Nat.ltb_ge _ _)) by lia. by rewrite take_app_length.
  - rewrite (proj2 (Z.eqb_neq _ _) Hc), Hb. by rewrite c_str_Ok.
Qed.

(** ** Properties *)

(** C36: the receiver's callback answers the requests whose results wait, once each and in
    the order of the messages, frees each message and leaves the list empty: a message of
    status 200 is sent inline, the [body_len] bytes [body] points to; one of any other status
    becomes an error page with that status, reason "Error" and the C string [body].  The
    requests are alive and distinct and the bodies long enough or terminated. *)
Theorem return_messages_answer_in_order (i : nat) (nodes : list Z)
    (msgs : list return_message_t) (rs : list reply) (s : rstate) :
  rs_waiting s !! i = Some nodes → NoDup nodes →
  Forall2 (λ x m, rs_messages s !! x = Some m) nodes msgs →
  NoDup (rm_req <$> msgs) → Forall (λ m, rm_req m ∈ rs_reqs s) msgs →
  Forall2 replies_to msgs rs →
  ∃ s', on_return_message i s = Ok ((), s') ∧ rs_waiting s' !! i = Some [] ∧
    rs_replies s' = rs_replies s ++ zip (rm_req <$> msgs) rs ∧
    rs_reqs s' = rs_reqs s ∖ list_to_set (rm_req <$> msgs) ∧
    rs_messages s' = foldr delete (rs_messages s) nodes.
Proof.
  intros Hw Hnd Hms Hrq Hlive Hrs.
  assert (Forall2 (λ m r, reply_of m = Ok r) msgs rs) as Hrs'
    by (eapply Forall2_impl; [exact Hrs|apply replies_to_reply]).
  destruct (return_loop_Ok i nodes msgs rs s) as (s' & Hrun & _ & Ew & Er & Eq & Em); try done.
  exists s'. split_and!; try done.
  - unfold on_return_message, gets, lift, mbind, M_bind. by rewrite Hw.
  - rewrite Ew. apply list_lookup_insert_eq. by eapply lookup_lt_Some.
Qed.

(** C35: the end of the pool, after any run of dispatches and worker rounds and wherever the
    threads are then, for every interleaving of [worker_pool_destroy] with the threads it has
    not joined yet.  No step shows undefined behaviour and the destruction can always be
    brought to its end.  At the end every thread is joined, every queue destroyed and the
    workers freed; each worker has handled some first items of its ring, in order, and all
    the items behind them stay allocated, their requests unanswered; a destruction that
    finds every thread before its test can leave every queued item so. *)
Theorem worker_pool_destroy_leaks_the_queued (rc : nat → Z) (n : nat) (evs : list pevent)
    (threads : list thread_pc) (reqs : gset nat) :
  (0 < n)%nat → (∀ j, (j < n)%nat → rc j = 0) →
  Forall (in_pool n) evs → Forall serving_event evs →
  length threads = n → Forall (λ pc, pc = TTest ∨ pc = TBody) threads →
  ∃ p bs s, worker_pool_init true rc (Z.of_nat n) = Ok p ∧
    psteps evs (pool_start p) = Ok (bs, s) ∧
    let queues := q_queues (spec_steps evs (spec_start n)).1 in
    let d0 := mk_dstate (returns_start n s threads reqs) (DLoop 0) in
    (∀ d, dreach d0 d →
      (∀ l, denabled l d = true → is_ok (dstep l d) = true) ∧
      (∃ d', dreach d d' ∧ ds_pc d' = DReturned) ∧
      (∀ s', d = mk_dstate s' DReturned →
        workers (p_pool (rs_pool s')) = [] ∧ rs_reqs s' = reqs ∧ rs_replies s' = [] ∧
        (∀ i, (i < n)%nat →
          rs_threads s' !! i = Some TJoined ∧ rs_queues s' !! i = Some QDestroyed) ∧
        ∃ addrs rests, length rests = n ∧
          (∀ i, ∃ more, default [] (queues !! i) = more ++ default [] (rests !! i) ∧
            handled i (p_runs (rs_pool s')) = handled i (p_runs s) ++ more) ∧
          Forall2 (Forall2 (λ x it, p_items (rs_pool s') !! x = Some it)) addrs rests ∧
          NoDup (concat addrs) ∧ size (p_items (rs_pool s')) = length (concat rests))) ∧
    (Forall (λ pc, pc = TTest) threads →
      ∃ s', dreach d0 (mk_dstate s' DReturned) ∧ p_items (rs_pool s') = p_items s).
Proof.
  intros Hn Hrc Hevs Hserv Hlen Hth. destruct (pool_rep_start rc n Hn Hrc) as (p & Hp & Hrep).
  destruct (refines_steps evs (pool_start p) (spec_start n) Hrep) as (s & Hs & Hrep').
  { cbn. by rewrite length_replicate. }
  set (a0 := (spec_steps evs (spec_start n)).1) in *.
  exists p, (spec_steps evs (spec_start n)).2, s. split_and!; [done|done|]. cbv zeta.
  assert (destroying n a0 reqs 0 false (returns_start n s threads reqs)) as Hd
    by (by apply destroying_start).
  split.
  - intros d Hr. pose proof (destroy_reach n a0 reqs _ d Hn (dk_loop n a0 reqs 0 _ ltac:(lia) Hd) Hr)
      as Hok. split_and!.
    + intros l Hen. by destruct (destroy_step n a0 reqs d l Hn Hok Hen) as (d' & -> & _).
    + by eapply destroy_completes.
    + intros s' ->. destruct Hrep' as [addrs Hat]. rewrite (pr_runs _ _ _ Hat).
      by apply destroy_end.
  - intros Hall. destruct (destroy_run n a0 reqs n 0 _ Hn eq_refl Hd) as (s' & Hr & Hi).
    exists s'. split; [done|]. apply Hi. intros j Hj. cbn in Hj.
    rewrite Forall_lookup in Hall. by specialize (Hall j TBody Hj).
Qed.

(** ** Witnesses *)

Definition sample_messages : list return_message_t :=
  [mk_return_message 7 200 (bytes_of_string "hello") 5;
   mk_return_message 8 503 (bytes_of_string "busy" ++ [0]) 4].
Definition sample_returns : rstate :=
  mk_rstate (pool_start (mk_worker_pool [] 0 0))
    {[100 := mk_return_message 7 200 (bytes_of_string "hello") 5;
      200 := mk_return_message 8 503 (bytes_of_string "busy" ++ [0]) 4]}
    [[100; 200]] [QRegistered] [TTest] [0%nat] {[7%nat; 8%nat]} [].

Lemma return_messages_answer_in_order_witness :
  ∃ s', on_return_message 0 sample_returns = Ok ((), s') ∧
    rs_replies s' = [(7%nat, ReplyInline (bytes_of_string "hello"));
      (8%nat, ReplyError 503 "Error" (bytes_of_string "busy"))].
Proof.
  destruct (return_messages_answer_in_order 0 [100; 200] sample_messages
    [ReplyInline (bytes_of_string "hello"); ReplyError 503 "Error" (bytes_of_string "busy")]
    sample_returns) as (s' & Hrun & _ & Hr & _).
  - reflexivity.
  - apply (bool_decide_unpack _). by vm_compute.
  - repeat constructor.
  - apply (bool_decide_unpack _). by vm_compute.
  - apply (bool_decide_unpack _). by vm_compute.
  - constructor; [|constructor; [|constructor]].
    + by eapply (replies_inline _ _ []).
    + apply (replies_error (mk_return_message 8 503 (bytes_of_string "busy" ++ [0]) 4)
        (bytes_of_string "busy") []); [done|reflexivity|]. apply (bool_decide_unpack _). by vm_compute.
  - exists s'. split; [exact Hrun|exact Hr].
Defined.

(** Two items dispatched to one worker, none handled. *)
Definition undone_events : list pevent := [PDispatch true 11 0 5; PDispatch true 12 0 5].

Lemma worker_pool_destroy_leaks_the_queued_witness :
  ∃ p bs s s', worker_pool_init true (λ _, 0) 1 = Ok p ∧
    psteps undone_events (pool_start p) = Ok (bs, s) ∧
    dreach (mk_dstate (returns_start 1 s [TTest] {[11%nat; 12%nat]}) (DLoop 0))
      (mk_dstate s' DReturned) ∧
    p_items (rs_pool s') = p_items s ∧ rs_replies s' = [].
Proof.
  destruct (worker_pool_destroy_leaks_the_queued (λ _, 0) 1 undone_events [TTest]
    {[11%nat; 12%nat]}) as (p & bs & s & Hp & Hs & Hall & Hleak).
  - lia.
  - done.
  - repeat (apply Forall_cons_2; [done|]). apply Forall_nil_2.
  - repeat (apply Forall_cons_2; [done|]). apply Forall_nil_2.
  - reflexivity.
  - apply Forall_cons_2; [by left|apply Forall_nil_2].
  - destruct Hleak as (s' & Hr & Hi); [apply Forall_cons_2; [done|apply Forall_nil_2]|].
    destruct (Hall _ Hr) as (_ & _ & Hend). destruct (Hend s' eq_refl) as (_ & _ & Hrep & _).
    exists p, bs, s, s'. split_and!; [exact Hp|exact Hs|exact Hr|exact Hi|exact Hrep].
Defined.
