(* ===== verification/Ctx.v ===== *)
(** * Contexts and callbacks of the request handlers

    The [void *] a future's callback receives points to one of eight heap structs:
    [new_order_ctx_t] (src/handlers/tpcc_new_order.h), [payment_ctx_t]
    (tpcc_payment.h), [order_status_ctx_t], [delivery_ctx_t], [stock_level_ctx_t]
    (tpcc_read_txns.c), [single_query_ctx_t], [multi_query_ctx_t], [update_ctx_t]
    (tfb_handlers.c).  [ctx] is the object at such an address; [IsCtx] is what a cast
    of the [void *] promises.  [callback] names the functions handed to the adapter as
    function pointers.  Field names carry a prefix for their struct. *)

From S2P Require Import Prelude.

(** A pointer: NULL or an address. *)
Abbreviation ptr := (option nat).

Definition MAX_ORDER_LINES : Z := 15.
Definition MIN_ORDER_LINES : Z := 5.

Record new_order_ctx_t : Type := mk_new_order_ctx {
  no_tr : ptr; no_req : ptr; no_fdb_state : ptr; no_seed : Z;
  no_w_id : Z; no_d_id : Z; no_c_id : Z; no_ol_cnt : Z;
  no_ol_supply_w : list Z; no_ol_i_id : list Z; no_ol_quantity : list Z;
  no_all_local : bool;
  no_w_tax : Z; no_d_tax : Z; no_d_next_o_id : Z; no_c_discount : Z;
  no_s_quantity : list Z; no_s_amount : list Z;
  no_current_ol : Z; no_committed : bool;
}.

Record payment_ctx_t : Type := mk_payment_ctx {
  pc_tr : ptr; pc_req : ptr; pc_fdb_state : ptr; pc_seed : Z;
  pc_w_id : Z; pc_d_id : Z; pc_c_w_id : Z; pc_c_d_id : Z; pc_c_id : Z;
  pc_c_last : list Z; pc_by_name : bool; pc_h_amount : Z;
  pc_w_ytd : Z; pc_d_ytd : Z; pc_c_balance : Z; pc_c_payment_cnt : Z;
}.

Record order_status_ctx_t : Type := mk_order_status_ctx {
  os_tr : ptr; os_req : ptr; os_fdb_state : ptr;
  os_w_id : Z; os_d_id : Z; os_c_id : Z; os_c_last : list Z; os_by_name : bool;
}.

Record delivery_ctx_t : Type := mk_delivery_ctx {
  dl_tr : ptr; dl_req : ptr; dl_fdb_state : ptr; dl_w_id : Z; dl_carrier_id : Z;
}.

Record stock_level_ctx_t : Type := mk_stock_level_ctx {
  sl_tr : ptr; sl_req : ptr; sl_fdb_state : ptr; sl_w_id : Z; sl_d_id : Z;
  sl_threshold : Z;
}.

Record single_query_ctx_t : Type := mk_single_query_ctx {
  sq_req : ptr; sq_tr : ptr; sq_id : Z;
}.

(** The [ids] and [random_numbers] arrays live and die with the struct: they are part
    of it here, [None] when their [calloc] returned NULL. *)
Record multi_query_ctx_t : Type := mk_multi_query_ctx {
  mq_req : ptr; mq_tr : ptr; mq_num_query : Z; mq_num_result : Z;
  mq_ids : option (list Z); mq_random_numbers : option (list Z); mq_num_in_progress : Z;
}.

Record update_ctx_t : Type := mk_update_ctx {
  up_req : ptr; up_tr : ptr; up_num_query : Z; up_num_result : Z;
  up_ids : option (list Z); up_random_numbers : option (list Z); up_phase : bool;
}.

Inductive ctx : Type :=
  | CtxNewOrder (c : new_order_ctx_t)
  | CtxPayment (c : payment_ctx_t)
  | CtxOrderStatus (c : order_status_ctx_t)
  | CtxDelivery (c : delivery_ctx_t)
  | CtxStockLevel (c : stock_level_ctx_t)
  | CtxSingleQuery (c : single_query_ctx_t)
  | CtxMultiQuery (c : multi_query_ctx_t)
  | CtxUpdate (c : update_ctx_t).

(** What a cast of the callback argument promises: [of_ctx] succeeds exactly on
    objects of the struct. *)
Class IsCtx (A : Type) := {
  to_ctx : A → ctx;
  of_ctx : ctx → option A;
  of_to_ctx : ∀ a, of_ctx (to_ctx a) = Some a;
  to_of_ctx : ∀ c a, of_ctx c = Some a → c = to_ctx a;
}.

#[export, refine] Instance new_order_is_ctx : IsCtx new_order_ctx_t := {
  to_ctx := CtxNewOrder; of_ctx c := match c with CtxNewOrder a => Some a | _ => None end }.
Proof. 1: done. by intros [] a ?; simplify_eq/=. Defined.
#[export, refine] Instance payment_is_ctx : IsCtx payment_ctx_t := {
  to_ctx := CtxPayment; of_ctx c := match c with CtxPayment a => Some a | _ => None end }.
Proof. 1: done. by intros [] a ?; simplify_eq/=. Defined.
#[export, refine] Instance order_status_is_ctx : IsCtx order_status_ctx_t := {
  to_ctx := CtxOrderStatus;
  of_ctx c := match c with CtxOrderStatus a => Some a | _ => None end }.
Proof. 1: done. by intros [] a ?; simplify_eq/=. Defined.
#[export, refine] Instance delivery_is_ctx : IsCtx delivery_ctx_t := {
  to_ctx := CtxDelivery; of_ctx c := match c with CtxDelivery a => Some a | _ => None end }.
Proof. 1: done. by intros [] a ?; simplify_eq/=. Defined.
#[export, refine] Instance stock_level_is_ctx : IsCtx stock_level_ctx_t := {
  to_ctx := CtxStockLevel;
  of_ctx c := match c with CtxStockLevel a => Some a | _ => None end }.
Proof. 1: done. by intros [] a ?; simplify_eq/=. Defined.
#[export, refine] Instance single_query_is_ctx : IsCtx single_query_ctx_t := {
  to_ctx := CtxSingleQuery;
  of_ctx c := match c with CtxSingleQuery a => Some a | _ => None end }.
Proof. 1: done. by intros [] a ?; simplify_eq/=. Defined.
#[export, refine] Instance multi_query_is_ctx : IsCtx multi_query_ctx_t := {
  to_ctx := CtxMultiQuery;
  of_ctx c := match c with CtxMultiQuery a => Some a | _ => None end }.
Proof. 1: done. by intros [] a ?; simplify_eq/=. Defined.
#[export, refine] Instance update_is_ctx : IsCtx update_ctx_t := {
  to_ctx := CtxUpdate; of_ctx c := match c with CtxUpdate a => Some a | _ => None end }.
Proof. 1: done. by intros [] a ?; simplify_eq/=. Defined.

(** The functions passed as [void ( * cb)(FDBFuture *, void * )].  [MultiQueryNextCast]
    is [multi_query_next] cast to that type; its own type is different. *)
Inductive callback : Type :=
  | NoOnDistrictRead | NoOnCustomerRead | NoOnStockRead | NoOnCommit | NoOnErrorRetry
  | PayOnWarehouseRead | PayOnDistrictRead | PayOnCustomerRead | PayOnCommit
  | PayOnErrorRetry
  | OsOnCommit | DlOnCommit | SlOnRangeRead
  | OnSingleQueryResult | MultiQueryNextCast | UpdateOnRead | UpdateOnCommit.

#[export] Instance callback_eq_dec : EqDecision callback.
Proof. solve_decision. Defined.
