(* ===== verification/Utility.v ===== *)
(** * The response helpers: src/utility.c, src/error.h and src/handlers/tpcc_procedures.c

    The JSON generator objects and the functions that answer a request from them.  No
    handler uses them; the program's own contract for them is a generator that is taken,
    filled through yajl, sent and given back. *)

From S2P Require Import Prelude Ctx.

(** ** State *)

(** [content_type_t]. *)
Inductive content_type_t : Type := PLAIN | JSON | HTML.

(** The part of [req->res] the helpers set. *)
Record res_t : Type := mk_res {
  res_status : Z;
  res_reason : string;
  res_content_types : list string;
}.

(** What reaches the client: a response with the request's own head, or an error page. *)
Inductive sent : Type :=
  | SentInline (res : res_t) (body : list Z)
  | SentError (status : Z) (reason body : string).

(** [json_generator_t]: [gen] is the yajl generator. *)
Record json_generator_t : Type := mk_json_generator {
  jg_gen : ptr;
  jg_in_use : bool;
}.

(** Generator objects, the buffers of yajl's generators, open requests, answers. *)
Record ustate : Type := mk_ustate {
  us_heap : gmap nat json_generator_t;
  us_yajl : gmap nat (list Z);
  us_reqs : gmap nat res_t;
  us_sent : list (nat * sent);
  us_next : nat;
}.

Abbreviation U := (M ustate).

Definition upd_uheap (f : gmap nat json_generator_t → gmap nat json_generator_t) (s : ustate)
    : ustate := mk_ustate (f (us_heap s)) (us_yajl s) (us_reqs s) (us_sent s) (us_next s).
Definition upd_yajl (f : gmap nat (list Z) → gmap nat (list Z)) (s : ustate) : ustate :=
  mk_ustate (us_heap s) (f (us_yajl s)) (us_reqs s) (us_sent s) (us_next s).
Definition upd_ureqs (f : gmap nat res_t → gmap nat res_t) (s : ustate) : ustate :=
  mk_ustate (us_heap s) (us_yajl s) (f (us_reqs s)) (us_sent s) (us_next s).
Definition add_sent (x : nat * sent) (s : ustate) : ustate :=
  mk_ustate (us_heap s) (us_yajl s) (us_reqs s) (us_sent s ++ [x]) (us_next s).
Definition bump_unext (s : ustate) : ustate :=
  mk_ustate (us_heap s) (us_yajl s) (us_reqs s) (us_sent s) (S (us_next s)).

Definition u_fresh : U nat := a ← gets us_next; _ ← modify bump_unext; mret a.

(** An open request. *)
Definition get_req (req : nat) : U res_t :=
  reqs ← gets us_reqs; lift (from_option_or UseAfterFree (reqs !! req)).

(** h2o's functions: the answer ends the request. *)
Definition send_inline (req : nat) (body : list Z) : U () :=
  res ← get_req req;
  _ ← modify (upd_ureqs (delete req));
  modify (add_sent (req, SentInline res body)).
Definition send_error_page (req : nat) (status : Z) (reason body : string) : U () :=
  _ ← get_req req;
  _ ← modify (upd_ureqs (delete req));
  modify (add_sent (req, SentError status reason body)).

(** ** The helpers *)

Definition content_type_name (type : content_type_t) : string :=
  match type with
  | JSON => "application/json"
  | PLAIN => "text/plain"
  | HTML => "text/html; charset=utf-8"
  end.

(** [res.status = 200], [res.reason = "OK"] and a content-type header. *)
Definition ok_head (type : content_type_t) (req : nat) : U () :=
  res ← get_req req;
  modify (upd_ureqs (<[req := mk_res 200 "OK" (res_content_types res ++ [content_type_name type])]>)).

Definition set_default_response_param (type : content_type_t) (content_length : Z) (req : nat)
    : U () := ok_head type req.

Definition send_error (status_code : Z) (error_msg : string) (req : nat) : U () :=
  send_error_page req status_code "Error" error_msg.

Definition send_service_unavailable_error (error_msg : string) (req : nat) : U () :=
  send_error_page req 503 "Service Unavailable" error_msg.

Definition tpcc_send_error (status_code : Z) (error_msg : string) (req : nat) : U () :=
  send_error_page req 503 "Service Unavailable" error_msg.

(** [malloc_ok], [yajl_ok]: whether [malloc] and [yajl_gen_alloc] return an object. *)
Definition get_json_generator (malloc_ok yajl_ok : bool) : U nat :=
  if negb malloc_ok then fail_with NullDeref
  else
    a ← u_fresh;
    if negb yajl_ok then _ ← modify (upd_uheap (<[a := mk_json_generator None true]>)); mret a
    else
      g ← u_fresh;
      _ ← modify (upd_yajl (<[g := []]>));
      _ ← modify (upd_uheap (<[a := mk_json_generator (Some g) true]>));
      mret a.

Definition free_json_generator (gen : ptr) : U () :=
  match gen with
  | None => mret ()
  | Some a =>
      heap ← gets us_heap;
      match heap !! a with
      | None => fail_with UseAfterFree
      | Some jg =>
          _ ← (match jg_gen jg with
               | None => mret ()
               | Some g =>
                   yajl ← gets us_yajl;
                   match yajl !! g with
                   | None => fail_with UseAfterFree
                   | Some _ => modify (upd_yajl (delete g))
                   end
               end);
          modify (upd_uheap (delete a))
      end
  end.

(** [yajl_gen_get_buf]. *)
Definition yajl_buffer (a : nat) : U (list Z) :=
  heap ← gets us_heap;
  jg ← lift (from_option_or UseAfterFree (heap !! a));
  g ← lift (from_option_or NullDeref (jg_gen jg));
  yajl ← gets us_yajl;
  lift (from_option_or UseAfterFree (yajl !! g)).

(** The copy made for [copy] has the bytes of the buffer. *)
Definition send_json_gen (gen : nat) (copy : bool) (req : nat) : U Z :=
  buf ← yajl_buffer gen;
  _ ← ok_head JSON req;
  _ ← (if copy then let body := take (length buf) buf in send_inline req body
       else send_inline req buf);
  mret 0.

(** What the caller puts in through yajl. *)
Definition yajl_write (a : nat) (bytes : list Z) : U () :=
  heap ← gets us_heap;
  jg ← lift (from_option_or UseAfterFree (heap !! a));
  g ← lift (from_option_or NullDeref (jg_gen jg));
  yajl ← gets us_yajl;
  buf ← lift (from_option_or UseAfterFree (yajl !! g));
  modify (upd_yajl (<[g := buf ++ bytes]>)).

(** The life of a generator. *)
Definition json_reply (malloc_ok yajl_ok copy : bool) (bytes : list Z) (req : nat) : U () :=
  gen ← get_json_generator malloc_ok yajl_ok;
  _ ← yajl_write gen bytes;
  _ ← send_json_gen gen copy req;
  free_json_generator (Some gen).

(** ** Lemmas *)

(** Addresses not yet handed out are free. *)
Definition ufresh (s : ustate) : Prop :=
  ∀ a, (us_next s <= a)%nat → us_heap s !! a = None ∧ us_yajl s !! a = None.

Lemma ok_head_Ok type req res s :
  us_reqs s !! req = Some res →
  ok_head type req s = Ok ((), upd_ureqs
    (<[req := mk_res 200 "OK" (res_content_types res ++ [content_type_name type])]>) s).
Proof. intros Hr. unfold ok_head, get_req, gets, lift, mbind, M_bind, modify. by rewrite Hr. Qed.

Lemma send_inline_Ok req res body s :
  us_reqs s !! req = Some res →
  send_inline req body s = Ok ((), add_sent (req, SentInline res body) (upd_ureqs (delete req) s)).
Proof. intros Hr. unfold send_inline, get_req, gets, lift, mbind, M_bind, modify. by rewrite Hr. Qed.

(** The two objects of a generator, filled. *)
Lemma json_written bytes s :
  (get_json_generator true true ≫= λ gen, yajl_write gen bytes ≫= λ _, mret gen) s =
    Ok (us_next s, upd_yajl (<[S (us_next s) := bytes]>)
      (upd_uheap (<[us_next s := mk_json_generator (Some (S (us_next s))) true]>)
        (bump_unext (bump_unext s)))).
Proof.
  unfold get_json_generator, yajl_write, u_fresh, gets, modify, lift, mbind, M_bind, mret, M_ret.
  cbn. rewrite !lookup_insert_eq. cbn. rewrite !lookup_insert_eq. cbn.
  unfold upd_yajl, upd_uheap, bump_unext. cbn. by rewrite insert_insert_eq.
Qed.

(** Sending answers with the buffer, copied or not. *)
Lemma send_json_gen_Ok gen g bytes copy req res s :
  us_heap s !! gen = Some (mk_json_generator (Some g) true) → us_yajl s !! g = Some bytes →
  us_reqs s !! req = Some res →
  send_json_gen gen copy req s = Ok (0, add_sent (req, SentInline
      (mk_res 200 "OK" (res_content_types res ++ ["application/json"])) bytes)
    (upd_ureqs (delete req) s)).
Proof.
  intros Hg Hy Hr. unfold send_json_gen, yajl_buffer. rewrite !M_bind_run. cbn [gets].
  rewrite M_bind_run. unfold lift. rewrite Hg. cbn. unfold gets, mbind, M_bind. rewrite Hy. cbn.
  rewrite (ok_head_Ok JSON req res s Hr).
  assert (∀ w, (if copy then send_inline req (take (length bytes) bytes)
    else send_inline req bytes) w = send_inline req bytes w) as E
    by (intros w; destruct copy; by rewrite ?firstn_all).
  rewrite E, (send_inline_Ok req _ bytes _ (lookup_insert_eq _ _ _)).
  unfold add_sent, upd_ureqs. cbn. by rewrite delete_insert_eq.
Qed.

Lemma free_json_generator_Ok gen g bytes s :
  us_heap s !! gen = Some (mk_json_generator (Some g) true) → us_yajl s !! g = Some bytes →
  free_json_generator (Some gen) s = Ok ((), upd_uheap (delete gen) (upd_yajl (delete g) s)).
Proof.
  intros Hg Hy. unfold free_json_generator, gets, modify, mbind, M_bind. rewrite Hg. cbn.
  by rewrite Hy.
Qed.

(** ** Properties *)

(** a generator taken, filled, sent and given back answers its request with status 200
    and exactly the bytes generated, whether a copy is asked for or not, and leaves no
    object behind.  When [malloc] or yajl has no memory, NULL is dereferenced. *)
Theorem json_generator_answers_and_is_freed (copy : bool) (bytes : list Z) (req : nat)
    (res : res_t) (s : ustate) :
  us_reqs s !! req = Some res → ufresh s →
  (∃ s', json_reply true true copy bytes req s = Ok ((), s') ∧
    us_heap s' = us_heap s ∧ us_yajl s' = us_yajl s ∧ us_reqs s' = delete req (us_reqs s) ∧
    us_sent s' = us_sent s ++
      [(req, SentInline (mk_res 200 "OK" (res_content_types res ++ ["application/json"])) bytes)]) ∧
  (∀ yajl_ok, json_reply false yajl_ok copy bytes req s = Ub NullDeref) ∧
  json_reply true false copy bytes req s = Ub NullDeref.
Proof.
  intros Hreq Hf. destruct (Hf (us_next s)) as [F1 _], (Hf (S (us_next s))) as [_ F2]; [lia..|].
  split_and!; [|done|].
  - pose proof (json_written bytes s) as Hw. apply M_bind_inv in Hw as (gen & s1 & H1 & Hw).
    apply M_bind_inv in Hw as ([] & s2 & H2 & [= -> ->]).
    eexists. split.
    + unfold json_reply. rewrite (M_bind_Ok _ _ _ _ _ H1), (M_bind_Ok _ _ _ _ _ H2).
      erewrite M_bind_Ok by (eapply send_json_gen_Ok; [apply lookup_insert_eq..|exact Hreq]).
      eapply free_json_generator_Ok; apply lookup_insert_eq.
    + cbn. rewrite !delete_insert_id by done. by split_and!.
  - unfold json_reply, get_json_generator, yajl_write, u_fresh, gets, modify, lift, mbind, M_bind,
      mret, M_ret. cbn. by rewrite lookup_insert_eq.
Qed.

(** ** Witnesses *)

Definition sample_replies : ustate := mk_ustate ∅ ∅ {[3%nat := mk_res 0 "" []]} [] 10.

Lemma json_generator_answers_and_is_freed_witness :
  ∃ s', json_reply true true false [123; 125] 3 sample_replies = Ok ((), s') ∧
    us_heap s' = ∅ ∧
    us_sent s' = [(3%nat, SentInline (mk_res 200 "OK" ["application/json"%string]) [123; 125])].
Proof.
  destruct (proj1 (json_generator_answers_and_is_freed false [123; 125] 3 (mk_res 0 "" [])
    sample_replies ltac:(reflexivity) ltac:(intros a _; split; apply lookup_empty)))
    as (s' & Hrun & Hh & _ & _ & Hs).
  exists s'. split; [exact Hrun|]. split; [exact Hh|exact Hs].
Defined.
