(* ===== verification/Runtime.v ===== *)
(** * The runtime the handlers work in: src/fdb_database.c and the calls to h2o, yajl,
      the C library and libfdb_c

    [world] is the state the handlers share: the heap of contexts, the open FDB
    transactions with the writes they buffer, the futures submitted and not yet
    called back, the live requests and the responses sent, the thread states and the
    globals of the handler files.  The adapter of src/fdb_database.c is translated on
    it, function by function.

    What the environment decides is a parameter: [Env] answers every call that can
    fail (allocation, transaction creation, future creation, callback registration)
    and the clock, by the number of the call, and [answer] is what a future turns out
    to hold when its callback is run. *)

From S2P Require Import Prelude Ctx.

(** ** The environment *)

Class Env := {
  env_malloc : nat → bool;       (** [malloc]/[calloc] did not return NULL *)
  env_create_tr : nat → Z;       (** [fdb_database_create_transaction] *)
  env_future : nat → bool;       (** [fdb_transaction_*] did not return NULL *)
  env_set_callback : nat → Z;    (** [fdb_future_set_callback] *)
  env_yajl : nat → bool;         (** [yajl_gen_alloc] did not return NULL *)
  env_time : nat → Z;            (** [time(NULL)] *)
}.

(** An environment in which no call fails. *)
Definition env_ok (now : Z) : Env :=
  Build_Env (λ _, true) (λ _, 0) (λ _, true) (λ _, 0) (λ _, true) (λ _, now).

Class EnvOk `{Env} : Prop := {
  malloc_ok : ∀ t, env_malloc t = true;
  create_tr_ok : ∀ t, env_create_tr t = 0;
  future_ok : ∀ t, env_future t = true;
  set_callback_ok : ∀ t, env_set_callback t = 0;
  yajl_ok : ∀ t, env_yajl t = true;
}.

(** ** Data *)

(** What is given to the yajl generator. *)
Inductive json_tok : Type :=
  | JMapOpen | JMapClose | JArrayOpen | JArrayClose
  | JString (bs : list Z) | JInteger (x : Z).

(** [yajl_gen_string(gen, (const unsigned char * )s, len)] of a literal: the literal's
    array ends with its NUL. *)
Definition jstr (s : string) (len : nat) : json_tok :=
  JString (take len (bytes_of_string s ++ [0])).

Inductive response : Type :=
  | RInline (status : option Z) (content_type : option string) (body : list json_tok)
  | RText (status : option Z) (content_type : option string) (body : string)
  | RError (status : Z) (reason body : string).

Abbreviation write := (list Z * list Z)%type.

(** A key selector, as libfdb_c takes it: a key, [or_equal] and [offset]. *)
Record key_selector : Type := mk_key_selector {
  ks_key : list Z;
  ks_or_equal : bool;
  ks_offset : Z;
}.

(** What a future was asked for. *)
Inductive fdb_op : Type :=
  | OpGet (tr : nat) (key : list Z)
  | OpGetRange (tr : nat) (begin_sel end_sel : key_selector)
  | OpCommit (tr : nat)
  | OpOnError (tr : nat) (err : Z).

Definition op_tr (op : fdb_op) : nat :=
  match op with
  | OpGet tr _ | OpGetRange tr _ _ | OpCommit tr | OpOnError tr _ => tr
  end.

(** A submitted future: [fdb_callback_ctx_t]. *)
Record fdb_callback_ctx_t : Type := mk_fcb {
  f_op : fdb_op;
  f_cb : callback;
  f_ctx : nat;
}.

(** What the accessors of a ready future return: [fdb_future_get_error]; the error,
    presence and bytes of [fdb_future_get_value]; the error and pairs of
    [fdb_future_get_keyvalue_array].  [a_applied]: a commit that reports an error may
    still have been applied. *)
Record answer : Type := mk_answer {
  a_error : Z;
  a_value_error : Z;
  a_value : option (list Z);
  a_kvs_error : Z;
  a_kvs : list write;
  a_applied : bool;
}.

Definition ans_error (err : Z) : answer := mk_answer err err None err [] false.
Definition ans_value (v : list Z) : answer := mk_answer 0 0 (Some v) 0 [] false.
Definition ans_absent : answer := mk_answer 0 0 None 0 [] false.
Definition ans_done : answer := mk_answer 0 0 None 0 [] true.
Definition ans_range (kvs : list write) : answer := mk_answer 0 0 None 0 kvs false.

(** [fdb_thread_state_t]: [db] is set by [fdb_thread_init]. *)
Record fdb_thread_state_t : Type := mk_thread_state {
  ts_db : bool;
  ts_active_transactions : Z;
  ts_max_transactions : Z;
}.

(** The static variables of tpcc_handlers.c and tfb_handlers.c. *)
Record globals : Type := mk_globals {
  g_handler_fdb_state : ptr;
  g_handler_seed : Z;
  g_fdb_state : ptr;
  g_seed : option Z;
  g_world_cache : list Z;
  g_world_cache_loaded : bool;
}.

Record world : Type := mk_world {
  w_heap : gmap nat ctx;
  w_trs : gmap nat (list write);
  w_futures : gmap nat fdb_callback_ctx_t;
  w_reqs : gset nat;
  w_responses : list (nat * response);
  w_commits : list (list write);
  w_threads : gmap nat fdb_thread_state_t;
  w_globals : globals;
  w_next : nat;
  w_tick : nat;
}.

Definition upd_heap (f : gmap nat ctx → gmap nat ctx) (w : world) : world :=
  mk_world (f (w_heap w)) (w_trs w) (w_futures w) (w_reqs w) (w_responses w)
    (w_commits w) (w_threads w) (w_globals w) (w_next w) (w_tick w).
Definition upd_trs (f : gmap nat (list write) → gmap nat (list write)) (w : world) : world :=
  mk_world (w_heap w) (f (w_trs w)) (w_futures w) (w_reqs w) (w_responses w)
    (w_commits w) (w_threads w) (w_globals w) (w_next w) (w_tick w).
Definition upd_futures (f : gmap nat fdb_callback_ctx_t → gmap nat fdb_callback_ctx_t)
    (w : world) : world :=
  mk_world (w_heap w) (w_trs w) (f (w_futures w)) (w_reqs w) (w_responses w)
    (w_commits w) (w_threads w) (w_globals w) (w_next w) (w_tick w).
Definition upd_reqs (f : gset nat → gset nat) (w : world) : world :=
  mk_world (w_heap w) (w_trs w) (w_futures w) (f (w_reqs w)) (w_responses w)
    (w_commits w) (w_threads w) (w_globals w) (w_next w) (w_tick w).
Definition add_response (rr : nat * response) (w : world) : world :=
  mk_world (w_heap w) (w_trs w) (w_futures w) (w_reqs w) (w_responses w ++ [rr])
    (w_commits w) (w_threads w) (w_globals w) (w_next w) (w_tick w).
Definition add_commit (ws : list write) (w : world) : world :=
  mk_world (w_heap w) (w_trs w) (w_futures w) (w_reqs w) (w_responses w)
    (w_commits w ++ [ws]) (w_threads w) (w_globals w) (w_next w) (w_tick w).
Definition upd_threads (f : gmap nat fdb_thread_state_t → gmap nat fdb_thread_state_t)
    (w : world) : world :=
  mk_world (w_heap w) (w_trs w) (w_futures w) (w_reqs w) (w_responses w)
    (w_commits w) (f (w_threads w)) (w_globals w) (w_next w) (w_tick w).
Definition upd_globals (f : globals → globals) (w : world) : world :=
  mk_world (w_heap w) (w_trs w) (w_futures w) (w_reqs w) (w_responses w)
    (w_commits w) (w_threads w) (f (w_globals w)) (w_next w) (w_tick w).
Definition bump_next (w : world) : world :=
  mk_world (w_heap w) (w_trs w) (w_futures w) (w_reqs w) (w_responses w)
    (w_commits w) (w_threads w) (w_globals w) (S (w_next w)) (w_tick w).
Definition bump_tick (w : world) : world :=
  mk_world (w_heap w) (w_trs w) (w_futures w) (w_reqs w) (w_responses w)
    (w_commits w) (w_threads w) (w_globals w) (w_next w) (S (w_tick w)).

Abbreviation W := (M world).

(** ** Memory, requests and the environment *)

(** The address behind a pointer that is dereferenced. *)
Definition deref (p : ptr) : W nat := lift (from_option_or NullDeref p).

(** A fresh address or handle. *)
Definition fresh_id : W nat := n ← gets w_next; _ ← modify bump_next; mret n.

(** One answer of the environment. *)
Definition ext {A} (f : nat → A) : W A :=
  t ← gets w_tick; _ ← modify bump_tick; mret (f t).

Definition calloc `{Env} {A} `{IsCtx A} (zero : A) : W ptr :=
  ok ← ext env_malloc;
  if ok : bool then
    a ← fresh_id;
    _ ← modify (upd_heap (<[a := to_ctx zero]>));
    mret (Some a)
  else mret None.

(** [yajl_gen_alloc] with the [yajl_gen_map_open] or [yajl_gen_array_open] that follows it
    everywhere: the generator is not checked, and opening reads through it. *)
Definition yajl_gen_open `{Env} : W () :=
  ok ← ext env_yajl; if ok : bool then mret () else fail_with NullDeref.

(** The callback argument cast to [A *] and read. *)
Definition load (A : Type) `{IsCtx A} (a : nat) : W A :=
  h ← gets w_heap;
  lift (match h !! a with
        | None => Ub UseAfterFree
        | Some c => from_option_or TypeConfusion (of_ctx c)
        end).

(** The struct at [a] written back. *)
Definition store {A} `{IsCtx A} (a : nat) (x : A) : W () :=
  _ ← load A a; modify (upd_heap (<[a := to_ctx x]>)).

Definition free (a : nat) : W () :=
  h ← gets w_heap;
  match h !! a with
  | None => fail_with UseAfterFree
  | Some _ => modify (upd_heap (delete a))
  end.

(** A response ends the request: afterwards h2o may dispose of it. *)
Definition send_response (req : ptr) (r : response) : W () :=
  q ← deref req;
  live ← gets w_reqs;
  if decide (q ∈ live) then
    _ ← modify (upd_reqs (.∖ {[q]})); modify (add_response (q, r))
  else fail_with UseAfterFree.

Definition h2o_send_inline (req : ptr) (body : list json_tok) : W () :=
  send_response req (RInline None None body).
Definition h2o_send_error_503 (req : ptr) (reason body : string) : W () :=
  send_response req (RError 503 reason body).
Definition h2o_send_error_generic (req : ptr) (status : Z) (reason body : string) : W () :=
  send_response req (RError status reason body).

(** ** src/fdb_database.c *)

Section adapter.
Context `{Env}.

Definition load_tr (tr : ptr) : W nat :=
  t ← deref tr;
  ts ← gets w_trs;
  match ts !! t with None => fail_with UseAfterFree | Some _ => mret t end.

Definition fdb_transaction_destroy (tr : ptr) : W () :=
  t ← load_tr tr; modify (upd_trs (delete t)).

Definition load_thread (state : ptr) : W (nat * fdb_thread_state_t) :=
  s ← deref state;
  ts ← gets w_threads;
  match ts !! s with None => fail_with UseAfterFree | Some st => mret (s, st) end.

(** The error and, on success, the transaction stored through [tr]. *)
Definition fdb_create_transaction (state : ptr) : W (Z * ptr) :=
  '(s, st) ← load_thread state;
  _ ← lift (assert_or Aborted (ts_db st));
  err ← ext env_create_tr;
  if negb (err =? 0) then mret (err, None)
  else
    t ← fresh_id;
    _ ← modify (upd_trs (<[t := []]>));
    _ ← modify (upd_threads (<[s := mk_thread_state (ts_db st)
          (u64 (ts_active_transactions st + 1)) (ts_max_transactions st)]>));
    mret (0, Some t).

Definition submit_future (op : fdb_op) (cb : callback) (user_ctx : nat) : W Z :=
  ok ← ext env_malloc;
  if negb ok then mret (-1)
  else
    err ← ext env_set_callback;
    if negb (err =? 0) then mret err
    else
      f ← fresh_id;
      _ ← modify (upd_futures (<[f := mk_fcb op cb user_ctx]>));
      mret 0.

Definition fdb_async_get (tr : ptr) (key : list Z) (cb : callback) (ctx : nat) : W Z :=
  t ← load_tr tr;
  future ← ext env_future;
  if negb future then mret (-1) else submit_future (OpGet t key) cb ctx.

Definition fdb_sync_set (tr : ptr) (key value : list Z) : W () :=
  t ← load_tr tr;
  modify (upd_trs (alter (.++ [(key, value)]) t)).

Definition fdb_async_get_range (tr : ptr) (begin_key end_key : list Z) (cb : callback)
    (ctx : nat) : W Z :=
  t ← load_tr tr;
  future ← ext env_future;
  if negb future then mret (-1)
  else submit_future (OpGetRange t (mk_key_selector begin_key false 0)
    (mk_key_selector end_key false 0)) cb ctx.

Definition fdb_async_commit (tr : ptr) (cb : callback) (ctx : nat) : W Z :=
  t ← load_tr tr;
  future ← ext env_future;
  if negb future then mret (-1) else submit_future (OpCommit t) cb ctx.

Definition fdb_handle_error (tr : ptr) (err : Z) (cb : callback) (ctx : nat) : W Z :=
  t ← load_tr tr;
  future ← ext env_future;
  if negb future then mret err else submit_future (OpOnError t err) cb ctx.

(** [fdb_future_get_value] and the test every read callback makes of it:
    [err || !present || val_len < n] fails. *)
Definition future_value (ans : answer) (n : nat) : option (list Z) :=
  if negb (a_value_error ans =? 0) then None
  else match a_value ans with
       | None => None
       | Some v => if (length v <? n)%nat then None else Some v
       end.
End adapter.

(** What the store does when a future becomes ready, before its callback runs: a
    commit applies the writes buffered so far, a successful [on_error] resets the
    transaction. *)
Definition future_effect (op : fdb_op) (ans : answer) (w : world) : world :=
  match op with
  | OpCommit tr =>
      if a_applied ans then add_commit (default [] (w_trs w !! tr)) w else w
  | OpOnError tr _ =>
      if a_error ans =? 0 then upd_trs (alter (λ _, []) tr) w else w
  | _ => w
  end.

(** The writes a chain's callback finds: [future_effect] seen from its transaction. *)
Definition effect_ws (op : fdb_op) (ans : answer) (ws : list write) : list write :=
  match op with OpOnError _ _ => if a_error ans =? 0 then [] else ws | _ => ws end.

(** Answers the documentation of libfdb_c allows: a future without error yields its
    value, and a commit without error was applied. *)
Definition answer_ok (op : fdb_op) (ans : answer) : Prop :=
  a_error ans = 0 →
  match op with
  | OpGet _ _ => a_value_error ans = 0
  | OpGetRange _ _ _ => a_kvs_error ans = 0 ∧ Z.of_nat (length (a_kvs ans)) < 2 ^ 31
  | OpCommit _ => a_applied ans = true
  | OpOnError _ _ => True
  end.

(** [future_callback]: the user's callback, then the future and its record go. *)
Definition future_callback (run : callback → answer → nat → W ()) (f : nat) (ans : answer)
    : W () :=
  fs ← gets w_futures;
  match fs !! f with
  | None => fail_with UseAfterFree
  | Some p =>
      _ ← modify (future_effect (f_op p) ans);
      _ ← run (f_cb p) ans (f_ctx p);
      modify (upd_futures (delete f))
  end.
