(* ===== verification/Chain.v ===== *)
(** * Chains of callbacks: what a handler promises between two futures

    Every handler is a chain: at most one future of a context is pending, and when its
    callback runs it either asks for the next future or answers the request, destroys
    the transaction and frees the context.  [next] is that decision as a value;
    [exec_next] is what it does to the world.  The handler files give their callbacks a
    specification in these terms ([no_next], [pay_next], ...) and prove that the
    translated C code refines it: same world, same undefined behaviour. *)

From S2P Require Import Prelude Values Ctx Runtime.

Definition ctx_tr (c : ctx) : ptr :=
  match c with
  | CtxNewOrder c => no_tr c | CtxPayment c => pc_tr c | CtxOrderStatus c => os_tr c
  | CtxDelivery c => dl_tr c | CtxStockLevel c => sl_tr c | CtxSingleQuery c => sq_tr c
  | CtxMultiQuery c => mq_tr c | CtxUpdate c => up_tr c
  end.

Definition ctx_req (c : ctx) : ptr :=
  match c with
  | CtxNewOrder c => no_req c | CtxPayment c => pc_req c | CtxOrderStatus c => os_req c
  | CtxDelivery c => dl_req c | CtxStockLevel c => sl_req c | CtxSingleQuery c => sq_req c
  | CtxMultiQuery c => mq_req c | CtxUpdate c => up_req c
  end.

(** The next step of a chain: go on with context [c], the transaction holding the
    writes [ws], waiting for [op] with callback [cb] ([timed]: the clock was read);
    answer and end; or undefined behaviour. *)
Inductive next : Type :=
  | NContinue (timed : bool) (c : ctx) (ws : list write) (cb : callback) (op : fdb_op)
  | NFinish (r : response)
  | NUndef (u : ub).

(** The responses whose body a yajl generator builds. *)
Definition in_json (r : response) : bool :=
  match r with RInline _ _ _ => true | _ => false end.

Section exec.
Context `{Env}.

Definition exec_next (a tr req : nat) (n : next) : W () :=
  match n with
  | NContinue timed c ws cb op =>
      _ ← (if timed then _ ← ext env_time; mret () else mret ());
      _ ← modify (upd_heap (<[a := c]>));
      _ ← modify (upd_trs (<[tr := ws]>));
      future ← ext env_future;
      _ ← (if negb future then mret (-1) else submit_future op cb a);
      mret ()
  | NFinish r =>
      _ ← (if in_json r then yajl_gen_open else mret ());
      _ ← modify (upd_reqs (.∖ {[req]}));
      _ ← modify (add_response (req, r));
      _ ← modify (upd_trs (delete tr));
      modify (upd_heap (delete a))
  | NUndef u => fail_with u
  end.

(** The context at [a] is [c], and its transaction and request are live. *)
Record chain_at (w : world) (a : nat) (c : ctx) (tr req : nat) (ws : list write) : Prop := {
  at_heap : w_heap w !! a = Some c;
  at_tr : ctx_tr c = Some tr;
  at_req : ctx_req c = Some req;
  at_ws : w_trs w !! tr = Some ws;
  at_live : req ∈ w_reqs w;
}.

(** The shape the entry points share: allocate the context, draw its parameters, create
    the transaction, ask for the first future; a failure answers 503. *)
Definition exec_entry {A} `{IsCtx A} (zero : A) (req : ptr) (oom failed : string)
    (params : W A) (state : W ptr) (set_tr : A → ptr → A) (launch : nat → A → W ())
    : W () :=
  ctx ← calloc zero;
  match ctx with
  | None => h2o_send_error_503 req "Service Unavailable" oom
  | Some arg =>
      c ← params;
      _ ← store arg c;
      fdb_state ← state;
      '(err, tr) ← fdb_create_transaction fdb_state;
      if negb (err =? 0) then
        _ ← free arg;
        h2o_send_error_503 req "Service Unavailable" failed
      else
        _ ← store arg (set_tr c tr);
        launch arg (set_tr c tr)
  end.

(** ** Evaluation of the handlers' calls on such a world *)

Lemma bind_Ok {S A B} (m : M S A) (k : A → M S B) s a s' r :
  m s = Ok (a, s') → k a s' = r → (m ≫= k) s = r.
Proof. intros Hm <-. by apply M_bind_Ok. Qed.

Lemma load_Ok {A} `{IsCtx A} a (x : A) w :
  w_heap w !! a = Some (to_ctx x) → load A a w = Ok (x, w).
Proof.
  intros Hh. unfold load. rewrite M_bind_run. unfold gets. rewrite Hh.
  unfold lift. by rewrite of_to_ctx.
Qed.

Lemma store_Ok {A} `{IsCtx A} a (x y : A) w :
  w_heap w !! a = Some (to_ctx x) →
  store a y w = Ok ((), upd_heap (<[a := to_ctx y]>) w).
Proof. intros Hh. unfold store. rewrite M_bind_run. by rewrite (load_Ok a x). Qed.

Lemma free_Ok a c w : w_heap w !! a = Some c → free a w = Ok ((), upd_heap (delete a) w).
Proof. intros Hh. unfold free. rewrite M_bind_run. unfold gets. by rewrite Hh. Qed.

Lemma load_tr_Ok t ws w : w_trs w !! t = Some ws → load_tr (Some t) w = Ok (t, w).
Proof.
  intros Ht. unfold load_tr, deref, gets, lift, mbind, M_bind; simpl. by rewrite Ht.
Qed.

Lemma fdb_transaction_destroy_Ok t ws w :
  w_trs w !! t = Some ws →
  fdb_transaction_destroy (Some t) w = Ok ((), upd_trs (delete t) w).
Proof.
  intros Ht. unfold fdb_transaction_destroy. rewrite M_bind_run.
  by rewrite (load_tr_Ok _ ws).
Qed.

Lemma send_response_Ok q r w :
  q ∈ w_reqs w →
  send_response (Some q) r w = Ok ((), add_response (q, r) (upd_reqs (.∖ {[q]}) w)).
Proof.
  intros Hq. unfold send_response, deref, gets, lift, mbind, M_bind; simpl.
  by rewrite decide_True.
Qed.

Lemma fdb_sync_set_Ok t ws k v w :
  w_trs w !! t = Some ws →
  fdb_sync_set (Some t) k v w = Ok ((), upd_trs (<[t := ws ++ [(k, v)]]>) w).
Proof.
  intros Ht. unfold fdb_sync_set. rewrite M_bind_run, (load_tr_Ok _ ws) by done.
  unfold modify, upd_trs. do 3 f_equal. apply map_eq. intros j.
  destruct (decide (j = t)) as [->|].
  - by rewrite lookup_alter_eq, Ht, lookup_insert_eq.
  - by rewrite lookup_alter_ne, lookup_insert_ne.
Qed.

(** The tail every asynchronous call of the adapter has. *)
Definition submit_or_fail (op : fdb_op) (cb : callback) (a : nat) (failed : Z) : W () :=
  future ← ext env_future;
  _ ← (if negb future then mret failed else submit_future op cb a);
  mret ().

Lemma submit_or_fail_any op cb a z z' w :
  submit_or_fail op cb a z w = submit_or_fail op cb a z' w.
Proof. unfold submit_or_fail. rewrite !M_bind_run. simpl. by destruct (env_future _). Qed.

Lemma fdb_async_get_eq t ws key cb a w :
  w_trs w !! t = Some ws →
  (fdb_async_get (Some t) key cb a ≫= λ _, mret ()) w =
    submit_or_fail (OpGet t key) cb a (-1) w.
Proof.
  intros Ht. unfold fdb_async_get, submit_or_fail. rewrite !M_bind_run.
  rewrite (load_tr_Ok _ ws) by done. rewrite !M_bind_run. simpl.
  by destruct (env_future _).
Qed.

Lemma fdb_async_get_range_eq t ws b e cb a w :
  w_trs w !! t = Some ws →
  (fdb_async_get_range (Some t) b e cb a ≫= λ _, mret ()) w =
    submit_or_fail (OpGetRange t (mk_key_selector b false 0) (mk_key_selector e false 0))
      cb a (-1) w.
Proof.
  intros Ht. unfold fdb_async_get_range, submit_or_fail. rewrite !M_bind_run.
  rewrite (load_tr_Ok _ ws) by done. rewrite !M_bind_run. simpl.
  by destruct (env_future _).
Qed.

Lemma fdb_async_commit_eq t ws cb a w :
  w_trs w !! t = Some ws →
  (fdb_async_commit (Some t) cb a ≫= λ _, mret ()) w =
    submit_or_fail (OpCommit t) cb a (-1) w.
Proof.
  intros Ht. unfold fdb_async_commit, submit_or_fail. rewrite !M_bind_run.
  rewrite (load_tr_Ok _ ws) by done. rewrite !M_bind_run. simpl.
  by destruct (env_future _).
Qed.

Lemma fdb_handle_error_eq t ws err cb a w :
  w_trs w !! t = Some ws →
  (fdb_handle_error (Some t) err cb a ≫= λ _, mret ()) w =
    submit_or_fail (OpOnError t err) cb a (-1) w.
Proof.
  intros Ht. unfold fdb_handle_error, submit_or_fail. rewrite !M_bind_run.
  rewrite (load_tr_Ok _ ws) by done. rewrite !M_bind_run. simpl.
  by destruct (env_future _).
Qed.

Lemma yajl_gen_open_run w :
  yajl_gen_open w = if env_yajl (w_tick w) then Ok ((), bump_tick w) else Ub NullDeref.
Proof. unfold yajl_gen_open, ext. rewrite !M_bind_run. simpl. by destruct (env_yajl _). Qed.

(** The end of every chain, in each of the orders the code has it. *)
Lemma finish_eq w a c t q ws r :
  chain_at w a c t q ws → in_json r = false →
  (send_response (Some q) r ≫= λ _, fdb_transaction_destroy (Some t) ≫= λ _, free a) w =
    exec_next a t q (NFinish r) w.
Proof.
  intros [Hh _ _ Ht Hq] Hr. rewrite M_bind_run, send_response_Ok by done.
  rewrite M_bind_run, (fdb_transaction_destroy_Ok _ ws) by done.
  rewrite (free_Ok _ c) by done. cbn [exec_next]. by rewrite Hr.
Qed.

Lemma finish_json_eq w a c t q ws st ct body :
  chain_at w a c t q ws →
  (yajl_gen_open ≫= λ _, send_response (Some q) (RInline st ct body) ≫=
    λ _, fdb_transaction_destroy (Some t) ≫= λ _, free a) w =
    exec_next a t q (NFinish (RInline st ct body)) w.
Proof.
  intros [Hh _ _ Ht Hq]. cbn [exec_next in_json].
  rewrite !M_bind_run, yajl_gen_open_run.
  destruct (env_yajl _); [|done].
  rewrite M_bind_run, send_response_Ok by done.
  rewrite M_bind_run, (fdb_transaction_destroy_Ok _ ws) by done.
  by rewrite (free_Ok _ c).
Qed.

(** A world with the context and the writes it already has. *)
Lemma chain_same w a c t q ws :
  chain_at w a c t q ws → upd_trs (<[t := ws]>) (upd_heap (<[a := c]>) w) = w.
Proof.
  intros [Hh _ _ Ht _]. destruct w; unfold upd_trs, upd_heap; simpl in *.
  by rewrite !insert_id.
Qed.

Lemma exec_continue_eq a t q c ws cb op w :
  exec_next a t q (NContinue false c ws cb op) w =
    submit_or_fail op cb a (-1) (upd_trs (<[t := ws]>) (upd_heap (<[a := c]>) w)).
Proof. reflexivity. Qed.

Lemma exec_timed_eq a t q c ws cb op w :
  exec_next a t q (NContinue true c ws cb op) w =
    submit_or_fail op cb a (-1)
      (upd_trs (<[t := ws]>) (upd_heap (<[a := c]>) (bump_tick w))).
Proof. reflexivity. Qed.

(** Going on with the context and the writes unchanged. *)
Lemma exec_same_eq w a c t q ws cb op :
  chain_at w a c t q ws →
  exec_next a t q (NContinue false c ws cb op) w = submit_or_fail op cb a (-1) w.
Proof.
  intros Hat. rewrite exec_continue_eq. by by rewrite (chain_same w a c t q ws Hat).
Qed.

(** Going on with a new context. *)
Lemma exec_store_eq w a c c' t q ws cb op :
  chain_at w a c t q ws →
  exec_next a t q (NContinue false c' ws cb op) w =
    submit_or_fail op cb a (-1) (upd_heap (<[a := c']>) w).
Proof.
  intros [Hh _ _ Ht _]. rewrite exec_continue_eq.
  destruct w; unfold upd_trs, upd_heap; simpl in *. by rewrite (insert_id w_trs t ws).
Qed.
End exec.

(** A context overwritten by the next step need not be stored before. *)
Lemma exec_next_stored `{Env} a t q n c w :
  exec_next a t q n (upd_heap (<[a := c]>) w) = exec_next a t q n w.
Proof.
  destruct n as [timed c' ws cb op|r|u]; [|destruct w; simpl|done].
  - destruct timed; rewrite ?exec_timed_eq, ?exec_continue_eq; f_equal;
      destruct w; unfold upd_trs, upd_heap, bump_tick; simpl; by rewrite insert_insert_eq.
  - cbn [exec_next]. destruct (in_json r); rewrite !M_bind_run;
      [rewrite !yajl_gen_open_run; destruct (env_yajl _); [|done]|];
      unfold modify, mbind, M_bind, upd_heap, upd_trs, upd_reqs, add_response; simpl;
      by rewrite delete_insert_eq.
Qed.

Section steps.
Context `{Env}.

Lemma ext_Ok {A} (f : nat → A) w : ext f w = Ok (f (w_tick w), bump_tick w).
Proof. reflexivity. Qed.

Lemma lift_eq {S A} (o : outcome A) a (s : S) : o = Ok a → lift o s = Ok (a, s).
Proof. by intros ->. Qed.

Lemma upd_trs_insert t x w ws :
  w_trs w !! t = Some x → w_trs (upd_trs (<[t := ws]>) w) !! t = Some ws.
Proof. intros _. apply lookup_insert_eq. Qed.

Lemma upd_trs_twice t ws ws' w :
  upd_trs (<[t := ws']>) (upd_trs (<[t := ws]>) w) = upd_trs (<[t := ws']>) w.
Proof. destruct w; unfold upd_trs; simpl. by rewrite insert_insert_eq. Qed.

Lemma upd_heap_same a c w : w_heap w !! a = Some c → upd_heap (<[a := c]>) w = w.
Proof. intros Hh. destruct w; unfold upd_heap; simpl in *. by rewrite insert_id. Qed.

Lemma chain_at_stored w a c c' t q ws :
  chain_at w a c t q ws → ctx_tr c' = Some t → ctx_req c' = Some q →
  chain_at (upd_heap (<[a := c']>) w) a c' t q ws.
Proof. intros [Hh _ _ Ht Hq] ??. split; try done. apply lookup_insert_eq. Qed.

(** A loop of [fdb_sync_set]s buffers its writes in order. *)
Lemma for_each_writes {X} (l : list X) (body : X → W ()) (f : X → write) t ws w :
  (∀ x ws w, x ∈ l → w_trs w !! t = Some ws →
    body x w = Ok ((), upd_trs (<[t := ws ++ [f x]]>) w)) →
  w_trs w !! t = Some ws →
  for_each l body w = Ok ((), upd_trs (<[t := ws ++ (f <$> l)]>) w).
Proof.
  revert ws w. induction l as [|x l IH]; intros ws w Hbody Ht.
  - simpl. rewrite app_nil_r. destruct w; unfold upd_trs; simpl in *. by rewrite insert_id.
  - cbn [for_each]. rewrite M_bind_run, (Hbody x ws) by (set_solver || done).
    rewrite (IH (ws ++ [f x])).
    + by rewrite upd_trs_twice, <- app_assoc.
    + intros; apply Hbody; [set_solver|done].
    + by eapply upd_trs_insert.
Qed.
End steps.

(** A callback that got an error asks [on_error] with its context unchanged. *)
Lemma handle_error_refines `{Env} w a c t q ws err cb :
  chain_at w a c t q ws →
  (fdb_handle_error (Some t) err cb a ≫= λ _, mret ()) w =
    exec_next a t q (NContinue false c ws cb (OpOnError t err)) w.
Proof.
  intros Hat. rewrite (fdb_handle_error_eq _ ws) by apply Hat.
  by rewrite (exec_same_eq _ _ _ _ _ ws).
Qed.

(** Take one step of a handler whose call is known to succeed. *)
Ltac mstep tac := eapply bind_Ok; [solve [tac] | cbn beta iota].

(** One [fdb_sync_set] of a handler. *)
Ltac mset :=
  eapply bind_Ok;
  [eapply fdb_sync_set_Ok; first [eassumption | apply lookup_insert_eq]
  | cbn beta iota; rewrite ?upd_trs_twice].

(** ** Rows read by a callback *)

(** The row an answer holds, when it is long enough. *)
Definition read_row (A : Type) `{Packed A} (ans : answer) : option A :=
  match future_value ans (sizeof A) with
  | None => None
  | Some v => match load_struct A v with Ok x => Some x | Ub _ => None end
  end.

Lemma future_value_length ans n v : future_value ans n = Some v → (n <= length v)%nat.
Proof.
  unfold future_value. destruct (negb _); [done|]. destruct (a_value ans) as [v'|]; [|done].
  destruct (Nat.ltb_spec (length v') n); [done|]. by intros [= <-].
Qed.

Lemma read_row_cases (A : Type) `{PackedOk A} ans :
  (future_value ans (sizeof A) = None ∧ read_row A ans = None) ∨
  ∃ v x, future_value ans (sizeof A) = Some v ∧ load_struct A v = Ok x ∧
    read_row A ans = Some x ∧ to_fvals x = dec_fvals (layout A) v.
Proof.
  unfold read_row. destruct (future_value ans (sizeof A)) as [v|] eqn:E; [|by left].
  right. apply future_value_length in E as Hl.
  destruct (load_struct_enough (A := A) v Hl) as (x & Hx & Hf).
  exists v, x. by rewrite Hx.
Qed.

(** A stored row is the row read. *)
Lemma read_row_pack (A : Type) `{PackedOk A} (x : A) :
  struct_ok x → read_row A (ans_value (pack x)) = Some x.
Proof.
  intros Hx. unfold read_row, future_value; simpl. rewrite pack_length by done.
  rewrite (proj2 (Nat.ltb_ge _ _)) by lia. by rewrite load_pack_exact.
Qed.
