(* ===== verification/NewOrder.v ===== *)
(** * NewOrder: src/handlers/tpcc_new_order.c

    The callback chain: district, customer, one stock row per order line, then the
    writes and the commit; an error of any future goes to [fdb_handle_error], and
    [on_error_retry] restarts the chain. *)

From S2P Require Import Prelude Kv Random Values Ctx Runtime Chain.

(** ** Assignments to fields of the context *)

Definition no_set_tr (c : new_order_ctx_t) (tr : ptr) : new_order_ctx_t :=
  mk_new_order_ctx tr (no_req c) (no_fdb_state c) (no_seed c) (no_w_id c) (no_d_id c)
    (no_c_id c) (no_ol_cnt c) (no_ol_supply_w c) (no_ol_i_id c) (no_ol_quantity c)
    (no_all_local c) (no_w_tax c) (no_d_tax c) (no_d_next_o_id c) (no_c_discount c)
    (no_s_quantity c) (no_s_amount c) (no_current_ol c) (no_committed c).

Definition no_set_district (c : new_order_ctx_t) (tax next_o_id : Z) : new_order_ctx_t :=
  mk_new_order_ctx (no_tr c) (no_req c) (no_fdb_state c) (no_seed c) (no_w_id c)
    (no_d_id c) (no_c_id c) (no_ol_cnt c) (no_ol_supply_w c) (no_ol_i_id c)
    (no_ol_quantity c) (no_all_local c) (no_w_tax c) tax next_o_id (no_c_discount c)
    (no_s_quantity c) (no_s_amount c) (no_current_ol c) (no_committed c).

Definition no_set_discount (c : new_order_ctx_t) (discount : Z) : new_order_ctx_t :=
  mk_new_order_ctx (no_tr c) (no_req c) (no_fdb_state c) (no_seed c) (no_w_id c)
    (no_d_id c) (no_c_id c) (no_ol_cnt c) (no_ol_supply_w c) (no_ol_i_id c)
    (no_ol_quantity c) (no_all_local c) (no_w_tax c) (no_d_tax c) (no_d_next_o_id c)
    discount (no_s_quantity c) (no_s_amount c) (no_current_ol c) (no_committed c).

Definition no_set_current_ol (c : new_order_ctx_t) (ol : Z) : new_order_ctx_t :=
  mk_new_order_ctx (no_tr c) (no_req c) (no_fdb_state c) (no_seed c) (no_w_id c)
    (no_d_id c) (no_c_id c) (no_ol_cnt c) (no_ol_supply_w c) (no_ol_i_id c)
    (no_ol_quantity c) (no_all_local c) (no_w_tax c) (no_d_tax c) (no_d_next_o_id c)
    (no_c_discount c) (no_s_quantity c) (no_s_amount c) ol (no_committed c).

Definition no_set_stock (c : new_order_ctx_t) (qty amount : list Z) : new_order_ctx_t :=
  mk_new_order_ctx (no_tr c) (no_req c) (no_fdb_state c) (no_seed c) (no_w_id c)
    (no_d_id c) (no_c_id c) (no_ol_cnt c) (no_ol_supply_w c) (no_ol_i_id c)
    (no_ol_quantity c) (no_all_local c) (no_w_tax c) (no_d_tax c) (no_d_next_o_id c)
    (no_c_discount c) qty amount (no_current_ol c) (no_committed c).

Definition no_set_committed (c : new_order_ctx_t) : new_order_ctx_t :=
  mk_new_order_ctx (no_tr c) (no_req c) (no_fdb_state c) (no_seed c) (no_w_id c)
    (no_d_id c) (no_c_id c) (no_ol_cnt c) (no_ol_supply_w c) (no_ol_i_id c)
    (no_ol_quantity c) (no_all_local c) (no_w_tax c) (no_d_tax c) (no_d_next_o_id c)
    (no_c_discount c) (no_s_quantity c) (no_s_amount c) (no_current_ol c) true.

(** [calloc(1, sizeof(new_order_ctx_t))]. *)
Definition new_order_ctx_zero : new_order_ctx_t :=
  mk_new_order_ctx None None None 0 0 0 0 0 (replicate 15 0) (replicate 15 0)
    (replicate 15 0) false 0 0 0 0 (replicate 15 0) (replicate 15 0) 0 false.

(** The key a builder leaves in a 64-byte local array. *)
Abbreviation key64 k := (key_bytes (k (stack_buf 64))).

Section handlers.
Context `{Env} `{RandR}.

Definition finish_new_order (ctx : nat) (c : new_order_ctx_t) (status : Z) (body : string)
    : W () :=
  _ ← (if status =? 200 then send_response (no_req c) (RText None None body)
       else h2o_send_error_generic (no_req c) status "Error" body);
  _ ← fdb_transaction_destroy (no_tr c);
  free ctx.

(** ** The writes of [start_stock_reads] *)

(** [sizeof(ov)] bytes of a designated initializer: conversions to the field types. *)
Definition new_order_oorder (c : new_order_ctx_t) (now : Z) : oorder_val_t :=
  mk_oorder_val (no_c_id c) (-1) (no_ol_cnt c) (if no_all_local c then 1 else 0) now.

Definition write_order_line (c : new_order_ctx_t) (o_id i : Z) : W () :=
  olkey ← lift (key_bytes (kv_order_line_key (stack_buf 64) (no_w_id c) (no_d_id c)
    (u32 o_id) (i + 1)));
  i_id ← lift (arr_get (no_ol_i_id c) i);
  supply_w ← lift (arr_get (no_ol_supply_w c) i);
  quantity ← lift (arr_get (no_ol_quantity c) i);
  amount ← lift (arr_get (no_s_amount c) i);
  fdb_sync_set (no_tr c) olkey
    (pack (mk_order_line_val i_id supply_w 0 quantity amount (zero_chars 24))).

Definition write_stock (c : new_order_ctx_t) (i : Z) : W () :=
  supply_w ← lift (arr_get (no_ol_supply_w c) i);
  i_id ← lift (arr_get (no_ol_i_id c) i);
  skey ← lift (key_bytes (kv_stock_key (stack_buf 64) supply_w i_id));
  s_qty ← lift (arr_get (no_s_quantity c) i);
  ol_qty ← lift (arr_get (no_ol_quantity c) i);
  fdb_sync_set (no_tr c) skey
    (pack (mk_stock_val s_qty (zero_chars 240) ol_qty 1 0 (zero_chars 50))).

Definition start_stock_reads (ctx : nat) (c : new_order_ctx_t) : W () :=
  if no_ol_cnt c <=? no_current_ol c then
    let o_id := no_d_next_o_id c in
    now ← ext env_time;
    okey ← lift (key_bytes (kv_oorder_key (stack_buf 64) (no_w_id c) (no_d_id c)
      (u32 o_id)));
    _ ← fdb_sync_set (no_tr c) okey (pack (new_order_oorder c now));
    nokey ← lift (key_bytes (kv_new_order_key (stack_buf 64) (no_w_id c) (no_d_id c)
      (u32 o_id)));
    _ ← fdb_sync_set (no_tr c) nokey [0];
    _ ← for_each (upto (no_ol_cnt c)) (write_order_line c o_id);
    dkey ← lift (key_bytes (kv_district_key (stack_buf 64) (no_w_id c) (no_d_id c)));
    nid_key ← lift (key_bytes (kv_next_o_id_key (stack_buf 64) (no_w_id c) (no_d_id c)));
    next ← lift (chk32 (o_id + 1));
    nid_buf ← lift (kv_encode_next_o_id (stack_buf 8) next);
    _ ← fdb_sync_set (no_tr c) nid_key nid_buf;
    _ ← for_each (upto (no_ol_cnt c)) (write_stock c);
    _ ← fdb_async_commit (no_tr c) NoOnCommit ctx;
    mret ()
  else
    supply_w ← lift (arr_get (no_ol_supply_w c) (no_current_ol c));
    i_id ← lift (arr_get (no_ol_i_id c) (no_current_ol c));
    skey ← lift (key_bytes (kv_stock_key (stack_buf 64) supply_w i_id));
    _ ← fdb_async_get (no_tr c) skey NoOnStockRead ctx;
    mret ().

(** ** The callbacks *)

Definition no_on_district_read (ans : answer) (arg : nat) : W () :=
  c ← load new_order_ctx_t arg;
  if negb (a_error ans =? 0) then
    _ ← fdb_handle_error (no_tr c) (a_error ans) NoOnErrorRetry arg; mret ()
  else match future_value ans (sizeof district_val_t) with
  | None => finish_new_order arg c 500 "district not found"
  | Some val =>
      dv ← lift (load_struct district_val_t val);
      let c := no_set_district c (d_tax dv) (d_next_o_id dv) in
      _ ← store arg c;
      ckey ← lift (key_bytes (kv_customer_key (stack_buf 64) (no_w_id c) (no_d_id c)
        (no_c_id c)));
      _ ← fdb_async_get (no_tr c) ckey NoOnCustomerRead arg;
      mret ()
  end.

Definition no_on_customer_read (ans : answer) (arg : nat) : W () :=
  c ← load new_order_ctx_t arg;
  if negb (a_error ans =? 0) then
    _ ← fdb_handle_error (no_tr c) (a_error ans) NoOnErrorRetry arg; mret ()
  else match future_value ans (sizeof customer_val_t) with
  | None => finish_new_order arg c 500 "customer not found"
  | Some val =>
      cv ← lift (load_struct customer_val_t val);
      let c := no_set_current_ol (no_set_discount c (c_discount cv)) 0 in
      _ ← store arg c;
      start_stock_reads arg c
  end.

(** The stock arithmetic: 91 more when fewer than ten would be left. *)
Definition restock (s_quantity ol_quantity : Z) : outcome Z :=
  new_qty ← chk32 (s_quantity - ol_quantity);
  if new_qty <? 10 then chk32 (new_qty + 91) else mret new_qty.

Definition no_on_stock_read (ans : answer) (arg : nat) : W () :=
  c ← load new_order_ctx_t arg;
  if negb (a_error ans =? 0) then
    _ ← fdb_handle_error (no_tr c) (a_error ans) NoOnErrorRetry arg; mret ()
  else match future_value ans (sizeof stock_val_t) with
  | None => finish_new_order arg c 500 "stock not found"
  | Some val =>
      sv ← lift (load_struct stock_val_t val);
      let idx := no_current_ol c in
      ol_qty ← lift (arr_get (no_ol_quantity c) idx);
      new_qty ← lift (restock (s_quantity sv) ol_qty);
      qtys ← lift (arr_set (no_s_quantity c) idx new_qty);
      amounts ← lift (arr_set (no_s_amount c) idx (ol_qty * 100));
      let c := no_set_current_ol (no_set_stock c qtys amounts) (u8 (idx + 1)) in
      _ ← store arg c;
      start_stock_reads arg c
  end.

Definition no_on_commit (ans : answer) (arg : nat) : W () :=
  c ← load new_order_ctx_t arg;
  if negb (a_error ans =? 0) then
    _ ← fdb_handle_error (no_tr c) (a_error ans) NoOnErrorRetry arg; mret ()
  else
    let c := no_set_committed c in
    _ ← store arg c;
    _ ← yajl_gen_open;
    _ ← h2o_send_inline (no_req c)
      [JMapOpen; jstr "status" 6; jstr "ok" 2; jstr "o_id" 4;
       JInteger (no_d_next_o_id c); JMapClose];
    _ ← fdb_transaction_destroy (no_tr c);
    free arg.

Definition no_on_error_retry (ans : answer) (arg : nat) : W () :=
  c ← load new_order_ctx_t arg;
  if negb (a_error ans =? 0) then
    finish_new_order arg c 503 "transaction retry exhausted"
  else
    let c := no_set_current_ol c 0 in
    _ ← store arg c;
    dkey ← lift (key_bytes (kv_district_key (stack_buf 64) (no_w_id c) (no_d_id c)));
    _ ← fdb_async_get (no_tr c) dkey NoOnDistrictRead arg;
    mret ().

(** ** The entry point *)

(** One iteration of the order-line loop: the context and the seed after it. *)
Definition draw_order_line (cs : new_order_ctx_t * Z) (i : Z)
    : outcome (new_order_ctx_t * Z) :=
  let '(c, seed) := cs in
  '(i_id, seed) ← nurand_item seed;
  i_ids ← arr_set (no_ol_i_id c) i i_id;
  '(r, seed) ← get_random_number 99 seed;
  '(supply_w, all_local, seed) ←
    (if r =? 0 then
       '(r, seed) ← get_random_number 0 seed;
       let w := u8 (1 + r) in
       mret (w, (if w =? no_w_id c then no_all_local c else false), seed)
     else mret (u8 (no_w_id c), no_all_local c, seed));
  supply_ws ← arr_set (no_ol_supply_w c) i supply_w;
  '(r, seed) ← get_random_number 9 seed;
  qtys ← arr_set (no_ol_quantity c) i (u8 (1 + r));
  mret (mk_new_order_ctx (no_tr c) (no_req c) (no_fdb_state c) (no_seed c) (no_w_id c)
    (no_d_id c) (no_c_id c) (no_ol_cnt c) supply_ws i_ids qtys all_local (no_w_tax c)
    (no_d_tax c) (no_d_next_o_id c) (no_c_discount c) (no_s_quantity c) (no_s_amount c)
    (no_current_ol c) (no_committed c), seed).

Fixpoint draw_order_lines (cs : new_order_ctx_t * Z) (idxs : list Z)
    : outcome (new_order_ctx_t * Z) :=
  match idxs with
  | [] => mret cs
  | i :: idxs => cs ← draw_order_line cs i; draw_order_lines cs idxs
  end.

(** The parameters of a NewOrder, drawn from [seed]: the context they fill. *)
Definition new_order_params (req fdb_state : ptr) (seed : Z) : outcome new_order_ctx_t :=
  let ctx_seed := seed in
  '(r, seed) ← get_random_number 0 seed;
  let w_id := u32 (1 + r) in
  '(r, seed) ← get_random_number (DISTRICTS_PER_WAREHOUSE - 1) seed;
  let d_id := u32 (1 + r) in
  '(c_id, seed) ← nurand_customer seed;
  '(r, seed) ← get_random_number (MAX_ORDER_LINES - MIN_ORDER_LINES) seed;
  let ol_cnt := u8 (MIN_ORDER_LINES + r) in
  let c := mk_new_order_ctx None req fdb_state ctx_seed w_id d_id c_id ol_cnt
    (replicate 15 0) (replicate 15 0) (replicate 15 0) true 0 0 0 0
    (replicate 15 0) (replicate 15 0) 0 false in
  '(c, _) ← draw_order_lines (c, seed) (upto ol_cnt);
  mret c.

Definition tpcc_new_order_execute (req fdb_state : ptr) (seed : Z) : W () :=
  ctx ← calloc new_order_ctx_zero;
  match ctx with
  | None => h2o_send_error_503 req "Service Unavailable" "out of memory"
  | Some arg =>
      c ← lift (new_order_params req fdb_state seed);
      _ ← store arg c;
      '(err, tr) ← fdb_create_transaction fdb_state;
      if negb (err =? 0) then
        _ ← free arg;
        h2o_send_error_503 req "Service Unavailable" "fdb transaction creation failed"
      else
        let c := no_set_tr c tr in
        _ ← store arg c;
        dkey ← lift (key_bytes (kv_district_key (stack_buf 64) (no_w_id c) (no_d_id c)));
        _ ← fdb_async_get tr dkey NoOnDistrictRead arg;
        mret ()
  end.
End handlers.

(** ** Specification of the chain *)

(** The eight bytes [kv_encode_next_o_id] leaves in [nid_buf]. *)
Definition next_o_id_bytes (x : Z) : list Z :=
  match kv_encode_next_o_id (stack_buf 8) x with Ok bs => bs | Ub _ => [] end.

(** The rows a NewOrder writes, one order line and one stock row per index. *)
Definition order_line_row (c : new_order_ctx_t) (i : Z) : order_line_val_t :=
  mk_order_line_val (arr0 (no_ol_i_id c) i) (arr0 (no_ol_supply_w c) i) 0
    (arr0 (no_ol_quantity c) i) (arr0 (no_s_amount c) i) (zero_chars 24).
Definition stock_row (c : new_order_ctx_t) (i : Z) : stock_val_t :=
  mk_stock_val (arr0 (no_s_quantity c) i) (zero_chars 240) (arr0 (no_ol_quantity c) i) 1 0
    (zero_chars 50).

Definition order_line_write (c : new_order_ctx_t) (i : Z) : write :=
  (enc_key (ROrderLine (no_w_id c) (no_d_id c) (u32 (no_d_next_o_id c)) (i + 1)),
   pack (order_line_row c i)).
Definition stock_write (c : new_order_ctx_t) (i : Z) : write :=
  (enc_key (RStock (arr0 (no_ol_supply_w c) i) (arr0 (no_ol_i_id c) i)),
   pack (stock_row c i)).

(** Everything one NewOrder commits, in the order it is buffered. *)
Definition new_order_writes (c : new_order_ctx_t) (now : Z) : list write :=
  let o := u32 (no_d_next_o_id c) in
  [(enc_key (ROorder (no_w_id c) (no_d_id c) o), pack (new_order_oorder c now));
   (enc_key (RNewOrder (no_w_id c) (no_d_id c) o), [0])] ++
  (order_line_write c <$> upto (no_ol_cnt c)) ++
  [(enc_key (RNextOId (no_w_id c) (no_d_id c)), next_o_id_bytes (no_d_next_o_id c + 1))] ++
  (stock_write c <$> upto (no_ol_cnt c)).

Definition no_start (t : nat) (c : new_order_ctx_t) (ws : list write) (now : Z) : next :=
  if no_ol_cnt c <=? no_current_ol c then
    if fits_s 32 (no_d_next_o_id c + 1) then
      NContinue true (CtxNewOrder c) (ws ++ new_order_writes c now) NoOnCommit (OpCommit t)
    else NUndef SignedOverflow
  else
    NContinue false (CtxNewOrder c) ws NoOnStockRead
      (OpGet t (enc_key (RStock (arr0 (no_ol_supply_w c) (no_current_ol c))
                                (arr0 (no_ol_i_id c) (no_current_ol c))))).

Definition no_fail (status : Z) (body : string) : next :=
  NFinish (if status =? 200 then RText None None body else RError status "Error" body).

(** A stock row read for the current order line. *)
Definition no_take_stock (c : new_order_ctx_t) (qty : Z) : new_order_ctx_t :=
  let i := no_current_ol c in
  no_set_current_ol
    (no_set_stock c (<[Z.to_nat i := qty]> (no_s_quantity c))
      (<[Z.to_nat i := arr0 (no_ol_quantity c) i * 100]> (no_s_amount c))) (i + 1).

Definition new_order_body (c : new_order_ctx_t) : list json_tok :=
  [JMapOpen; jstr "status" 6; jstr "ok" 2; jstr "o_id" 4; JInteger (no_d_next_o_id c);
   JMapClose].

(** The step a callback of the chain takes: from the context [c], the transaction [t]
    with its writes [ws], the clock and the answer of the future. *)
Definition no_next (cb : callback) (t : nat) (c : new_order_ctx_t) (ws : list write)
    (now : Z) (ans : answer) : next :=
  match cb with
  | NoOnErrorRetry =>
      if a_error ans =? 0 then
        NContinue false (CtxNewOrder (no_set_current_ol c 0)) ws NoOnDistrictRead
          (OpGet t (enc_key (RDistrict (no_w_id c) (no_d_id c))))
      else no_fail 503 "transaction retry exhausted"
  | _ =>
  if negb (a_error ans =? 0) then
    NContinue false (CtxNewOrder c) ws NoOnErrorRetry (OpOnError t (a_error ans))
  else match cb with
  | NoOnDistrictRead =>
      match read_row district_val_t ans with
      | None => no_fail 500 "district not found"
      | Some dv =>
          NContinue false (CtxNewOrder (no_set_district c (d_tax dv) (d_next_o_id dv))) ws
            NoOnCustomerRead
            (OpGet t (enc_key (RCustomer (no_w_id c) (no_d_id c) (no_c_id c))))
      end
  | NoOnCustomerRead =>
      match read_row customer_val_t ans with
      | None => no_fail 500 "customer not found"
      | Some cv => no_start t (no_set_current_ol (no_set_discount c (c_discount cv)) 0) ws now
      end
  | NoOnStockRead =>
      match read_row stock_val_t ans with
      | None => no_fail 500 "stock not found"
      | Some sv =>
          match restock (s_quantity sv) (arr0 (no_ol_quantity c) (no_current_ol c)) with
          | Ok qty => no_start t (no_take_stock c qty) ws now
          | Ub u => NUndef u
          end
      end
  | NoOnCommit => NFinish (RInline None None (new_order_body c))
  | _ => NUndef TypeConfusion
  end
  end.

(** The callbacks of the chain. *)
Definition no_callback `{Env} (cb : callback) : option (answer → nat → W ()) :=
  match cb with
  | NoOnDistrictRead => Some no_on_district_read
  | NoOnCustomerRead => Some no_on_customer_read
  | NoOnStockRead => Some no_on_stock_read
  | NoOnCommit => Some no_on_commit
  | NoOnErrorRetry => Some no_on_error_retry
  | _ => None
  end.

(** The values of a context in use: array lengths and C types. *)
Record no_ctx_ok (c : new_order_ctx_t) : Prop := {
  no_len : Forall (λ l : list Z, length l = 15%nat)
    [no_ol_supply_w c; no_ol_i_id c; no_ol_quantity c; no_s_quantity c; no_s_amount c];
  no_cnt : 0 <= no_ol_cnt c <= 15;
  no_cur : 0 <= no_current_ol c <= no_ol_cnt c;
  no_ids : Forall (in_u 32) [no_w_id c; no_d_id c; no_c_id c];
  no_oid : in_s 32 (no_d_next_o_id c);
  no_supply : Forall (in_u 8) (no_ol_supply_w c);
  no_items : Forall (in_u 32) (no_ol_i_id c);
  no_qtys : Forall (in_u 8) (no_ol_quantity c);
  no_squantity : Forall (in_s 32) (no_s_quantity c);
  no_samount : Forall (in_s 32) (no_s_amount c);
}.

(** What a pending future of the chain promises about the context it will find: the
    operation asked for, and the writes buffered (none while reading). *)
Definition no_chain_ok (cb : callback) (t : nat) (c : new_order_ctx_t) (op : fdb_op)
    (ws : list write) : Prop :=
  match cb with
  | NoOnDistrictRead =>
      ws = [] ∧ op = OpGet t (enc_key (RDistrict (no_w_id c) (no_d_id c)))
  | NoOnCustomerRead =>
      ws = [] ∧ op = OpGet t (enc_key (RCustomer (no_w_id c) (no_d_id c) (no_c_id c)))
  | NoOnStockRead =>
      ws = [] ∧ no_current_ol c < no_ol_cnt c ∧
      op = OpGet t (enc_key (RStock (arr0 (no_ol_supply_w c) (no_current_ol c))
                                    (arr0 (no_ol_i_id c) (no_current_ol c))))
  | NoOnCommit =>
      op = OpCommit t ∧ in_s 32 (no_d_next_o_id c + 1) ∧ ∃ now, ws = new_order_writes c now
  | NoOnErrorRetry => ∃ err, op = OpOnError t err
  | _ => False
  end.

(** ** Lemmas *)

Lemma no_ctx_lens c :
  no_ctx_ok c →
  length (no_ol_supply_w c) = 15%nat ∧ length (no_ol_i_id c) = 15%nat ∧
  length (no_ol_quantity c) = 15%nat ∧ length (no_s_quantity c) = 15%nat ∧
  length (no_s_amount c) = 15%nat.
Proof. intros Hc. pose proof (no_len c Hc) as Hl. by rewrite !Forall_cons in Hl; naive_solver. Qed.

Lemma no_ctx_ids c : no_ctx_ok c → in_u 32 (no_w_id c) ∧ in_u 32 (no_d_id c) ∧ in_u 32 (no_c_id c).
Proof. intros Hc. pose proof (no_ids c Hc) as Hl. rewrite !Forall_cons in Hl. naive_solver. Qed.

Lemma next_o_id_bytes_Ok x : kv_encode_next_o_id (stack_buf 8) x = Ok (next_o_id_bytes x).
Proof. reflexivity. Qed.

(** An element of a context array, with its range. *)
Lemma no_get (P : Z → Prop) l i :
  length l = 15%nat → Forall P l → 0 <= i < 15 → arr_get l i = Ok (arr0 l i) ∧ P (arr0 l i).
Proof.
  intros Hl HP Hi. destruct (arr_get_lt l i) as (x & -> & Hx); [lia|].
  unfold arr0. rewrite Hx. split; [done|]. by eapply Forall_lookup_1.
Qed.

Lemma restock_range q o n : restock q o = Ok n → in_s 32 n.
Proof.
  unfold restock. intros Hr. inv_bind. apply chk_s_inv in E as [-> ?].
  destruct (_ <? 10); [by apply chk_s_inv in Hr as [-> ?]|by injection Hr as <-].
Qed.

Lemma no_take_stock_ok c qty :
  no_ctx_ok c → no_current_ol c < no_ol_cnt c → in_s 32 qty → no_ctx_ok (no_take_stock c qty).
Proof.
  intros Hc Hcur Hq. pose proof (no_len c Hc) as Hl. pose proof (no_cnt c Hc).
  pose proof (no_cur c Hc). destruct (no_ctx_lens c Hc) as (_ & _ & L3 & _).
  destruct (no_get _ _ (no_current_ol c) L3 (no_qtys c Hc)) as [_ [Hq0 Hq1]]; [lia|].
  destruct Hc. split; cbn; try done; try lia.
  - rewrite !Forall_cons in *. rewrite !length_insert. naive_solver.
  - by apply Forall_insert.
  - apply Forall_insert; [done|]. range.
Qed.

Lemma no_set_district_ok c tax oid :
  no_ctx_ok c → in_s 32 oid → no_ctx_ok (no_set_district c tax oid).
Proof. intros [] ?. by split. Qed.

Lemma no_reset_ok c d :
  no_ctx_ok c → no_ctx_ok (no_set_current_ol (no_set_discount c d) 0) ∧
    no_ctx_ok (no_set_current_ol c 0).
Proof. intros []. split; split; cbn; (done || lia). Qed.

(** The order id of a district row is an [int32_t]. *)
Lemma district_row_range ans dv : read_row district_val_t ans = Some dv → in_s 32 (d_next_o_id dv).
Proof.
  intros Hr. destruct (read_row_cases district_val_t ans) as [[_ E]|(v & x & _ & _ & E & Hf)];
    rewrite Hr in E; [done|]. injection E as <-. destruct dv. cbn -[wrap_s] in Hf.
  injection Hf as _ _ _ _ _ _ _ _ ->. by apply wrap_s_range.
Qed.

(** The steps of the chain keep its promises. *)
Lemma no_start_ok t c ws now timed c' ws' cb' op' :
  ws = [] → no_start t c ws now = NContinue timed c' ws' cb' op' →
  c' = CtxNewOrder c ∧ no_chain_ok cb' t c op' ws'.
Proof.
  intros -> Hs. unfold no_start in Hs.
  destruct (Z.leb_spec (no_ol_cnt c) (no_current_ol c)).
  - destruct (fits_s 32 _) eqn:Hf; [|done]. simplify_eq. split; [done|].
    apply andb_true_iff in Hf as [? ?]. cbn. split_and!; [done|range|by eexists].
  - simplify_eq. by cbn.
Qed.

Lemma no_next_ok cb t c op ws now ans timed c' ws' cb' op' :
  no_ctx_ok c → no_chain_ok cb t c op ws →
  no_next cb t c (effect_ws op ans ws) now ans = NContinue timed c' ws' cb' op' →
  ∃ n, c' = CtxNewOrder n ∧ no_ctx_ok n ∧ no_tr n = no_tr c ∧ no_req n = no_req c ∧
    no_chain_ok cb' t n op' ws'.
Proof.
  intros Hc Hok Hn. unfold no_next in Hn.
  destruct (Z.eqb_spec (a_error ans) 0) as [Herr|Herr].
  2: { destruct cb; try done; cbn in Hn; simplify_eq; exists c; split_and!; try done;
       by eexists. }
  destruct cb; try done; cbn [negb] in Hn.
  - destruct Hok as [-> ->]. destruct (read_row _ ans) as [dv|] eqn:Hr; [|done].
    simplify_eq. eexists. split_and!; try done.
    by eapply no_set_district_ok, district_row_range.
  - destruct Hok as [-> ->]. destruct (read_row _ ans) as [cv|] eqn:Hr; [|done].
    destruct (no_reset_ok c (c_discount cv) Hc) as [Hc' _].
    apply no_start_ok in Hn as [-> Hok]; [|done]. by eexists.
  - destruct Hok as (-> & Hcur & ->). destruct (read_row _ ans) as [sv|] eqn:Hr; [|done].
    destruct (restock _ _) as [qty|] eqn:Hq; [|done]. apply restock_range in Hq.
    apply no_start_ok in Hn as [-> Hok]; [|done].
    eexists. split_and!; try done. by apply no_take_stock_ok.
  - destruct Hok as [err ->]. cbn [effect_ws] in Hn. rewrite Herr in Hn. cbn in Hn.
    simplify_eq. eexists. split_and!; try done. by apply (no_reset_ok c 0).
Qed.

Section refinement.
Context `{Env}.

Lemma write_order_line_Ok c i t ws w :
  no_ctx_ok c → no_tr c = Some t → 0 <= i < 15 → w_trs w !! t = Some ws →
  write_order_line c (no_d_next_o_id c) i w =
    Ok ((), upd_trs (<[t := ws ++ [order_line_write c i]]>) w).
Proof.
  intros Hc Ht Hi Hw. destruct (no_ctx_lens c Hc) as (L1 & L2 & L3 & L4 & L5).
  destruct (no_ctx_ids c Hc) as (Iw & Id & _). unfold write_order_line.
  mstep ltac:(apply lift_eq, order_line_key_bytes;
    [done|done|by apply wrap_u_range|range]).
  mstep ltac:(apply lift_eq, (no_get _ _ _ L2 (no_items c Hc) Hi)).
  mstep ltac:(apply lift_eq, (no_get _ _ _ L1 (no_supply c Hc) Hi)).
  mstep ltac:(apply lift_eq, (no_get _ _ _ L3 (no_qtys c Hc) Hi)).
  mstep ltac:(apply lift_eq, (no_get _ _ _ L5 (no_samount c Hc) Hi)).
  rewrite Ht. by apply fdb_sync_set_Ok.
Qed.

Lemma write_stock_Ok c i t ws w :
  no_ctx_ok c → no_tr c = Some t → 0 <= i < 15 → w_trs w !! t = Some ws →
  write_stock c i w = Ok ((), upd_trs (<[t := ws ++ [stock_write c i]]>) w).
Proof.
  intros Hc Ht Hi Hw. destruct (no_ctx_lens c Hc) as (L1 & L2 & L3 & L4 & L5).
  destruct (no_get _ _ _ L1 (no_supply c Hc) Hi) as [E1 R1].
  destruct (no_get _ _ _ L2 (no_items c Hc) Hi) as [E2 R2]. unfold write_stock.
  mstep ltac:(by apply lift_eq). mstep ltac:(by apply lift_eq).
  mstep ltac:(apply lift_eq, stock_key_bytes; [range|done]).
  mstep ltac:(apply lift_eq, (no_get _ _ _ L4 (no_squantity c Hc) Hi)).
  mstep ltac:(apply lift_eq, (no_get _ _ _ L3 (no_qtys c Hc) Hi)).
  rewrite Ht. by apply fdb_sync_set_Ok.
Qed.

(** The stock loop of the chain, its writes and its commit. *)
Lemma start_stock_reads_refines w a c t q ws :
  chain_at w a (CtxNewOrder c) t q ws → no_ctx_ok c →
  start_stock_reads a c w =
    exec_next a t q (no_start t c ws (env_time (w_tick w))) w.
Proof.
  intros Hat Hc. pose proof Hat as [Hh Ht _ Hw _]. cbn [ctx_tr] in Ht.
  destruct (no_ctx_ids c Hc) as (Iw & Id & _). destruct (no_ctx_lens c Hc) as (L1 & L2 & _).
  pose proof (no_cnt c Hc) as Hcnt. pose proof (no_cur c Hc).
  unfold start_stock_reads, no_start. rewrite Ht.
  destruct (Z.leb_spec (no_ol_cnt c) (no_current_ol c)) as [Hle|Hlt].
  - assert (in_u 32 (u32 (no_d_next_o_id c))) as Io by (by apply wrap_u_range).
    mstep ltac:(apply ext_Ok).
    mstep ltac:(apply lift_eq, oorder_key_bytes; done). mset.
    mstep ltac:(apply lift_eq, new_order_key_bytes; done). mset.
    mstep ltac:(eapply for_each_writes;
      [intros i ws' w' Hi; apply elem_of_upto in Hi; apply write_order_line_Ok; (done || lia)
      |apply lookup_insert_eq]). rewrite upd_trs_twice.
    mstep ltac:(apply lift_eq, district_key_bytes; done).
    mstep ltac:(apply lift_eq, next_o_id_key_bytes; done).
    unfold chk_s. destruct (fits_s 32 (no_d_next_o_id c + 1)); [|done].
    mstep ltac:(apply lift_Ok). mstep ltac:(apply lift_eq, next_o_id_bytes_Ok). mset.
    mstep ltac:(eapply for_each_writes;
      [intros i ws' w' Hi; apply elem_of_upto in Hi; apply write_stock_Ok; (done || lia)
      |apply lookup_insert_eq]). rewrite upd_trs_twice.
    erewrite fdb_async_commit_eq by apply lookup_insert_eq.
    rewrite exec_timed_eq, upd_heap_same by done.
    unfold new_order_writes. by rewrite <- !app_assoc.
  - destruct (no_get _ _ (no_current_ol c) L1 (no_supply c Hc)) as [E1 R1]; [lia|].
    destruct (no_get _ _ (no_current_ol c) L2 (no_items c Hc)) as [E2 R2]; [lia|].
    mstep ltac:(by apply lift_eq). mstep ltac:(by apply lift_eq).
    mstep ltac:(apply lift_eq, stock_key_bytes; [range|done]).
    rewrite (fdb_async_get_eq _ ws) by done. by rewrite (exec_same_eq _ _ _ _ _ ws).
Qed.
Lemma finish_new_order_refines w a c t q ws status body :
  chain_at w a (CtxNewOrder c) t q ws →
  finish_new_order a c status body w = exec_next a t q (no_fail status body) w.
Proof.
  intros Hat. pose proof Hat as [_ Ht Hq _ _]. cbn [ctx_tr ctx_req] in Ht, Hq.
  unfold finish_new_order, no_fail, h2o_send_error_generic. rewrite Ht, Hq.
  destruct (status =? 200); by rewrite (finish_eq _ _ _ _ _ ws _ Hat) by done.
Qed.

Lemma no_stock_read_refines w a c t q ws ans :
  chain_at w a (CtxNewOrder c) t q ws → no_ctx_ok c → no_current_ol c < no_ol_cnt c →
  a_error ans = 0 →
  no_on_stock_read ans a w =
    exec_next a t q (no_next NoOnStockRead t c ws (env_time (w_tick w)) ans) w.
Proof.
  intros Hat Hc Hcur Herr. pose proof Hat as [Hh Ht Hq Hw _]. cbn [ctx_tr ctx_req] in Ht, Hq.
  destruct (no_ctx_lens c Hc) as (_ & _ & L3 & L4 & L5).
  pose proof (no_cnt c Hc). pose proof (no_cur c Hc).
  unfold no_on_stock_read. mstep ltac:(by eapply load_Ok). unfold no_next.
  rewrite Herr. cbn [negb Z.eqb].
  destruct (read_row_cases stock_val_t ans) as [[-> ->]|(v & x & -> & E & -> & _)].
  { exact (finish_new_order_refines _ _ _ _ _ _ _ _ Hat). }
  mstep ltac:(by apply lift_eq).
  mstep ltac:(apply lift_eq, (no_get _ _ _ L3 (no_qtys c Hc)); lia).
  destruct (restock _ _) as [qty|u] eqn:Hr; [|done].
  apply restock_range in Hr. mstep ltac:(by apply lift_eq).
  mstep ltac:(apply lift_eq, arr_set_Ok; rewrite L4; lia).
  mstep ltac:(apply lift_eq, arr_set_Ok; rewrite L5; lia).
  rewrite (wrap_u_id 8) by range. mstep ltac:(by eapply store_Ok).
  rewrite (start_stock_reads_refines _ _ _ t q ws), exec_next_stored; [done|..].
  - refine (chain_at_stored _ _ _ _ _ _ _ Hat _ _); [exact Ht|exact Hq].
  - by apply no_take_stock_ok.
Qed.

(** Every callback of the chain does what [no_next] says. *)
Lemma no_callback_refines cb run w a c t q ws ans :
  no_callback cb = Some run → chain_at w a (CtxNewOrder c) t q ws → no_ctx_ok c →
  (cb = NoOnStockRead → no_current_ol c < no_ol_cnt c) →
  run ans a w = exec_next a t q (no_next cb t c ws (env_time (w_tick w)) ans) w.
Proof.
  intros Hrun Hat Hc Hcur. pose proof Hat as [Hh Ht Hq Hw _]. cbn [ctx_tr ctx_req] in Ht, Hq.
  destruct (no_ctx_ids c Hc) as (Iw & Id & Ic).
  destruct (decide (cb = NoOnStockRead ∧ a_error ans = 0)) as [[-> Herr0]|Hcase].
  { injection Hrun as <-. by apply no_stock_read_refines; [..|apply Hcur|]. }
  destruct cb; try done; injection Hrun as <-;
    unfold no_on_district_read, no_on_customer_read, no_on_stock_read, no_on_commit,
      no_on_error_retry; (mstep ltac:(by eapply load_Ok)); unfold no_next;
    destruct (Z.eqb_spec (a_error ans) 0) as [Herr|Herr]; cbn [negb]; rewrite ?Ht;
    try first [ exact (handle_error_refines _ _ _ _ _ _ _ _ Hat)
              | exact (finish_new_order_refines _ _ _ _ _ _ _ _ Hat)
              | by destruct Hcase ].
  - destruct (read_row_cases district_val_t ans) as [[-> ->]|(v & x & -> & E & -> & _)].
    { exact (finish_new_order_refines _ _ _ _ _ _ _ _ Hat). }
    mstep ltac:(by apply lift_eq). mstep ltac:(by eapply store_Ok).
    mstep ltac:(by apply lift_eq, customer_key_bytes). cbn [no_tr no_set_district].
    rewrite Ht, (fdb_async_get_eq _ ws), (exec_store_eq _ _ _ _ _ _ ws) by done. done.
  - destruct (read_row_cases customer_val_t ans) as [[-> ->]|(v & x & -> & E & -> & _)].
    { exact (finish_new_order_refines _ _ _ _ _ _ _ _ Hat). }
    mstep ltac:(by apply lift_eq). mstep ltac:(by eapply store_Ok).
    rewrite (start_stock_reads_refines _ _ _ t q ws), exec_next_stored; [done|..].
    + refine (chain_at_stored _ _ _ _ _ _ _ Hat _ _); [exact Ht|exact Hq].
    + by apply (no_reset_ok c (c_discount x)).
  - mstep ltac:(by eapply store_Ok). cbn [no_req no_tr no_set_committed]. rewrite Hq, Ht.
    unfold h2o_send_inline.
    rewrite (finish_json_eq _ _ (CtxNewOrder (no_set_committed c)) _ _ ws)
      by (refine (chain_at_stored _ _ _ _ _ _ _ Hat _ _); [exact Ht|exact Hq]).
    apply exec_next_stored.
  - mstep ltac:(by eapply store_Ok). mstep ltac:(by apply lift_eq, district_key_bytes).
    cbn [no_tr no_set_current_ol].
    rewrite Ht, (fdb_async_get_eq _ ws), (exec_store_eq _ _ _ _ _ _ ws) by done. done.
Qed.
End refinement.
