(* ===== verification/Payment.v ===== *)
(** * Payment: src/handlers/tpcc_payment.c

    The callback chain: warehouse, district, customer, then the four writes and the
    commit; an error of any future goes to [fdb_handle_error], and [on_error_retry]
    restarts the chain. *)

From S2P Require Import Prelude Kv Random Values Ctx Runtime Chain.

(** ** Assignments to fields of the context *)

Definition pc_set_tr (c : payment_ctx_t) (tr : ptr) : payment_ctx_t :=
  mk_payment_ctx tr (pc_req c) (pc_fdb_state c) (pc_seed c) (pc_w_id c) (pc_d_id c)
    (pc_c_w_id c) (pc_c_d_id c) (pc_c_id c) (pc_c_last c) (pc_by_name c) (pc_h_amount c)
    (pc_w_ytd c) (pc_d_ytd c) (pc_c_balance c) (pc_c_payment_cnt c).
Definition pc_set_w_ytd (c : payment_ctx_t) (w_ytd : Z) : payment_ctx_t :=
  mk_payment_ctx (pc_tr c) (pc_req c) (pc_fdb_state c) (pc_seed c) (pc_w_id c) (pc_d_id c)
    (pc_c_w_id c) (pc_c_d_id c) (pc_c_id c) (pc_c_last c) (pc_by_name c) (pc_h_amount c)
    w_ytd (pc_d_ytd c) (pc_c_balance c) (pc_c_payment_cnt c).
Definition pc_set_d_ytd (c : payment_ctx_t) (d_ytd : Z) : payment_ctx_t :=
  mk_payment_ctx (pc_tr c) (pc_req c) (pc_fdb_state c) (pc_seed c) (pc_w_id c) (pc_d_id c)
    (pc_c_w_id c) (pc_c_d_id c) (pc_c_id c) (pc_c_last c) (pc_by_name c) (pc_h_amount c)
    (pc_w_ytd c) d_ytd (pc_c_balance c) (pc_c_payment_cnt c).
(** [get_random_number(.., &ctx->seed)] also moves the seed on. *)
Definition pc_set_c_id (c : payment_ctx_t) (c_id seed : Z) : payment_ctx_t :=
  mk_payment_ctx (pc_tr c) (pc_req c) (pc_fdb_state c) seed (pc_w_id c) (pc_d_id c)
    (pc_c_w_id c) (pc_c_d_id c) c_id (pc_c_last c) (pc_by_name c) (pc_h_amount c)
    (pc_w_ytd c) (pc_d_ytd c) (pc_c_balance c) (pc_c_payment_cnt c).
Definition pc_set_customer (c : payment_ctx_t) (balance cnt : Z) : payment_ctx_t :=
  mk_payment_ctx (pc_tr c) (pc_req c) (pc_fdb_state c) (pc_seed c) (pc_w_id c) (pc_d_id c)
    (pc_c_w_id c) (pc_c_d_id c) (pc_c_id c) (pc_c_last c) (pc_by_name c) (pc_h_amount c)
    (pc_w_ytd c) (pc_d_ytd c) balance cnt.

Definition payment_ctx_zero : payment_ctx_t :=
  mk_payment_ctx None None None 0 0 0 0 0 0 (zero_chars 16) false 0 0 0 0 0.

(** ** The written rows: [memset] to zero, then the assigned fields *)

Definition payment_warehouse (ytd : Z) : warehouse_val_t :=
  mk_warehouse_val (zero_chars 10) (zero_chars 20) (zero_chars 20) (zero_chars 20)
    (zero_chars 2) (zero_chars 9) 0 ytd.
Definition payment_district (ytd : Z) : district_val_t :=
  mk_district_val (zero_chars 10) (zero_chars 20) (zero_chars 20) (zero_chars 20)
    (zero_chars 2) (zero_chars 9) 0 ytd 0.
Definition payment_customer (balance ytd_payment payment_cnt : Z) : customer_val_t :=
  mk_customer_val (zero_chars 16) (zero_chars 2) (zero_chars 16) (zero_chars 20)
    (zero_chars 20) (zero_chars 20) (zero_chars 2) (zero_chars 9) (zero_chars 16) 0
    (zero_chars 2) 0 0 balance ytd_payment payment_cnt 0 (zero_chars 500).

(** The history key, built in place in [uint8_t hkey[128]]. *)
Definition history_key (w_id c_w_id c_d_id c_id now : Z) : outcome (list Z) :=
  hkey ← poke (stack_buf 128) 0 SS_HISTORY;
  let hlen := length SS_HISTORY in
  hkey ← kv_encode_u32_be hkey hlen w_id;
  let hlen := (hlen + 4)%nat in
  hkey ← kv_encode_u32_be hkey hlen c_w_id;
  let hlen := (hlen + 4)%nat in
  hkey ← kv_encode_u32_be hkey hlen c_d_id;
  let hlen := (hlen + 4)%nat in
  hkey ← kv_encode_u32_be hkey hlen c_id;
  let hlen := (hlen + 4)%nat in
  hkey ← kv_encode_u32_be hkey hlen (Z.land now 0xFFFFFFFF);
  let hlen := (hlen + 4)%nat in
  mret (take hlen hkey).

Section handlers.
Context `{Env} `{RandR}.

Definition finish_payment (ctx : nat) (c : payment_ctx_t) (status : Z) (body : string)
    : W () :=
  _ ← (if status =? 200 then send_response (pc_req c) (RText None None body)
       else h2o_send_error_generic (pc_req c) status "Error" body);
  _ ← fdb_transaction_destroy (pc_tr c);
  free ctx.

(** ** The callbacks *)

Definition pay_on_warehouse_read (ans : answer) (arg : nat) : W () :=
  c ← load payment_ctx_t arg;
  if negb (a_error ans =? 0) then
    _ ← fdb_handle_error (pc_tr c) (a_error ans) PayOnErrorRetry arg; mret ()
  else match future_value ans (sizeof warehouse_val_t) with
  | None => finish_payment arg c 500 "warehouse not found"
  | Some val =>
      wv ← lift (load_struct warehouse_val_t val);
      let c := pc_set_w_ytd c (w_ytd wv) in
      _ ← store arg c;
      dkey ← lift (key_bytes (kv_district_key (stack_buf 64) (pc_c_w_id c) (pc_c_d_id c)));
      _ ← fdb_async_get (pc_tr c) dkey PayOnDistrictRead arg;
      mret ()
  end.

Definition pay_on_district_read (ans : answer) (arg : nat) : W () :=
  c ← load payment_ctx_t arg;
  if negb (a_error ans =? 0) then
    _ ← fdb_handle_error (pc_tr c) (a_error ans) PayOnErrorRetry arg; mret ()
  else match future_value ans (sizeof district_val_t) with
  | None => finish_payment arg c 500 "district not found"
  | Some val =>
      dv ← lift (load_struct district_val_t val);
      let c := pc_set_d_ytd c (d_ytd dv) in
      c ← (if pc_by_name c then
             '(r, seed) ← lift (get_random_number (CUSTOMERS_PER_DISTRICT - 1) (pc_seed c));
             mret (pc_set_c_id c (u32 (1 + r)) seed)
           else mret c);
      _ ← store arg c;
      ckey ← lift (key_bytes (kv_customer_key (stack_buf 64) (pc_c_w_id c) (pc_c_d_id c)
        (pc_c_id c)));
      _ ← fdb_async_get (pc_tr c) ckey PayOnCustomerRead arg;
      mret ()
  end.

Definition pay_on_customer_read (ans : answer) (arg : nat) : W () :=
  c ← load payment_ctx_t arg;
  if negb (a_error ans =? 0) then
    _ ← fdb_handle_error (pc_tr c) (a_error ans) PayOnErrorRetry arg; mret ()
  else match future_value ans (sizeof customer_val_t) with
  | None => finish_payment arg c 500 "customer not found"
  | Some val =>
      cv ← lift (load_struct customer_val_t val);
      let c := pc_set_customer c (c_balance cv) (c_payment_cnt cv) in
      _ ← store arg c;
      now ← ext env_time;
      wkey ← lift (key_bytes (kv_warehouse_key (stack_buf 64) (pc_w_id c)));
      w_ytd' ← lift (chk64 (pc_w_ytd c + pc_h_amount c));
      _ ← fdb_sync_set (pc_tr c) wkey (pack (payment_warehouse w_ytd'));
      dkey ← lift (key_bytes (kv_district_key (stack_buf 64) (pc_c_w_id c) (pc_c_d_id c)));
      d_ytd' ← lift (chk64 (pc_d_ytd c + pc_h_amount c));
      _ ← fdb_sync_set (pc_tr c) dkey (pack (payment_district d_ytd'));
      ckey ← lift (key_bytes (kv_customer_key (stack_buf 64) (pc_c_w_id c) (pc_c_d_id c)
        (pc_c_id c)));
      balance ← lift (chk64 (pc_c_balance c - pc_h_amount c));
      ytd_payment ← lift (chk64 (c_ytd_payment cv + pc_h_amount c));
      let payment_cnt := i16 (pc_c_payment_cnt c + 1) in
      _ ← fdb_sync_set (pc_tr c) ckey
            (pack (payment_customer balance ytd_payment payment_cnt));
      hkey ← lift (history_key (pc_w_id c) (pc_c_w_id c) (pc_c_d_id c) (pc_c_id c) now);
      _ ← fdb_sync_set (pc_tr c) hkey (pack (mk_history_val now (pc_h_amount c)
            (zero_chars 24)));
      _ ← fdb_async_commit (pc_tr c) PayOnCommit arg;
      mret ()
  end.

Definition pay_on_commit (ans : answer) (arg : nat) : W () :=
  c ← load payment_ctx_t arg;
  if negb (a_error ans =? 0) then
    _ ← fdb_handle_error (pc_tr c) (a_error ans) PayOnErrorRetry arg; mret ()
  else
    _ ← yajl_gen_open;
    _ ← h2o_send_inline (pc_req c)
      [JMapOpen; jstr "status" 6; jstr "ok" 2; jstr "amount" 6;
       JInteger (pc_h_amount c); JMapClose];
    _ ← fdb_transaction_destroy (pc_tr c);
    free arg.

Definition pay_on_error_retry (ans : answer) (arg : nat) : W () :=
  c ← load payment_ctx_t arg;
  if negb (a_error ans =? 0) then
    finish_payment arg c 503 "transaction retry exhausted"
  else
    wkey ← lift (key_bytes (kv_warehouse_key (stack_buf 64) (pc_w_id c)));
    _ ← fdb_async_get (pc_tr c) wkey PayOnWarehouseRead arg;
    mret ().

(** ** The entry point *)

(** The parameters of a Payment, drawn from [seed]: the context they fill. *)
Definition payment_params (req fdb_state : ptr) (seed : Z) : outcome payment_ctx_t :=
  let ctx_seed := seed in
  let w_id := 1 in
  '(r, seed) ← get_random_number (DISTRICTS_PER_WAREHOUSE - 1) seed;
  let d_id := u32 (1 + r) in
  '(r, seed) ← get_random_number 99 seed;
  '(c_w_id, seed) ←
    (if r <? 15 then
       '(r, seed) ← get_random_number 0 seed;
       let c_w_id := u32 (1 + r) in
       mret (if c_w_id =? w_id then 2 else c_w_id, seed)
     else mret (w_id, seed));
  '(r, seed) ← get_random_number (DISTRICTS_PER_WAREHOUSE - 1) seed;
  let c_d_id := u32 (1 + r) in
  '(r, seed) ← get_random_number 99 seed;
  let by_name := r <? 40 in
  '(c_last, c_id, seed) ←
    (if by_name then
       '(C, seed) ← rand_mod (NURAND_C_LAST_A + 1) seed;
       '(n, seed) ← nurand NURAND_C_LAST_A 0 999 seed C;
       c_last ← gen_c_last n (zero_chars 16);
       mret (c_last, 0, seed)
     else
       '(c_id, seed) ← nurand NURAND_C_ID_A 1 CUSTOMERS_PER_DISTRICT seed 0;
       mret (zero_chars 16, c_id, seed));
  '(r, _) ← get_random_number 4999 seed;
  let h_amount := i32 (u32 (100 + u32 (r * 100))) in
  mret (mk_payment_ctx None req fdb_state ctx_seed w_id d_id c_w_id c_d_id c_id c_last
    by_name h_amount 0 0 0 0).

Definition tpcc_payment_execute (req fdb_state : ptr) (seed : Z) : W () :=
  ctx ← calloc payment_ctx_zero;
  match ctx with
  | None => h2o_send_error_503 req "Service Unavailable" "out of memory"
  | Some arg =>
      c ← lift (payment_params req fdb_state seed);
      _ ← store arg c;
      '(err, tr) ← fdb_create_transaction fdb_state;
      if negb (err =? 0) then
        _ ← free arg;
        h2o_send_error_503 req "Service Unavailable" "fdb transaction failed"
      else
        let c := pc_set_tr c tr in
        _ ← store arg c;
        wkey ← lift (key_bytes (kv_warehouse_key (stack_buf 64) (pc_w_id c)));
        _ ← fdb_async_get tr wkey PayOnWarehouseRead arg;
        mret ()
  end.
End handlers.

(** ** Specification of the chain *)

(** Everything one Payment commits: [ytd] is the customer's [c_ytd_payment] as read. *)
Definition payment_writes (c : payment_ctx_t) (ytd now : Z) : list write :=
  [(enc_key (RWarehouse (pc_w_id c)),
    pack (payment_warehouse (pc_w_ytd c + pc_h_amount c)));
   (enc_key (RDistrict (pc_c_w_id c) (pc_c_d_id c)),
    pack (payment_district (pc_d_ytd c + pc_h_amount c)));
   (enc_key (RCustomer (pc_c_w_id c) (pc_c_d_id c) (pc_c_id c)),
    pack (payment_customer (pc_c_balance c - pc_h_amount c) (ytd + pc_h_amount c)
      (i16 (pc_c_payment_cnt c + 1))));
   (enc_key (RHistory (pc_w_id c) (pc_c_w_id c) (pc_c_d_id c) (pc_c_id c) (u32 now)),
    pack (mk_history_val now (pc_h_amount c) (zero_chars 24)))].

(** The four 64-bit sums of [on_customer_read] are defined. *)
Definition payment_fits (c : payment_ctx_t) (ytd : Z) : bool :=
  fits_s 64 (pc_w_ytd c + pc_h_amount c) && fits_s 64 (pc_d_ytd c + pc_h_amount c) &&
  fits_s 64 (pc_c_balance c - pc_h_amount c) && fits_s 64 (ytd + pc_h_amount c).

Definition pay_fail (status : Z) (body : string) : next :=
  NFinish (if status =? 200 then RText None None body else RError status "Error" body).

Definition payment_body (c : payment_ctx_t) : list json_tok :=
  [JMapOpen; jstr "status" 6; jstr "ok" 2; jstr "amount" 6; JInteger (pc_h_amount c);
   JMapClose].

(** By-name payments pick the customer with the context's own seed. *)
Definition pay_pick_customer `{RandR} (c : payment_ctx_t) : payment_ctx_t :=
  if pc_by_name c then
    match get_random_number (CUSTOMERS_PER_DISTRICT - 1) (pc_seed c) with
    | Ok (r, seed) => pc_set_c_id c (u32 (1 + r)) seed
    | Ub _ => c
    end
  else c.

Definition pay_next `{RandR} (cb : callback) (t : nat) (c : payment_ctx_t)
    (ws : list write) (now : Z) (ans : answer) : next :=
  match cb with
  | PayOnErrorRetry =>
      if a_error ans =? 0 then
        NContinue false (CtxPayment c) ws PayOnWarehouseRead
          (OpGet t (enc_key (RWarehouse (pc_w_id c))))
      else pay_fail 503 "transaction retry exhausted"
  | _ =>
  if negb (a_error ans =? 0) then
    NContinue false (CtxPayment c) ws PayOnErrorRetry (OpOnError t (a_error ans))
  else match cb with
  | PayOnWarehouseRead =>
      match read_row warehouse_val_t ans with
      | None => pay_fail 500 "warehouse not found"
      | Some wv =>
          NContinue false (CtxPayment (pc_set_w_ytd c (w_ytd wv))) ws PayOnDistrictRead
            (OpGet t (enc_key (RDistrict (pc_c_w_id c) (pc_c_d_id c))))
      end
  | PayOnDistrictRead =>
      match read_row district_val_t ans with
      | None => pay_fail 500 "district not found"
      | Some dv =>
          let c := pay_pick_customer (pc_set_d_ytd c (d_ytd dv)) in
          NContinue false (CtxPayment c) ws PayOnCustomerRead
            (OpGet t (enc_key (RCustomer (pc_c_w_id c) (pc_c_d_id c) (pc_c_id c))))
      end
  | PayOnCustomerRead =>
      match read_row customer_val_t ans with
      | None => pay_fail 500 "customer not found"
      | Some cv =>
          let c := pc_set_customer c (c_balance cv) (c_payment_cnt cv) in
          if payment_fits c (c_ytd_payment cv) then
            NContinue true (CtxPayment c) (ws ++ payment_writes c (c_ytd_payment cv) now)
              PayOnCommit (OpCommit t)
          else NUndef SignedOverflow
      end
  | PayOnCommit => NFinish (RInline None None (payment_body c))
  | _ => NUndef TypeConfusion
  end
  end.

Definition pay_callback `{Env} `{RandR} (cb : callback) : option (answer → nat → W ()) :=
  match cb with
  | PayOnWarehouseRead => Some pay_on_warehouse_read
  | PayOnDistrictRead => Some pay_on_district_read
  | PayOnCustomerRead => Some pay_on_customer_read
  | PayOnCommit => Some pay_on_commit
  | PayOnErrorRetry => Some pay_on_error_retry
  | _ => None
  end.

(** The values of a context in use. *)
Record pay_ctx_ok (c : payment_ctx_t) : Prop := {
  pay_ids : Forall (in_u 32)
    [pc_w_id c; pc_d_id c; pc_c_w_id c; pc_c_d_id c; pc_c_id c];
  pay_ints : Forall (in_s 64) [pc_w_ytd c; pc_d_ytd c; pc_c_balance c];
  pay_cnt : in_s 16 (pc_c_payment_cnt c);
  pay_amount : in_s 32 (pc_h_amount c);
}.

Definition pay_chain_ok (cb : callback) (t : nat) (c : payment_ctx_t) (op : fdb_op)
    (ws : list write) : Prop :=
  match cb with
  | PayOnWarehouseRead => ws = [] ∧ op = OpGet t (enc_key (RWarehouse (pc_w_id c)))
  | PayOnDistrictRead =>
      ws = [] ∧ op = OpGet t (enc_key (RDistrict (pc_c_w_id c) (pc_c_d_id c)))
  | PayOnCustomerRead =>
      ws = [] ∧
      op = OpGet t (enc_key (RCustomer (pc_c_w_id c) (pc_c_d_id c) (pc_c_id c)))
  | PayOnCommit =>
      op = OpCommit t ∧
      ∃ ytd now, payment_fits c ytd = true ∧ ws = payment_writes c ytd now
  | PayOnErrorRetry => ∃ err, op = OpOnError t err
  | _ => False
  end.

(** ** Lemmas *)

Lemma history_key_Ok w c_w c_d c now :
  history_key w c_w c_d c now = Ok (enc_key (RHistory w c_w c_d c (u32 now))).
Proof.
  assert (Z.land now 0xFFFFFFFF = u32 now) as E by (apply (Z.land_ones now 32); lia).
  unfold enc_key, row_tail, row_table, row_comps, be32s. cbn [fmap list_fmap concat].
  rewrite <- !be32_kv, <- E. reflexivity.
Qed.

Lemma pay_ctx_ids c :
  pay_ctx_ok c → in_u 32 (pc_w_id c) ∧ in_u 32 (pc_d_id c) ∧ in_u 32 (pc_c_w_id c) ∧
    in_u 32 (pc_c_d_id c) ∧ in_u 32 (pc_c_id c).
Proof.
  intros Hc. pose proof (pay_ids c Hc) as Hl. rewrite !Forall_cons in Hl.
  by destruct Hl as (? & ? & ? & ? & ? & _).
Qed.

Lemma pay_ctx_ints c :
  pay_ctx_ok c → in_s 64 (pc_w_ytd c) ∧ in_s 64 (pc_d_ytd c) ∧ in_s 64 (pc_c_balance c).
Proof.
  intros Hc. pose proof (pay_ints c Hc) as Hl. rewrite !Forall_cons in Hl.
  by destruct Hl as (? & ? & ? & _).
Qed.

(** The fields of the rows read have the ranges of their C types. *)
Lemma pay_warehouse_range ans wv :
  read_row warehouse_val_t ans = Some wv → in_s 64 (w_ytd wv).
Proof.
  intros Hr. destruct (read_row_cases warehouse_val_t ans) as [[_ E]|(v & x & _ & _ & E & Hf)];
    rewrite Hr in E; [done|]. injection E as <-. destruct wv. cbn -[wrap_s] in Hf.
  injection Hf as _ _ _ _ _ _ _ ->. by apply wrap_s_range.
Qed.

Lemma pay_district_range ans dv : read_row district_val_t ans = Some dv → in_s 64 (d_ytd dv).
Proof.
  intros Hr. destruct (read_row_cases district_val_t ans) as [[_ E]|(v & x & _ & _ & E & Hf)];
    rewrite Hr in E; [done|]. injection E as <-. destruct dv. cbn -[wrap_s] in Hf.
  injection Hf as _ _ _ _ _ _ _ -> _. by apply wrap_s_range.
Qed.

Lemma pay_customer_range ans cv :
  read_row customer_val_t ans = Some cv →
  in_s 64 (c_balance cv) ∧ in_s 64 (c_ytd_payment cv) ∧ in_s 16 (c_payment_cnt cv).
Proof.
  intros Hr. destruct (read_row_cases customer_val_t ans) as [[_ E]|(v & x & _ & _ & E & Hf)];
    rewrite Hr in E; [done|]. injection E as <-. destruct cv. cbn -[wrap_s] in Hf.
  injection Hf as _ _ _ _ _ _ _ _ _ _ _ _ _ -> -> -> _ _.
  split_and!; by apply wrap_s_range.
Qed.

Lemma pay_pick_customer_ok `{RandR} c :
  pay_ctx_ok c → pay_ctx_ok (pay_pick_customer c) ∧
    pc_tr (pay_pick_customer c) = pc_tr c ∧ pc_req (pay_pick_customer c) = pc_req c.
Proof.
  intros Hc. unfold pay_pick_customer. destruct (pc_by_name c); [|done].
  destruct (get_random_number _ _) as [[r s]|]; [|done]. split; [|done].
  destruct Hc as [Hids Hints]. split; cbn; try done.
  rewrite !Forall_cons in *. destruct Hids as (? & ? & ? & ? & ? & ?).
  split_and!; try done. by apply wrap_u_range.
Qed.

Lemma pay_set_customer_ok c b n :
  pay_ctx_ok c → in_s 64 b → in_s 16 n → pay_ctx_ok (pc_set_customer c b n).
Proof.
  intros [Hids Hints Hcnt Hamt] ??. split; cbn; try done.
  rewrite !Forall_cons in *. destruct Hints as (? & ? & ? & _). by split_and!.
Qed.

(** The steps of the chain keep its promises. *)
Lemma pay_next_ok `{RandR} cb t c op ws now ans timed c' ws' cb' op' :
  pay_ctx_ok c → pay_chain_ok cb t c op ws →
  pay_next cb t c (effect_ws op ans ws) now ans = NContinue timed c' ws' cb' op' →
  ∃ n, c' = CtxPayment n ∧ pay_ctx_ok n ∧ pc_tr n = pc_tr c ∧ pc_req n = pc_req c ∧
    pay_chain_ok cb' t n op' ws'.
Proof.
  intros Hc Hok Hn. unfold pay_next in Hn.
  destruct (Z.eqb_spec (a_error ans) 0) as [Herr|Herr].
  2: { destruct cb; try done; cbn in Hn; simplify_eq; exists c; split_and!; try done;
       by eexists. }
  pose proof Hc as [Hids Hints Hcnt Hamt]. pose proof (pay_ctx_ints c Hc) as (? & ? & ?).
  destruct cb; try done; cbn [negb] in Hn.
  - destruct Hok as [-> ->]. destruct (read_row _ ans) as [wv|] eqn:Hr; [|done].
    apply pay_warehouse_range in Hr. simplify_eq. eexists. split_and!; try done.
    split; cbn; try done. forall_list.
  - destruct Hok as [-> ->]. destruct (read_row _ ans) as [dv|] eqn:Hr; [|done].
    apply pay_district_range in Hr. cbn zeta in Hn. simplify_eq.
    destruct (pay_pick_customer_ok (pc_set_d_ytd c (d_ytd dv))) as (Hok & ? & ?).
    { split; cbn; try done. forall_list. }
    eexists. by split_and!.
  - destruct Hok as [-> ->]. destruct (read_row _ ans) as [cv|] eqn:Hr; [|done].
    apply pay_customer_range in Hr as (? & ? & ?). cbn zeta in Hn.
    destruct (payment_fits _ _) eqn:Hf; [|done]. simplify_eq. eexists.
    split_and!; try done; [by apply pay_set_customer_ok|].
    cbn. split; [done|]. by eexists _, _.
  - destruct Hok as [err ->]. cbn [effect_ws] in Hn. rewrite Herr in Hn. cbn in Hn.
    simplify_eq. eexists. by split_and!.
Qed.

Section refinement.
Context `{Env} `{RandR}.

Lemma finish_payment_refines w a c t q ws status body :
  chain_at w a (CtxPayment c) t q ws →
  finish_payment a c status body w = exec_next a t q (pay_fail status body) w.
Proof.
  intros Hat. pose proof Hat as [_ Ht Hq _ _]. cbn [ctx_tr ctx_req] in Ht, Hq.
  unfold finish_payment, pay_fail, h2o_send_error_generic. rewrite Ht, Hq.
  destruct (status =? 200); by rewrite (finish_eq _ _ _ _ _ ws _ Hat) by done.
Qed.

(** The writes and the commit of [on_customer_read]. *)
Lemma pay_customer_read_refines w a c t q ws ans :
  chain_at w a (CtxPayment c) t q ws → pay_ctx_ok c → a_error ans = 0 →
  pay_on_customer_read ans a w =
    exec_next a t q (pay_next PayOnCustomerRead t c ws (env_time (w_tick w)) ans) w.
Proof.
  intros Hat Hc Herr. pose proof Hat as [Hh Ht Hq Hw _]. cbn [ctx_tr ctx_req] in Ht, Hq.
  destruct (pay_ctx_ids c Hc) as (Iw & _ & Icw & Icd & Ic).
  unfold pay_on_customer_read, pay_next. (mstep ltac:(by eapply load_Ok)).
  rewrite Herr. cbn [negb Z.eqb].
  destruct (read_row_cases customer_val_t ans) as [[-> ->]|(v & cv & -> & E & -> & _)].
  { exact (finish_payment_refines _ _ _ _ _ _ _ _ Hat). }
  mstep ltac:(by apply lift_eq). mstep ltac:(by eapply store_Ok).
  mstep ltac:(apply ext_Ok). cbn [pc_tr pc_set_customer]. rewrite Ht.
  set (c' := pc_set_customer c (c_balance cv) (c_payment_cnt cv)).
  cbv zeta. unfold payment_fits.
  mstep ltac:(by apply lift_eq, warehouse_key_bytes). unfold chk_s.
  destruct (fits_s 64 (pc_w_ytd c' + pc_h_amount c')); [|done].
  mstep ltac:(apply lift_Ok). mset.
  mstep ltac:(by apply lift_eq, district_key_bytes).
  destruct (fits_s 64 (pc_d_ytd c' + pc_h_amount c')); [|done].
  mstep ltac:(apply lift_Ok). mset.
  mstep ltac:(by apply lift_eq, customer_key_bytes).
  destruct (fits_s 64 (pc_c_balance c' - pc_h_amount c')); [|done].
  mstep ltac:(apply lift_Ok).
  destruct (fits_s 64 (c_ytd_payment cv + pc_h_amount c')); [|done].
  mstep ltac:(apply lift_Ok). mset.
  mstep ltac:(apply lift_eq, history_key_Ok). mset.
  erewrite fdb_async_commit_eq by apply lookup_insert_eq.
  cbn [andb]. rewrite exec_timed_eq. unfold payment_writes. by rewrite <- !app_assoc.
Qed.

(** The inline pick of the district callback, and what it leaves unchanged. *)
Lemma pay_pick_eq c (w : world) :
  (if pc_by_name c then
     '(r, seed) ← lift (get_random_number (CUSTOMERS_PER_DISTRICT - 1) (pc_seed c));
     mret (pc_set_c_id c (u32 (1 + r)) seed)
   else mret c) w = Ok (pay_pick_customer c, w).
Proof.
  unfold pay_pick_customer. destruct (pc_by_name c); [|done].
  by destruct (get_random_number_defined (CUSTOMERS_PER_DISTRICT - 1) (pc_seed c))
    as (r & s & ->).
Qed.

Lemma pay_pick_fields c :
  let c' := pay_pick_customer c in
  pc_tr c' = pc_tr c ∧ pc_req c' = pc_req c ∧ pc_w_id c' = pc_w_id c ∧
  pc_c_w_id c' = pc_c_w_id c ∧ pc_c_d_id c' = pc_c_d_id c ∧ pc_h_amount c' = pc_h_amount c ∧
  pc_w_ytd c' = pc_w_ytd c ∧ pc_d_ytd c' = pc_d_ytd c.
Proof.
  cbn zeta. unfold pay_pick_customer. destruct (pc_by_name c); [|done].
  by destruct (get_random_number _ _) as [[r s]|].
Qed.

Lemma pay_pick_id c : in_u 32 (pc_c_id c) → in_u 32 (pc_c_id (pay_pick_customer c)).
Proof.
  intros Hc. unfold pay_pick_customer. destruct (pc_by_name c); [|done].
  destruct (get_random_number _ _) as [[r s]|]; [|done]. by apply wrap_u_range.
Qed.

(** Every callback of the chain does what [pay_next] says. *)
Lemma pay_callback_refines cb run w a c t q ws ans :
  pay_callback cb = Some run → chain_at w a (CtxPayment c) t q ws → pay_ctx_ok c →
  run ans a w = exec_next a t q (pay_next cb t c ws (env_time (w_tick w)) ans) w.
Proof.
  intros Hrun Hat Hc. pose proof Hat as [Hh Ht Hq Hw _]. cbn [ctx_tr ctx_req] in Ht, Hq.
  destruct (pay_ctx_ids c Hc) as (Iw & _ & Icw & Icd & Ic).
  destruct cb; try done; injection Hrun as <-;
    (destruct (Z.eqb_spec (a_error ans) 0) as [Herr|Herr];
      [|unfold pay_on_warehouse_read, pay_on_district_read, pay_on_customer_read,
          pay_on_commit, pay_on_error_retry, pay_next; (mstep ltac:(by eapply load_Ok));
        rewrite (proj2 (Z.eqb_neq _ _) Herr); cbn [negb]; rewrite ?Ht;
        first [ exact (handle_error_refines _ _ _ _ _ _ _ _ Hat)
              | exact (finish_payment_refines _ _ _ _ _ _ _ _ Hat) ]]).
  - unfold pay_on_warehouse_read, pay_next. mstep ltac:(by eapply load_Ok).
    rewrite Herr. cbn [negb Z.eqb].
    destruct (read_row_cases warehouse_val_t ans) as [[-> ->]|(v & x & -> & E & -> & _)].
    { exact (finish_payment_refines _ _ _ _ _ _ _ _ Hat). }
    mstep ltac:(by apply lift_eq). mstep ltac:(by eapply store_Ok).
    mstep ltac:(by apply lift_eq, district_key_bytes). cbn [pc_tr pc_set_w_ytd].
    rewrite Ht, (fdb_async_get_eq _ ws), (exec_store_eq _ _ _ _ _ _ ws) by done. done.
  - unfold pay_on_district_read, pay_next. mstep ltac:(by eapply load_Ok).
    rewrite Herr. cbn [negb Z.eqb].
    destruct (read_row_cases district_val_t ans) as [[-> ->]|(v & x & -> & E & -> & _)].
    { exact (finish_payment_refines _ _ _ _ _ _ _ _ Hat). }
    mstep ltac:(by apply lift_eq). cbv zeta.
    set (c' := pay_pick_customer (pc_set_d_ytd c (d_ytd x))).
    mstep ltac:(apply pay_pick_eq). fold c'.
    destruct (pay_pick_fields (pc_set_d_ytd c (d_ytd x))) as (E3 & _ & _ & E1 & E2 & _).
    pose proof (pay_pick_id (pc_set_d_ytd c (d_ytd x)) Ic) as E4. fold c' in E1, E2, E3, E4.
    cbn [pc_set_d_ytd pc_tr pc_c_w_id pc_c_d_id] in E1, E2, E3.
    mstep ltac:(by eapply store_Ok).
    mstep ltac:(apply lift_eq, customer_key_bytes; by rewrite ?E1, ?E2).
    rewrite E3, Ht, (fdb_async_get_eq _ ws), (exec_store_eq _ _ _ _ _ _ ws) by done. done.
  - by apply pay_customer_read_refines.
  - unfold pay_on_commit, pay_next. mstep ltac:(by eapply load_Ok).
    rewrite Herr. cbn [negb Z.eqb]. unfold h2o_send_inline. rewrite Hq, Ht.
    by rewrite (finish_json_eq _ _ _ _ _ ws _ _ _ Hat).
  - unfold pay_on_error_retry, pay_next. mstep ltac:(by eapply load_Ok).
    rewrite Herr. cbn [negb Z.eqb]. mstep ltac:(by apply lift_eq, warehouse_key_bytes).
    rewrite Ht, (fdb_async_get_eq _ ws), (exec_same_eq _ _ _ _ _ ws) by done. done.
Qed.
End refinement.
