(* ===== verification/ReadTxns.v ===== *)
(** * OrderStatus, Delivery and StockLevel: src/handlers/tpcc_read_txns.c *)

From S2P Require Import Prelude Kv Random Values Ctx Runtime Chain.

Section handlers.
Context `{Env} `{RandR}.

(** ** OrderStatus *)

Definition order_status_ctx_zero : order_status_ctx_t :=
  mk_order_status_ctx None None None 0 0 0 (zero_chars 16) false.

(** The future is ignored: the answer is, too. *)
Definition os_on_commit (ans : answer) (arg : nat) : W () :=
  c ← load order_status_ctx_t arg;
  _ ← yajl_gen_open;
  _ ← h2o_send_inline (os_req c) [JMapOpen; jstr "status" 6; jstr "ok" 2; JMapClose];
  _ ← fdb_transaction_destroy (os_tr c);
  free arg.

Definition order_status_params (req fdb_state : ptr) (seed : Z)
    : outcome order_status_ctx_t :=
  '(r, seed) ← get_random_number (DISTRICTS_PER_WAREHOUSE - 1) seed;
  let d_id := u32 (1 + r) in
  '(r, seed) ← get_random_number 99 seed;
  let by_name := r <? 60 in
  c_id ← (if negb by_name then
            '(r, _) ← get_random_number (CUSTOMERS_PER_DISTRICT - 1) seed;
            mret (u32 (1 + r))
          else mret 0);
  mret (mk_order_status_ctx None req fdb_state 1 d_id c_id (zero_chars 16) by_name).

Definition os_set_tr (c : order_status_ctx_t) (tr : ptr) : order_status_ctx_t :=
  mk_order_status_ctx tr (os_req c) (os_fdb_state c) (os_w_id c) (os_d_id c) (os_c_id c)
    (os_c_last c) (os_by_name c).

Definition tpcc_order_status_execute (req fdb_state : ptr) (seed : Z) : W () :=
  ctx ← calloc order_status_ctx_zero;
  match ctx with
  | None => h2o_send_error_503 req "Service Unavailable" "oom"
  | Some arg =>
      c ← lift (order_status_params req fdb_state seed);
      _ ← store arg c;
      '(err, tr) ← fdb_create_transaction fdb_state;
      if negb (err =? 0) then
        _ ← free arg;
        h2o_send_error_503 req "Service Unavailable" "fdb failed"
      else
        _ ← store arg (os_set_tr c tr);
        _ ← fdb_async_commit tr OsOnCommit arg;
        mret ()
  end.

(** ** Delivery *)

Definition delivery_ctx_zero : delivery_ctx_t := mk_delivery_ctx None None None 0 0.

Definition dl_on_commit (ans : answer) (arg : nat) : W () :=
  c ← load delivery_ctx_t arg;
  _ ← yajl_gen_open;
  _ ← h2o_send_inline (dl_req c)
    [JMapOpen; jstr "status" 6; jstr "ok" 2; jstr "carrier" 7; JInteger (dl_carrier_id c);
     JMapClose];
  _ ← fdb_transaction_destroy (dl_tr c);
  free arg.

Definition delivery_params (req fdb_state : ptr) (seed : Z) : outcome delivery_ctx_t :=
  '(r, _) ← get_random_number 9 seed;
  mret (mk_delivery_ctx None req fdb_state 1 (i32 (u32 (1 + r)))).

Definition dl_set_tr (c : delivery_ctx_t) (tr : ptr) : delivery_ctx_t :=
  mk_delivery_ctx tr (dl_req c) (dl_fdb_state c) (dl_w_id c) (dl_carrier_id c).

Definition tpcc_delivery_execute (req fdb_state : ptr) (seed : Z) : W () :=
  ctx ← calloc delivery_ctx_zero;
  match ctx with
  | None => h2o_send_error_503 req "Service Unavailable" "oom"
  | Some arg =>
      c ← lift (delivery_params req fdb_state seed);
      _ ← store arg c;
      '(err, tr) ← fdb_create_transaction fdb_state;
      if negb (err =? 0) then
        _ ← free arg;
        h2o_send_error_503 req "Service Unavailable" "fdb failed"
      else
        _ ← store arg (dl_set_tr c tr);
        _ ← fdb_async_commit tr DlOnCommit arg;
        mret ()
  end.

(** ** StockLevel *)

Definition stock_level_ctx_zero : stock_level_ctx_t :=
  mk_stock_level_ctx None None None 0 0 0.

(** The counting loop over the pairs of the range read; the counter is an [int32_t]. *)
Fixpoint count_below (threshold : Z) (kvs : list write) (below : Z) : outcome Z :=
  match kvs with
  | [] => mret below
  | (_, value) :: kvs =>
      if (sizeof stock_val_t <=? length value)%nat then
        sv ← load_struct stock_val_t value;
        below ← (if s_quantity sv <? threshold then chk32 (below + 1) else mret below);
        count_below threshold kvs below
      else count_below threshold kvs below
  end.

Definition sl_on_range_read (ans : answer) (arg : nat) : W () :=
  c ← load stock_level_ctx_t arg;
  if negb (a_error ans =? 0) then
    _ ← h2o_send_error_503 (sl_req c) "Service Unavailable" "fdb error";
    _ ← fdb_transaction_destroy (sl_tr c);
    free arg
  else
    (** [count] is written only when [fdb_future_get_keyvalue_array] succeeds. *)
    _ ← lift (assert_or Uninit (a_kvs_error ans =? 0));
    below_threshold ← lift (count_below (sl_threshold c) (a_kvs ans) 0);
    _ ← yajl_gen_open;
    _ ← h2o_send_inline (sl_req c)
      [JMapOpen; jstr "status" 6; jstr "ok" 2; jstr "below_threshold" 16;
       JInteger below_threshold; JMapClose];
    _ ← fdb_transaction_destroy (sl_tr c);
    free arg.

Definition stock_level_params (req fdb_state : ptr) (seed : Z) : outcome stock_level_ctx_t :=
  '(r, seed) ← get_random_number (DISTRICTS_PER_WAREHOUSE - 1) seed;
  let d_id := u32 (1 + r) in
  '(r, _) ← get_random_number 10 seed;
  mret (mk_stock_level_ctx None req fdb_state 1 d_id (i32 (u32 (10 + r)))).

Definition sl_set_tr (c : stock_level_ctx_t) (tr : ptr) : stock_level_ctx_t :=
  mk_stock_level_ctx tr (sl_req c) (sl_fdb_state c) (sl_w_id c) (sl_d_id c)
    (sl_threshold c).

Definition tpcc_stock_level_execute (req fdb_state : ptr) (seed : Z) : W () :=
  ctx ← calloc stock_level_ctx_zero;
  match ctx with
  | None => h2o_send_error_503 req "Service Unavailable" "oom"
  | Some arg =>
      c ← lift (stock_level_params req fdb_state seed);
      _ ← store arg c;
      '(err, tr) ← fdb_create_transaction fdb_state;
      if negb (err =? 0) then
        _ ← free arg;
        h2o_send_error_503 req "Service Unavailable" "fdb failed"
      else
        let c := sl_set_tr c tr in
        _ ← store arg c;
        begin_key ← lift (key_bytes (kv_stock_range_begin (stack_buf 64) (sl_w_id c)));
        end_key ← lift (key_bytes (kv_stock_range_end (stack_buf 64) (sl_w_id c)));
        _ ← fdb_async_get_range tr begin_key end_key SlOnRangeRead arg;
        mret ()
  end.
End handlers.

(** ** Specification of the chains: one future each, no writes *)

Definition order_status_body : list json_tok :=
  [JMapOpen; jstr "status" 6; jstr "ok" 2; JMapClose].
Definition delivery_body (c : delivery_ctx_t) : list json_tok :=
  [JMapOpen; jstr "status" 6; jstr "ok" 2; jstr "carrier" 7; JInteger (dl_carrier_id c);
   JMapClose].
Definition stock_level_body (below : Z) : list json_tok :=
  [JMapOpen; jstr "status" 6; jstr "ok" 2; jstr "below_threshold" 16; JInteger below;
   JMapClose].

(** A pair of the range read that the loop counts: long enough and below. *)
Definition is_below (threshold : Z) (kv : write) : bool :=
  match load_struct stock_val_t kv.2 with
  | Ok sv => s_quantity sv <? threshold
  | Ub _ => false
  end.

Definition below_count (threshold : Z) (kvs : list write) : Z :=
  Z.of_nat (length (List.filter (is_below threshold) kvs)).

Definition sl_next (c : stock_level_ctx_t) (ans : answer) : next :=
  if negb (a_error ans =? 0) then NFinish (RError 503 "Service Unavailable" "fdb error")
  else if negb (a_kvs_error ans =? 0) then NUndef Uninit
  else match count_below (sl_threshold c) (a_kvs ans) 0 with
       | Ok below => NFinish (RInline None None (stock_level_body below))
       | Ub u => NUndef u
       end.

(** ** Lemmas *)

(** The loop counts the rows below the threshold, while the [int32_t] lasts. *)
Lemma count_below_eq threshold kvs n :
  0 <= n → n + Z.of_nat (length kvs) < 2 ^ 31 →
  count_below threshold kvs n = Ok (n + below_count threshold kvs).
Proof.
  revert n. induction kvs as [|[k v] kvs IH]; intros n Hn Hl.
  - cbn. by rewrite Z.add_0_r.
  - cbn [length] in Hl. cbn [count_below].
    assert (below_count threshold ((k, v) :: kvs) =
      (if is_below threshold (k, v) then 1 else 0) + below_count threshold kvs) as ->.
    { unfold below_count. cbn [List.filter]. destruct (is_below _ _); cbn [length]; lia. }
    unfold is_below; cbn [snd].
    destruct (Nat.leb_spec (sizeof stock_val_t) (length v)) as [Hlen|Hlen].
    + destruct (load_struct_enough (A := stock_val_t) v Hlen) as (sv & -> & _).
      cbn [mbind outcome_bind]. destruct (s_quantity sv <? threshold).
      * rewrite chk_s_Ok by range. cbn [mbind outcome_bind].
        rewrite IH by lia. f_equal. lia.
      * cbn [mbind outcome_bind mret outcome_ret]. rewrite IH by lia. f_equal.
    + rewrite IH by lia. unfold load_struct. by rewrite (proj2 (Nat.ltb_lt _ _)).
Qed.

Section refinement.
Context `{Env}.

Lemma os_on_commit_refines w a c t q ws ans :
  chain_at w a (CtxOrderStatus c) t q ws →
  os_on_commit ans a w = exec_next a t q (NFinish (RInline None None order_status_body)) w.
Proof.
  intros Hat. pose proof Hat as [Hh Ht Hq _ _]. cbn [ctx_tr ctx_req] in Ht, Hq.
  unfold os_on_commit. mstep ltac:(by eapply load_Ok). unfold h2o_send_inline.
  rewrite Hq, Ht. by rewrite (finish_json_eq _ _ _ _ _ ws _ _ _ Hat).
Qed.

Lemma dl_on_commit_refines w a c t q ws ans :
  chain_at w a (CtxDelivery c) t q ws →
  dl_on_commit ans a w = exec_next a t q (NFinish (RInline None None (delivery_body c))) w.
Proof.
  intros Hat. pose proof Hat as [Hh Ht Hq _ _]. cbn [ctx_tr ctx_req] in Ht, Hq.
  unfold dl_on_commit. mstep ltac:(by eapply load_Ok). unfold h2o_send_inline.
  rewrite Hq, Ht. by rewrite (finish_json_eq _ _ _ _ _ ws _ _ _ Hat).
Qed.

Lemma sl_on_range_read_refines w a c t q ws ans :
  chain_at w a (CtxStockLevel c) t q ws →
  sl_on_range_read ans a w = exec_next a t q (sl_next c ans) w.
Proof.
  intros Hat. pose proof Hat as [Hh Ht Hq _ _]. cbn [ctx_tr ctx_req] in Ht, Hq.
  unfold sl_on_range_read, sl_next. mstep ltac:(by eapply load_Ok). rewrite Hq, Ht.
  unfold h2o_send_inline, h2o_send_error_503.
  destruct (negb (a_error ans =? 0)); [by rewrite (finish_eq _ _ _ _ _ ws _ Hat) by done|].
  destruct (a_kvs_error ans =? 0); [|done]. cbn [negb].
  mstep ltac:(by apply lift_eq).
  destruct (count_below _ _ _) as [n|u]; [|done]. mstep ltac:(apply lift_Ok).
  by rewrite (finish_json_eq _ _ _ _ _ ws _ _ _ Hat).
Qed.
End refinement.
