(* ===== verification/Tfb.v ===== *)
(** * The TechEmpower handlers: src/handlers/tfb_handlers.c *)

From S2P Require Import Prelude Kv Random Query Values Ctx Runtime Chain.

Definition TFB_MAX_ID : Z := 10000.
Definition TFB_HELLO_RESPONSE : string := "Hello, World!".

(** [memcpy] into a [uint32_t]. *)
Definition memcpy_u32 (val : list Z) : outcome Z := bs ← peek val 0 4; mret (le_val bs).

(** [world_key] into [uint8_t key[16]]. *)
Definition world_key (buf : list Z) (id : Z) : outcome (list Z * nat) :=
  buf ← poke buf 0 TFB_WORLD_PREFIX;
  let be := htonl id in
  buf ← poke buf (length TFB_WORLD_PREFIX) (u32_bytes be);
  mret (buf, (length TFB_WORLD_PREFIX + 4)%nat).

Definition single_query_ctx_zero : single_query_ctx_t := mk_single_query_ctx None None 0.
Definition multi_query_ctx_zero : multi_query_ctx_t :=
  mk_multi_query_ctx None None 0 0 None None 0.
Definition update_ctx_zero : update_ctx_t := mk_update_ctx None None 0 0 None None false.

Definition sq_set_tr (c : single_query_ctx_t) (tr : ptr) : single_query_ctx_t :=
  mk_single_query_ctx (sq_req c) tr (sq_id c).
Definition mq_set_tr (c : multi_query_ctx_t) (tr : ptr) : multi_query_ctx_t :=
  mk_multi_query_ctx (mq_req c) tr (mq_num_query c) (mq_num_result c) (mq_ids c)
    (mq_random_numbers c) (mq_num_in_progress c).
Definition mq_set_result (c : multi_query_ctx_t) (n : Z) (rns : option (list Z))
    : multi_query_ctx_t :=
  mk_multi_query_ctx (mq_req c) (mq_tr c) (mq_num_query c) n (mq_ids c) rns
    (mq_num_in_progress c).
Definition up_set_tr (c : update_ctx_t) (tr : ptr) : update_ctx_t :=
  mk_update_ctx (up_req c) tr (up_num_query c) (up_num_result c) (up_ids c)
    (up_random_numbers c) (up_phase c).
Definition up_set_result (c : update_ctx_t) (n : Z) (rns : option (list Z)) : update_ctx_t :=
  mk_update_ctx (up_req c) (up_tr c) (up_num_query c) n (up_ids c) rns (up_phase c).
Definition up_set_phase (c : update_ctx_t) : update_ctx_t :=
  mk_update_ctx (up_req c) (up_tr c) (up_num_query c) (up_num_result c) (up_ids c)
    (up_random_numbers c) true.

(** [p[i]] and [p[i] = x] through a pointer to an allocated array. *)
Definition ptr_get (p : option (list Z)) (i : Z) : outcome Z :=
  a ← from_option_or NullDeref p; arr_get a i.
Definition ptr_set (p : option (list Z)) (i x : Z) : outcome (option (list Z)) :=
  a ← from_option_or NullDeref p; a ← arr_set a i x; mret (Some a).

(** One result object of the JSON arrays. *)
Definition json_world (id rn : Z) : list json_tok :=
  [JMapOpen; jstr "id" 2; JInteger id; jstr "randomNumber" 12; JInteger rn; JMapClose].

Fixpoint json_worlds (ids rns : option (list Z)) (idxs : list Z) : outcome (list json_tok) :=
  match idxs with
  | [] => mret []
  | i :: idxs =>
      id ← ptr_get ids i;
      rn ← ptr_get rns i;
      rest ← json_worlds ids rns idxs;
      mret (json_world id rn ++ rest)
  end.

Section handlers.
Context `{Env} `{RandR}.

(** [1 + get_random_number(TFB_MAX_ID, g_seed)]: the seed lives behind [g_seed]. *)
Definition g_set_seed (seed : Z) (g : globals) : globals :=
  mk_globals (g_handler_fdb_state g) (g_handler_seed g) (g_fdb_state g) (Some seed)
    (g_world_cache g) (g_world_cache_loaded g).

Definition get_random_world_id : W Z :=
  g ← gets w_globals;
  seed ← lift (from_option_or NullDeref (g_seed g));
  '(r, seed) ← lift (get_random_number TFB_MAX_ID seed);
  _ ← modify (upd_globals (g_set_seed seed));
  mret (u32 (1 + r)).

Definition send_json (req : ptr) (body : list json_tok) : W () :=
  send_response req (RInline (Some 200) (Some "application/json"%string) body).

(** ** /plaintext and /json *)

Definition plaintext_handler (req : ptr) : W () :=
  send_response req (RText (Some 200) (Some "text/plain"%string) TFB_HELLO_RESPONSE).

Definition json_handler (req : ptr) : W () :=
  _ ← yajl_gen_open;
  send_json req [JMapOpen; jstr "message" 7; jstr TFB_HELLO_RESPONSE 13; JMapClose].

(** ** /db *)

Definition on_single_query_result (ans : answer) (arg : nat) : W () :=
  c ← load single_query_ctx_t arg;
  _ ← (if negb (a_error ans =? 0) then
         h2o_send_error_503 (sq_req c) "Service Unavailable" "FDB error"
       else match future_value ans 4 with
       | None => h2o_send_error_503 (sq_req c) "Service Unavailable" "World row not found"
       | Some val =>
           rn ← lift (memcpy_u32 val);
           _ ← yajl_gen_open;
           send_json (sq_req c) (json_world (sq_id c) (ntohl rn))
       end);
  _ ← fdb_transaction_destroy (sq_tr c);
  free arg.

Definition db_handler (req : ptr) : W () :=
  ctx ← calloc single_query_ctx_zero;
  match ctx with
  | None => h2o_send_error_503 req "Service Unavailable" "oom"
  | Some arg =>
      id ← get_random_world_id;
      let c := mk_single_query_ctx req None id in
      _ ← store arg c;
      g ← gets w_globals;
      '(err, tr) ← fdb_create_transaction (g_fdb_state g);
      if negb (err =? 0) then
        _ ← free arg;
        h2o_send_error_503 req "Service Unavailable" "fdb failed"
      else
        let c := sq_set_tr c tr in
        _ ← store arg c;
        key ← lift (key_bytes (world_key (stack_buf 16) (sq_id c)));
        _ ← fdb_async_get tr key OnSingleQueryResult arg;
        mret ()
  end.

(** ** /queries *)

Definition multi_query_next (ctx : nat) : W () :=
  c ← load multi_query_ctx_t ctx;
  if mq_num_result c =? mq_num_query c then
    _ ← yajl_gen_open;
    body ← lift (json_worlds (mq_ids c) (mq_random_numbers c) (upto (mq_num_result c)));
    _ ← send_json (mq_req c) ([JArrayOpen] ++ body ++ [JArrayClose]);
    _ ← fdb_transaction_destroy (mq_tr c);
    free ctx
  else
    id ← lift (ptr_get (mq_ids c) (mq_num_result c));
    key ← lift (key_bytes (world_key (stack_buf 16) id));
    _ ← fdb_async_get (mq_tr c) key MultiQueryNextCast ctx;
    mret ().

(** The cast function called as a future's callback: its one parameter receives the
    [FDBFuture *], which is no [multi_query_ctx_t]. *)
Definition multi_query_next_cast (ans : answer) (arg : nat) : W () := fail_with TypeConfusion.

(** Defined and never passed to the adapter. *)
Definition on_multi_query_result (ans : answer) (arg : nat) : W () :=
  c ← load multi_query_ctx_t arg;
  if negb (a_error ans =? 0) then
    _ ← h2o_send_error_503 (mq_req c) "Service Unavailable" "FDB error";
    _ ← fdb_transaction_destroy (mq_tr c);
    free arg
  else
    rn ← match future_value ans 4 with
         | None => mret 0
         | Some val => rn ← lift (memcpy_u32 val); mret (ntohl rn)
         end;
    rns ← lift (ptr_set (mq_random_numbers c) (mq_num_result c) rn);
    _ ← store arg (mq_set_result c (u64 (mq_num_result c + 1)) rns);
    multi_query_next arg.

(** [calloc(n, sizeof(uint32_t))]. *)
Definition calloc_u32 (n : Z) : W (option (list Z)) :=
  ok ← ext env_malloc; mret (if ok : bool then Some (replicate (Z.to_nat n) 0) else None).

(** [for (i < n) ids[i] = get_random_world_id();] *)
Fixpoint draw_ids (ids : option (list Z)) (idxs : list Z) : W (option (list Z)) :=
  match idxs with
  | [] => mret ids
  | i :: idxs =>
      id ← get_random_world_id;
      ids ← lift (ptr_set ids i id);
      draw_ids ids idxs
  end.

Definition queries_handler (path : request_path) (req : ptr) : W () :=
  n ← lift (get_query_number path);
  ctx ← calloc multi_query_ctx_zero;
  match ctx with
  | None => h2o_send_error_503 req "Service Unavailable" "oom"
  | Some arg =>
      ids ← calloc_u32 n;
      rns ← calloc_u32 n;
      ids ← draw_ids ids (upto n);
      let c := mk_multi_query_ctx req None n 0 ids rns 0 in
      _ ← store arg c;
      g ← gets w_globals;
      '(err, tr) ← fdb_create_transaction (g_fdb_state g);
      if negb (err =? 0) then
        _ ← free arg;
        h2o_send_error_503 req "Service Unavailable" "fdb failed"
      else
        _ ← store arg (mq_set_tr c tr);
        multi_query_next arg
  end.

(** ** /updates *)

Definition update_on_commit (ans : answer) (arg : nat) : W () :=
  c ← load update_ctx_t arg;
  _ ← yajl_gen_open;
  body ← lift (json_worlds (up_ids c) (up_random_numbers c) (upto (up_num_result c)));
  _ ← send_json (up_req c) ([JArrayOpen] ++ body ++ [JArrayClose]);
  _ ← fdb_transaction_destroy (up_tr c);
  free arg.

Definition update_write (c : update_ctx_t) (i : Z) : W () :=
  id ← lift (ptr_get (up_ids c) i);
  key ← lift (key_bytes (world_key (stack_buf 16) id));
  rn ← lift (ptr_get (up_random_numbers c) i);
  fdb_sync_set (up_tr c) key (u32_bytes (htonl rn)).

Definition update_do_writes (ctx : nat) (c : update_ctx_t) : W () :=
  let c := up_set_phase c in
  _ ← store ctx c;
  _ ← for_each (upto (up_num_result c)) (update_write c);
  _ ← fdb_async_commit (up_tr c) UpdateOnCommit ctx;
  mret ().

Definition update_on_read (ans : answer) (arg : nat) : W () :=
  c ← load update_ctx_t arg;
  if negb (a_error ans =? 0) then
    _ ← h2o_send_error_503 (up_req c) "Service Unavailable" "FDB error";
    _ ← fdb_transaction_destroy (up_tr c);
    free arg
  else
    rns ← match future_value ans 4 with
          | None =>
              id ← get_random_world_id;
              lift (ptr_set (up_random_numbers c) (up_num_result c) id)
          | Some val => _ ← lift (memcpy_u32 val); mret (up_random_numbers c)
          end;
    id ← get_random_world_id;
    rns ← lift (ptr_set rns (up_num_result c) (u32 (id - 1)));
    let c := up_set_result c (u64 (up_num_result c + 1)) rns in
    _ ← store arg c;
    if up_num_result c <? up_num_query c then
      id ← lift (ptr_get (up_ids c) (up_num_result c));
      key ← lift (key_bytes (world_key (stack_buf 16) id));
      _ ← fdb_async_get (up_tr c) key UpdateOnRead arg;
      mret ()
    else update_do_writes arg c.

Definition updates_handler (path : request_path) (req : ptr) : W () :=
  n ← lift (get_query_number path);
  ctx ← calloc update_ctx_zero;
  match ctx with
  | None => h2o_send_error_503 req "Service Unavailable" "oom"
  | Some arg =>
      ids ← calloc_u32 n;
      rns ← calloc_u32 n;
      ids ← draw_ids ids (upto n);
      let c := mk_update_ctx req None n 0 ids rns false in
      _ ← store arg c;
      g ← gets w_globals;
      '(err, tr) ← fdb_create_transaction (g_fdb_state g);
      if negb (err =? 0) then
        _ ← free arg;
        h2o_send_error_503 req "Service Unavailable" "fdb failed"
      else
        let c := up_set_tr c tr in
        _ ← store arg c;
        id ← lift (ptr_get (up_ids c) 0);
        key ← lift (key_bytes (world_key (stack_buf 16) id));
        _ ← fdb_async_get tr key UpdateOnRead arg;
        mret ()
  end.

(** ** /cached-worlds *)

Fixpoint cached_worlds (n : nat) : W (list json_tok) :=
  match n with
  | O => mret []
  | S n =>
      id ← get_random_world_id;
      g ← gets w_globals;
      rn ← lift (arr_get (g_world_cache g) id);
      rest ← cached_worlds n;
      mret (json_world id rn ++ rest)
  end.

(** The test [if (g_world_cache)] of an array's address is always true. *)
Definition cached_worlds_handler (path : request_path) (req : ptr) : W () :=
  n ← lift (get_query_number path);
  _ ← yajl_gen_open;
  body ← cached_worlds (Z.to_nat n);
  send_json req ([JArrayOpen] ++ body ++ [JArrayClose]).

(** ** Registration *)

(** The cache's initial contents: [n] more entries drawn from [s]. *)
Fixpoint cache_entries (n : nat) (s : Z) : list Z :=
  match n with
  | O => []
  | S n => let '(r, s) := rand_r s in u16 (Z.rem r 10000) :: cache_entries n s
  end.

Definition initialize_tfb_globals (fdb_state : ptr) (seed : option Z) (g : globals) : globals :=
  if g_world_cache_loaded g then
    mk_globals (g_handler_fdb_state g) (g_handler_seed g) fdb_state seed (g_world_cache g)
      (g_world_cache_loaded g)
  else
    mk_globals (g_handler_fdb_state g) (g_handler_seed g) fdb_state seed
      (cache_entries (Z.to_nat 10001) 42) true.
End handlers.

(** ** Specification of the chains *)

(** The id drawn from a seed, and the next seed. *)
Definition world_id `{RandR} (seed : Z) : Z * Z :=
  match get_random_number TFB_MAX_ID seed with
  | Ok (r, seed) => (u32 (1 + r), seed)
  | Ub _ => (0, seed)
  end.

Definition sq_next (c : single_query_ctx_t) (ans : answer) : next :=
  if negb (a_error ans =? 0) then NFinish (RError 503 "Service Unavailable" "FDB error")
  else match future_value ans 4 with
       | None => NFinish (RError 503 "Service Unavailable" "World row not found")
       | Some val =>
           NFinish (RInline (Some 200) (Some "application/json"%string)
             (json_world (sq_id c) (ntohl (le_val (take 4 val)))))
       end.

Definition arr_of (p : option (list Z)) : list Z := default [] p.

(** The writes of an /updates request: the rows read so far with their new numbers. *)
Definition update_row_write (c : update_ctx_t) (i : Z) : write :=
  (enc_key (RWorld (arr0 (arr_of (up_ids c)) i)), be32 (arr0 (arr_of (up_random_numbers c)) i)).
Definition update_writes (c : update_ctx_t) : list write :=
  update_row_write c <$> upto (up_num_result c).

Definition worlds_body (ids rns : list Z) (n : Z) : list json_tok :=
  [JArrayOpen] ++ concat ((λ i, json_world (arr0 ids i) (arr0 rns i)) <$> upto n) ++
  [JArrayClose].

(** The seed after the row of one read: a missing row costs one draw more. *)
Definition up_draw `{RandR} (ans : answer) (seed : Z) : Z * Z :=
  world_id (match future_value ans 4 with None => (world_id seed).2 | Some _ => seed end).

Definition up_take `{RandR} (c : update_ctx_t) (ans : answer) (seed : Z) : update_ctx_t :=
  up_set_result c (up_num_result c + 1)
    (Some (<[Z.to_nat (up_num_result c) := u32 ((up_draw ans seed).1 - 1)]>
             (arr_of (up_random_numbers c)))).

(** The entry does not look at what its [calloc] of the numbers returned. *)
Definition numbers_missing (c : update_ctx_t) : bool :=
  match up_random_numbers c with None => true | Some _ => false end.

Definition up_next `{RandR} (cb : callback) (t : nat) (c : update_ctx_t) (ws : list write)
    (seed : Z) (ans : answer) : next :=
  match cb with
  | UpdateOnRead =>
      if negb (a_error ans =? 0) then NFinish (RError 503 "Service Unavailable" "FDB error")
      else if numbers_missing c then NUndef NullDeref
      else
        let c := up_take c ans seed in
        if up_num_result c <? up_num_query c then
          NContinue false (CtxUpdate c) ws UpdateOnRead
            (OpGet t (enc_key (RWorld (arr0 (arr_of (up_ids c)) (up_num_result c)))))
        else
          NContinue false (CtxUpdate (up_set_phase c)) (ws ++ update_writes c)
            UpdateOnCommit (OpCommit t)
  | UpdateOnCommit =>
      NFinish (RInline (Some 200) (Some "application/json"%string)
        (worlds_body (arr_of (up_ids c)) (arr_of (up_random_numbers c)) (up_num_result c)))
  | _ => NUndef TypeConfusion
  end.

(** The seed after the callback. *)
Definition up_seed `{RandR} (cb : callback) (seed : Z) (ans : answer) : Z :=
  match cb with
  | UpdateOnRead => if negb (a_error ans =? 0) then seed else (up_draw ans seed).2
  | _ => seed
  end.

(** The values of a context in use: the ids are allocated, and both arrays are as long as
    [num_query] where they are. *)
Record up_ctx_ok (c : update_ctx_t) : Prop := {
  up_ids_ok : ∃ ids, up_ids c = Some ids ∧ Z.of_nat (length ids) = up_num_query c;
  up_rns_ok : ∀ rns, up_random_numbers c = Some rns → Z.of_nat (length rns) = up_num_query c;
  up_query_ok : 1 <= up_num_query c <= 500;
  up_result_ok : 0 <= up_num_result c <= up_num_query c;
}.

Definition up_chain_ok (cb : callback) (t : nat) (c : update_ctx_t) (op : fdb_op)
    (ws : list write) : Prop :=
  match cb with
  | UpdateOnRead =>
      ws = [] ∧ up_num_result c < up_num_query c ∧
      op = OpGet t (enc_key (RWorld (arr0 (arr_of (up_ids c)) (up_num_result c))))
  | UpdateOnCommit =>
      op = OpCommit t ∧ up_num_result c = up_num_query c ∧ ws = update_writes c ∧
      numbers_missing c = false
  | _ => False
  end.

(** ** Lemmas *)

Lemma world_key_bytes id : key_bytes (world_key (stack_buf 16) id) = Ok (enc_key (RWorld id)).
Proof. unfold world_key. cbv zeta. rewrite htonl_bytes. reflexivity. Qed.

(** The row value as the handlers read it is its big-endian value. *)
Lemma ntohl_be_val bs : length bs = 4%nat → bytes_ok bs → ntohl (le_val bs) = be_val bs.
Proof.
  intros Hl Hb. unfold ntohl. rewrite <- Hl, le_bytes_le_val by done.
  destruct bs as [|b0 [|b1 [|b2 [|b3 [|]]]]]; try done. cbn. lia.
Qed.

Lemma arr0_get l i : 0 <= i < Z.of_nat (length l) → ptr_get (Some l) i = Ok (arr0 l i).
Proof.
  intros Hi. unfold ptr_get. cbn [from_option_or mbind outcome_bind].
  destruct (arr_get_lt l i Hi) as (x & -> & Hx). unfold arr0. by rewrite Hx.
Qed.

Lemma json_worlds_Ok ids rns idxs :
  (∀ i, i ∈ idxs → 0 <= i < Z.of_nat (length ids) ∧ 0 <= i < Z.of_nat (length rns)) →
  json_worlds (Some ids) (Some rns) idxs =
    Ok (concat ((λ i, json_world (arr0 ids i) (arr0 rns i)) <$> idxs)).
Proof.
  induction idxs as [|i idxs IH]; intros Hin; [done|]. cbn [json_worlds].
  destruct (Hin i) as [H1 H2]; [by left|]. rewrite !arr0_get by done.
  cbn [mbind outcome_bind]. rewrite IH; [done|]. intros j Hj. apply Hin. by right.
Qed.

Lemma numbers_there c :
  numbers_missing c = false → ∃ rns, up_random_numbers c = Some rns.
Proof. unfold numbers_missing. destruct (up_random_numbers c) as [rns|]; [by eexists|done]. Qed.

Lemma up_take_ok `{RandR} c ans seed :
  up_ctx_ok c → numbers_missing c = false → up_num_result c < up_num_query c →
  up_ctx_ok (up_take c ans seed) ∧ up_ctx_ok (up_set_phase (up_take c ans seed)).
Proof.
  intros [(ids & Hi & Li) Lr Hq Hn] (rns & Hr)%numbers_there Hlt.
  specialize (Lr rns Hr). unfold up_take. rewrite Hr.
  split; split; cbn; try (by eexists); try lia;
    (intros ? [= <-]; by rewrite length_insert).
Qed.

(** The steps of the chain keep its promises. *)
Lemma up_next_ok `{RandR} cb t c op ws seed ans timed c' ws' cb' op' :
  up_ctx_ok c → up_chain_ok cb t c op ws →
  up_next cb t c (effect_ws op ans ws) seed ans = NContinue timed c' ws' cb' op' →
  ∃ n, c' = CtxUpdate n ∧ up_ctx_ok n ∧ up_tr n = up_tr c ∧ up_req n = up_req c ∧
    up_chain_ok cb' t n op' ws'.
Proof.
  intros Hc Hok Hn. destruct cb; try done. unfold up_next in Hn.
  destruct Hok as (-> & Hlt & ->). destruct (negb _); [done|]. cbn [effect_ws] in Hn.
  destruct (numbers_missing c) eqn:Hm; [done|].
  destruct (up_take_ok c ans seed Hc Hm Hlt) as [Hc1 Hc2]. cbv zeta in Hn.
  destruct (Z.ltb_spec (up_num_result (up_take c ans seed))
    (up_num_query (up_take c ans seed))) as [Hl|Hl]; simplify_eq; eexists; split_and!; try done.
  cbn in Hl |- *. split_and!; [done|lia|done|done].
Qed.

Section refinement.
Context `{Env} `{RandR}.

Lemma get_random_world_id_Ok w seed :
  g_seed (w_globals w) = Some seed →
  get_random_world_id w =
    Ok ((world_id seed).1, upd_globals (g_set_seed (world_id seed).2) w).
Proof.
  intros Hs. unfold get_random_world_id, world_id, gets, lift, modify, mbind, M_bind.
  rewrite Hs. cbn [from_option_or].
  destruct (get_random_number_defined TFB_MAX_ID seed) as (r & s & ->); done.
Qed.

Lemma on_single_query_result_refines w a c t q ws ans :
  chain_at w a (CtxSingleQuery c) t q ws →
  on_single_query_result ans a w = exec_next a t q (sq_next c ans) w.
Proof.
  intros Hat. pose proof Hat as [Hh Ht Hq _ Hl]. cbn [ctx_tr ctx_req] in Ht, Hq.
  unfold on_single_query_result, sq_next. mstep ltac:(by eapply load_Ok). rewrite Hq, Ht.
  unfold h2o_send_error_503, send_json.
  destruct (negb (a_error ans =? 0)); [by rewrite (finish_eq _ _ _ _ _ ws _ Hat) by done|].
  destruct (future_value ans 4) as [v|] eqn:Hv; [|by rewrite (finish_eq _ _ _ _ _ ws _ Hat) by done].
  apply future_value_length in Hv. unfold memcpy_u32, peek.
  rewrite (proj2 (Nat.leb_le _ _)), drop_0 by lia.
  rewrite <- (finish_json_eq _ _ _ _ _ ws _ _ _ Hat), M_bind_assoc.
  mstep ltac:(apply lift_Ok). by rewrite M_bind_assoc.
Qed.

Lemma update_write_Ok c i t ws w :
  up_ctx_ok c → numbers_missing c = false → up_tr c = Some t → 0 <= i < up_num_query c →
  w_trs w !! t = Some ws →
  update_write c i w = Ok ((), upd_trs (<[t := ws ++ [update_row_write c i]]>) w).
Proof.
  intros [(ids & Hi & Li) Lr _ _] (rns & Hr)%numbers_there Ht Hidx Hw.
  specialize (Lr rns Hr). unfold update_write, update_row_write.
  rewrite Hi, Hr, Ht. mstep ltac:(apply lift_eq, arr0_get; lia).
  mstep ltac:(apply lift_eq, world_key_bytes).
  mstep ltac:(apply lift_eq, arr0_get; lia). rewrite htonl_bytes. by apply fdb_sync_set_Ok.
Qed.

Lemma update_do_writes_refines w a c t q ws :
  chain_at w a (CtxUpdate c) t q ws → up_ctx_ok c → numbers_missing c = false →
  update_do_writes a c w =
    exec_next a t q (NContinue false (CtxUpdate (up_set_phase c)) (ws ++ update_writes c)
      UpdateOnCommit (OpCommit t)) w.
Proof.
  intros Hat Hc Hm. pose proof Hat as [Hh Ht Hq Hw Hl]. cbn [ctx_tr ctx_req] in Ht, Hq.
  unfold update_do_writes. mstep ltac:(by eapply store_Ok).
  mstep ltac:(eapply for_each_writes with (f := update_row_write c);
    [intros i ws' w' Hi; apply elem_of_upto in Hi; intros Hw';
     apply (update_write_Ok (up_set_phase c));
     [by destruct Hc; split|done|done|pose proof (up_result_ok c Hc); cbn in *; lia|done]
    |exact Hw]).
  cbn [up_tr up_set_phase]. rewrite Ht.
  erewrite fdb_async_commit_eq by apply lookup_insert_eq. by rewrite exec_continue_eq.
Qed.
Lemma chain_at_seed w a c t q ws seed :
  chain_at w a c t q ws → chain_at (upd_globals (g_set_seed seed) w) a c t q ws.
Proof. by intros []. Qed.

Lemma g_set_seed_same w seed :
  g_seed (w_globals w) = Some seed → upd_globals (g_set_seed seed) w = w.
Proof.
  intros Hs. destruct w as [? ? ? ? ? ? ? [] ? ?]. unfold upd_globals, g_set_seed.
  cbn in *. by rewrite Hs.
Qed.

(** The draws of [update_on_read], and the array they leave. *)
Lemma update_draws c ans seed (w : world) rns n (k : option (list Z) → W ()) :
  up_random_numbers c = Some rns → 0 <= n < Z.of_nat (length rns) → up_num_result c = n →
  g_seed (w_globals w) = Some seed →
  (rns1 ← match future_value ans 4 with
          | None => id ← get_random_world_id; lift (ptr_set (up_random_numbers c) n id)
          | Some val => _ ← lift (memcpy_u32 val); mret (up_random_numbers c)
          end;
   id ← get_random_world_id;
   rns ← lift (ptr_set rns1 n (u32 (id - 1)));
   k rns) w =
  k (up_random_numbers (up_take c ans seed)) (upd_globals (g_set_seed (up_draw ans seed).2) w).
Proof.
  intros Hr Hn Hnum Hs. unfold up_take, up_draw. rewrite Hnum, Hr. cbn [arr_of default].
  destruct (future_value ans 4) as [v|] eqn:Hv.
  - apply future_value_length in Hv. unfold memcpy_u32, peek.
    rewrite (proj2 (Nat.leb_le _ _)), drop_0 by lia.
    mstep ltac:(done). mstep ltac:(by apply get_random_world_id_Ok).
    unfold ptr_set. cbn [from_option_or mbind outcome_bind]. by rewrite arr_set_Ok.
  - mstep ltac:(rewrite M_bind_run, (get_random_world_id_Ok w seed) by done;
      unfold ptr_set; cbn [from_option_or]; rewrite outcome_bind_Ok, arr_set_Ok by done;
      reflexivity).
    mstep ltac:(by apply get_random_world_id_Ok).
    unfold ptr_set. cbn [from_option_or].
    rewrite outcome_bind_Ok, arr_set_Ok by (by rewrite length_insert).
    mstep ltac:(done). cbn [up_random_numbers up_set_result].
    by rewrite list_insert_insert_eq.
Qed.

(** Without the array, the number drawn is stored through NULL. *)
Lemma update_draws_missing c ans seed (w : world) n (k : option (list Z) → W ()) :
  up_random_numbers c = None → g_seed (w_globals w) = Some seed →
  (rns1 ← match future_value ans 4 with
          | None => id ← get_random_world_id; lift (ptr_set (up_random_numbers c) n id)
          | Some val => _ ← lift (memcpy_u32 val); mret (up_random_numbers c)
          end;
   id ← get_random_world_id;
   rns ← lift (ptr_set rns1 n (u32 (id - 1)));
   k rns) w = Ub NullDeref.
Proof.
  intros Hr Hs. rewrite Hr. destruct (future_value ans 4) as [v|] eqn:Hv.
  - apply future_value_length in Hv. unfold memcpy_u32, peek.
    rewrite (proj2 (Nat.leb_le _ _)), drop_0 by lia.
    mstep ltac:(done). by mstep ltac:(by apply get_random_world_id_Ok).
  - by rewrite M_bind_run, M_bind_run, (get_random_world_id_Ok w seed).
Qed.

(** Every callback of the chain does what [up_next] and [up_seed] say. *)
Lemma update_on_read_refines w a c t q ws seed ans :
  chain_at w a (CtxUpdate c) t q ws → up_ctx_ok c → up_num_result c < up_num_query c →
  g_seed (w_globals w) = Some seed →
  update_on_read ans a w =
    exec_next a t q (up_next UpdateOnRead t c ws seed ans)
      (upd_globals (g_set_seed (up_seed UpdateOnRead seed ans)) w).
Proof.
  intros Hat Hc Hlt Hs. pose proof Hat as [Hh Ht Hq Hw Hl]. cbn [ctx_tr ctx_req] in Ht, Hq.
  unfold update_on_read, up_next, up_seed. mstep ltac:(by eapply load_Ok).
  destruct (negb (a_error ans =? 0)).
  { rewrite Hq, Ht, g_set_seed_same by done. unfold h2o_send_error_503.
    by rewrite (finish_eq _ _ _ _ _ ws _ Hat) by done. }
  destruct (numbers_missing c) eqn:Hm.
  { assert (up_random_numbers c = None) as Hr
      by (revert Hm; unfold numbers_missing; by destruct (up_random_numbers c)).
    by rewrite (update_draws_missing c ans seed w _ _ Hr). }
  destruct (numbers_there c Hm) as (rns & Hr). pose proof (up_rns_ok c Hc rns Hr) as Lr.
  pose proof (up_result_ok c Hc). pose proof (up_query_ok c Hc).
  destruct (up_take_ok c ans seed Hc Hm Hlt) as [Hc1 _].
  rewrite (update_draws c ans seed w rns _ _ Hr), wrap_u_id by (done || lia || range).
  set (w1 := upd_globals (g_set_seed (up_draw ans seed).2) w) in *.
  change (up_set_result c (up_num_result c + 1) (up_random_numbers (up_take c ans seed)))
    with (up_take c ans seed). cbv zeta.
  assert (chain_at w1 a (CtxUpdate c) t q ws) as Hat1 by (by apply chain_at_seed).
  pose proof (chain_at_stored _ _ _ (CtxUpdate (up_take c ans seed)) _ _ _ Hat1 Ht Hq) as Hat2.
  mstep ltac:(by eapply store_Ok).
  destruct (Z.ltb_spec (up_num_result (up_take c ans seed))
    (up_num_query (up_take c ans seed))) as [Hl'|Hl'].
  - destruct (up_ids_ok _ Hc1) as (ids & Hi & Li). pose proof (up_result_ok _ Hc1).
    rewrite Hi. mstep ltac:(apply lift_eq, arr0_get; lia).
    mstep ltac:(apply lift_eq, world_key_bytes). cbn [up_tr up_take up_set_result].
    rewrite Ht, (fdb_async_get_eq _ ws), (exec_store_eq _ _ _ _ _ _ ws) by done. done.
  - rewrite (update_do_writes_refines _ _ _ t q ws) by done. apply exec_next_stored.
Qed.

Lemma update_on_commit_refines w a c t q ws ans seed :
  chain_at w a (CtxUpdate c) t q ws → up_ctx_ok c → numbers_missing c = false →
  update_on_commit ans a w = exec_next a t q (up_next UpdateOnCommit t c ws seed ans) w.
Proof.
  intros Hat Hc (rns & Hr)%numbers_there.
  pose proof Hat as [Hh Ht Hq Hw Hl]. cbn [ctx_tr ctx_req] in Ht, Hq.
  destruct Hc as [(ids & Hi & Li) Lr _ Hn]. specialize (Lr rns Hr).
  unfold update_on_commit, up_next. mstep ltac:(by eapply load_Ok). rewrite Hi, Hr, Hq, Ht.
  rewrite <- (finish_json_eq _ _ _ _ _ ws _ _ _ Hat), !M_bind_run.
  destruct (yajl_gen_open w) as [[[] w']|]; [|done].
  by mstep ltac:(apply lift_eq, json_worlds_Ok; intros i Hin; apply elem_of_upto in Hin; lia).
Qed.
End refinement.
