(* ===== verification/Keys.v ===== *)
(** * The keyspace: every key the program builds, of all twelve tables

    Ten tables have a builder in src/tpcc_kv.c ([kv_key], Kv); the history key is built in
    place by src/handlers/tpcc_payment.c ([history_key], Payment) and the World key by
    src/handlers/tfb_handlers.c ([world_key], Tfb).  [code_key] is the bytes the program
    hands to FoundationDB for a row: they identify the row over the whole keyspace, and
    inside a table their byte order is that of the components. *)

From S2P Require Import Prelude Kv Values Ctx Runtime Chain Payment Tfb.

(** The key of a row, built in a buffer of [n] bytes (of its own size in the two places that
    build theirs in place). *)
Definition code_key (n : nat) (r : row) : outcome (list Z) :=
  match r with
  | RHistory w c_w c_d c t => history_key w c_w c_d c t
  | RWorld id => key_bytes (world_key (stack_buf 16) id)
  | _ => match kv_key (stack_buf n) r with Some out => key_bytes out | None => Ub Aborted end
  end.

(** What a row's key sorts by: the integer components; for the customer-name index warehouse
    and district, the two names as C strings (their NUL ends them) and the customer. *)
Definition key_comps (r : row) : list Z :=
  match r with
  | RCustName w d c_last c_first c => [w; d] ++ c_last ++ 0 :: c_first ++ [0; c]
  | _ => row_comps r
  end.

(** ** Lemmas *)

Lemma code_key_enc n r k : row_ok r → code_key n r = Ok k → k = enc_key r.
Proof.
  intros Hr Hk. assert (∀ out, kv_key (stack_buf n) r = Some out → key_bytes out = Ok k →
    k = enc_key r) as Hkv.
  { intros out E. rewrite (kv_key_built _ _ _ Hr E). unfold built.
    destruct (_ <=? _)%nat; [|done]. cbn. rewrite take_app_length. by intros [= <-]. }
  destruct r; cbn [code_key kv_key] in *; try (by eapply Hkv).
  - rewrite history_key_Ok in Hk. injection Hk as <-. destruct Hr as [Hr _].
    cbn [row_comps] in Hr. rewrite !Forall_cons in Hr. by rewrite wrap_u_id by naive_solver.
  - rewrite world_key_bytes in Hk. by injection Hk as <-.
Qed.

(** Names compare as strings that their NUL ends. *)
Lemma lex_lt_names l l' x y u v :
  c_string l → c_string l' → lex_lt x y = lex_lt u v →
  lex_lt (l ++ 0 :: x) (l' ++ 0 :: y) = lex_lt (l ++ 0 :: u) (l' ++ 0 :: v).
Proof.
  intros Hl. revert l'. induction Hl as [|b l Hb _ IH]; intros l' Hl' E;
    destruct Hl' as [|b' l' Hb' Hl']; cbn [app lex_lt].
  - by rewrite E.
  - by rewrite (proj2 (Z.ltb_lt 0 b')) by lia.
  - by rewrite (proj2 (Z.ltb_ge b 0)), (proj2 (Z.eqb_neq b 0)) by lia.
  - by rewrite (IH l').
Qed.

Lemma row_tail_order r1 r2 :
  row_ok r1 → row_ok r2 → row_table r1 = row_table r2 →
  lex_lt (row_tail r1) (row_tail r2) = lex_lt (key_comps r1) (key_comps r2).
Proof.
  intros [H1 N1] [H2 N2] Ht. destruct r1, r2; try discriminate Ht;
    try (by apply be32s_lex_lt).
  cbn [row_tail key_comps row_comps] in *. destruct N1 as [L1 F1], N2 as [L2 F2].
  rewrite !Forall_cons in H1, H2. destruct H1 as (W1 & D1 & C1 & _), H2 as (W2 & D2 & C2 & _).
  rewrite (lex_lt_app_same (be32s [w; d])), (lex_lt_app_same [w; d]) by done.
  rewrite be32s_lex_lt by (done || forall_list).
  rewrite (bool_decide_ext (be32s [w; d] = be32s [w0; d0]) ([w; d] = [w0; d0]))
    by (split; [apply be32s_inj; forall_list|by intros [= -> ->]]).
  f_equal. f_equal. apply lex_lt_names; [done|done|]. apply lex_lt_names; [done|done|].
  apply be32s_lex_lt; [forall_list|forall_list|done].
Qed.

(** ** Properties *)

(** C23: the keys the program builds identify their rows over the whole keyspace, all
    twelve tables: two rows get the same bytes just when they are the same row, so no two
    tables, and no two rows of a table, share a key. *)
Theorem code_keys_identify_rows (n : nat) (r1 r2 : row) (k1 k2 : list Z) :
  row_ok r1 → row_ok r2 → code_key n r1 = Ok k1 → code_key n r2 = Ok k2 →
  k1 = k2 ↔ r1 = r2.
Proof.
  intros H1 H2 ->%code_key_enc ->%code_key_enc; [|done|done].
  split; [by apply enc_key_inj|by intros ->].
Qed.

(** C24: inside a table, any of the twelve, the byte order of the keys the program builds is
    the lexicographic order of their components, the integers compared as numbers and the
    names of the customer index as C strings, so a range scan visits the rows in that
    order. *)
Theorem code_keys_keep_the_order (n : nat) (r1 r2 : row) (k1 k2 : list Z) :
  row_ok r1 → row_ok r2 → row_table r1 = row_table r2 →
  code_key n r1 = Ok k1 → code_key n r2 = Ok k2 →
  lex_lt k1 k2 = lex_lt (key_comps r1) (key_comps r2).
Proof.
  intros H1 H2 Ht ->%code_key_enc ->%code_key_enc; [|done|done].
  unfold enc_key. rewrite <- Ht, lex_lt_app. by apply row_tail_order.
Qed.

(** ** Witnesses *)

Lemma code_keys_identify_rows_witness :
  ∃ k1 k2 k3, code_key 64 (RWarehouse 5) = Ok k1 ∧ code_key 64 (RWorld 5) = Ok k2 ∧
    code_key 64 (RHistory 1 1 3 42 7) = Ok k3 ∧ k1 ≠ k2 ∧ k2 ≠ k3.
Proof.
  assert (∀ r, r ∈ [RWarehouse 5; RWorld 5; RHistory 1 1 3 42 7] → row_ok r) as Hok.
  { intros r Hr. rewrite !elem_of_cons, elem_of_nil in Hr.
    destruct Hr as [->|[->|[->|[]]]]; (split; [cbn [row_comps]; forall_list|done]). }
  do 3 eexists. do 3 (split; [vm_compute; reflexivity|]). split.
  - intros E. apply (code_keys_identify_rows 64 (RWarehouse 5) (RWorld 5)) in E;
      [discriminate E|apply Hok; set_solver|apply Hok; set_solver|vm_compute; reflexivity..].
  - intros E. apply (code_keys_identify_rows 64 (RWorld 5) (RHistory 1 1 3 42 7)) in E;
      [discriminate E|apply Hok; set_solver|apply Hok; set_solver|vm_compute; reflexivity..].
Defined.

(** "BA" before "BAR", whatever the first names and numbers. *)
Lemma code_keys_keep_the_order_witness :
  ∃ k1 k2, code_key 64 (RCustName 1 3 (bytes_of_string "BA") (bytes_of_string "Z") 9) = Ok k1 ∧
    code_key 64 (RCustName 1 3 (bytes_of_string "BAR") (bytes_of_string "A") 2) = Ok k2 ∧
    lex_lt k1 k2 = true.
Proof.
  do 2 eexists. split; [vm_compute; reflexivity|]. split; [vm_compute; reflexivity|].
  rewrite (code_keys_keep_the_order 64
    (RCustName 1 3 (bytes_of_string "BA") (bytes_of_string "Z") 9)
    (RCustName 1 3 (bytes_of_string "BAR") (bytes_of_string "A") 2));
    [vm_compute; reflexivity| | |reflexivity|vm_compute; reflexivity..];
    (split; [cbn [row_comps]; forall_list|split; vm_compute; forall_list]).
Defined.
