(* ===== verification/Handlers.v ===== *)
(** * Dispatch: src/handlers/tpcc_handlers.c, src/handlers/tpcc_harness.c, the
      registration part of src/handlers/tfb_handlers.c, and the event loop around them

    [on_req] is the handler h2o calls for an endpoint, [run_callback] the function a
    future's callback pointer stands for, and [step] one event of the process: a request
    arrives, a future becomes ready, a client goes away. *)

From S2P Require Import Prelude Random Query Ctx Runtime NewOrder Payment ReadTxns Tfb.

Inductive endpoint : Type :=
  | EpNewOrder | EpPayment | EpOrderStatus | EpDelivery | EpStockLevel | EpRun
  | EpPlaintext | EpJson | EpDb | EpQueries | EpUpdates | EpCachedWorlds.

#[export] Instance endpoint_eq_dec : EqDecision endpoint.
Proof. solve_decision. Defined.

(** The transaction types of the harness and what a draw selects. *)
Inductive txn : Type := TxNewOrder | TxPayment | TxOrderStatus | TxDelivery | TxStockLevel.

#[export] Instance txn_eq_dec : EqDecision txn.
Proof. solve_decision. Defined.

Definition harness_choice (r : Z) : txn :=
  if r <? NEW_ORDER_WEIGHT then TxNewOrder
  else if r <? NEW_ORDER_WEIGHT + PAYMENT_WEIGHT then TxPayment
  else if r <? NEW_ORDER_WEIGHT + PAYMENT_WEIGHT + ORDER_STATUS_WEIGHT then TxOrderStatus
  else if r <? NEW_ORDER_WEIGHT + PAYMENT_WEIGHT + ORDER_STATUS_WEIGHT + DELIVERY_WEIGHT
  then TxDelivery else TxStockLevel.

(** The routes registered on the host, in order. *)
Definition tpcc_routes : list (string * endpoint) :=
  [("/tpcc/new-order", EpNewOrder); ("/tpcc/payment", EpPayment);
   ("/tpcc/order-status", EpOrderStatus); ("/tpcc/delivery", EpDelivery);
   ("/tpcc/stock-level", EpStockLevel); ("/tpcc/run", EpRun)]%string.

Definition tfb_routes : list (string * endpoint) :=
  [("/plaintext", EpPlaintext); ("/json", EpJson); ("/db", EpDb);
   ("/queries", EpQueries); ("/updates", EpUpdates);
   ("/cached-worlds", EpCachedWorlds)]%string.

Inductive event : Type :=
  | EvRequest (ep : endpoint) (path : request_path)
  | EvFuture (f : nat) (ans : answer)
  | EvClose (req : nat).

Section handlers.
Context `{Env} `{RandR}.

Definition execute (tx : txn) (req fdb_state : ptr) (seed : Z) : W () :=
  match tx with
  | TxNewOrder => tpcc_new_order_execute req fdb_state seed
  | TxPayment => tpcc_payment_execute req fdb_state seed
  | TxOrderStatus => tpcc_order_status_execute req fdb_state seed
  | TxDelivery => tpcc_delivery_execute req fdb_state seed
  | TxStockLevel => tpcc_stock_level_execute req fdb_state seed
  end.

Definition tpcc_harness_dispatch (req fdb_state : ptr) (seed : Z) : W () :=
  '(r, seed) ← lift (get_random_number 99 seed);
  execute (harness_choice r) req fdb_state seed.

(** [g_handler_state.fdb_state] and [g_handler_state.seed++]. *)
Definition g_set_handler_seed (seed : Z) (g : globals) : globals :=
  mk_globals (g_handler_fdb_state g) seed (g_fdb_state g) (g_seed g) (g_world_cache g)
    (g_world_cache_loaded g).

Definition handler_state : W (ptr * Z) :=
  g ← gets w_globals;
  _ ← modify (upd_globals (g_set_handler_seed (u32 (g_handler_seed g + 1))));
  mret (g_handler_fdb_state g, g_handler_seed g).

Definition tpcc_new_order_handler (req : ptr) : W () :=
  '(fdb_state, seed) ← handler_state; execute TxNewOrder req fdb_state seed.
Definition tpcc_payment_handler (req : ptr) : W () :=
  '(fdb_state, seed) ← handler_state; execute TxPayment req fdb_state seed.
Definition tpcc_order_status_handler (req : ptr) : W () :=
  '(fdb_state, seed) ← handler_state; execute TxOrderStatus req fdb_state seed.
Definition tpcc_delivery_handler (req : ptr) : W () :=
  '(fdb_state, seed) ← handler_state; execute TxDelivery req fdb_state seed.
Definition tpcc_stock_level_handler (req : ptr) : W () :=
  '(fdb_state, seed) ← handler_state; execute TxStockLevel req fdb_state seed.
Definition tpcc_harness_handler (req : ptr) : W () :=
  '(fdb_state, seed) ← handler_state; tpcc_harness_dispatch req fdb_state seed.

Definition on_req (ep : endpoint) (path : request_path) (req : ptr) : W () :=
  match ep with
  | EpNewOrder => tpcc_new_order_handler req
  | EpPayment => tpcc_payment_handler req
  | EpOrderStatus => tpcc_order_status_handler req
  | EpDelivery => tpcc_delivery_handler req
  | EpStockLevel => tpcc_stock_level_handler req
  | EpRun => tpcc_harness_handler req
  | EpPlaintext => plaintext_handler req
  | EpJson => json_handler req
  | EpDb => db_handler req
  | EpQueries => queries_handler path req
  | EpUpdates => updates_handler path req
  | EpCachedWorlds => cached_worlds_handler path req
  end.

(** The function behind a callback pointer. *)
Definition run_callback (cb : callback) : answer → nat → W () :=
  match cb with
  | NoOnDistrictRead => no_on_district_read
  | NoOnCustomerRead => no_on_customer_read
  | NoOnStockRead => no_on_stock_read
  | NoOnCommit => no_on_commit
  | NoOnErrorRetry => no_on_error_retry
  | PayOnWarehouseRead => pay_on_warehouse_read
  | PayOnDistrictRead => pay_on_district_read
  | PayOnCustomerRead => pay_on_customer_read
  | PayOnCommit => pay_on_commit
  | PayOnErrorRetry => pay_on_error_retry
  | OsOnCommit => os_on_commit
  | DlOnCommit => dl_on_commit
  | SlOnRangeRead => sl_on_range_read
  | OnSingleQueryResult => on_single_query_result
  | MultiQueryNextCast => multi_query_next_cast
  | UpdateOnRead => update_on_read
  | UpdateOnCommit => update_on_commit
  end.

(** ** Initialization *)

Definition initialize_tpcc_handlers : W (list (string * endpoint)) :=
  now ← ext env_time;
  _ ← modify (upd_globals (g_set_handler_seed (u32 now)));
  mret tpcc_routes.

Definition initialize_tfb_handlers (fdb_state : ptr) (seed : option Z)
    : W (list (string * endpoint)) :=
  _ ← modify (upd_globals (initialize_tfb_globals fdb_state seed));
  mret tfb_routes.

(** ** Events *)

Definition step (ev : event) : W () :=
  match ev with
  | EvRequest ep path =>
      q ← fresh_id;
      _ ← modify (upd_reqs ({[q]} ∪.));
      on_req ep path (Some q)
  | EvFuture f ans => future_callback run_callback f ans
  | EvClose q => modify (upd_reqs (.∖ {[q]}))
  end.

Fixpoint steps (evs : list event) : W () :=
  match evs with
  | [] => mret ()
  | ev :: evs => _ ← step ev; steps evs
  end.
End handlers.
