(* ===== verification/Invariant.v ===== *)
(** * The invariant of the handlers' memory, and the callbacks that keep it

    [inv]: every pending future finds the context its callback expects, with a live
    transaction and request of its own and the promises of its chain ([no_chain_ok],
    ...); contexts do not share transactions or requests; no request is answered twice.
    [wp_future]: a ready future's callback keeps it, whatever the answer. *)

From S2P Require Import Prelude Kv Random Query Values Ctx Runtime Chain NewOrder Payment.
From S2P Require Import ReadTxns Tfb Handlers.

(** ** The invariant *)

Definition chain_ok (cb : callback) (t : nat) (c : ctx) (op : fdb_op) (ws : list write)
    : Prop :=
  match c with
  | CtxNewOrder c => no_ctx_ok c ∧ no_chain_ok cb t c op ws
  | CtxPayment c => pay_ctx_ok c ∧ pay_chain_ok cb t c op ws
  | CtxOrderStatus _ => cb = OsOnCommit ∧ op = OpCommit t ∧ ws = []
  | CtxDelivery _ => cb = DlOnCommit ∧ op = OpCommit t ∧ ws = []
  | CtxStockLevel c =>
      cb = SlOnRangeRead ∧ ws = [] ∧
      op = OpGetRange t (mk_key_selector (enc_key (RStock (sl_w_id c) 0)) false 0)
             (mk_key_selector (enc_key (RStock (sl_w_id c) 0xFFFFFFFF)) false 0)
  | CtxSingleQuery c =>
      cb = OnSingleQueryResult ∧ ws = [] ∧ op = OpGet t (enc_key (RWorld (sq_id c)))
  | CtxMultiQuery c => cb = MultiQueryNextCast ∧ ws = [] ∧ ∃ key, op = OpGet t key
  | CtxUpdate c => up_ctx_ok c ∧ up_chain_ok cb t c op ws
  end.

(** The adapter state the handlers are given is initialized. *)
Definition threads_ok (w : world) : Prop :=
  ∃ s ts, g_handler_fdb_state (w_globals w) = Some s ∧
    g_fdb_state (w_globals w) = Some s ∧ w_threads w !! s = Some ts ∧ ts_db ts = true.

(** [skip]: the future whose callback is running. *)
Record inv (skip : option nat) (w : world) : Prop := {
  inv_chain : ∀ f p, w_futures w !! f = Some p → skip ≠ Some f →
    ∃ c t q ws, chain_at w (f_ctx p) c t q ws ∧ op_tr (f_op p) = t ∧
      chain_ok (f_cb p) t c (f_op p) ws;
  inv_one : ∀ f1 f2 p1 p2, w_futures w !! f1 = Some p1 → w_futures w !! f2 = Some p2 →
    skip ≠ Some f1 → skip ≠ Some f2 → f_ctx p1 = f_ctx p2 → f1 = f2;
  inv_tr : ∀ a1 a2 c1 c2 t, w_heap w !! a1 = Some c1 → w_heap w !! a2 = Some c2 →
    ctx_tr c1 = Some t → ctx_tr c2 = Some t → a1 = a2;
  inv_req : ∀ a1 a2 c1 c2 q, w_heap w !! a1 = Some c1 → w_heap w !! a2 = Some c2 →
    ctx_req c1 = Some q → ctx_req c2 = Some q → a1 = a2;
  inv_lt : ∀ a c i, w_heap w !! a = Some c → ctx_tr c = Some i ∨ ctx_req c = Some i →
    (i < w_next w)%nat;
  inv_fresh : ∀ i, (w_next w <= i)%nat → w_heap w !! i = None ∧ w_trs w !! i = None ∧
    w_futures w !! i = None ∧ (i ∉ w_reqs w) ∧ (i ∉ (w_responses w).*1);
  inv_resp : NoDup (w_responses w).*1;
  inv_live : ∀ q, q ∈ (w_responses w).*1 → (q ∉ w_reqs w);
  inv_seed : is_Some (g_seed (w_globals w));
  inv_threads : threads_ok w;
}.

(** ** Preservation, one update of the world at a time *)

Section preservation.
Context `{Env}.
Implicit Types (w : world) (sk : option nat).

(** No running chain but the skipped one is on [a]. *)
Definition alone (sk : option nat) (a : nat) (w : world) : Prop :=
  ∀ g p, w_futures w !! g = Some p → sk ≠ Some g → f_ctx p ≠ a.

(** Another chain's view of the world is not touched by changes to [a], [t] and [q]. *)
Lemma chain_at_other w w' a a' c c' t t' q q' ws ws' :
  chain_at w a c t q ws → chain_at w a' c' t' q' ws' → a' ≠ a →
  (∀ i, i ≠ a → w_heap w' !! i = w_heap w !! i) →
  (∀ i, i ≠ t → w_trs w' !! i = w_trs w !! i) →
  (∀ i, i ≠ q → i ∈ w_reqs w → i ∈ w_reqs w') →
  (∀ a1 a2 c1 c2 t, w_heap w !! a1 = Some c1 → w_heap w !! a2 = Some c2 →
    ctx_tr c1 = Some t → ctx_tr c2 = Some t → a1 = a2) →
  (∀ a1 a2 c1 c2 q, w_heap w !! a1 = Some c1 → w_heap w !! a2 = Some c2 →
    ctx_req c1 = Some q → ctx_req c2 = Some q → a1 = a2) →
  chain_at w' a' c' t' q' ws'.
Proof.
  intros [Hh Ht Hq Hw Hl] [Hh' Ht' Hq' Hw' Hl'] Hne Eh Et Er Htr Hreq. split; try done.
  - by rewrite Eh.
  - rewrite Et; [done|]. intros ->. by apply Hne, (Htr a' a c' c t).
  - apply Er; [|done]. intros ->. by apply Hne, (Hreq a' a c' c q).
Qed.

Lemma inv_update sk w a c c' t q ws ws' :
  inv sk w → chain_at w a c t q ws → alone sk a w →
  ctx_tr c' = Some t → ctx_req c' = Some q →
  inv sk (upd_trs (<[t := ws']>) (upd_heap (<[a := c']>) w)).
Proof.
  intros Hinv Hat Hal Ht' Hq'. pose proof Hat as [Hh Ht Hq Hw Hl].
  assert (∀ i x, <[a := c']> (w_heap w) !! i = Some x →
    ∃ x0, w_heap w !! i = Some x0 ∧ ctx_tr x0 = ctx_tr x ∧ ctx_req x0 = ctx_req x) as Hheap.
  { intros i x. rewrite lookup_insert. case_decide; intros Hx; simplify_eq.
    - exists c. by rewrite Ht', Hq'.
    - by exists x. }
  split; cbn [w_heap w_trs w_futures w_reqs w_responses w_globals w_next upd_trs upd_heap].
  - intros f p Hp Hsk. destruct (inv_chain _ _ Hinv f p Hp Hsk) as (d & t2 & q2 & ws2 & Hd & ?).
    exists d, t2, q2, ws2. split; [|done].
    eapply (chain_at_other w _ a _ c _ t _ q); [done|done|by eapply Hal|..|
      by apply (inv_tr _ _ Hinv)|by apply (inv_req _ _ Hinv)]; cbn.
    + intros i Hi. by rewrite lookup_insert_ne.
    + intros i Hi. by rewrite lookup_insert_ne.
    + done.
  - apply (inv_one _ _ Hinv).
  - intros a1 a2 c1 c2 t0 H1 H2 E1 E2. apply Hheap in H1 as (x1 & H1 & F1 & _).
    apply Hheap in H2 as (x2 & H2 & F2 & _). apply (inv_tr _ _ Hinv a1 a2 x1 x2 t0); congruence.
  - intros a1 a2 c1 c2 t0 H1 H2 E1 E2. apply Hheap in H1 as (x1 & H1 & _ & F1).
    apply Hheap in H2 as (x2 & H2 & _ & F2). apply (inv_req _ _ Hinv a1 a2 x1 x2 t0); congruence.
  - intros b d i Hd Hi. apply Hheap in Hd as (x & Hx & F1 & F2).
    apply (inv_lt _ _ Hinv b x); [done|]. by rewrite F1, F2.
  - intros i Hi. destruct (inv_fresh _ _ Hinv i Hi) as (F1 & F2 & F3 & F4 & F5).
    rewrite (lookup_insert_ne (w_heap w)), (lookup_insert_ne (w_trs w))
      by (intros ->; simplify_eq). done.
  - apply (inv_resp _ _ Hinv).
  - apply (inv_live _ _ Hinv).
  - apply (inv_seed _ _ Hinv).
  - apply (inv_threads _ _ Hinv).
Qed.
(** Changes outside the memory the invariant speaks of. *)
Record quiet w w' : Prop := {
  q_heap : w_heap w' = w_heap w;
  q_trs : w_trs w' = w_trs w;
  q_futures : w_futures w' = w_futures w;
  q_reqs : w_reqs w' = w_reqs w;
  q_responses : w_responses w' = w_responses w;
  q_threads : w_threads w' = w_threads w;
  q_next : w_next w' = w_next w;
  q_fdb : g_fdb_state (w_globals w') = g_fdb_state (w_globals w);
  q_handler : g_handler_fdb_state (w_globals w') = g_handler_fdb_state (w_globals w);
  q_seed : is_Some (g_seed (w_globals w)) → is_Some (g_seed (w_globals w'));
}.

#[export] Instance quiet_refl : Reflexive quiet.
Proof. by split. Qed.
#[export] Instance quiet_trans : Transitive quiet.
Proof. intros x y z [] []. split; try (by etrans). naive_solver. Qed.

Lemma quiet_tick w : quiet w (bump_tick w).
Proof. by split. Qed.

Lemma inv_quiet sk w w' : quiet w w' → inv sk w → inv sk w'.
Proof.
  intros [Eh Et Ef Eq Er Eth En Eg1 Eg2 Es] [H1 H2 H3 H4 H5 H6 H7 H8 H9 H10].
  split; rewrite ?Eh, ?Et, ?Ef, ?Eq, ?Er, ?En; try done; [|by apply Es|].
  - intros f p Hp Hsk. destruct (H1 f p Hp Hsk) as (c & t & q & ws & [] & ?).
    exists c, t, q, ws. split; [|done]. split; rewrite ?Eh, ?Et, ?Eq; done.
  - unfold threads_ok. by rewrite Eg1, Eg2, Eth.
Qed.

Lemma chain_at_quiet w w' a c t q ws :
  quiet w w' → chain_at w a c t q ws → chain_at w' a c t q ws.
Proof. intros [Eh Et _ Eq _ _ _ _ _ _] []. split; rewrite ?Eh, ?Et, ?Eq; done. Qed.

Lemma inv_bump sk w : inv sk w → inv sk (bump_next w).
Proof.
  intros [H1 H2 H3 H4 H5 H6 H7 H8 H9 H10].
  split; cbn [w_heap w_trs w_futures w_reqs w_responses w_globals w_next bump_next]; try done.
  - intros f p Hp Hsk. destruct (H1 f p Hp Hsk) as (c & t & q & ws & [] & ?).
    by exists c, t, q, ws.
  - intros a c i Ha Hi. specialize (H5 a c i Ha Hi). lia.
  - intros i Hi. apply H6. lia.
Qed.

Lemma inv_new_future sk w a c t q ws cb op :
  inv sk w → chain_at w a c t q ws → alone sk a w → op_tr op = t →
  chain_ok cb t c op ws →
  inv sk (upd_futures (<[w_next w := mk_fcb op cb a]>) (bump_next w)).
Proof.
  intros Hinv Hat Hal Hop Hok. pose proof (inv_bump _ _ Hinv) as Hinv'.
  destruct (inv_fresh _ _ Hinv (w_next w)) as (_ & _ & Hfresh & _); [done|].
  split; cbn [w_heap w_trs w_futures w_reqs w_responses w_globals w_next upd_futures];
    try apply Hinv'; cbn [bump_next w_futures w_next].
  - intros f p. rewrite lookup_insert. case_decide as Hf; intros Hp Hsk; simplify_eq.
    + exists c, (op_tr op), q, ws. split; [|done]. by destruct Hat.
    + destruct (inv_chain _ _ Hinv f p Hp Hsk) as (d & t & q' & ws' & [] & ?).
      by exists d, t, q', ws'.
  - intros f1 f2 p1 p2. rewrite !lookup_insert.
    repeat case_decide; intros G1 G2 Hs1 Hs2 Heq; simplify_eq; try done.
    + exfalso. by eapply (Hal f2).
    + exfalso. by eapply (Hal f1).
    + by eapply (inv_one _ _ Hinv f1 f2).
  - intros i Hi. destruct (inv_fresh _ _ Hinv i) as (F1 & F2 & F3 & F4 & F5); [lia|].
    rewrite lookup_insert_ne by lia. done.
Qed.

(** Submitting a future either adds it, or (when the environment fails) does not. *)
Lemma submit_cases op cb a z w :
  ∃ w', submit_or_fail op cb a z w = Ok ((), w') ∧
    w_commits w' = w_commits w ∧ w_globals w' = w_globals w ∧
    ((∃ w1, quiet w w1 ∧
        w' = upd_futures (<[w_next w := mk_fcb op cb a]>) (bump_next w1)) ∨
     (quiet w w' ∧ ¬ EnvOk)).
Proof.
  unfold submit_or_fail, submit_future, ext, gets, modify, fresh_id, mbind, M_bind, mret, M_ret.
  assert (∀ n, quiet w (Nat.iter n bump_tick w)) as Htick.
  { induction n as [|n IH]; [done|]. cbn. etrans; [done|]. apply quiet_tick. }
  destruct (env_future _) eqn:E1; cbn [negb].
  2: { eexists. do 3 (split; [done|]). right. split; [apply (Htick 1%nat)|].
       intros ?. by rewrite future_ok in E1. }
  destruct (env_malloc _) eqn:E2; cbn [negb].
  2: { eexists. do 3 (split; [done|]). right. split; [apply (Htick 2%nat)|].
       intros ?. by rewrite malloc_ok in E2. }
  destruct (Z.eqb_spec (env_set_callback (w_tick (Nat.iter 2 bump_tick w))) 0) as [E3|E3];
    cbn in E3.
  - eexists. cbn. rewrite E3. do 3 (split; [done|]). left.
    by exists (Nat.iter 3 bump_tick w).
  - eexists. cbn. rewrite (proj2 (Z.eqb_neq _ _) E3). do 3 (split; [done|]). right.
    split; [apply (Htick 3%nat)|]. intros ?. by rewrite set_callback_ok in E3.
Qed.

Lemma wp_submit E sk w a c t q ws cb op z :
  inv sk w → chain_at w a c t q ws → alone sk a w → op_tr op = t →
  chain_ok cb t c op ws →
  wp E (submit_or_fail op cb a z) (λ _, inv sk) w.
Proof.
  intros Hinv Hat Hal Hop Hok. unfold wp.
  destruct (submit_cases op cb a z w) as (w' & -> & _ & _ & [(w1 & Hq & ->)|[Hq _]]);
    [|by eapply inv_quiet].
  rewrite <- (q_next _ _ Hq). apply (inv_new_future _ _ a c t q ws); try done.
  - by eapply inv_quiet.
  - by eapply chain_at_quiet.
  - intros g p. rewrite (q_futures _ _ Hq). apply Hal.
Qed.

(** The end of a chain. *)
Lemma inv_finish sk w a c t q ws r :
  inv sk w → chain_at w a c t q ws → alone sk a w →
  inv sk (upd_heap (delete a) (upd_trs (delete t)
    (add_response (q, r) (upd_reqs (.∖ {[q]}) w)))).
Proof.
  intros Hinv Hat Hal. pose proof Hat as [Hh Ht Hq Hw Hl].
  split; cbn [w_heap w_trs w_futures w_reqs w_responses w_globals w_next upd_heap upd_trs
    add_response upd_reqs].
  - intros f p Hp Hsk. destruct (inv_chain _ _ Hinv f p Hp Hsk) as (d & t2 & q2 & ws2 & Hd & ?).
    exists d, t2, q2, ws2. split; [|done].
    eapply (chain_at_other w _ a _ c _ t _ q); [done|done|by eapply Hal|..|
      by apply (inv_tr _ _ Hinv)|by apply (inv_req _ _ Hinv)]; cbn.
    + intros i Hi. by rewrite lookup_delete_ne.
    + intros i Hi. by rewrite lookup_delete_ne.
    + set_solver.
  - apply (inv_one _ _ Hinv).
  - intros a1 a2 c1 c2 t0 H1 H2. apply lookup_delete_Some in H1 as [_ H1].
    apply lookup_delete_Some in H2 as [_ H2]. by apply (inv_tr _ _ Hinv a1 a2 c1 c2).
  - intros a1 a2 c1 c2 t0 H1 H2. apply lookup_delete_Some in H1 as [_ H1].
    apply lookup_delete_Some in H2 as [_ H2]. by apply (inv_req _ _ Hinv a1 a2 c1 c2).
  - intros b d i Hd. apply lookup_delete_Some in Hd as [_ Hd]. by apply (inv_lt _ _ Hinv b d).
  - intros i Hi. destruct (inv_fresh _ _ Hinv i Hi) as (F1 & F2 & F3 & F4 & F5).
    assert (i ≠ q) by (by intros ->). rewrite fmap_app. cbn.
    split_and!; [by apply lookup_delete_None; right|by apply lookup_delete_None; right|done
      |set_solver|set_solver].
  - rewrite fmap_app. cbn. apply NoDup_app. split; [apply (inv_resp _ _ Hinv)|].
    split; [|by apply NoDup_singleton]. intros i Hi ->%list_elem_of_singleton.
    by apply (inv_live _ _ Hinv q).
  - intros i. rewrite fmap_app. cbn. intros [Hi|Hi]%elem_of_app.
    + pose proof (inv_live _ _ Hinv i Hi). set_solver.
    + apply list_elem_of_singleton in Hi as ->. set_solver.
  - apply (inv_seed _ _ Hinv).
  - apply (inv_threads _ _ Hinv).
Qed.

Lemma inv_skip f w : inv None w → inv (Some f) w.
Proof.
  intros [H1 H2 H3 H4 H5 H6 H7 H8 H9 H10]. split; try done.
  - intros g p Hp _. by apply (H1 g p).
  - intros f1 f2 p1 p2 Hf1 Hf2 _ _. by apply (H2 f1 f2 p1 p2).
Qed.

Lemma inv_done f w : inv (Some f) w → inv None (upd_futures (delete f) w).
Proof.
  intros [H1 H2 H3 H4 H5 H6 H7 H8 H9 H10].
  split; cbn [w_heap w_trs w_futures w_reqs w_responses w_globals w_next upd_futures]; try done.
  - intros g p Hp _. apply lookup_delete_Some in Hp as [Hne Hp].
    destruct (H1 g p Hp) as (c & t & q & ws & [] & ?); [naive_solver|]. by exists c, t, q, ws.
  - intros f1 f2 p1 p2 Hf1 Hf2 _ _. apply lookup_delete_Some in Hf1 as [? ?].
    apply lookup_delete_Some in Hf2 as [? ?]. apply (H2 f1 f2 p1 p2); naive_solver.
  - intros i Hi. destruct (H6 i Hi) as (F1 & F2 & F3 & F4 & F5).
    split_and!; try done. by apply lookup_delete_None; right.
Qed.
End preservation.

(** ** Running a callback *)

(** The callbacks that answer with JSON, and the failure none of them looks for. *)
Definition answers_json (cb : callback) : bool :=
  match cb with
  | NoOnCommit | PayOnCommit | OsOnCommit | DlOnCommit | SlOnRangeRead
  | OnSingleQueryResult | UpdateOnCommit => true
  | _ => false
  end.
Definition yajl_fails `{Env} : Prop := ∃ t, env_yajl t = false.

Lemma env_yajl_ok `{Env} : EnvOk → ¬ yajl_fails.
Proof. intros HE [t Ht]. by rewrite yajl_ok in Ht. Qed.

(** The undefined behaviour a callback can show: that of its own computation, and the
    unchecked generator. *)
Definition chain_ub (cb : callback) (u : ub) : Prop :=
  match cb with
  | NoOnCustomerRead | NoOnStockRead | PayOnCustomerRead => u = SignedOverflow
  | MultiQueryNextCast => u = TypeConfusion
  | _ => False
  end.
(** An /updates request whose array of numbers was not allocated. *)
Definition missing_numbers (c : ctx) : bool :=
  match c with CtxUpdate c => numbers_missing c | _ => false end.
Definition callback_ub `{Env} (cb : callback) (c : ctx) (u : ub) : Prop :=
  chain_ub cb u ∨ (answers_json cb = true ∧ yajl_fails ∧ u = NullDeref) ∨
  (cb = UpdateOnRead ∧ missing_numbers c = true ∧ u = NullDeref).

(** What the next step of a chain must promise. *)
Definition next_ok `{Env} (E : ub → Prop) (t q : nat) (n : next) : Prop :=
  match n with
  | NContinue _ c ws cb op =>
      ctx_tr c = Some t ∧ ctx_req c = Some q ∧ op_tr op = t ∧ chain_ok cb t c op ws
  | NFinish r => in_json r = true → yajl_fails → E NullDeref
  | NUndef u => E u
  end.

Lemma chain_ok_op_tr cb t c op ws : chain_ok cb t c op ws → op_tr op = t.
Proof.
  destruct c; cbn; try naive_solver.
  - intros [_ Hok]. destruct cb; cbn in Hok; naive_solver.
  - intros [_ Hok]. destruct cb; cbn in Hok; naive_solver.
  - intros [_ Hok]. destruct cb; cbn in Hok; naive_solver.
Qed.

Lemma restock_ub q o u : restock q o = Ub u → u = SignedOverflow.
Proof.
  unfold restock, chk_s. destruct (fits_s 32 (q - o)); cbn [mbind outcome_bind]; [|by intros [= <-]].
  destruct (_ <? 10); [|done]. destruct (fits_s 32 _); [done|by intros [= <-]].
Qed.

Lemma no_next_ub cb t c ws now ans u :
  is_Some (no_callback (H := env_ok 0) cb) → no_next cb t c ws now ans = NUndef u →
  chain_ub cb u.
Proof.
  intros [run Hrun] Hn. unfold no_next, no_start, no_fail in Hn.
  destruct cb; try done; destruct (a_error ans =? 0); try done; cbn [negb] in Hn;
    destruct (read_row _ ans); try done; cbn.
  - destruct (_ <=? _); [|done]. destruct (fits_s 32 _); by simplify_eq.
  - destruct (restock _ _) as [qty|v] eqn:Hr.
    + destruct (_ <=? _); [|done]. destruct (fits_s 32 _); by simplify_eq.
    + apply restock_ub in Hr. by simplify_eq.
Qed.

Lemma pay_next_ub `{RandR} cb t c ws now ans u :
  is_Some (pay_callback (H := env_ok 0) cb) → pay_next cb t c ws now ans = NUndef u →
  chain_ub cb u.
Proof.
  intros [run Hrun] Hn. unfold pay_next, pay_fail in Hn.
  destruct cb; try done; destruct (a_error ans =? 0); try done; cbn [negb] in Hn;
    destruct (read_row _ ans); try done; cbn.
  cbv zeta in Hn. destruct (payment_fits _ _); by simplify_eq.
Qed.

Section callbacks.
Context `{Env} `{RandR}.

(** The end of a chain: its response, or the generator that was not allocated. *)
Lemma exec_finish_cases a t q r w :
  (exec_next a t q (NFinish r) w = Ub NullDeref ∧ in_json r = true ∧ yajl_fails) ∨
  ∃ w1, exec_next a t q (NFinish r) w = Ok ((), upd_heap (delete a) (upd_trs (delete t)
      (add_response (q, r) (upd_reqs (.∖ {[q]}) w1)))) ∧
    quiet w w1 ∧ w_commits w1 = w_commits w ∧ w_globals w1 = w_globals w.
Proof.
  cbn [exec_next]. rewrite M_bind_run. destruct (in_json r) eqn:Hr.
  - rewrite yajl_gen_open_run. destruct (env_yajl _) eqn:Hy.
    + right. exists (bump_tick w). split; [done|]. split; [apply quiet_tick|done].
    + left. split; [done|]. split; [done|by eexists].
  - right. by exists w.
Qed.

Lemma wp_exec_next E f w a c t q ws n :
  inv (Some f) w → chain_at w a c t q ws → alone (Some f) a w → next_ok E t q n →
  wp E (exec_next a t q n) (λ _, inv (Some f)) w.
Proof.
  intros Hinv Hat Hal Hn. destruct n as [timed c' ws' cb op|r|u]; [| |done].
  2: { unfold wp. destruct (exec_finish_cases a t q r w) as [(-> & Hr & Hy)|(w1 & -> & Hqu & _)];
         [by apply Hn|].
       eapply inv_finish; [by eapply inv_quiet|by eapply chain_at_quiet|].
       intros g p. rewrite (q_futures _ _ Hqu). apply Hal. }
  destruct Hn as (Ht' & Hq' & Hop & Hok).
  cut (∀ w1, quiet w w1 → wp E (submit_or_fail op cb a (-1)) (λ _, inv (Some f))
    (upd_trs (<[t := ws']>) (upd_heap (<[a := c']>) w1))).
  { intros Hcut. destruct timed; [apply (Hcut (bump_tick w)), quiet_tick|by apply Hcut]. }
  intros w1 Hw1. pose proof (inv_quiet _ _ _ Hw1 Hinv) as Hinv1.
  pose proof (chain_at_quiet _ _ _ _ _ _ _ Hw1 Hat) as Hat1.
  assert (alone (Some f) a w1) as Hal1.
  { intros g p. rewrite (q_futures _ _ Hw1). apply Hal. }
  pose proof (inv_update _ _ _ _ c' _ _ _ ws' Hinv1 Hat1 Hal1 Ht' Hq') as Hinv2.
  destruct Hat1 as [Hh Ht Hq Hws Hl].
  apply (wp_submit E (Some f) _ a c' t q ws'); try done.
  split; try done; apply lookup_insert_eq.
Qed.

(** The answers that say a NewOrder or a Payment went through. *)
Definition transaction_ok (r : response) : bool :=
  match r with
  | RInline _ _ (JMapOpen :: _ :: _ :: JString key :: _) =>
      bool_decide (key = bytes_of_string "o_id") || bool_decide (key = bytes_of_string "amount")
  | _ => false
  end.

(** The decision of the chain's handler: [no_next], [pay_next], ... *)
Definition chain_next (now : Z) (cb : callback) (t : nat) (c : ctx) (ws : list write)
    (ans : answer) (n : next) : Prop :=
  match c with
  | CtxNewOrder c => n = no_next cb t c ws now ans
  | CtxPayment c => n = pay_next cb t c ws now ans
  | CtxUpdate c => ∃ seed, n = up_next cb t c ws seed ans
  | CtxMultiQuery _ => n = NUndef TypeConfusion
  | _ => ∃ r, n = NFinish r ∧ transaction_ok r = false
  end.

(** The decision itself, as a function: [now] is the clock, [seed] the World handlers'. *)
Definition decision (now seed : Z) (cb : callback) (t : nat) (c : ctx) (ws : list write)
    (ans : answer) : next :=
  match c with
  | CtxNewOrder c => no_next cb t c ws now ans
  | CtxPayment c => pay_next cb t c ws now ans
  | CtxOrderStatus _ => NFinish (RInline None None order_status_body)
  | CtxDelivery c => NFinish (RInline None None (delivery_body c))
  | CtxStockLevel c => sl_next c ans
  | CtxSingleQuery c => sq_next c ans
  | CtxMultiQuery _ => NUndef TypeConfusion
  | CtxUpdate c => up_next cb t c ws seed ans
  end.

(** A StockLevel future counts its rows, an error aside. *)
Lemma sl_next_ends t b e c ans :
  answer_ok (OpGetRange t b e) ans → ∃ r, sl_next c ans = NFinish r ∧ transaction_ok r = false.
Proof.
  intros Hans. unfold sl_next. destruct (Z.eqb_spec (a_error ans) 0) as [Herr|]; [|by eexists].
  destruct (Hans Herr) as [-> Hlen]. cbn [negb Z.eqb]. rewrite count_below_eq by lia. by eexists.
Qed.

Lemma sq_next_ends c ans : ∃ r, sq_next c ans = NFinish r ∧ transaction_ok r = false.
Proof. unfold sq_next. destruct (negb _); [by eexists|]. destruct (future_value ans 4); by eexists. Qed.

Lemma decision_chain_next now seed cb t c op ws ans :
  chain_ok cb t c op ws → answer_ok op ans →
  chain_next now cb t c (effect_ws op ans ws) ans
    (decision now seed cb t c (effect_ws op ans ws) ans).
Proof.
  intros Hok Hans. destruct c; cbn [chain_next decision]; try done; try (by eexists).
  - destruct Hok as (_ & _ & ->). by eapply sl_next_ends.
  - apply sq_next_ends.
Qed.

(** The callbacks of the two long chains are the ones their handlers are proved for. *)
Lemma no_callback_run cb t c op ws :
  no_chain_ok cb t c op ws → no_callback cb = Some (run_callback cb).
Proof. by destruct cb. Qed.

Lemma pay_callback_run cb t c op ws :
  pay_chain_ok cb t c op ws → pay_callback cb = Some (run_callback cb).
Proof. by destruct cb. Qed.

(** What a decision promises: to go on with the same transaction and request and with what
    its future expects, to end, or one of the undefined behaviours of its callback. *)
Lemma finish_ok cb c t q r :
  (in_json r = true → answers_json cb = true) → next_ok (callback_ub cb c) t q (NFinish r).
Proof. intros Hr Hj Hy. right; left. by split; [apply Hr|]. Qed.

Lemma no_next_json cb t c ws now ans r :
  no_next cb t c ws now ans = NFinish r → in_json r = true → answers_json cb = true.
Proof. unfold no_next, no_start, no_fail. intros Hn Hr. by repeat case_match; simplify_eq. Qed.

Lemma pay_next_json cb t c ws now ans r :
  pay_next cb t c ws now ans = NFinish r → in_json r = true → answers_json cb = true.
Proof. unfold pay_next, pay_fail. intros Hn Hr. by repeat case_match; simplify_eq. Qed.

Lemma decision_ok now seed cb t q c op ws ans :
  chain_ok cb t c op ws → answer_ok op ans → ctx_tr c = Some t → ctx_req c = Some q →
  next_ok (callback_ub cb c) t q (decision now seed cb t c (effect_ws op ans ws) ans).
Proof.
  intros Hok Hans Ht Hq.
  destruct c as [c|c|c|c|c|c|c|c]; cbn [chain_ok decision ctx_tr ctx_req] in *.
  - destruct Hok as [Hc Hok].
    destruct (no_next _ _ _ _ _ _) as [timed c' ws' cb' op'|r|u] eqn:Hn.
    + destruct (no_next_ok _ _ _ _ _ _ _ _ _ _ _ _ Hc Hok Hn) as (n & -> & Hn' & E1 & E2 & Hok').
      cbn in *. split_and!; [congruence|congruence|..|done|done].
      by eapply (chain_ok_op_tr _ _ (CtxNewOrder n)).
    + apply finish_ok. by eapply no_next_json.
    + left. eapply no_next_ub; [|done]. destruct cb; try done; by eexists.
  - destruct Hok as [Hc Hok].
    destruct (pay_next _ _ _ _ _ _) as [timed c' ws' cb' op'|r|u] eqn:Hn.
    + destruct (pay_next_ok _ _ _ _ _ _ _ _ _ _ _ _ Hc Hok Hn) as (n & -> & Hn' & E1 & E2 & Hok').
      cbn in *. split_and!; [congruence|congruence|..|done|done].
      by eapply (chain_ok_op_tr _ _ (CtxPayment n)).
    + apply finish_ok. by eapply pay_next_json.
    + left. eapply pay_next_ub; [|done]. destruct cb; try done; by eexists.
  - destruct Hok as (-> & _). by apply finish_ok.
  - destruct Hok as (-> & _). by apply finish_ok.
  - destruct Hok as (-> & -> & ->). destruct (sl_next_ends _ _ _ c ans Hans) as (r & -> & _).
    by apply finish_ok.
  - destruct Hok as (-> & _). destruct (sq_next_ends c ans) as (r & -> & _). by apply finish_ok.
  - destruct Hok as (-> & _). by left.
  - destruct Hok as [Hc Hok]. destruct cb; try done; [|by apply finish_ok].
    destruct (up_next _ _ _ _ _ _) as [timed c' ws' cb' op'|r|u] eqn:Hn.
    + destruct (up_next_ok _ _ _ _ _ _ _ _ _ _ _ _ Hc Hok Hn) as (n & -> & Hn' & E1 & E2 & Hok').
      cbn in *. split_and!; [congruence|congruence|..|done|done].
      by eapply (chain_ok_op_tr _ _ (CtxUpdate n)).
    + apply finish_ok. unfold up_next in Hn. by repeat case_match; simplify_eq.
    + right; right. unfold up_next in Hn. destruct (negb _); [done|].
      cbn [missing_numbers]. destruct (numbers_missing c); [by simplify_eq|].
      by repeat case_match; simplify_eq.
Qed.

(** Every callback takes the step its chain decides. *)
Lemma run_callback_step cb w a c t q op ws ans seed :
  g_seed (w_globals w) = Some seed → chain_ok cb t c op ws → answer_ok op ans →
  chain_at w a c t q (effect_ws op ans ws) →
  let n := decision (env_time (w_tick w)) seed cb t c (effect_ws op ans ws) ans in
  ∃ w', run_callback cb ans a w = exec_next a t q n w' ∧
    (quiet w w' ∧ w_commits w' = w_commits w) ∧ next_ok (callback_ub cb c) t q n.
Proof.
  intros Hseed Hok Hans Hat. pose proof Hat as [_ Ht Hq _ _]. cbn zeta.
  cut (∃ w', run_callback cb ans a w =
      exec_next a t q (decision (env_time (w_tick w)) seed cb t c (effect_ws op ans ws) ans) w' ∧
    (quiet w w' ∧ w_commits w' = w_commits w)).
  { intros (w' & Hrun & Hw'). exists w'. split; [done|]. split; [done|].
    by apply decision_ok. }
  destruct c as [c|c|c|c|c|c|c|c]; cbn [chain_ok decision] in *.
  - destruct Hok as [Hc Hok]. pose proof (no_callback_run _ _ _ _ _ Hok) as Hrun.
    exists w. split; [|done]. eapply no_callback_refines; [done|done|done|]. intros ->. apply Hok.
  - destruct Hok as [Hc Hok]. pose proof (pay_callback_run _ _ _ _ _ Hok) as Hrun.
    exists w. split; [|done]. by eapply pay_callback_refines.
  - destruct Hok as (-> & -> & ->). exists w. split; [by eapply os_on_commit_refines|done].
  - destruct Hok as (-> & -> & ->). exists w. split; [by eapply dl_on_commit_refines|done].
  - destruct Hok as (-> & -> & ->). exists w. split; [by eapply sl_on_range_read_refines|done].
  - destruct Hok as (-> & -> & ->). exists w.
    split; [by eapply on_single_query_result_refines|done].
  - destruct Hok as (-> & -> & key & ->). by exists w.
  - destruct Hok as [Hc Hok]. destruct cb; try done.
    + exists (upd_globals (g_set_seed (up_seed UpdateOnRead seed ans)) w).
      split; [eapply update_on_read_refines; [done|done|apply Hok|done]|by repeat split].
    + exists w. split; [|done].
      eapply (update_on_commit_refines _ _ _ _ _ _ _ seed); [done|done|apply Hok].
Qed.

(** The effect of a future on the transaction, seen by its chain. *)
Lemma inv_effect w f p ans c t q ws :
  inv None w → w_futures w !! f = Some p → chain_at w (f_ctx p) c t q ws →
  op_tr (f_op p) = t →
  inv (Some f) (future_effect (f_op p) ans w) ∧
  chain_at (future_effect (f_op p) ans w) (f_ctx p) c t q (effect_ws (f_op p) ans ws) ∧
  alone (Some f) (f_ctx p) (future_effect (f_op p) ans w) ∧
  is_Some (g_seed (w_globals (future_effect (f_op p) ans w))).
Proof.
  intros Hinv Hp Hat Hop. pose proof Hat as [Hh Ht Hq Hws Hl].
  pose proof (inv_skip f _ Hinv) as Hinv'.
  assert (alone (Some f) (f_ctx p) w) as Hal.
  { intros g p' Hg Hne Heq. apply Hne. f_equal. by eapply (inv_one _ _ Hinv f g p p'). }
  pose proof (inv_seed _ _ Hinv) as Hseed.
  destruct (f_op p) as [?|?|tr|tr err] eqn:Ep; cbn [future_effect effect_ws op_tr] in *;
    [done|done|..].
  - destruct (a_applied ans); [|done]. subst tr.
    assert (quiet w (add_commit (default [] (w_trs w !! t)) w)) as Hquiet by (by split).
    split; [by eapply inv_quiet|]. split; [by eapply chain_at_quiet|done].
  - destruct (a_error ans =? 0); [|done]. subst tr.
    assert (upd_trs (alter (λ _, []) t) w =
      upd_trs (<[t := []]>) (upd_heap (<[f_ctx p := c]>) w)) as ->.
    { rewrite upd_heap_same by done. destruct w; unfold upd_trs; cbn in *. f_equal.
      apply map_eq. intros i. destruct (decide (i = t)) as [->|].
      - by rewrite lookup_alter_eq, lookup_insert_eq, Hws.
      - by rewrite lookup_alter_ne, lookup_insert_ne. }
    split; [by eapply inv_update|]. split; [|done].
    split; try done; apply lookup_insert_eq.
Qed.

(** A ready future: its callback keeps the invariant. *)
Lemma wp_future w f p ans :
  inv None w → w_futures w !! f = Some p → answer_ok (f_op p) ans →
  ∃ c, w_heap w !! f_ctx p = Some c ∧
    wp (callback_ub (f_cb p) c) (future_callback run_callback f ans) (λ _, inv None) w.
Proof.
  intros Hinv Hp Hans.
  destruct (inv_chain _ _ Hinv f p Hp) as (c & t & q & ws & Hat & Hop & Hok); [done|].
  destruct (inv_effect _ _ _ ans _ _ _ _ Hinv Hp Hat Hop) as (Hinv1 & Hat1 & Hal1 & Hseed).
  exists c. split; [apply Hat|]. unfold future_callback. apply wp_bind, wp_gets. rewrite Hp.
  apply wp_bind, wp_modify. set (w1 := future_effect (f_op p) ans w) in *.
  apply wp_bind.
  destruct Hseed as [seed Hseed].
  destruct (run_callback_step _ _ _ _ _ _ _ _ _ _ Hseed Hok Hans Hat1)
    as (w2 & Hrun & [Hquiet _] & Hn). cbn zeta in Hrun, Hn.
  eapply wp_mono with (Q := λ _, inv (Some f)).
  - unfold wp. rewrite Hrun. apply (wp_exec_next _ f w2 (f_ctx p) c t q (effect_ws (f_op p) ans ws));
      [by eapply inv_quiet|by eapply chain_at_quiet| |done].
    intros g p'. rewrite (q_futures _ _ Hquiet). apply Hal1.
  - intros [] w3 Hw3. apply wp_modify. by apply inv_done.
Qed.
End callbacks.
