(* ===== verification/Entry.v ===== *)
(** * The entry points of the handlers and the invariant

    [exec_entry] is the shape all entry points share; [wp_on_req]: a request's handler
    either answers at once or starts one chain of its own ([entry_post]), or shows one of
    the undefined behaviours [request_ub] lists. *)

From S2P Require Import Prelude Kv Random Query Values Ctx Runtime Chain NewOrder Payment.
From S2P Require Import ReadTxns Tfb Handlers Invariant.

(** ** Entry points *)

Section entries.
Context `{Env}.

(** No context holds [i] as its transaction or its request. *)
Definition unowned (i : nat) (w : world) : Prop :=
  ∀ a c, w_heap w !! a = Some c → ctx_tr c ≠ Some i ∧ ctx_req c ≠ Some i.

(** An entry that answered at once: nothing else of it remains. *)
Record entry_answered (q : nat) (w w' : world) : Prop := {
  ea_heap : w_heap w' = w_heap w;
  ea_trs : w_trs w' = w_trs w;
  ea_futures : w_futures w' = w_futures w;
  ea_reqs : w_reqs w' = w_reqs w ∖ {[q]};
  ea_responses : ∃ r, w_responses w' = w_responses w ++ [(q, r)];
  ea_next : (w_next w <= w_next w')%nat;
  ea_threads : threads_ok w';
  ea_seed : is_Some (g_seed (w_globals w'));
}.

(** What the entries know of a context they start with: a Payment is one of its customer's
    own warehouse, in one of its ten districts; a NewOrder orders one to ten pieces of each
    item. *)
Definition fresh_ctx (c : ctx) : Prop :=
  match c with
  | CtxNewOrder c => ∀ i, 0 <= i < no_ol_cnt c → 1 <= arr0 (no_ol_quantity c) i <= 10
  | CtxPayment c => pc_w_id c = 1 ∧ pc_c_w_id c = 1 ∧ 1 <= pc_c_d_id c <= 10
  | _ => True
  end.

(** The callback the first future of a transaction that writes gets. *)
Definition first_callback (c : ctx) (cb : callback) : Prop :=
  match c with
  | CtxNewOrder _ => cb = NoOnDistrictRead
  | CtxPayment _ => cb = PayOnWarehouseRead
  | CtxUpdate c => cb = UpdateOnRead ∧ up_num_result c = 0
  | _ => True
  end.

(** An entry that started a chain: a context and a transaction of its own and, unless
    the environment failed, one future. *)
Record entry_started (q : nat) (w w' : world) (a t : nat) (c : ctx)
    (fut : option (nat * fdb_callback_ctx_t)) : Prop := {
  es_heap : w_heap w' = <[a := c]> (w_heap w);
  es_trs : w_trs w' = <[t := []]> (w_trs w);
  es_futures : w_futures w' =
    match fut with Some (f, p) => <[f := p]> (w_futures w) | None => w_futures w end;
  es_reqs : w_reqs w' = w_reqs w;
  es_responses : w_responses w' = w_responses w;
  es_fresh : (w_next w <= a < w_next w' ∧ w_next w <= t < w_next w')%nat;
  es_tr : ctx_tr c = Some t;
  es_req : ctx_req c = Some q;
  es_fut : match fut with
    | Some (f, p) => (w_next w <= f < w_next w')%nat ∧ f_ctx p = a ∧
        chain_ok (f_cb p) t c (f_op p) [] ∧ first_callback c (f_cb p)
    | None => ¬ EnvOk
    end;
  es_threads : threads_ok w';
  es_seed : is_Some (g_seed (w_globals w'));
  es_ctx : fresh_ctx c;
  es_numbers : EnvOk → missing_numbers c = false;
}.

Inductive entry_post (q : nat) (w w' : world) : Prop :=
  | post_answered : entry_answered q w w' → entry_post q w w'
  | post_started a t c fut : entry_started q w w' a t c fut → entry_post q w w'.

Lemma inv_answered q w w' :
  inv None w → q ∈ w_reqs w → unowned q w → entry_answered q w w' → inv None w'.
Proof.
  intros [H1 H2 H3 H4 H5 H6 H7 H8 H9 H10] Hq Hun [Eh Et Ef Er [r Erp] En Eth Es].
  split; rewrite ?Eh, ?Et, ?Ef, ?Er, ?Erp; try done.
  - intros f p Hp Hsk. destruct (H1 f p Hp Hsk) as (c & t & q' & ws & [Hh Ht Hq' Hw Hl] & ?).
    exists c, t, q', ws. split; [|done]. split; rewrite ?Eh, ?Et, ?Er; try done.
    destruct (Hun _ _ Hh) as [_ Hne]. set_solver.
  - intros a c i Ha Hi. specialize (H5 a c i Ha Hi). lia.
  - intros i Hi. destruct (H6 i) as (F1 & F2 & F3 & F4 & F5); [lia|].
    assert (i ≠ q) by (by intros ->). rewrite fmap_app. cbn.
    split_and!; [done|done|done|set_solver|set_solver].
  - rewrite fmap_app. cbn. apply NoDup_app. split; [done|].
    split; [|by apply NoDup_singleton]. intros i Hi ->%list_elem_of_singleton.
    by apply (H8 q).
  - intros i. rewrite fmap_app. cbn. intros [Hi|Hi]%elem_of_app.
    + pose proof (H8 i Hi). set_solver.
    + apply list_elem_of_singleton in Hi as ->. set_solver.
Qed.

(** The futures after an entry: those before, none of the new context, and its own. *)
Lemma started_futures q w w' a t c fut f p :
  inv None w → entry_started q w w' a t c fut → w_futures w' !! f = Some p →
  (w_futures w !! f = Some p ∧ f_ctx p ≠ a) ∨ fut = Some (f, p).
Proof.
  intros Hinv [_ _ Ef _ _ [[Ha _] _] _ _ _ _ _ _]. pose proof Hinv as [H1 _ _ _ _ H6 _ _ _ _].
  destruct (H6 a Ha) as (Fa & _).
  assert (w_futures w !! f = Some p → f_ctx p ≠ a) as Hne.
  { intros Hp. destruct (H1 f p Hp) as (? & ? & ? & ? & [Hh] & _); [done|]. congruence. }
  rewrite Ef. destruct fut as [[f0 p0]|]; [|by intros; left; auto].
  rewrite lookup_insert. case_decide; intros Hp; simplify_eq; [by right|left; auto].
Qed.

Lemma inv_started q w w' a t c fut :
  inv None w → q ∈ w_reqs w → unowned q w → entry_started q w w' a t c fut → inv None w'.
Proof.
  intros Hinv Hq Hun Hst. pose proof (started_futures q w w' a t c fut) as Hfut.
  specialize (λ f p, Hfut f p Hinv Hst).
  destruct Hst as [Eh Et Ef Er Erp [[Ha Ha'] [Ht Ht']] Etr Ereq Efut Eth Es _].
  pose proof Hinv as [H1 H2 H3 H4 H5 H6 H7 H8 H9 H10].
  destruct (H6 a Ha) as (Fa & _). destruct (H6 t Ht) as (_ & Ft & _).
  assert (∀ a' c', w_heap w !! a' = Some c' → ctx_tr c' ≠ Some t) as Hnt.
  { intros a' c' Hc' E. specialize (H5 a' c' t Hc' (or_introl E)). lia. }
  split; rewrite ?Er, ?Erp; try done.
  - intros f p Hp Hsk. destruct (Hfut f p Hp) as [[Hp' Hne]| ->].
    + destruct (H1 f p Hp' Hsk) as (d & t2 & q2 & ws & [] & ?).
      exists d, t2, q2, ws. split; [|done].
      split; rewrite ?Eh, ?Et, ?Er, ?lookup_insert_ne by congruence; done.
    + destruct Efut as (_ & <- & Hok & _). exists c, t, q, [].
      split_and!; [|by eapply chain_ok_op_tr|done].
      split; rewrite ?Eh, ?Et, ?Er, ?lookup_insert_eq; done.
  - intros f1 f2 p1 p2 Hp1 Hp2 _ _ Heq.
    destruct (Hfut f1 p1 Hp1) as [[G1 N1]|E1], (Hfut f2 p2 Hp2) as [[G2 N2]|E2].
    + by apply (H2 f1 f2 p1 p2).
    + rewrite E2 in Efut. destruct Efut as (_ & ? & _). congruence.
    + rewrite E1 in Efut. destruct Efut as (_ & ? & _). congruence.
    + congruence.
  - intros a1 a2 c1 c2 t0. rewrite Eh, !lookup_insert.
    repeat case_decide; intros G1 G2 E1 E2; simplify_eq; try done.
    + by destruct (Hnt a2 c2 G2).
    + by destruct (Hnt a1 c1 G1).
    + by apply (H3 a1 a2 c1 c2 t0).
  - intros a1 a2 c1 c2 q0. rewrite Eh, !lookup_insert.
    repeat case_decide; intros G1 G2 E1 E2; simplify_eq; try done.
    + by destruct (Hun a2 c2 G2).
    + by destruct (Hun a1 c1 G1).
    + by apply (H4 a1 a2 c1 c2 q0).
  - intros b d i. rewrite Eh, lookup_insert. case_decide; intros G Hi; simplify_eq.
    + destruct (decide (w_next w <= q)%nat) as [Hle|].
      * by destruct (H6 q Hle) as (_ & _ & _ & ? & _).
      * destruct Hi as [Hi|Hi]; simplify_eq; lia.
    + specialize (H5 b d i G Hi). lia.
  - intros i Hi. destruct (H6 i) as (F1 & F2 & F3 & F4 & F5); [lia|].
    rewrite Eh, Et, !lookup_insert_ne by lia. split_and!; try done.
    rewrite Ef. destruct fut as [[f0 p0]|]; [|done]. by rewrite lookup_insert_ne by lia.
Qed.

Lemma inv_entry q w w' :
  inv None w → q ∈ w_reqs w → unowned q w → entry_post q w w' → inv None w'.
Proof. intros ??? [?|?????]; [by eapply inv_answered|by eapply inv_started]. Qed.

(** [fdb_create_transaction] on an initialized thread state. *)
Lemma create_transaction_cases w s ts :
  w_threads w !! s = Some ts → ts_db ts = true →
  (∃ err, fdb_create_transaction (Some s) w = Ok ((err, None), bump_tick w) ∧ err ≠ 0 ∧
    ¬ EnvOk) ∨
  (∃ n m, fdb_create_transaction (Some s) w = Ok ((0, Some (w_next w)),
    upd_threads (<[s := mk_thread_state true n m]>)
      (upd_trs (<[w_next w := []]>) (bump_next (bump_tick w))))).
Proof.
  intros Hts Hdb.
  assert (load_thread (Some s) w = Ok ((s, ts), w)) as Hload.
  { unfold load_thread, deref, lift, gets, mbind, M_bind. cbn [from_option_or]. by rewrite Hts. }
  unfold fdb_create_transaction. rewrite M_bind_run, Hload, Hdb, M_bind_run.
  cbn [assert_or lift]. rewrite M_bind_run, ext_Ok.
  destruct (Z.eqb_spec (env_create_tr (w_tick w)) 0) as [E|E]; cbn [negb].
  - right. by eexists _, _.
  - left. eexists. split; [done|]. split; [done|]. intros ?. by rewrite create_tr_ok in E.
Qed.

(** The threads stay initialized under quiet changes. *)
Lemma threads_ok_quiet w w' : quiet w w' → threads_ok w → threads_ok w'.
Proof. intros [_ _ _ _ _ Eth _ Eg1 Eg2 _]. unfold threads_ok. by rewrite Eg1, Eg2, Eth. Qed.

(** The parameters [params] yields fit an entry of request [q]: a context for [q] alone
    whose [launch] submits a future of its chain. *)
Definition params_fit {A} `{IsCtx A} (q : nat) (set_tr : A → ptr → A)
    (launch : nat → A → W ()) (c : A) : Prop :=
  (∀ t, ctx_tr (to_ctx (set_tr c (Some t))) = Some t ∧
        ctx_req (to_ctx (set_tr c (Some t))) = Some q ∧ fresh_ctx (to_ctx (set_tr c (Some t))) ∧
        (EnvOk → missing_numbers (to_ctx (set_tr c (Some t))) = false)) ∧
  (∀ w a t, chain_at w a (to_ctx (set_tr c (Some t))) t q [] →
    ∃ cb op z, launch a (set_tr c (Some t)) w = submit_or_fail op cb a z w ∧
      chain_ok cb t (to_ctx (set_tr c (Some t))) op [] ∧
      first_callback (to_ctx (set_tr c (Some t))) cb).

(** From the transaction on: the context [c] is at the fresh address [a] in [w1], a world
    that is otherwise like [w]. *)
Lemma entry_tail {A} `{IsCtx A} E (c : A) q a failed set_tr (launch : nat → A → W ()) w w1 s ts :
  q ∈ w_reqs w → params_fit q set_tr launch c → w_heap w !! a = None →
  w_heap w1 = <[a := to_ctx c]> (w_heap w) → w_trs w1 = w_trs w →
  w_futures w1 = w_futures w → w_reqs w1 = w_reqs w → w_responses w1 = w_responses w →
  (w_next w <= a < w_next w1)%nat → is_Some (g_seed (w_globals w1)) →
  g_handler_fdb_state (w_globals w1) = Some s → g_fdb_state (w_globals w1) = Some s →
  w_threads w1 !! s = Some ts → ts_db ts = true →
  wp E ('(err, tr) ← fdb_create_transaction (Some s);
        if negb (err =? 0) then
          _ ← free a; h2o_send_error_503 (Some q) "Service Unavailable" failed
        else _ ← store a (set_tr c tr); launch a (set_tr c tr)) (λ _, entry_post q w) w1.
Proof.
  intros Hq [Hset Hlaunch] Ha Eh Et Ef Er Erp Hn Hs Hg1 Hg2 Hts Hdb.
  apply wp_bind. unfold wp at 1.
  destruct (create_transaction_cases w1 s ts Hts Hdb)
    as [(err & -> & Herr & _)|(n & m & ->)].
  - rewrite (proj2 (Z.eqb_neq _ _) Herr). cbn [negb]. apply wp_bind. unfold wp at 1.
    rewrite (free_Ok a (to_ctx c)) by (cbn; rewrite Eh; apply lookup_insert_eq).
    unfold h2o_send_error_503, wp. rewrite send_response_Ok by (cbn; by rewrite Er).
    apply post_answered. split; cbn; rewrite ?Et, ?Ef, ?Er, ?Erp; try done; [| |lia|].
    + by rewrite Eh, delete_insert_id.
    + by eexists.
    + by exists s, ts.
  - cbn [negb Z.eqb]. apply wp_bind. unfold wp at 1.
    rewrite (store_Ok a c) by (cbn; rewrite Eh; apply lookup_insert_eq).
    set (t := w_next w1). destruct (Hset t) as (E1 & E2 & E3 & E4).
    set (w2 := upd_heap _ _).
    assert (chain_at w2 a (to_ctx (set_tr c (Some t))) t q []) as Hat.
    { split; try done; try apply lookup_insert_eq. cbn. by rewrite Er. }
    destruct (Hlaunch w2 a t Hat) as (cb & op & z & Hl & Hok). unfold wp. rewrite Hl.
    assert (w_heap w2 = <[a := to_ctx (set_tr c (Some t))]> (w_heap w)) as Eh2.
    { unfold w2. cbn. by rewrite Eh, insert_insert_eq. }
    destruct (submit_cases op cb a z w2) as (w' & -> & _ & _ & [(w3 & Hqu & ->)|[Hqu Hfail]]);
      destruct Hqu as [Qh Qt Qf Qr Qrp Qth Qn Qg1 Qg2 Qs].
    + apply (post_started _ _ _ a t (to_ctx (set_tr c (Some t))) (Some (w_next w2, mk_fcb op cb a))).
      split; cbn in *; rewrite ?Qh, ?Qt, ?Qf, ?Qr, ?Qrp, ?Eh2, ?Et, ?Ef, ?Er, ?Erp, ?Qn;
        try done; try lia.
      * split_and!; [lia|lia|done|apply Hok|apply Hok].
      * exists s, (mk_thread_state true n m). cbn. rewrite Qth, Qg1, Qg2.
        by rewrite lookup_insert_eq.
      * by apply Qs.
    + apply (post_started _ _ _ a t (to_ctx (set_tr c (Some t))) None).
      split; cbn in *; rewrite ?Qh, ?Qt, ?Qf, ?Qr, ?Qrp, ?Eh2, ?Et, ?Ef, ?Er, ?Erp, ?Qn;
        try done; try lia.
      * exists s, (mk_thread_state true n m). cbn. rewrite Qth, Qg1, Qg2.
        by rewrite lookup_insert_eq.
      * by apply Qs.
Qed.

(** Every entry either answers at once or starts a chain, or shows an undefined
    behaviour of its [params]. *)
Lemma wp_exec_entry {A} `{IsCtx A} E (zero : A) q oom failed params state set_tr launch w :
  inv None w → q ∈ w_reqs w →
  (∀ w, is_Some (g_seed (w_globals w)) →
    wp E params (λ c w', quiet w w' ∧ params_fit q set_tr launch c) w) →
  (∀ w', g_fdb_state (w_globals w') = g_fdb_state (w_globals w) →
    state w' = Ok (g_fdb_state (w_globals w), w')) →
  wp E (exec_entry zero (Some q) oom failed params state set_tr launch)
    (λ _, entry_post q w) w.
Proof.
  intros Hinv Hq Hparams Hstate. unfold exec_entry, calloc.
  pose proof (inv_seed _ _ Hinv) as Hseed. pose proof (inv_threads _ _ Hinv) as Hthr.
  apply wp_bind, wp_bind. unfold wp at 1. rewrite ext_Ok. destruct (env_malloc _).
  2: { apply wp_ret. unfold h2o_send_error_503, wp. rewrite send_response_Ok by done.
       apply post_answered. split; try done. by eexists. }
  apply wp_bind, wp_bind, wp_gets, wp_bind, wp_modify, wp_ret, wp_bind, wp_modify, wp_ret.
  set (a := w_next (bump_tick w)).
  destruct (inv_fresh _ _ Hinv a) as (Ha & _); [done|].
  apply wp_bind. eapply wp_mono; [by apply Hparams|].
  intros c w3 [[Eh Et Ef Eq Er Eth En Efdb Eh2 Es] Hfit]. cbn beta.
  apply wp_bind. unfold wp at 1.
  rewrite (store_Ok a zero) by (rewrite Eh; apply lookup_insert_eq).
  destruct Hthr as (s & ts & Hs1 & Hs2 & Hts & Hdb).
  apply wp_bind. unfold wp at 1. rewrite Hstate, Hs2 by exact Efdb.
  apply (entry_tail E c q a failed set_tr launch w _ s ts); cbn; try done.
  - rewrite Eh. cbn. by rewrite insert_insert_eq.
  - rewrite En. cbn. lia.
  - by apply Es.
  - by rewrite Eh2.
  - by rewrite Efdb.
  - by rewrite Eth.
Qed.
End entries.

(** ** Requests *)

(** The undefined behaviours a handler's entry can show. *)
Definition request_ub `{Env} (ep : endpoint) (path : request_path) (u : ub) : Prop :=
  match ep with
  | EpNewOrder | EpPayment | EpRun => u = DivByZero
  | EpQueries | EpUpdates => u = NullDeref ∨ get_query_number path = Ub u
  | EpCachedWorlds =>
      u = OutOfBounds ∨ get_query_number path = Ub u ∨ yajl_fails ∧ u = NullDeref
  | EpJson => yajl_fails ∧ u = NullDeref
  | _ => False
  end.

Section requests.
Context `{Env} `{RandR}.

(** The premises on the world of a request [q] just arrived. *)
Definition arrived (q : nat) (w : world) : Prop :=
  inv None w ∧ q ∈ w_reqs w ∧ unowned q w.

(** The draws of the read transactions are always defined. *)
Lemma order_status_params_defined req st seed :
  ∃ d_id c_id by_name, order_status_params req st seed =
    Ok (mk_order_status_ctx None req st 1 d_id c_id (zero_chars 16) by_name).
Proof.
  unfold order_status_params.
  destruct (get_random_number_defined (DISTRICTS_PER_WAREHOUSE - 1) seed)
    as (r & s & ->); [done|]. cbn [mbind outcome_bind].
  destruct (get_random_number_defined 99 s) as (r' & s' & ->); [done|].
  cbn [mbind outcome_bind]. destruct (negb _); [|by eexists _, _, _].
  destruct (get_random_number_defined (CUSTOMERS_PER_DISTRICT - 1) s') as (r'' & s'' & ->);
    [done|by eexists _, _, _].
Qed.

Lemma delivery_params_defined req st seed :
  ∃ carrier, delivery_params req st seed = Ok (mk_delivery_ctx None req st 1 carrier).
Proof.
  unfold delivery_params. destruct (get_random_number_defined 9 seed) as (r & s & ->);
    [done|by eexists].
Qed.

Lemma stock_level_params_defined req st seed :
  ∃ d_id threshold, stock_level_params req st seed =
    Ok (mk_stock_level_ctx None req st 1 d_id threshold).
Proof.
  unfold stock_level_params.
  destruct (get_random_number_defined (DISTRICTS_PER_WAREHOUSE - 1) seed)
    as (r & s & ->); [done|]. cbn [mbind outcome_bind].
  destruct (get_random_number_defined 10 s) as (r' & s' & ->); [done|by eexists _, _].
Qed.

Lemma wp_order_status E w q seed :
  arrived q w →
  wp E (tpcc_order_status_execute (Some q) (g_fdb_state (w_globals w)) seed)
    (λ _, entry_post q w) w.
Proof.
  intros (Hinv & Hq & Hun).
  eapply (wp_eq _ _ (exec_entry order_status_ctx_zero (Some q) "oom" "fdb failed"
    (lift (order_status_params (Some q) (g_fdb_state (w_globals w)) seed))
    (mret (g_fdb_state (w_globals w))) os_set_tr
    (λ arg c, _ ← fdb_async_commit (os_tr c) OsOnCommit arg; mret ())));
    [reflexivity|apply wp_exec_entry; try done].
  intros w' _. apply wp_lift. destruct (order_status_params_defined (Some q)
    (g_fdb_state (w_globals w)) seed) as (d & c & b & ->).
  split; [done|]. split; [done|].
  intros w2 a t [_ _ _ Hws _]. eexists OsOnCommit, (OpCommit t), (-1). split; [|done].
  by apply (fdb_async_commit_eq _ []).
Qed.

Lemma wp_delivery E w q seed :
  arrived q w →
  wp E (tpcc_delivery_execute (Some q) (g_fdb_state (w_globals w)) seed)
    (λ _, entry_post q w) w.
Proof.
  intros (Hinv & Hq & Hun).
  eapply (wp_eq _ _ (exec_entry delivery_ctx_zero (Some q) "oom" "fdb failed"
    (lift (delivery_params (Some q) (g_fdb_state (w_globals w)) seed))
    (mret (g_fdb_state (w_globals w))) dl_set_tr
    (λ arg c, _ ← fdb_async_commit (dl_tr c) DlOnCommit arg; mret ())));
    [reflexivity|apply wp_exec_entry; try done].
  intros w' _. apply wp_lift. destruct (delivery_params_defined (Some q)
    (g_fdb_state (w_globals w)) seed) as (r & ->).
  split; [done|]. split; [done|].
  intros w2 a t [_ _ _ Hws _]. eexists DlOnCommit, (OpCommit t), (-1). split; [|done].
  by apply (fdb_async_commit_eq _ []).
Qed.

Lemma wp_stock_level E w q seed :
  arrived q w →
  wp E (tpcc_stock_level_execute (Some q) (g_fdb_state (w_globals w)) seed)
    (λ _, entry_post q w) w.
Proof.
  intros (Hinv & Hq & Hun).
  eapply (wp_eq _ _ (exec_entry stock_level_ctx_zero (Some q) "oom" "fdb failed"
    (lift (stock_level_params (Some q) (g_fdb_state (w_globals w)) seed))
    (mret (g_fdb_state (w_globals w))) sl_set_tr
    (λ arg c,
       begin_key ← lift (key_bytes (kv_stock_range_begin (stack_buf 64) (sl_w_id c)));
       end_key ← lift (key_bytes (kv_stock_range_end (stack_buf 64) (sl_w_id c)));
       _ ← fdb_async_get_range (sl_tr c) begin_key end_key SlOnRangeRead arg;
       mret ())));
    [reflexivity|apply wp_exec_entry; try done].
  intros w' _. apply wp_lift. destruct (stock_level_params_defined (Some q)
    (g_fdb_state (w_globals w)) seed) as (d & th & ->).
  split; [done|]. split; [done|].
  intros w2 a t [_ _ _ Hws _]. cbn [sl_w_id sl_set_tr sl_tr].
  eexists SlOnRangeRead, (OpGetRange t _ _), (-1). split; [|by split_and!].
  rewrite stock_range_begin_eq, stock_range_end_eq.
  mstep ltac:(apply lift_eq, stock_key_bytes; done).
  mstep ltac:(apply lift_eq, stock_key_bytes; done).
  by apply (fdb_async_get_range_eq _ []).
Qed.

(** The customer of a Payment: a last name to look up, or an id. *)
Lemma payment_customer_draw (by_name : bool) seed :
  ∃ l c_id seed', (if by_name then
      '(C, seed) ← rand_mod (NURAND_C_LAST_A + 1) seed;
      '(n, seed) ← nurand NURAND_C_LAST_A 0 999 seed C;
      c_last ← gen_c_last n (zero_chars 16); mret (c_last, 0, seed)
    else '(c_id, seed) ← nurand NURAND_C_ID_A 1 CUSTOMERS_PER_DISTRICT seed 0;
      mret (zero_chars 16, c_id, seed)) = Ok (l, c_id, seed') ∧
    in_u 32 c_id ∧ (by_name = true → c_id = 0).
Proof.
  destruct by_name.
  - destruct (rand_mod_defined (NURAND_C_LAST_A + 1) seed) as (C & s5 & ->); [done|].
    cbn [mbind outcome_bind].
    destruct (nurand_defined NURAND_C_LAST_A 0 999 s5 C) as (n & s6 & -> & _); [done|done|].
    cbn [mbind outcome_bind]. change (zero_chars 16) with (0 :: zero_chars 15).
    rewrite gen_c_last_spec by (cbn; lia). by eexists _, _, _.
  - destruct (nurand_defined NURAND_C_ID_A 1 CUSTOMERS_PER_DISTRICT seed 0)
      as (n & s6 & -> & Hn); [done|done|]. by eexists _, _, _.
Qed.

(** The context a Payment starts with, when its draws are defined. *)
Lemma payment_params_ok req st seed :
  match payment_params req st seed with
  | Ok c => pay_ctx_ok c ∧ pc_tr c = None ∧ pc_req c = req ∧ fresh_ctx (CtxPayment c)
  | Ub u => u = DivByZero
  end.
Proof.
  unfold payment_params.
  destruct (get_random_number_defined (DISTRICTS_PER_WAREHOUSE - 1) seed)
    as (r1 & s1 & ->); [done|]. cbn [mbind outcome_bind].
  destruct (get_random_number_defined 99 s1) as (r2 & s2 & ->); [done|].
  cbn [mbind outcome_bind]. destruct (r2 <? 15).
  { by rewrite get_random_number_zero. }
  cbn [mbind outcome_bind mret outcome_ret].
  destruct (get_random_number_defined (DISTRICTS_PER_WAREHOUSE - 1) s2)
    as (r3 & s3 & H3); [done|]. rewrite H3. cbn [mbind outcome_bind].
  apply get_random_number_range in H3; [|done]. unfold DISTRICTS_PER_WAREHOUSE in H3.
  destruct (get_random_number_defined 99 s3) as (r4 & s4 & ->); [done|].
  cbn [mbind outcome_bind].
  destruct (payment_customer_draw (r4 <? 40) s4) as (l & c_id & s5 & -> & Hc & _).
  cbn [mbind outcome_bind].
  destruct (get_random_number_defined 4999 s5) as (r6 & s6 & ->); [done|].
  cbn [mbind outcome_bind mret outcome_ret]. split_and!; try done.
  2: { cbn. rewrite wrap_u_id by range. lia. }
  split; cbn; try done.
  - repeat apply Forall_cons_2; try apply Forall_nil_2; (done || by apply wrap_u_range).
  - by forall_list.
  - by apply wrap_s_range.
Qed.

Lemma wp_payment w q seed :
  arrived q w →
  wp (λ u, u = DivByZero) (tpcc_payment_execute (Some q) (g_fdb_state (w_globals w)) seed)
    (λ _, entry_post q w) w.
Proof.
  intros (Hinv & Hq & Hun).
  eapply (wp_eq _ _ (exec_entry payment_ctx_zero (Some q) "out of memory" "fdb transaction failed"
    (lift (payment_params (Some q) (g_fdb_state (w_globals w)) seed))
    (mret (g_fdb_state (w_globals w))) pc_set_tr
    (λ arg c,
       wkey ← lift (key_bytes (kv_warehouse_key (stack_buf 64) (pc_w_id c)));
       _ ← fdb_async_get (pc_tr c) wkey PayOnWarehouseRead arg;
       mret ())));
    [reflexivity|apply wp_exec_entry; try done].
  intros w' _. apply wp_lift.
  pose proof (payment_params_ok (Some q) (g_fdb_state (w_globals w)) seed) as Hp.
  destruct (payment_params _ _ _) as [c|u]; [|done]. destruct Hp as (Hc & Ht & Hr & Hw).
  split; [done|]. split; [done|].
  intros w2 a t [_ _ _ Hws _]. cbn [pc_w_id pc_set_tr pc_tr].
  eexists PayOnWarehouseRead, (OpGet t _), (-1). split.
  - mstep ltac:(apply lift_eq, warehouse_key_bytes; by apply (pay_ctx_ids c)).
    by apply (fdb_async_get_eq _ []).
  - cbn. split; [by destruct Hc|done].
Qed.

(** NewOrder's first draw divides by zero. *)
Lemma new_order_params_ub req st seed : new_order_params req st seed = Ub DivByZero.
Proof. unfold new_order_params. by rewrite get_random_number_zero. Qed.

Lemma wp_new_order w q seed :
  arrived q w →
  wp (λ u, u = DivByZero) (tpcc_new_order_execute (Some q) (g_fdb_state (w_globals w)) seed)
    (λ _, entry_post q w) w.
Proof.
  intros (Hinv & Hq & Hun).
  eapply (wp_eq _ _ (exec_entry new_order_ctx_zero (Some q) "out of memory" "fdb transaction creation failed"
    (lift (new_order_params (Some q) (g_fdb_state (w_globals w)) seed))
    (mret (g_fdb_state (w_globals w))) no_set_tr
    (λ arg c,
       dkey ← lift (key_bytes (kv_district_key (stack_buf 64) (no_w_id c) (no_d_id c)));
       _ ← fdb_async_get (no_tr c) dkey NoOnDistrictRead arg;
       mret ())));
    [reflexivity|apply wp_exec_entry; try done].
  intros w' _. apply wp_lift. by rewrite new_order_params_ub.
Qed.
Lemma arrived_quiet q w w' : quiet w w' → arrived q w → arrived q w'.
Proof.
  intros Hqu (Hinv & Hq & Hun). split; [by eapply inv_quiet|].
  destruct Hqu as [Eh _ _ Eq _ _ _ _ _ _]. split; [by rewrite Eq|].
  intros a c. rewrite Eh. apply Hun.
Qed.

Lemma entry_post_quiet q w1 w w' : quiet w w1 → entry_post q w1 w' → entry_post q w w'.
Proof.
  intros [Eh Et Ef Eq Er _ En _ _ _] [[]|a t c fut []].
  - apply post_answered. split; try congruence. by rewrite <- Er.
  - apply (post_started _ _ _ a t c fut). split; try congruence.
    + by rewrite <- Ef.
    + by rewrite <- En.
    + done.
Qed.

Lemma wp_respond E w q r :
  arrived q w → wp E (send_response (Some q) r) (λ _, entry_post q w) w.
Proof.
  intros (Hinv & Hq & _). unfold wp. rewrite send_response_Ok by done.
  apply post_answered. split; try done; [by eexists|apply Hinv|apply Hinv].
Qed.

Lemma wp_execute tx w q seed :
  arrived q w →
  wp (λ u, u = DivByZero) (execute tx (Some q) (g_fdb_state (w_globals w)) seed)
    (λ _, entry_post q w) w.
Proof.
  intros Ha. destruct tx; cbn [execute].
  - by apply wp_new_order.
  - by apply wp_payment.
  - by apply wp_order_status.
  - by apply wp_delivery.
  - by apply wp_stock_level.
Qed.

Lemma wp_weaken {A} (E E' : ub → Prop) (m : W A) Q w :
  (∀ u, E u → E' u) → wp E m Q w → wp E' m Q w.
Proof. intros HE. unfold wp. destruct (m w) as [[a w']|u]; auto. Qed.

(** The thread state and the seed the TPC-C handlers pass on. *)
Lemma wp_handler E (k : ptr → Z → W ()) w q :
  arrived q w →
  (∀ w seed, arrived q w → wp E (k (g_fdb_state (w_globals w)) seed) (λ _, entry_post q w) w) →
  wp E ('(st, seed) ← handler_state; k st seed) (λ _, entry_post q w) w.
Proof.
  intros Ha Hk. apply wp_bind. unfold handler_state.
  apply wp_bind, wp_gets, wp_bind, wp_modify, wp_ret.
  destruct (inv_threads _ _ (proj1 Ha)) as (s & ts & Hs1 & Hs2 & _).
  rewrite Hs1, <- Hs2.
  set (w1 := upd_globals _ w). change (g_fdb_state (w_globals w)) with
    (g_fdb_state (w_globals w1)). assert (quiet w w1) as Hqu by (by split).
  eapply wp_mono; [apply Hk; by apply (arrived_quiet q w)|].
  intros [] w' Hw'. by eapply entry_post_quiet.
Qed.

(** Drawing the ids of /queries and /updates. *)
Lemma draw_ids_quiet l idxs w :
  is_Some (g_seed (w_globals w)) → (∀ i, i ∈ idxs → 0 <= i < Z.of_nat (length l)) →
  ∃ l' w', draw_ids (Some l) idxs w = Ok (Some l', w') ∧ length l' = length l ∧ quiet w w'.
Proof.
  revert l w. induction idxs as [|i idxs IH]; intros l w [seed Hs] Hin.
  { by exists l, w. }
  cbn [draw_ids]. rewrite M_bind_run, (get_random_world_id_Ok w seed) by done.
  rewrite M_bind_run. unfold ptr_set. cbn [from_option_or]. rewrite outcome_bind_Ok.
  rewrite arr_set_Ok by (apply Hin; by left). rewrite outcome_bind_Ok. cbn [lift mret outcome_ret].
  destruct (IH (<[Z.to_nat i := (world_id seed).1]> l)
    (upd_globals (g_set_seed (world_id seed).2) w)) as (l' & w' & Hd & Hl & Hqu).
  - done.
  - intros j Hj. rewrite length_insert. apply Hin. by right.
  - exists l', w'. rewrite length_insert in Hl. split_and!; [done|done|].
    etrans; [|done]. by split.
Qed.

Lemma wp_draw_ids (E : ub → Prop) n ok (Q : option (list Z) → world → Prop) w :
  is_Some (g_seed (w_globals w)) → 1 <= n → E NullDeref →
  (∀ l w', Z.of_nat (length l) = n → quiet w w' → Q (Some l) w') →
  wp E (draw_ids (if ok : bool then Some (replicate (Z.to_nat n) 0) else None) (upto n)) Q w.
Proof.
  intros Hs Hn HE HQ. destruct ok.
  - destruct (draw_ids_quiet (replicate (Z.to_nat n) 0) (upto n) w) as (l & w' & Hd & Hl & Hqu);
      [done|intros i Hi; apply elem_of_upto in Hi; rewrite length_replicate; lia|].
    unfold wp. rewrite Hd. apply HQ; [|done]. rewrite Hl, length_replicate. lia.
  - destruct Hs as [seed Hs]. unfold upto. replace (Z.to_nat n) with (S (Z.to_nat (n - 1))) by lia.
    cbn [seq fmap list_fmap draw_ids]. apply wp_bind. unfold wp at 1.
    rewrite (get_random_world_id_Ok w seed) by done. by apply wp_bind, wp_lift.
Qed.

Lemma wp_db E w q : arrived q w → wp E (db_handler (Some q)) (λ _, entry_post q w) w.
Proof.
  intros (Hinv & Hq & Hun).
  eapply (wp_eq _ _ (exec_entry single_query_ctx_zero (Some q) "oom" "fdb failed"
    (id ← get_random_world_id; mret (mk_single_query_ctx (Some q) None id))
    (g ← gets w_globals; mret (g_fdb_state g)) sq_set_tr
    (λ arg c,
       key ← lift (key_bytes (world_key (stack_buf 16) (sq_id c)));
       _ ← fdb_async_get (sq_tr c) key OnSingleQueryResult arg;
       mret ())));
    [|apply wp_exec_entry; try done].
  - unfold db_handler, exec_entry. unfold mbind, M_bind, mret, M_ret, gets.
    destruct (calloc _ w) as [[[a|] w1]|]; try done.
    by destruct (get_random_world_id w1) as [[id w2]|].
  - intros w' [seed Hs].
    apply wp_bind. unfold wp at 1. rewrite (get_random_world_id_Ok w' seed) by done.
    apply wp_ret. split; [by split|]. split; [done|].
    intros w2 a t [_ _ _ Hws _]. cbn [sq_id sq_set_tr sq_tr].
    eexists OnSingleQueryResult, (OpGet t _), (-1). split; [|by split_and!].
    mstep ltac:(apply lift_eq, world_key_bytes). by apply (fdb_async_get_eq _ []).
  - intros w' <-. done.
Qed.
Lemma wp_queries (E : ub → Prop) path w q :
  (∀ u, get_query_number path = Ub u → E u) → E NullDeref → arrived q w →
  wp E (queries_handler path (Some q)) (λ _, entry_post q w) w.
Proof.
  intros Hpath HE (Hinv & Hq & Hun). unfold queries_handler. apply wp_bind, wp_lift.
  destruct (get_query_number path) as [n|u] eqn:Hn; [|by apply Hpath].
  apply get_query_number_range in Hn.
  eapply (wp_eq _ _ (exec_entry multi_query_ctx_zero (Some q) "oom" "fdb failed"
    (ids ← calloc_u32 n; rns ← calloc_u32 n; ids ← draw_ids ids (upto n);
     mret (mk_multi_query_ctx (Some q) None n 0 ids rns 0))
    (g ← gets w_globals; mret (g_fdb_state g)) mq_set_tr (λ arg _, multi_query_next arg)));
    [|apply wp_exec_entry; try done].
  - unfold exec_entry. unfold mbind, M_bind, mret, M_ret, gets.
    destruct (calloc _ w) as [[[a|] w1]|]; try done.
    destruct (calloc_u32 n w1) as [[ids w2]|]; try done.
    destruct (calloc_u32 n w2) as [[rns w3]|]; try done.
    by destruct (draw_ids ids (upto n) w3) as [[l w4]|].
  - intros w' Hs. unfold calloc_u32.
    apply wp_bind, wp_bind. unfold wp at 1. rewrite ext_Ok. apply wp_ret.
    apply wp_bind, wp_bind. unfold wp at 1. rewrite ext_Ok. apply wp_ret.
    apply wp_bind, wp_draw_ids; [done|lia|done|]. intros l w'' Hl Hqu. apply wp_ret.
    split; [etrans; [|done]; by split|]. split; [done|].
    intros w2 a t Hat. pose proof Hat as [Hh _ _ Hws _].
    eexists MultiQueryNextCast, (OpGet t _), (-1). split; [|split; [split; [done|split; [done|by eexists]]|done]].
    unfold multi_query_next. mstep ltac:(by eapply load_Ok).
    cbn [mq_num_result mq_num_query mq_set_tr mq_ids mq_tr].
    destruct (Z.eqb_spec 0 n); [lia|]. mstep ltac:(apply lift_eq, arr0_get; lia).
    mstep ltac:(apply lift_eq, world_key_bytes). by apply (fdb_async_get_eq _ []).
  - intros w' <-. done.
Qed.

Lemma wp_updates (E : ub → Prop) path w q :
  (∀ u, get_query_number path = Ub u → E u) → E NullDeref →
  arrived q w → wp E (updates_handler path (Some q)) (λ _, entry_post q w) w.
Proof.
  intros Hpath HE (Hinv & Hq & Hun). unfold updates_handler. apply wp_bind, wp_lift.
  destruct (get_query_number path) as [n|u] eqn:Hn; [|by apply Hpath].
  apply get_query_number_range in Hn.
  eapply (wp_eq _ _ (exec_entry update_ctx_zero (Some q) "oom" "fdb failed"
    (ids ← calloc_u32 n; rns ← calloc_u32 n; ids ← draw_ids ids (upto n);
     mret (mk_update_ctx (Some q) None n 0 ids rns false))
    (g ← gets w_globals; mret (g_fdb_state g)) up_set_tr
    (λ arg c,
       id ← lift (ptr_get (up_ids c) 0);
       key ← lift (key_bytes (world_key (stack_buf 16) id));
       _ ← fdb_async_get (up_tr c) key UpdateOnRead arg;
       mret ())));
    [|apply wp_exec_entry; try done].
  - unfold exec_entry. unfold mbind, M_bind, mret, M_ret, gets.
    destruct (calloc _ w) as [[[a|] w1]|]; try done.
    destruct (calloc_u32 n w1) as [[ids w2]|]; try done.
    destruct (calloc_u32 n w2) as [[rns w3]|]; try done.
    by destruct (draw_ids ids (upto n) w3) as [[l w4]|].
  - intros w' Hs. unfold calloc_u32.
    apply wp_bind, wp_bind. unfold wp at 1. rewrite ext_Ok. apply wp_ret.
    apply wp_bind, wp_bind. unfold wp at 1. rewrite ext_Ok. apply wp_ret.
    apply wp_bind, wp_draw_ids; [done|lia|done|]. intros l w'' Hl Hqu. apply wp_ret.
    split; [etrans; [|done]; by split|]. split.
    { intros t. do 3 (split; [done|]). intros ?. cbn. by rewrite malloc_ok. }
    intros w2 a t [_ _ _ Hws _]. cbn [up_ids up_tr up_set_tr].
    eexists UpdateOnRead, (OpGet t _), (-1). split.
    + mstep ltac:(apply lift_eq, arr0_get; lia).
      mstep ltac:(apply lift_eq, world_key_bytes). by apply (fdb_async_get_eq _ []).
    + cbn. split; [|done]. split; [|split_and!; [done|lia|done]]. split; cbn; try lia; [by eexists|].
      intros rns. destruct (env_malloc _); [|done]. intros [= <-]. rewrite length_replicate. lia.
  - intros w' <-. done.
Qed.

(** The generator an entry allocates. *)
Lemma wp_yajl_gen_open (E : ub → Prop) w (Q : () → world → Prop) :
  (yajl_fails → E NullDeref) → Q () (bump_tick w) → wp E yajl_gen_open Q w.
Proof.
  intros HE HQ. unfold wp. rewrite yajl_gen_open_run. destruct (env_yajl _) eqn:Hy; [done|].
  apply HE. by eexists.
Qed.

Lemma wp_json (E : ub → Prop) w q :
  (yajl_fails → E NullDeref) → arrived q w →
  wp E (json_handler (Some q)) (λ _, entry_post q w) w.
Proof.
  intros HE Ha. unfold json_handler. apply wp_bind, wp_yajl_gen_open; [done|].
  eapply wp_mono; [apply wp_respond; apply (arrived_quiet q w); [apply quiet_tick|done]|].
  intros [] w' Hw'. eapply entry_post_quiet; [apply quiet_tick|done].
Qed.

Lemma cached_worlds_quiet (E : ub → Prop) n w (Q : list json_tok → world → Prop) :
  is_Some (g_seed (w_globals w)) → E OutOfBounds → (∀ body w', quiet w w' → Q body w') →
  wp E (cached_worlds n) Q w.
Proof.
  revert w Q. induction n as [|n IH]; intros w Q [seed Hs] HE HQ.
  { by apply wp_ret, HQ. }
  cbn [cached_worlds]. apply wp_bind. unfold wp at 1.
  rewrite (get_random_world_id_Ok w seed) by done.
  apply wp_bind, wp_gets, wp_bind, wp_lift. unfold arr_get.
  destruct (_ <? 0); [done|]. destruct (_ !! _) as [rn|]; [|done]. cbn [from_option_or].
  apply wp_bind, IH; [done|done|]. intros body w' Hqu. apply wp_ret, HQ.
  etrans; [|done]. by split.
Qed.

Lemma wp_cached_worlds (E : ub → Prop) path w q :
  (∀ u, get_query_number path = Ub u → E u) → E OutOfBounds → (yajl_fails → E NullDeref) →
  arrived q w →
  wp E (cached_worlds_handler path (Some q)) (λ _, entry_post q w) w.
Proof.
  intros Hpath HE Hyajl Ha. pose proof (inv_seed _ _ (proj1 Ha)) as Hs.
  unfold cached_worlds_handler. apply wp_bind, wp_lift.
  destruct (get_query_number path) as [n|u] eqn:Hn; [|by apply Hpath].
  apply wp_bind, wp_yajl_gen_open; [done|].
  apply wp_bind, cached_worlds_quiet; [done|done|]. intros body w' Hqu'.
  pose proof (transitivity (quiet_tick w) Hqu') as Hqu.
  eapply wp_mono; [apply wp_respond; by apply (arrived_quiet q w)|].
  intros [] w'' Hw'. by eapply entry_post_quiet.
Qed.

(** A request's handler, from its entry to the first future. *)
Lemma wp_on_req ep path w q :
  arrived q w →
  wp (request_ub ep path) (on_req ep path (Some q)) (λ _, entry_post q w) w.
Proof.
  intros Ha. pose proof Ha as (Hinv & Hq & Hun).
  destruct ep; cbn [on_req request_ub].
  - apply (wp_handler _ (execute TxNewOrder (Some q)) w q); [done|]. intros. by apply wp_new_order.
  - apply (wp_handler _ (execute TxPayment (Some q)) w q); [done|]. intros. by apply wp_payment.
  - apply (wp_handler _ (execute TxOrderStatus (Some q)) w q); [done|]. intros. by apply wp_order_status.
  - apply (wp_handler _ (execute TxDelivery (Some q)) w q); [done|]. intros. by apply wp_delivery.
  - apply (wp_handler _ (execute TxStockLevel (Some q)) w q); [done|]. intros. by apply wp_stock_level.
  - apply (wp_handler _ (tpcc_harness_dispatch (Some q)) w q); [done|].
    intros w' seed Ha'. unfold tpcc_harness_dispatch. apply wp_bind, wp_lift.
    destruct (get_random_number_defined 99 seed) as (r & s & ->); [done|].
    by apply wp_execute.
  - unfold plaintext_handler. by apply wp_respond.
  - by apply wp_json.
  - by apply wp_db.
  - apply wp_queries; [by right|by left|done].
  - apply wp_updates; [by right|by left|done].
  - apply wp_cached_worlds; [by right; left|by left|by right; right|done].
Qed.

(** A new request. *)
Lemma arrived_new w : inv None w → arrived (w_next w) (upd_reqs ({[w_next w]} ∪.) (bump_next w)).
Proof.
  intros Hinv. pose proof (inv_bump _ _ Hinv) as [H1 H2 H3 H4 H5 H6 H7 H8 H9 H10].
  destruct (inv_fresh _ _ Hinv (w_next w)) as (_ & _ & _ & Hfresh & Hresp); [done|].
  split; [|split; [cbn; set_solver|]].
  - split; cbn [w_heap w_trs w_futures w_reqs w_responses w_globals w_next upd_reqs]; try done.
    + intros f p Hp Hsk. destruct (H1 f p Hp Hsk) as (c & t & q & ws & [] & ?).
      exists c, t, q, ws. split; [|done]. split; cbn in *; (done || set_solver).
    + intros i Hi. destruct (H6 i Hi) as (F1 & F2 & F3 & F4 & F5). cbn in *.
      split_and!; try done. apply not_elem_of_union. split; [|done].
      rewrite elem_of_singleton. lia.
    + intros i Hi. specialize (H8 i Hi). cbn in *. apply not_elem_of_union. split; [|done].
      rewrite elem_of_singleton. by intros ->.
  - intros a c Hc. cbn in Hc. split; intros Hi.
    + pose proof (inv_lt _ _ Hinv a c _ Hc (or_introl Hi)). lia.
    + pose proof (inv_lt _ _ Hinv a c _ Hc (or_intror Hi)). lia.
Qed.
End requests.
