(* ===== verification/Lifecycle.v ===== *)
(** * Life cycle of a request: memory, transactions and responses over whole runs

    [wreach]: the worlds reachable by requests and ready futures, whatever calls fail.  From
    a world with the invariant of Invariant.v, the booted process for one, it holds in all
    of them ([wreach_inv]) and, while the
    environment does not fail, nothing is lost ([accounted]). *)

From S2P Require Import Prelude Kv Random Query Values Ctx Runtime Chain NewOrder Payment.
From S2P Require Import ReadTxns Tfb Handlers Invariant Entry.

(** ** Runs *)

Section runs.
Context `{Env} `{RandR}.

(** The events the properties speak of: any request, any pending future with an answer
    libfdb_c documents.  A client that goes away is treated on its own. *)
Definition enabled (w : world) (ev : event) : Prop :=
  match ev with
  | EvRequest _ _ => True
  | EvFuture f ans => ∃ p, w_futures w !! f = Some p ∧ answer_ok (f_op p) ans
  | EvClose _ => False
  end.

(** The undefined behaviours an event can run into. *)
Definition may_ub (w : world) (ev : event) (u : ub) : Prop :=
  match ev with
  | EvRequest ep path => request_ub ep path u
  | EvFuture f _ => ∃ p c, w_futures w !! f = Some p ∧ w_heap w !! f_ctx p = Some c ∧
      callback_ub (f_cb p) c u
  | EvClose _ => False
  end.

(** The worlds reachable from [w0], with the requests that arrived on the way. *)
Inductive wreach (w0 : world) : list nat → world → Prop :=
  | wreach_refl : wreach w0 [] w0
  | wreach_step qs w ev w' : wreach w0 qs w → enabled w ev → step ev w = Ok ((), w') →
      wreach w0 (match ev with EvRequest _ _ => qs ++ [w_next w] | _ => qs end) w'.

(** The process after its initialization: no request yet, an open database. *)
Record booted (w : world) : Prop := {
  boot_heap : w_heap w = ∅;
  boot_trs : w_trs w = ∅;
  boot_futures : w_futures w = ∅;
  boot_reqs : w_reqs w = ∅;
  boot_responses : w_responses w = [];
  boot_seed : is_Some (g_seed (w_globals w));
  boot_threads : threads_ok w;
}.

Lemma inv_booted w : booted w → inv None w.
Proof.
  intros [Eh Et Ef Er Erp Hs Hth].
  split; rewrite ?Eh, ?Et, ?Ef, ?Er, ?Erp; try done.
  all: cbn; try (intros i ?; rewrite ?lookup_empty); first [by constructor | set_solver].
Qed.

Lemma wp_request ep path w :
  inv None w →
  wp (request_ub ep path) (step (EvRequest ep path))
    (λ _, entry_post (w_next w) (upd_reqs ({[w_next w]} ∪.) (bump_next w))) w.
Proof.
  intros Hinv. cbn [step]. unfold fresh_id.
  apply wp_bind, wp_bind, wp_gets, wp_bind, wp_modify, wp_ret, wp_bind, wp_modify.
  by apply wp_on_req, arrived_new.
Qed.

Lemma wp_step w ev :
  inv None w → enabled w ev → wp (may_ub w ev) (step ev) (λ _, inv None) w.
Proof.
  intros Hinv Hen. destruct ev as [ep path|f ans|q]; [|destruct Hen as (p & Hp & Hans)|done].
  - eapply wp_mono; [by apply wp_request|]. intros [] w' Hw'.
    destruct (arrived_new w Hinv) as (Hinv' & Hq & Hun). by eapply inv_entry.
  - destruct (wp_future w f p ans Hinv Hp Hans) as (c & Hc & Hwp).
    eapply wp_weaken; [|done]. intros u Hu. by exists p, c.
Qed.

Lemma wreach_inv w0 qs w : inv None w0 → wreach w0 qs w → inv None w.
Proof.
  intros Hinv. induction 1 as [|qs w ev w' _ IH Hen Hstep]; [done|].
  pose proof (wp_step w ev IH Hen) as Hwp. unfold wp in Hwp. by rewrite Hstep in Hwp.
Qed.

(** What a callback that decides [n] leaves: its chain moved on, with at most one new
    future, or ended with a response. *)
Inductive chain_moved (f a t q : nat) (n : next) (w w' : world) : Prop :=
  | moved_on timed c ws cb op fut :
      n = NContinue timed c ws cb op → ctx_tr c = Some t → ctx_req c = Some q →
      w_heap w' = <[a := c]> (w_heap w) → w_trs w' = <[t := ws]> (w_trs w) →
      w_futures w' = match fut with
        | Some g => <[g := mk_fcb op cb a]> (delete f (w_futures w))
        | None => delete f (w_futures w) end →
      match fut with Some g => (w_next w <= g)%nat | None => ¬ EnvOk end →
      w_reqs w' = w_reqs w → w_responses w' = w_responses w → chain_moved f a t q n w w'
  | moved_end r :
      n = NFinish r →
      w_heap w' = delete a (w_heap w) → w_trs w' = delete t (w_trs w) →
      w_futures w' = delete f (w_futures w) → w_reqs w' = w_reqs w ∖ {[q]} →
      w_responses w' = w_responses w ++ [(q, r)] → chain_moved f a t q n w w'.

Lemma exec_next_moved E f a t q n w w0 :
  (w_trs w0 = w_trs w ∨ ∃ ws, w_trs w0 = <[t := ws]> (w_trs w)) →
  w_heap w0 = w_heap w → w_futures w0 = w_futures w → w_reqs w0 = w_reqs w →
  w_responses w0 = w_responses w → w_next w0 = w_next w →
  (f < w_next w)%nat → next_ok E t q n →
  wp E (exec_next a t q n ≫= λ _, modify (upd_futures (delete f)))
    (λ _ w', chain_moved f a t q n w w' ∧ w_commits w' = w_commits w0) w0.
Proof.
  intros Et Eh Ef Eq Er En Hf Hn. destruct n as [timed c ws cb op|r|u]; [| |done].
  - destruct Hn as (Ht & Hq & _ & _).
    set (w1 := if timed then bump_tick w0 else w0).
    assert (exec_next a t q (NContinue timed c ws cb op) w0 = submit_or_fail op cb a (-1)
      (upd_trs (<[t := ws]>) (upd_heap (<[a := c]>) w1))) as Hexec by (by destruct timed).
    apply wp_bind. unfold wp at 1. rewrite Hexec.
    set (w2 := upd_trs (<[t := ws]>) (upd_heap (<[a := c]>) w1)).
    assert (w_trs w2 = <[t := ws]> (w_trs w) ∧ w_heap w2 = <[a := c]> (w_heap w) ∧
      w_futures w2 = w_futures w ∧ w_reqs w2 = w_reqs w ∧ w_responses w2 = w_responses w ∧
      w_next w2 = w_next w ∧ w_commits w2 = w_commits w0)
      as (Et1 & Eh1 & Ef1 & Eq1 & Er1 & En1 & Ec1).
    { unfold w2, w1. destruct timed, Et as [Et|[ws0 Et]]; cbn; rewrite Et, Eh;
        rewrite ?insert_insert_eq; done. }
    clearbody w2.
    destruct (submit_cases op cb a (-1) w2)
      as (w' & -> & Ec & _ & [(w3 & Hqu & ->)|[Hqu Hfail]]);
      destruct Hqu as [Qh Qt Qf Qr Qrp _ Qn _ _ _]; apply wp_modify;
      (split; [|cbn in *; congruence]).
    + apply (moved_on _ _ _ _ _ _ _ timed c ws cb op (Some (w_next w2))); cbn;
        rewrite ?Qh, ?Qt, ?Qf, ?Qr, ?Qrp, ?Et1, ?Eh1, ?Ef1, ?Eq1, ?Er1, ?En1; try done.
      by rewrite delete_insert_ne by lia.
    + apply (moved_on _ _ _ _ _ _ _ timed c ws cb op None); cbn;
        rewrite ?Qh, ?Qt, ?Qf, ?Qr, ?Qrp, ?Et1, ?Eh1, ?Ef1, ?Eq1, ?Er1; done.
  - apply wp_bind. unfold wp at 1.
    destruct (exec_finish_cases a t q r w0)
      as [(-> & Hr & Hy)|(w1 & -> & [Qh Qt Qf Qr Qrp _ _ _ _ _] & Qc & _)]; [by apply Hn|].
    apply wp_modify. split; [|done].
    apply (moved_end _ _ _ _ _ _ _ r); cbn;
      rewrite ?Qh, ?Qt, ?Qf, ?Qr, ?Qrp, ?Eh, ?Ef, ?Eq, ?Er; try done.
    destruct Et as [Et|[ws0 Et]]; rewrite Et; [done|]. by rewrite delete_insert_eq.
Qed.

(** A ready future: its chain, the decision its callback takes, and what that leaves. *)
Lemma wp_future_next w f p ans :
  inv None w → w_futures w !! f = Some p → answer_ok (f_op p) ans →
  ∃ c t q ws n now, chain_at w (f_ctx p) c t q ws ∧ op_tr (f_op p) = t ∧
    chain_ok (f_cb p) t c (f_op p) ws ∧
    chain_next now (f_cb p) t c (effect_ws (f_op p) ans ws) ans n ∧
    wp (callback_ub (f_cb p) c) (step (EvFuture f ans))
      (λ _ w', chain_moved f (f_ctx p) t q n w w' ∧
        w_commits w' = w_commits (future_effect (f_op p) ans w)) w.
Proof.
  intros Hinv Hp Hans.
  destruct (inv_chain _ _ Hinv f p Hp) as (c & t & q & ws & Hat & Hop & Hok); [done|].
  destruct (inv_effect _ _ _ ans _ _ _ _ Hinv Hp Hat Hop) as (_ & Hat1 & _ & Hseed).
  set (w1 := future_effect (f_op p) ans w) in *.
  destruct Hseed as [seed Hseed].
  destruct (run_callback_step _ _ _ _ _ _ _ _ _ _ Hseed Hok Hans Hat1)
    as (w2 & Hrun & [Hquiet Hcom] & Hn). cbn zeta in Hrun, Hn.
  pose proof (decision_chain_next (env_time (w_tick w1)) seed _ _ _ _ _ _ Hok Hans) as Hnext.
  set (n := decision _ _ _ _ _ _ _) in *.
  exists c, t, q, ws, n, (env_time (w_tick w1)). do 4 (split; [done|]).
  cbn [step]. unfold future_callback. apply wp_bind, wp_gets. rewrite Hp.
  apply wp_bind, wp_modify. fold w1.
  assert ((f < w_next w)%nat) as Hf.
  { destruct (decide (w_next w <= f)%nat) as [Hle|]; [|lia].
    destruct (inv_fresh _ _ Hinv f Hle) as (_ & _ & ? & _). congruence. }
  eapply (wp_eq _ _ (λ s, (exec_next (f_ctx p) t q n ≫=
    λ _, modify (upd_futures (delete f))) w2)).
  { rewrite M_bind_run, Hrun. done. }
  destruct Hquiet as [Eh Et Ef Eq Er _ En _ _ _].
  assert (w_heap w1 = w_heap w ∧ w_futures w1 = w_futures w ∧ w_reqs w1 = w_reqs w ∧
    w_responses w1 = w_responses w ∧ w_next w1 = w_next w ∧
    (w_trs w1 = w_trs w ∨ ∃ ws', w_trs w1 = <[t := ws']> (w_trs w))) as (F1 & F2 & F3 & F4 & F5 & F6).
  { unfold w1. destruct (f_op p) as [?|?|tr|tr err]; cbn in *; try (by repeat split; left).
    - destruct (a_applied ans); by repeat split; left.
    - destruct (a_error ans =? 0); [|by repeat split; left]. subst tr.
      repeat split. right. exists []. cbn. apply map_eq. intros i.
      destruct Hat as [_ _ _ Hws _]. destruct (decide (i = t)) as [->|].
      + by rewrite lookup_alter_eq, lookup_insert_eq, Hws.
      + by rewrite lookup_alter_ne, lookup_insert_ne. }
  rewrite <- Hcom.
  apply (exec_next_moved _ f (f_ctx p) t q n w w2); try congruence.
  rewrite Et. done.
Qed.

(** The same, for those who need not know the decision. *)
Lemma wp_future_moved w f p ans :
  inv None w → w_futures w !! f = Some p → answer_ok (f_op p) ans →
  ∃ c t q ws n, chain_at w (f_ctx p) c t q ws ∧
    wp (callback_ub (f_cb p) c) (step (EvFuture f ans)) (λ _, chain_moved f (f_ctx p) t q n w) w.
Proof.
  intros Hinv Hp Hans.
  destruct (wp_future_next w f p ans Hinv Hp Hans) as (c & t & q & ws & n & now & ? & _ & _ & _ & Hwp).
  exists c, t, q, ws, n. split; [done|]. eapply wp_mono; [done|]. by intros [] w' [? _].
Qed.
End runs.

(** ** Accounting: nothing is lost while the environment does not fail *)

(** Every context waits for a future, every transaction belongs to a context, and so does
    every live request but the one just arriving. *)
Record accounted (arriving : option nat) (w : world) : Prop := {
  acc_heap : ∀ a c, w_heap w !! a = Some c →
    ∃ f p, w_futures w !! f = Some p ∧ f_ctx p = a;
  acc_trs : ∀ t ws, w_trs w !! t = Some ws → ∃ a c, w_heap w !! a = Some c ∧ ctx_tr c = Some t;
  acc_reqs : ∀ q, q ∈ w_reqs w → arriving ≠ Some q →
    ∃ a c, w_heap w !! a = Some c ∧ ctx_req c = Some q;
}.

Section accounting.
Context `{Env} `{RandR}.

(** A chain that goes on has its array of numbers. *)
Lemma chain_next_numbers now cb t c ws ans timed c' ws' cb' op' :
  chain_next now cb t c ws ans (NContinue timed c' ws' cb' op') → missing_numbers c' = false.
Proof.
  destruct c as [c|c|c|c|c|c|c|c]; cbn [chain_next]; intros Hn; try done;
    try (by destruct Hn as (? & ? & ?)).
  - unfold no_next, no_start, no_fail in Hn. by repeat case_match; simplify_eq.
  - unfold pay_next, pay_fail in Hn. by repeat case_match; simplify_eq.
  - destruct Hn as [seed Hn]. unfold up_next in Hn. by repeat case_match; simplify_eq.
Qed.

Lemma accounted_booted w : booted w → accounted None w.
Proof.
  intros [Eh Et Ef Er Erp Hs Hth]. split; rewrite ?Eh, ?Et, ?Er; set_solver.
Qed.

Lemma accounted_entry w q w' :
  EnvOk → accounted (Some q) w → inv None w → entry_post q w w' → accounted None w'.
Proof.
  intros HE [A1 A2 A3] Hinv [[Eh Et Ef Er _ _ _ _]|a t c fut
    [Eh Et Ef Er Erp [[Ha Ha'] [Ht Ht']] Etr Ereq Efut _ _]].
  - split; rewrite ?Eh, ?Et, ?Ef, ?Er; try done. intros q' Hq' _.
    apply elem_of_difference in Hq' as [Hq' Hne]. apply A3; [done|]. set_solver.
  - destruct fut as [[f p]|]; [|done]. destruct Efut as (Hf & Hctx & _).
    split; rewrite ?Eh, ?Et, ?Ef, ?Er.
    + intros b d. rewrite lookup_insert. case_decide as Hb; intros Hd.
      * exists f, p. by rewrite lookup_insert_eq, Hctx.
      * destruct (A1 b d Hd) as (g & p' & Hg & Hb'). exists g, p'.
        rewrite lookup_insert_ne; [done|]. intros ->.
        destruct (inv_fresh _ _ Hinv g) as (_ & _ & ? & _); [lia|]. congruence.
    + intros t' ws. rewrite lookup_insert. case_decide as Hb; intros Hd.
      * exists a, c. by rewrite lookup_insert_eq, Etr, Hb.
      * destruct (A2 t' ws Hd) as (b & d & Hbd & Hd'). exists b, d.
        rewrite lookup_insert_ne; [done|]. intros ->.
        destruct (inv_fresh _ _ Hinv b) as (? & _); [lia|]. congruence.
    + intros q' Hq' _. destruct (decide (q' = q)) as [->|].
      * exists a, c. by rewrite lookup_insert_eq.
      * destruct (A3 q' Hq') as (b & d & Hbd & Hd'); [congruence|]. exists b, d.
        rewrite lookup_insert_ne; [done|]. intros ->.
        destruct (inv_fresh _ _ Hinv b) as (? & _); [lia|]. congruence.
Qed.

Lemma accounted_moved w f p c t q ws n w' :
  EnvOk → accounted None w → inv None w → w_futures w !! f = Some p →
  chain_at w (f_ctx p) c t q ws → chain_moved f (f_ctx p) t q n w w' → accounted None w'.
Proof.
  intros HE [A1 A2 A3] Hinv Hp Hat Hmoved. destruct Hat as [Hh Ht Hq Hws Hl].
  set (a := f_ctx p) in *.
  assert (∀ b d, w_heap w !! b = Some d → b ≠ a → ctx_tr d ≠ Some t ∧ ctx_req d ≠ Some q)
    as Hother.
  { intros b d Hd Hne. split; intros E; apply Hne.
    - by apply (inv_tr _ _ Hinv b a d c t).
    - by apply (inv_req _ _ Hinv b a d c q). }
  assert (∀ b g p', w_futures w !! g = Some p' → f_ctx p' = b → b ≠ a → g ≠ f) as Hfut.
  { intros b g p' Hg Hb Hne ->. apply Hne. subst b. unfold a. congruence. }
  destruct Hmoved as [timed c' ws' cb' op' fut -> Et' Eq' Eh Et Ef Hg Er _|r -> Eh Et Ef Er _].
  - destruct fut as [g|]; [|done].
    split; rewrite ?Eh, ?Et, ?Ef, ?Er.
    + intros b d. rewrite lookup_insert. case_decide as Hb; intros Hd.
      * eexists g, _. by rewrite lookup_insert_eq, <- Hb.
      * destruct (A1 b d Hd) as (g' & p'' & Hg' & Hb'). exists g', p''.
        rewrite lookup_insert_ne, lookup_delete_ne; [done|..].
        -- symmetry. by eapply Hfut.
        -- intros ->. destruct (inv_fresh _ _ Hinv g') as (_ & _ & ? & _); [lia|]. congruence.
    + intros t' ws0. rewrite lookup_insert. case_decide as Hb; intros Hd.
      * exists a, c'. by rewrite lookup_insert_eq, Et', Hb.
      * destruct (A2 t' ws0 Hd) as (b & d & Hbd & Hd'). exists b, d.
        rewrite lookup_insert_ne; [done|]. congruence.
    + intros q' Hq' _. destruct (decide (q' = q)) as [->|].
      * exists a, c'. by rewrite lookup_insert_eq.
      * destruct (A3 q' Hq') as (b & d & Hbd & Hd'); [done|]. exists b, d.
        rewrite lookup_insert_ne; [done|]. congruence.
  - split; rewrite ?Eh, ?Et, ?Ef, ?Er.
    + intros b d [Hne Hd]%lookup_delete_Some.
      destruct (A1 b d Hd) as (g' & p'' & Hg' & Hb'). exists g', p''.
      rewrite lookup_delete_ne; [done|]. symmetry. by eapply Hfut.
    + intros t' ws0 [Hne Hd]%lookup_delete_Some.
      destruct (A2 t' ws0 Hd) as (b & d & Hbd & Hd'). exists b, d.
      rewrite lookup_delete_ne; [done|]. congruence.
    + intros q' [Hq' Hne]%elem_of_difference _.
      destruct (A3 q' Hq') as (b & d & Hbd & Hd'); [done|]. exists b, d.
      rewrite lookup_delete_ne; [done|]. intros <-. apply Hne, elem_of_singleton. congruence.
Qed.

Lemma wreach_accounted w0 qs w : EnvOk → booted w0 → wreach w0 qs w → accounted None w.
Proof.
  intros HE Hb Hreach. induction Hreach as [|qs w ev w' Hreach IH Hen Hstep];
    [by apply accounted_booted|].
  pose proof (wreach_inv _ _ _ (inv_booted _ Hb) Hreach) as Hinv.
  destruct ev as [ep path|f ans|q]; [|destruct Hen as (p & Hp & Hans)|done].
  - pose proof (wp_request ep path w Hinv) as Hwp. unfold wp in Hwp. rewrite Hstep in Hwp.
    destruct (arrived_new w Hinv) as (Hinv' & _). eapply accounted_entry; [done| |done|done].
    destruct IH as [A1 A2 A3]. split; cbn; try done. intros q Hq Hne.
    apply A3; [set_solver|done].
  - destruct (wp_future_moved w f p ans Hinv Hp Hans) as (c & t & q & ws & n & Hat & Hwp).
    unfold wp in Hwp. rewrite Hstep in Hwp. by eapply accounted_moved.
Qed.

(** While no allocation fails, no /updates request misses its array of numbers. *)
Lemma wreach_numbers w0 qs w :
  EnvOk → booted w0 → wreach w0 qs w →
  ∀ a c, w_heap w !! a = Some c → missing_numbers c = false.
Proof.
  intros HE Hb Hreach. induction Hreach as [|qs w ev w' Hreach IH Hen Hstep]; intros a c Hc.
  { by rewrite (boot_heap _ Hb), lookup_empty in Hc. }
  pose proof (wreach_inv _ _ _ (inv_booted _ Hb) Hreach) as Hinv.
  destruct ev as [ep path|f ans|q]; [|destruct Hen as (p & Hp & Hans)|done].
  - pose proof (wp_request ep path w Hinv) as Hwp. unfold wp in Hwp. rewrite Hstep in Hwp.
    destruct Hwp as [[Eh _ _ _ _ _ _ _]|b t d fut Hst]; [rewrite Eh in Hc; by eapply IH|].
    rewrite (es_heap _ _ _ _ _ _ _ Hst), lookup_insert in Hc.
    case_decide; simplify_eq; [|by eapply IH]. by apply (es_numbers _ _ _ _ _ _ _ Hst).
  - destruct (wp_future_next w f p ans Hinv Hp Hans)
      as (d & t & q & ws & n & now & _ & _ & _ & Hn & Hwp).
    unfold wp in Hwp. rewrite Hstep in Hwp. destruct Hwp as [Hm _].
    destruct Hm as [timed c' ws' cb op fut -> _ _ Eh _ _ _ _ _|r _ Eh _ _ _ _]; rewrite Eh in Hc.
    + rewrite lookup_insert in Hc. case_decide; simplify_eq; [|by eapply IH].
      by eapply chain_next_numbers.
    + apply lookup_delete_Some in Hc as [_ Hc]. by eapply IH.
Qed.

(** The requests that arrived are the live ones and the answered ones. *)
Lemma wreach_trace w0 qs w :
  booted w0 → wreach w0 qs w →
  NoDup qs ∧ ∀ q, q ∈ qs ↔ q ∈ w_reqs w ∨ q ∈ (w_responses w).*1.
Proof.
  intros Hb Hreach. induction Hreach as [|qs w ev w' Hreach [Hnd Htr] Hen Hstep].
  { destruct Hb as [_ _ _ Er Erp _ _]. rewrite Er, Erp. split; [constructor|set_solver]. }
  pose proof (wreach_inv _ _ _ (inv_booted _ Hb) Hreach) as Hinv.
  destruct ev as [ep path|f ans|q]; [|destruct Hen as (p & Hp & Hans)|done].
  - pose proof (wp_request ep path w Hinv) as Hwp. unfold wp in Hwp. rewrite Hstep in Hwp.
    destruct (inv_fresh _ _ Hinv (w_next w)) as (_ & _ & _ & Fq & Fr); [done|]. split.
    + apply NoDup_app. split; [done|]. split; [|apply NoDup_singleton].
      intros q Hq ->%list_elem_of_singleton. apply Htr in Hq. naive_solver.
    + intros q. rewrite elem_of_app, list_elem_of_singleton, Htr.
      destruct Hwp as [[_ _ _ Er [r Erp] _ _ _]|a t c fut [_ _ _ Er Erp _ _ _ _ _ _]];
        rewrite Er, Erp; cbn; rewrite ?fmap_app, ?elem_of_app; cbn.
      * rewrite list_elem_of_singleton. destruct (decide (q = w_next w)); set_solver.
      * set_solver.
  - destruct (wp_future_moved w f p ans Hinv Hp Hans) as (c & t & q & ws & n & Hat & Hwp).
    unfold wp in Hwp. rewrite Hstep in Hwp. split; [done|]. intros q'. rewrite Htr.
    destruct Hwp as [? ? ? ? ? ? _ _ _ _ _ _ _ Er Erp|r _ _ _ _ Er Erp]; rewrite Er, Erp; [done|].
    rewrite fmap_app, elem_of_app. cbn. rewrite list_elem_of_singleton.
    destruct Hat as [_ _ _ _ Hl]. destruct (decide (q' = q)); set_solver.
Qed.

(** A world reached without a pending future has lost nothing. *)
Lemma wreach_settled w0 qs w :
  EnvOk → booted w0 → wreach w0 qs w → w_futures w = ∅ →
  w_heap w = ∅ ∧ w_trs w = ∅ ∧ w_reqs w = ∅ ∧ (w_responses w).*1 ≡ₚ qs.
Proof.
  intros HE Hb Hr Hf. destruct (wreach_accounted _ _ _ HE Hb Hr) as [A1 A2 A3].
  destruct (wreach_trace _ _ _ Hb Hr) as [Hnd Htr].
  assert (w_heap w = ∅) as Hh.
  { apply map_empty. intros a. destruct (w_heap w !! a) as [c|] eqn:Hc; [|done].
    destruct (A1 a c Hc) as (f & p & Hp & _). by rewrite Hf, lookup_empty in Hp. }
  assert (w_reqs w = ∅) as Hq.
  { apply set_eq. intros q. split; [|set_solver]. intros Hq.
    destruct (A3 q Hq) as (a & c & Ha & _); [done|]. by rewrite Hh, lookup_empty in Ha. }
  split_and!; [done| |done|].
  - apply map_empty. intros t. destruct (w_trs w !! t) as [ws|] eqn:Ht; [|done].
    destruct (A2 t ws Ht) as (a & c & Ha & _). by rewrite Hh, lookup_empty in Ha.
  - apply NoDup_Permutation; [apply (inv_resp _ _ (wreach_inv _ _ _ (inv_booted _ Hb) Hr))|done|].
    intros q. rewrite Htr, Hq. set_solver.
Qed.
End accounting.

(** ** Properties *)

(** C1: whatever the environment answers, an event in a world that satisfies the invariant
    either keeps it or shows one of the listed undefined behaviours (division by zero in
    the NewOrder and Payment entries, the cast callback of /queries, the World cache, the
    request path, signed overflow of the stock and money sums, a JSON generator or an array
    of /queries or /updates that could not be allocated); no event ever uses freed memory, a
    dead request or a destroyed transaction, misses an initialization or fails the [assert]
    of the adapter. *)
Theorem events_keep_the_invariant `{Env} `{RandR} (w : world) (ev : event) :
  inv None w → enabled w ev →
  match step ev w with
  | Ok (_, w') => inv None w'
  | Ub u => may_ub w ev u ∧ u ≠ UseAfterFree ∧ u ≠ Uninit ∧ u ≠ Aborted
  end.
Proof.
  intros Hinv Hen. pose proof (wp_step w ev Hinv Hen) as Hwp. unfold wp in Hwp.
  destruct (step ev w) as [[[] w']|u]; [done|]. split; [done|].
  destruct ev as [ep path|f ans|q]; cbn in Hwp.
  - assert (∀ v, get_query_number path = Ub v →
      v ≠ UseAfterFree ∧ v ≠ Uninit ∧ v ≠ Aborted) as Hpath
      by (by intros v ->%get_query_number_ub).
    destruct ep; cbn in Hwp; naive_solver.
  - destruct Hwp as (p & c & _ & _ & [Hu|[(_ & _ & ->)|(_ & _ & ->)]]); [|done..].
    destruct (f_cb p); cbn in Hu; try done; by rewrite Hu.
  - done.
Qed.

(** C2: the translated callbacks are equivalent to their decisions: what a ready future does
    to the world (the C code's loads, reads, writes, calls, frees, and its undefined
    behaviours) is what executing the pure function [decision] of its context and answer
    does, whatever the environment answers; only the World handlers' seed moves before. *)
Theorem callbacks_equal_their_decisions `{Env} `{RandR} (w : world) (f : nat)
    (p : fdb_callback_ctx_t) (ans : answer) :
  inv None w → w_futures w !! f = Some p → answer_ok (f_op p) ans →
  ∃ c t q ws seed w1, chain_at w (f_ctx p) c t q ws ∧ g_seed (w_globals w) = Some seed ∧
    quiet (future_effect (f_op p) ans w) w1 ∧
    step (EvFuture f ans) w =
      (exec_next (f_ctx p) t q
         (decision (env_time (w_tick w)) seed (f_cb p) t c (effect_ws (f_op p) ans ws) ans) ≫=
       λ _, modify (upd_futures (delete f))) w1.
Proof.
  intros Hinv Hp Hans.
  destruct (inv_chain _ _ Hinv f p Hp) as (c & t & q & ws & Hat & Hop & Hok); [done|].
  destruct (inv_effect _ _ _ ans _ _ _ _ Hinv Hp Hat Hop) as (_ & Hat1 & _ & [seed Hseed]).
  destruct (run_callback_step _ _ _ _ _ _ _ _ _ _ Hseed Hok Hans Hat1)
    as (w1 & Hrun & [Hquiet _] & _). cbn zeta in Hrun.
  assert (w_tick (future_effect (f_op p) ans w) = w_tick w ∧
    w_globals (future_effect (f_op p) ans w) = w_globals w) as [Et Eg].
  { destruct (f_op p); cbn; try done; by case_match. }
  exists c, t, q, ws, seed, w1. split; [done|]. split; [by rewrite <- Eg|]. split; [done|].
  cbn [step]. unfold future_callback. rewrite M_bind_run. cbn [gets]. rewrite Hp.
  rewrite M_bind_run. cbn [modify f_op f_cb f_ctx]. rewrite M_bind_run.
  rewrite Hrun, Et. done.
Qed.

(** no request is answered twice: in every reachable world the answered requests are
    distinct, they have arrived, and none of them is still live. *)
Theorem requests_answered_at_most_once `{Env} `{RandR} (w0 w : world) (qs : list nat) :
  booted w0 → wreach w0 qs w →
  NoDup (w_responses w).*1 ∧ (∀ q, q ∈ (w_responses w).*1 → q ∈ qs ∧ (q ∉ w_reqs w)).
Proof.
  intros Hb Hr. pose proof (wreach_inv _ _ _ (inv_booted _ Hb) Hr) as Hinv.
  destruct (wreach_trace _ _ _ Hb Hr) as [_ Htr].
  split; [apply (inv_resp _ _ Hinv)|]. intros q Hq.
  split; [apply Htr; by right|by apply (inv_live _ _ Hinv)].
Qed.

(** C5: while no call of the environment fails, nothing is lost: when no future is pending,
    every context is freed, every transaction destroyed, and the requests that arrived
    have each been answered exactly once. *)
Theorem settled_runs_answer_every_request `{Env} `{RandR} (w0 w : world) (qs : list nat) :
  EnvOk → booted w0 → wreach w0 qs w → w_futures w = ∅ →
  w_heap w = ∅ ∧ w_trs w = ∅ ∧ w_reqs w = ∅ ∧ (w_responses w).*1 ≡ₚ qs.
Proof. intros. by eapply wreach_settled. Qed.
(** a client that goes away while its commit is pending: the callback answers the
    disposed request.  Nothing in the handlers cancels a chain. *)
Theorem closed_connection_is_used_after_free `{Env} `{RandR} (w : world) (f : nat)
    (p : fdb_callback_ctx_t) (c : ctx) (q : nat) (ans : answer) :
  inv None w → w_futures w !! f = Some p → w_heap w !! f_ctx p = Some c →
  ctx_req c = Some q → f_cb p ∈ [NoOnCommit; PayOnCommit; OsOnCommit; DlOnCommit] →
  a_error ans = 0 → ¬ yajl_fails → steps [EvClose q; EvFuture f ans] w = Ub UseAfterFree.
Proof.
  intros Hinv Hp Hc Hq Hcb Herr Hyajl.
  destruct (inv_chain _ _ Hinv f p Hp) as (c' & t & q' & ws & Hat & Hop & Hok); [done|].
  destruct Hat as [Hh _ Hq' _ _]. assert (c' = c) as -> by congruence.
  assert (q' = q) as -> by congruence.
  cbn [steps step]. rewrite M_bind_run. cbn [modify]. set (w1 := upd_reqs _ w).
  rewrite M_bind_run. unfold future_callback.
  rewrite M_bind_run. cbn [gets]. change (w_futures w1) with (w_futures w). rewrite Hp.
  rewrite M_bind_run. cbn [modify]. set (w2 := future_effect _ ans w1). rewrite M_bind_run.
  assert (w_heap w2 !! f_ctx p = Some c ∧ (q ∉ w_reqs w2)) as [Hh2 Hq2].
  { unfold w2. assert (q ∉ w_reqs w1) by (cbn; set_solver).
    destruct (f_op p); cbn; [done|done|by destruct (a_applied ans)|by destruct (a_error ans =? 0)]. }
  assert (∀ r w3, w_reqs w3 = w_reqs w2 → send_response (Some q) r w3 = Ub UseAfterFree) as Hsend.
  { intros r w3 E. unfold send_response, deref, gets, lift, mbind, M_bind.
    cbn [from_option_or]. rewrite E. by rewrite decide_False. }
  assert (∀ w3, yajl_gen_open w3 = Ok ((), bump_tick w3)) as Hgen.
  { intros w3. rewrite yajl_gen_open_run. destruct (env_yajl _) eqn:Hy; [done|].
    by destruct Hyajl; eexists. }
  rewrite !elem_of_cons, elem_of_nil in Hcb.
  destruct c as [c|c|c|c|c|c|c|c]; cbn [chain_ok ctx_req] in Hok, Hq;
    destruct (f_cb p); try (exfalso; naive_solver); cbn [run_callback];
    unfold no_on_commit, pay_on_commit, os_on_commit, dl_on_commit;
    rewrite M_bind_run, (load_Ok _ c) by done; rewrite ?Herr; cbn [negb Z.eqb];
    unfold h2o_send_inline.
  - rewrite M_bind_run, (store_Ok _ c) by done. rewrite M_bind_run, Hgen, M_bind_run.
    cbn [no_req no_set_committed]. rewrite Hq. by rewrite Hsend.
  - rewrite M_bind_run, Hgen, M_bind_run, Hq. by rewrite Hsend.
  - rewrite M_bind_run, Hgen, M_bind_run, Hq. by rewrite Hsend.
  - rewrite M_bind_run, Hgen, M_bind_run, Hq. by rewrite Hsend.
Qed.

(** ** Witnesses *)

(** A booted process with one thread state, at address 0. *)
Definition boot_world : world :=
  mk_world ∅ ∅ ∅ ∅ [] [] {[0%nat := mk_thread_state true 0 0]}
    (mk_globals (Some 0%nat) 7 (Some 0%nat) (Some 7) [] true) 1 0.

Lemma boot_world_booted : booted boot_world.
Proof. split; try done. by exists 0%nat, (mk_thread_state true 0 0). Qed.

(** The world after an event, and after a whole OrderStatus request. *)
Definition after (ev : event) (w : world) : world :=
  match step (H := env_ok 1700000000) (H0 := rand_r_posix) ev w with
  | Ok (_, w') => w'
  | Ub _ => w
  end.

Definition any_path : request_path := mk_request_path [] 0 None.
Definition pending_world : world := after (EvRequest EpOrderStatus any_path) boot_world.
Definition done_world : world := after (EvFuture 4 ans_done) pending_world.

Lemma pending_world_reached :
  @wreach (env_ok 1700000000) rand_r_posix boot_world [1%nat] pending_world.
Proof.
  apply (wreach_step boot_world [] boot_world (EvRequest EpOrderStatus any_path));
    [apply wreach_refl|done|by vm_compute].
Qed.

Lemma done_world_reached :
  @wreach (env_ok 1700000000) rand_r_posix boot_world [1%nat] done_world.
Proof.
  apply (wreach_step boot_world [1%nat] pending_world (EvFuture 4 ans_done));
    [apply pending_world_reached| |by vm_compute].
  eexists. split; [by vm_compute|]. done.
Qed.

Lemma events_keep_the_invariant_witness :
  inv None boot_world ∧ inv None pending_world.
Proof.
  split; [exact (inv_booted _ boot_world_booted)|].
  pose proof (@events_keep_the_invariant (env_ok 1700000000) rand_r_posix boot_world
    (EvRequest EpOrderStatus any_path) (inv_booted _ boot_world_booted)) as Hev.
  specialize (Hev ltac:(done)). unfold pending_world, after.
  destruct (step _ boot_world) as [[u w]|u] eqn:E; [exact Hev|].
  vm_compute in E. discriminate E.
Defined.

Lemma callbacks_equal_their_decisions_witness :
  ∃ c t q w1, step (H := env_ok 1700000000) (H0 := rand_r_posix) (EvFuture 4 ans_done)
      pending_world =
    (exec_next (H := env_ok 1700000000) 2 t q
       (decision (H0 := rand_r_posix) 1700000000 7 OsOnCommit t c [] ans_done) ≫=
     λ _, modify (upd_futures (delete 4%nat))) w1 ∧ t = 3%nat ∧ q = 1%nat.
Proof.
  destruct (@callbacks_equal_their_decisions (env_ok 1700000000) rand_r_posix pending_world 4
    (mk_fcb (OpCommit 3) OsOnCommit 2) ans_done) as (c & t & q & ws & seed & w1 & Hat & Hs & _ & Hstep).
  - exact (@wreach_inv (env_ok 1700000000) rand_r_posix boot_world [1%nat] pending_world
      (inv_booted _ boot_world_booted) pending_world_reached).
  - by vm_compute.
  - done.
  - destruct Hat as [Hh Ht Hq Hws _]. vm_compute in Hh, Hs. injection Hh as <-.
    injection Hs as <-. injection Ht as <-. injection Hq as <-. vm_compute in Hws.
    injection Hws as <-. eexists _, 3%nat, 1%nat, w1. split; [exact Hstep|]. done.
Defined.

Lemma requests_answered_at_most_once_witness :
  (w_responses done_world).*1 = [1%nat] ∧ NoDup (w_responses done_world).*1.
Proof.
  split; [by vm_compute|].
  exact (proj1 (@requests_answered_at_most_once (env_ok 1700000000) rand_r_posix
    boot_world done_world [1%nat] boot_world_booted done_world_reached)).
Defined.

Lemma settled_runs_answer_every_request_witness :
  w_futures done_world = ∅ ∧ (w_responses done_world).*1 ≡ₚ [1%nat] ∧
  w_heap done_world = ∅.
Proof.
  assert (w_futures done_world = ∅) as Hf by (by vm_compute).
  split; [exact Hf|].
  destruct (@settled_runs_answer_every_request (env_ok 1700000000) rand_r_posix
    boot_world done_world [1%nat]) as (Hh & _ & _ & Hp).
  - by split.
  - exact boot_world_booted.
  - exact done_world_reached.
  - exact Hf.
  - by split.
Defined.

Lemma closed_connection_is_used_after_free_witness :
  steps (H := env_ok 1700000000) (H0 := rand_r_posix)
    [EvClose 1; EvFuture 4 ans_done] pending_world = Ub UseAfterFree.
Proof.
  eapply (@closed_connection_is_used_after_free (env_ok 1700000000) rand_r_posix
    pending_world 4 (mk_fcb (OpCommit 3) OsOnCommit 2)).
  - exact (wreach_inv _ _ _ (inv_booted _ boot_world_booted) pending_world_reached).
  - by vm_compute.
  - by vm_compute.
  - reflexivity.
  - by right; right; left.
  - reflexivity.
  - by intros [? ?].
Defined.
