(* ===== verification/Serve.v ===== *)
(** * Serving a chain: the futures of one context answered in turn

    [waiting]: a world in which the chain of a context waits for one future.  [served]:
    the futures of one context become ready one after the other.  [serve_continue],
    [serve_read], [serve_error], [serve_restart] and [serve_finish] are the things an
    answer can do to a chain; the transaction files compose them.  [chain_world] is a concrete waiting
    world, for witnesses. *)

From S2P Require Import Prelude Kv Random Query Values Ctx Runtime Chain NewOrder Payment.
From S2P Require Import ReadTxns Tfb Handlers Invariant Entry Lifecycle.

(** The chain of the context at [a] waits for the future [op] with callback [cb]. *)
Record waiting (w : world) (a : nat) (c : ctx) (t q : nat) (ws : list write)
    (cb : callback) (op : fdb_op) : Prop := {
  wt_inv : inv None w;
  wt_at : chain_at w a c t q ws;
  wt_future : ∃ f, w_futures w !! f = Some (mk_fcb op cb a);
}.

(** The futures pending on [a] become ready one after the other with these answers. *)
Inductive served `{Env} `{RandR} (a : nat) : world → list answer → world → Prop :=
  | served_nil w : served a w [] w
  | served_cons w f p ans w1 anss w2 :
      w_futures w !! f = Some p → f_ctx p = a → step (EvFuture f ans) w = Ok ((), w1) →
      served a w1 anss w2 → served a w (ans :: anss) w2.

(** What stays of a world while a chain runs on: the answers and the commits so far. *)
Definition same_log (w w' : world) : Prop :=
  w_commits w' = w_commits w ∧ w_responses w' = w_responses w.

Section serving.
Context `{Env} `{RandR}.

Lemma served_app a w anss1 w1 anss2 w2 :
  served a w anss1 w1 → served a w1 anss2 w2 → served a w (anss1 ++ anss2) w2.
Proof. induction 1; [done|]. intros. eapply served_cons; eauto. Qed.

Lemma waiting_chain_ok w a c t q ws cb op :
  waiting w a c t q ws cb op → chain_ok cb t c op ws.
Proof.
  intros [Hinv Hat [f Hf]]. destruct (inv_chain _ _ Hinv f _ Hf) as
    (c' & t' & q' & ws' & Hat' & Hop & Hok); [done|]. cbn in *.
  destruct Hat as [E1 E2 _ E3 _], Hat' as [F1 F2 _ F3 _].
  assert (c' = c) as -> by congruence. assert (op_tr op = t) as E4 by congruence.
  rewrite <- Hop, E4 in F3, Hok. assert (ws' = ws) as -> by congruence. done.
Qed.

(** The world a callback starts in: what the answer's effect and the draws of the
    callback leave alone. *)
Record same_chains (w w1 : world) : Prop := {
  sc_heap : w_heap w1 = w_heap w;
  sc_futures : w_futures w1 = w_futures w;
  sc_reqs : w_reqs w1 = w_reqs w;
  sc_responses : w_responses w1 = w_responses w;
  sc_next : w_next w1 = w_next w;
}.

Lemma effect_same op ans w : same_chains w (future_effect op ans w).
Proof.
  split; destruct op; cbn; try done; try (by destruct (a_applied ans)); by destruct (_ =? 0).
Qed.

Lemma effect_commits op ans w :
  (∀ tr, op ≠ OpCommit tr) ∨ a_applied ans = false →
  w_commits (future_effect op ans w) = w_commits w.
Proof.
  intros Hop. destruct op as [| |tr|]; cbn; try done; [|by destruct (_ =? 0)].
  destruct Hop as [Hop| ->]; [by destruct (Hop tr)|done].
Qed.

(** One answer to a waiting chain, when its callback goes on. *)
Lemma serve_continue_log w w1 a c t q ws cb op ans timed c' ws' cb' op' :
  EnvOk → waiting w a c t q ws cb op → answer_ok op ans →
  run_callback cb ans a (future_effect op ans w) =
    exec_next a t q (NContinue timed c' ws' cb' op') w1 →
  same_chains w w1 → ctx_tr c' = Some t → ctx_req c' = Some q →
  ∃ w', served a w [ans] w' ∧ waiting w' a c' t q ws' cb' op' ∧
    (w_commits w' = w_commits w1 ∧ w_responses w' = w_responses w) ∧
    w_globals w' = w_globals w1.
Proof.
  intros HE [Hinv Hat [f Hf]] Hans Hrun [Sh Sf Sr Srp Sn] Ht' Hq'.
  set (w2 := upd_trs (<[t := ws']>)
    (upd_heap (<[a := c']>) (if timed then bump_tick w1 else w1))).
  assert (run_callback cb ans a (future_effect op ans w) = submit_or_fail op' cb' a (-1) w2)
    as Hsub by (rewrite Hrun; by destruct timed).
  destruct (submit_cases op' cb' a (-1) w2) as (w' & Hs & Hc & Hg & [(w3 & Hqu & ->)|[_ []]]); [|done].
  destruct (wp_future w f _ ans Hinv Hf Hans) as (? & _ & Hwp).
  assert (step (EvFuture f ans) w = Ok ((), upd_futures (delete f)
    (upd_futures (<[w_next w2 := mk_fcb op' cb' a]>) (bump_next w3)))) as Hstep.
  { cbn [step]. unfold future_callback. rewrite M_bind_run. cbn [gets]. rewrite Hf.
    rewrite M_bind_run. cbn [modify f_op f_cb f_ctx]. rewrite M_bind_run, Hsub, Hs. done. }
  unfold wp in Hwp. cbn [step] in Hstep. rewrite Hstep in Hwp.
  eexists. split; [eapply served_cons; [done|done|exact Hstep|apply served_nil]|].
  destruct Hqu as [Qh Qt Qf Qr Qrp _ Qn _ _ _].
  assert (w_next w2 = w_next w ∧ w_reqs w2 = w_reqs w ∧ w_responses w2 = w_responses w ∧
    w_commits w2 = w_commits w1 ∧ w_globals w2 = w_globals w1) as (En & Er & Erp & Ec & Eg)
    by (unfold w2; by destruct timed).
  assert ((f < w_next w2)%nat) as Hlt.
  { destruct (decide (w_next w <= f)%nat) as [Hle|Hle]; [|lia].
    destruct (inv_fresh _ _ Hinv f Hle) as (_ & _ & F & _). congruence. }
  destruct Hat as [Hh Ht Hq Hws Hl].
  split; [split; [done|..]|split; [split|]].
  - split; [| done | done | |]; cbn; rewrite ?Qh, ?Qt, ?Qr, ?Er; try done;
      apply lookup_insert_eq.
  - exists (w_next w2). cbn [w_futures upd_futures].
    rewrite lookup_delete_ne by lia. apply lookup_insert_eq.
  - cbn in *. congruence.
  - cbn. congruence.
  - cbn in *. congruence.
Qed.

Lemma serve_continue w w1 a c t q ws cb op ans timed c' ws' cb' op' :
  EnvOk → waiting w a c t q ws cb op → answer_ok op ans →
  run_callback cb ans a (future_effect op ans w) =
    exec_next a t q (NContinue timed c' ws' cb' op') w1 →
  same_chains w w1 → w_commits w1 = w_commits w →
  ctx_tr c' = Some t → ctx_req c' = Some q →
  ∃ w', served a w [ans] w' ∧ waiting w' a c' t q ws' cb' op' ∧ same_log w w' ∧
    w_globals w' = w_globals w1.
Proof.
  intros HE Hw Hans Hrun Hsame Hcom Ht' Hq'.
  destruct (serve_continue_log w w1 a c t q ws cb op ans timed c' ws' cb' op')
    as (w' & ? & ? & [Hc Hr] & ?); try done.
  exists w'. split_and!; try done. by split; [rewrite Hc|].
Qed.

(** A read that finds its row. *)
Lemma serve_read w a c t q ws cb tr key v timed c' ws' cb' op' :
  EnvOk → waiting w a c t q ws cb (OpGet tr key) →
  run_callback cb (ans_value v) a w = exec_next a t q (NContinue timed c' ws' cb' op') w →
  ctx_tr c' = Some t → ctx_req c' = Some q →
  ∃ w', served a w [ans_value v] w' ∧ waiting w' a c' t q ws' cb' op' ∧ same_log w w'.
Proof.
  intros HE Hw Hrun Ht Hq.
  destruct (serve_continue w w a c t q ws cb (OpGet tr key) (ans_value v) timed c' ws' cb' op')
    as (w' & ? & ? & ? & _); try done. by exists w'.
Qed.

(** What an answer adds to the commits. *)
Definition committed (op : fdb_op) (ans : answer) (ws : list write) : list (list write) :=
  match op with OpCommit _ => if a_applied ans then [ws] else [] | _ => [] end.

Lemma committed_effect w a c t q op ans ws :
  chain_at w a c t q ws → op_tr op = t →
  w_commits (future_effect op ans w) = w_commits w ++ committed op ans ws.
Proof.
  intros [_ _ _ Hws _] <-. unfold future_effect, committed.
  destruct op; cbn in *; rewrite ?app_nil_r; try done.
  - destruct (a_applied ans); [by rewrite Hws|by rewrite app_nil_r].
  - by destruct (a_error ans =? 0).
Qed.

Lemma chain_at_effect w a c t q ws op ans :
  chain_at w a c t q ws → op_tr op = t →
  chain_at (future_effect op ans w) a c t q (effect_ws op ans ws).
Proof.
  intros [H1 H2 H3 H4 H5] Hop. split; try done; destruct op; cbn in *; try done;
    try (by destruct (a_applied ans)); destruct (a_error ans =? 0); try done.
  subst t. cbn. by rewrite lookup_alter_eq, H4.
Qed.

(** An answer whose callback asks whether it may retry. *)
Lemma serve_error w a c t q ws cb cb1 op e :
  EnvOk → waiting w a c t q ws cb op → a_error e ≠ 0 →
  (∀ w', chain_at w' a c t q ws → run_callback cb e a w' =
     exec_next a t q (NContinue false c ws cb1 (OpOnError t (a_error e))) w') →
  ∃ w', served a w [e] w' ∧ waiting w' a c t q ws cb1 (OpOnError t (a_error e)) ∧
    w_commits w' = w_commits w ++ committed op e ws ∧ w_responses w' = w_responses w.
Proof.
  intros HE Hw Herr Hrun. pose proof (wt_at _ _ _ _ _ _ _ _ Hw) as Hat.
  pose proof (chain_ok_op_tr _ _ _ _ _ (waiting_chain_ok _ _ _ _ _ _ _ _ Hw)) as Hop.
  pose proof (chain_at_effect w a c t q ws op e Hat Hop) as Hat'.
  assert (effect_ws op e ws = ws) as Ews.
  { destruct op; cbn; try done. by rewrite (proj2 (Z.eqb_neq _ _) Herr). }
  rewrite Ews in Hat'.
  destruct (serve_continue_log w (future_effect op e w) a c t q ws cb op e false c ws cb1
    (OpOnError t (a_error e))) as (w1 & Hs & Hw1 & [Hc Hr] & _); try done.
  - by intros ?.
  - by apply Hrun.
  - apply effect_same.
  - apply Hat.
  - apply Hat.
  - exists w1. split_and!; try done. rewrite Hc. by eapply committed_effect.
Qed.

(** The retry is allowed: the chain starts over with an empty transaction. *)
Lemma serve_restart w a c t q ws cb1 cb2 op2 err r c2 :
  EnvOk → waiting w a c t q ws cb1 (OpOnError t err) → a_error r = 0 →
  (∀ w', chain_at w' a c t q [] → run_callback cb1 r a w' =
     exec_next a t q (NContinue false c2 [] cb2 op2) w') →
  ctx_tr c2 = Some t → ctx_req c2 = Some q →
  ∃ w', served a w [r] w' ∧ waiting w' a c2 t q [] cb2 op2 ∧ same_log w w'.
Proof.
  intros HE Hw Hr Hrun Ht2 Hq2. pose proof (wt_at _ _ _ _ _ _ _ _ Hw) as Hat.
  destruct (serve_continue w (future_effect (OpOnError t err) r w) a c t q ws cb1
    (OpOnError t err) r false c2 [] cb2 op2) as (w2 & Hs2 & Hw2 & Hlog & _); try done.
  - apply Hrun. pose proof (chain_at_effect w a c t q ws (OpOnError t err) r Hat eq_refl) as H1.
    cbn [effect_ws] in H1. by rewrite Hr in H1.
  - apply effect_same.
  - apply effect_commits. by left.
  - by exists w2.
Qed.

(** An [on_error] that allows a retry. *)
Definition ans_retry : answer := ans_absent.

(** One answer to a waiting chain, when its callback ends it. *)
Lemma serve_finish w a c t q ws cb op ans r :
  (in_json r = true → ¬ yajl_fails) → waiting w a c t q ws cb op → answer_ok op ans →
  run_callback cb ans a (future_effect op ans w) =
    exec_next a t q (NFinish r) (future_effect op ans w) →
  ∃ w', served a w [ans] w' ∧ inv None w' ∧ w_heap w' !! a = None ∧ w_trs w' !! t = None ∧
    w_responses w' = w_responses w ++ [(q, r)] ∧
    w_commits w' = w_commits (future_effect op ans w).
Proof.
  intros Hy [Hinv Hat [f Hf]] Hans Hrun.
  destruct (wp_future w f _ ans Hinv Hf Hans) as (? & _ & Hwp).
  set (w1 := future_effect op ans w) in *.
  destruct (exec_finish_cases a t q r w1) as [(_ & Hr & Hy')|(w2 & Hfin & Hqu & Hcm & _)];
    [by destruct (Hy Hr)|]. rewrite Hfin in Hrun. destruct Hqu as [_ _ _ _ Qrp _ _ _ _ _].
  assert (step (EvFuture f ans) w = Ok ((), upd_futures (delete f) (upd_heap (delete a)
    (upd_trs (delete t) (add_response (q, r) (upd_reqs (.∖ {[q]}) w2)))))) as Hstep.
  { cbn [step]. unfold future_callback. rewrite M_bind_run. cbn [gets]. rewrite Hf.
    rewrite M_bind_run. cbn [modify f_op f_cb f_ctx]. fold w1. rewrite M_bind_run, Hrun. done. }
  unfold wp in Hwp. cbn [step] in Hstep. rewrite Hstep in Hwp.
  eexists. split; [eapply served_cons; [done|done|exact Hstep|apply served_nil]|].
  split; [done|]. cbn. rewrite !lookup_delete_eq, Qrp, Hcm. split_and!; try done.
  unfold w1. destruct op; cbn; try done; [by destruct (a_applied ans)|by destruct (a_error ans =? 0)].
Qed.
End serving.

(** ** A concrete waiting world *)

Lemma env_ok_ok now : @EnvOk (env_ok now).
Proof. by split. Qed.

(** Request 1 is served by the context at address 2 with transaction 3: it waits for
    future 4. *)
Definition chain_world (c : ctx) (cb : callback) (op : fdb_op) : world :=
  mk_world {[2%nat := c]} {[3%nat := []]} {[4%nat := mk_fcb op cb 2]} {[1%nat]} [] []
    {[0%nat := mk_thread_state true 1 0]}
    (mk_globals (Some 0%nat) 7 (Some 0%nat) (Some 7) [] true) 5 0.

Lemma chain_world_waiting c cb op :
  ctx_tr c = Some 3%nat → ctx_req c = Some 1%nat → chain_ok cb 3 c op [] →
  waiting (chain_world c cb op) 2 c 3 1 [] cb op.
Proof.
  intros Ht Hq Hok.
  assert (∀ a d, w_heap (chain_world c cb op) !! a = Some d → a = 2%nat ∧ d = c) as Hheap
    by (by intros a d Hd; cbn in Hd; apply lookup_singleton_Some in Hd as [<- <-]).
  assert (∀ f p, w_futures (chain_world c cb op) !! f = Some p →
    f = 4%nat ∧ p = mk_fcb op cb 2) as Hfut
    by (by intros f p Hp; cbn in Hp; apply lookup_singleton_Some in Hp as [<- <-]).
  assert (chain_at (chain_world c cb op) 2 c 3 1 []) as Hat.
  { split; try done; cbn; set_solver. }
  split; [|done|by exists 4%nat].
  split.
  - intros f p [-> ->]%Hfut _. exists c, 3%nat, 1%nat, [].
    split_and!; [done|by eapply chain_ok_op_tr|done].
  - intros f1 f2 p1 p2 [-> _]%Hfut [-> _]%Hfut. done.
  - intros a1 a2 c1 c2 t0 [-> _]%Hheap [-> _]%Hheap. done.
  - intros a1 a2 c1 c2 q0 [-> _]%Hheap [-> _]%Hheap. done.
  - intros a d i [-> ->]%Hheap. rewrite Ht, Hq. intros [|]; simplify_eq; cbn; lia.
  - intros i Hi. cbn in *. rewrite !lookup_singleton_ne by lia.
    split_and!; try done; set_solver by lia.
  - cbn. constructor.
  - cbn. set_solver.
  - by eexists.
  - exists 0%nat, (mk_thread_state true 1 0). done.
Qed.

(** A one-line order of warehouse 1, district 3, with the district's answer pending. *)
Definition sample_order : new_order_ctx_t :=
  mk_new_order_ctx (Some 3%nat) (Some 1%nat) (Some 0%nat) 9 1 3 42 1
    (<[0%nat := 1]> (replicate 15 0)) (<[0%nat := 500]> (replicate 15 0))
    (<[0%nat := 5]> (replicate 15 0)) true 0 0 0 0 (replicate 15 0) (replicate 15 0) 0 false.
Definition sample_order_op : fdb_op := OpGet 3 (enc_key (RDistrict 1 3)).
Definition sample_order_world : world :=
  chain_world (CtxNewOrder sample_order) NoOnDistrictRead sample_order_op.

Definition sample_district : district_val_t :=
  mk_district_val (zero_chars 10) (zero_chars 20) (zero_chars 20) (zero_chars 20)
    (zero_chars 2) (zero_chars 9) 17 3000000 3001.
Definition sample_customer : customer_val_t := payment_customer (-1000) 1000 1.
Definition sample_stock : stock_val_t :=
  mk_stock_val 12 (zero_chars 240) 0 0 0 (zero_chars 50).

Lemma sample_order_ok : no_ctx_ok sample_order.
Proof. by split; cbn; try done; forall_list. Qed.

Lemma sample_order_waiting :
  waiting sample_order_world 2 (CtxNewOrder sample_order) 3 1 [] NoOnDistrictRead
    sample_order_op.
Proof. apply chain_world_waiting; [done|done|]. split; [apply sample_order_ok|done]. Qed.
