(* ===== verification/Progress.v ===== *)
(** * Termination: how many futures a request needs

    [chain_left] is the number of futures a chain still waits for when none of them fails.
    A callback whose future holds no error leaves fewer ([chain_next_less]); an error may
    start the chain over, as often as FoundationDB allows a retry. *)

From S2P Require Import Prelude Kv Random Query Values Ctx Runtime Chain NewOrder Payment.
From S2P Require Import ReadTxns Tfb Handlers Invariant Entry Lifecycle Serve.

(** ** The futures a chain has left *)

(** The futures, the pending one included, that the chain of [c] needs when its callback
    is [cb] and nothing fails. *)
Definition chain_left (cb : callback) (c : ctx) : Z :=
  match c, cb with
  | CtxNewOrder c, NoOnDistrictRead => no_ol_cnt c + 3
  | CtxNewOrder c, NoOnCustomerRead => no_ol_cnt c + 2
  | CtxNewOrder c, NoOnStockRead => no_ol_cnt c - no_current_ol c + 1
  | CtxNewOrder c, NoOnErrorRetry => no_ol_cnt c + 4
  | CtxPayment _, PayOnWarehouseRead => 4
  | CtxPayment _, PayOnDistrictRead => 3
  | CtxPayment _, PayOnCustomerRead => 2
  | CtxPayment _, PayOnErrorRetry => 5
  | CtxUpdate c, UpdateOnRead => up_num_query c - up_num_result c + 1
  | _, _ => 1
  end.

(** The whole work of a request: with fifteen order lines NewOrder needs 18 futures, and
    /updates with the 500 rows [get_query_number] allows 501. *)
Lemma chain_left_bounds cb t c op ws : chain_ok cb t c op ws → 1 <= chain_left cb c <= 501.
Proof.
  destruct c as [c|c|c|c|c|c|c|c]; cbn [chain_ok]; try (intros _; destruct cb; cbn; lia).
  - intros [Hc Hok]. pose proof (no_cnt c Hc). pose proof (no_cur c Hc).
    destruct cb; cbn in *; lia.
  - intros [[_ _ Hq Hr] Hok]. destruct cb; cbn in *; lia.
Qed.

Section progress.
Context `{Env} `{RandR}.

Lemma no_next_less now cb t c ws ans timed c' ws' cb' op' :
  no_ctx_ok c → is_Some (no_callback (H := env_ok 0) cb) → a_error ans = 0 →
  (cb = NoOnStockRead → no_current_ol c < no_ol_cnt c) →
  no_next cb t c ws now ans = NContinue timed c' ws' cb' op' →
  chain_left cb' c' < chain_left cb (CtxNewOrder c).
Proof.
  intros Hc [run Hrun] Herr Hcur. pose proof (no_cnt c Hc). unfold no_next, no_start, no_fail.
  rewrite Herr. destruct cb; try done; cbn [negb Z.eqb];
    try (destruct (read_row _ ans) as [x|]; [|done]).
  - intros [= <- <- <- <- <-]. cbn. lia.
  - destruct (Z.leb_spec (no_ol_cnt (no_set_current_ol (no_set_discount c (c_discount x)) 0))
      (no_current_ol (no_set_current_ol (no_set_discount c (c_discount x)) 0))).
    + destruct (fits_s 32 _); [|done]. intros [= <- <- <- <- <-]. cbn. lia.
    + intros [= <- <- <- <- <-]. cbn. lia.
  - destruct (restock _ _) as [qty|]; [|done]. set (c1 := no_take_stock c qty).
    assert (no_ol_cnt c1 = no_ol_cnt c ∧ no_current_ol c1 = no_current_ol c + 1) as [E1 E2]
      by done.
    specialize (Hcur eq_refl).
    destruct (Z.leb_spec (no_ol_cnt c1) (no_current_ol c1)).
    + destruct (fits_s 32 _); [|done]. intros [= <- <- <- <- <-]. cbn [chain_left]. lia.
    + intros [= <- <- <- <- <-]. cbn [chain_left]. lia.
  - intros [= <- <- <- <- <-]. cbn. lia.
Qed.

Lemma pay_next_less now cb t c ws ans timed c' ws' cb' op' :
  a_error ans = 0 → pay_next cb t c ws now ans = NContinue timed c' ws' cb' op' →
  chain_left cb' c' < chain_left cb (CtxPayment c).
Proof.
  intros Herr. unfold pay_next, pay_fail. rewrite Herr.
  destruct cb; try done; cbn [negb Z.eqb]; try (destruct (read_row _ ans); [|done]).
  - intros [= <- <- <- <- <-]. cbn. lia.
  - intros [= <- <- <- <- <-]. cbn. lia.
  - cbv zeta. destruct (payment_fits _ _); [|done]. intros [= <- <- <- <- <-]. cbn. lia.
  - intros [= <- <- <- <- <-]. cbn. lia.
Qed.

Lemma up_next_less cb t c ws seed ans timed c' ws' cb' op' :
  a_error ans = 0 → (cb = UpdateOnRead → up_num_result c < up_num_query c) →
  up_next cb t c ws seed ans = NContinue timed c' ws' cb' op' →
  chain_left cb' c' < chain_left cb (CtxUpdate c).
Proof.
  intros Herr Hlt. unfold up_next. rewrite Herr. destruct cb; try done. cbn [negb Z.eqb].
  specialize (Hlt eq_refl). destruct (numbers_missing c); [done|].
  cbv zeta. destruct (_ <? _); intros [= <- <- <- <- <-]; cbn; lia.
Qed.

(** A callback whose future holds no error leaves a chain that needs fewer futures. *)
Lemma chain_next_less now cb t c op ws ans timed c' ws' cb' op' :
  chain_ok cb t c op ws → a_error ans = 0 →
  chain_next now cb t c (effect_ws op ans ws) ans (NContinue timed c' ws' cb' op') →
  chain_left cb' c' < chain_left cb c.
Proof.
  destruct c as [c|c|c|c|c|c|c|c]; cbn [chain_ok chain_next]; intros Hok Herr Hn;
    try (by destruct Hn as (? & ? & ?)); try done.
  - destruct Hok as [Hc Hok]. symmetry in Hn. eapply no_next_less; [done| |done| |exact Hn].
    + destruct cb; try done; by eexists.
    + intros ->. apply Hok.
  - symmetry in Hn. by eapply pay_next_less.
  - destruct Hok as [Hc Hok], Hn as [seed Hn]. symmetry in Hn.
    eapply up_next_less; [done| |exact Hn]. intros ->. apply Hok.
Qed.

(** ** The futures a world has left *)

Definition future_left (w : world) (p : fdb_callback_ctx_t) : Z :=
  match w_heap w !! f_ctx p with Some c => chain_left (f_cb p) c | None => 0 end.

Definition world_left (w : world) : Z := map_sum (future_left w) (w_futures w).

(** A world of ready futures without errors: one event after the other. *)
Inductive answered : nat → world → world → Prop :=
  | answered_0 w : answered 0 w w
  | answered_S n w f p ans w1 w2 :
      w_futures w !! f = Some p → answer_ok (f_op p) ans → a_error ans = 0 →
      step (EvFuture f ans) w = Ok ((), w1) → answered n w1 w2 → answered (S n) w w2.

Lemma future_less w f p ans w' :
  inv None w → w_futures w !! f = Some p → answer_ok (f_op p) ans → a_error ans = 0 →
  step (EvFuture f ans) w = Ok ((), w') →
  inv None w' ∧ world_left w' < world_left w.
Proof.
  intros Hinv Hp Hans Herr Hstep. destruct (wp_future w f p ans Hinv Hp Hans) as (? & _ & Hi).
  destruct (wp_future_next w f p ans Hinv Hp Hans)
    as (c & t & q & ws & n & now & [Hh _ _ _ _] & _ & Hok & Hnext & Hwp).
  unfold wp in Hi, Hwp. cbn [step] in Hstep. cbn [step] in Hwp.
  rewrite Hstep in Hi, Hwp. split; [done|]. destruct Hwp as [Hmoved _]. clear Hi Hstep.
  pose proof (chain_left_bounds _ _ _ _ _ Hok) as Hb.
  assert (∀ w2 g p', (∀ i, i ≠ f_ctx p → w_heap w2 !! i = w_heap w !! i) →
    delete f (w_futures w) !! g = Some p' → future_left w2 p' = future_left w p') as Hother.
  { intros w2 g p' Hw2 [Hne Hg]%lookup_delete_Some. unfold future_left. rewrite Hw2; [done|].
    intros E. apply Hne. by apply (inv_one _ _ Hinv f g p p'). }
  unfold world_left. rewrite (map_sum_delete _ (w_futures w) f p) by done.
  assert (future_left w p = chain_left (f_cb p) c) as -> by (unfold future_left; by rewrite Hh).
  destruct Hmoved as [timed c' ws' cb op fut -> _ _ Eh _ Ef Hfut _ _|r -> Eh _ Ef _ _];
    rewrite Ef.
  - assert (∀ i, i ≠ f_ctx p → w_heap w' !! i = w_heap w !! i) as Hw'
      by (intros i Hi; by rewrite Eh, lookup_insert_ne).
    destruct fut as [g|].
    + rewrite map_sum_insert.
      2: { apply lookup_delete_None. right. by apply (inv_fresh _ _ Hinv g). }
      rewrite (map_sum_ext _ (future_left w)) by (intros g' p'; by apply Hother).
      pose proof (chain_next_less _ _ _ _ _ _ _ _ _ _ _ _ Hok Herr Hnext).
      unfold future_left at 1. cbn. rewrite Eh, lookup_insert_eq. lia.
    + rewrite (map_sum_ext _ (future_left w)) by (intros g' p'; by apply Hother). lia.
  - rewrite (map_sum_ext _ (future_left w)); [lia|]. intros g' p'. apply Hother.
    intros i Hi. by rewrite Eh, lookup_delete_ne.
Qed.

Lemma future_left_bounds w f p :
  inv None w → w_futures w !! f = Some p → 1 <= future_left w p <= 501.
Proof.
  intros Hinv Hp.
  destruct (inv_chain _ _ Hinv f p Hp) as (c & t & q & ws & [Hh _ _ _ _] & _ & Hok); [done|].
  unfold future_left. rewrite Hh. by eapply chain_left_bounds.
Qed.

Lemma world_left_bound w :
  inv None w → Z.of_nat (size (w_futures w)) <= world_left w <= 501 * Z.of_nat (size (w_futures w)).
Proof.
  intros Hinv. unfold world_left.
  destruct (map_sum_bounds (future_left w) 1 501 (w_futures w)); [|lia].
  intros f p Hp. by eapply future_left_bounds.
Qed.
End progress.

(** ** Properties *)

Section termination.
Context `{Env} `{RandR}.

Lemma answered_left n w w' :
  inv None w → answered n w w' → inv None w' ∧ Z.of_nat n + world_left w' <= world_left w.
Proof.
  intros Hinv Hrun. induction Hrun as [w|n w f p ans w1 w2 Hp Hans Herr Hstep _ IH];
    [split; [done|lia]|].
  destruct (future_less w f p ans w1) as [Hinv1 Hless]; try done.
  destruct (IH Hinv1). split; [done|lia].
Qed.

(** every request ends: from a world that satisfies the invariant, futures that hold no
    error can become ready at most [world_left] times, which is at most 501 per pending
    chain (18 for NewOrder, 4 for Payment); each counts [world_left] down, and it is zero
    exactly when no future is pending. *)
Theorem error_free_runs_terminate (w w' : world) (n : nat) :
  inv None w → answered n w w' →
  Z.of_nat n + world_left w' <= world_left w <= 501 * Z.of_nat (size (w_futures w)) ∧
  (world_left w' = 0 ↔ w_futures w' = ∅).
Proof.
  intros Hinv Hrun. destruct (answered_left n w w' Hinv Hrun) as [Hinv' Hn].
  pose proof (world_left_bound w Hinv). pose proof (world_left_bound w' Hinv').
  split; [lia|]. rewrite <- map_size_empty_iff. lia.
Qed.
End termination.

(** ** Witnesses *)

(** A Payment whose warehouse read is pending has four futures left. *)
Definition progress_payment : payment_ctx_t :=
  mk_payment_ctx (Some 3%nat) (Some 1%nat) (Some 0%nat) 9 1 5 1 3 42 (zero_chars 16) false 5000
    0 0 0 0.
Definition progress_world : world :=
  chain_world (CtxPayment progress_payment) PayOnWarehouseRead (OpGet 3 (enc_key (RWarehouse 1))).

Lemma progress_world_inv : inv None progress_world.
Proof.
  eapply wt_inv, chain_world_waiting; [done|done|]. split; [|done].
  split; cbn; try range; forall_list.
Qed.

Lemma error_free_runs_terminate_witness :
  ∃ w' : world, @answered (env_ok 0) rand_r_posix 1 progress_world w' ∧
    1 + world_left w' <= world_left progress_world <= 501 ∧ w_futures w' = ∅.
Proof.
  eexists.
  assert (@answered (env_ok 0) rand_r_posix 1 progress_world
    (default progress_world (match step (H := env_ok 0) (H0 := rand_r_posix) (EvFuture 4 ans_absent) progress_world with
       Ok (_, w) => Some w | _ => None end))) as Hrun.
  { eapply (answered_S _ _ 4 (mk_fcb (OpGet 3 (enc_key (RWarehouse 1))) PayOnWarehouseRead 2) ans_absent);
      [vm_compute; reflexivity|intros _; reflexivity|reflexivity|vm_compute; reflexivity|apply answered_0]. }
  split; [exact Hrun|].
  destruct (@error_free_runs_terminate (env_ok 0) rand_r_posix progress_world _ 1 progress_world_inv Hrun)
    as [Hb Hz].
  split; [exact Hb|]. apply Hz. vm_compute. reflexivity.
Defined.
