(* ===== verification/Schema.v ===== *)
(** * The schema of the store: what every committed row looks like

    [row_size] is the size of the value a row of each table has in src/tpcc_kv.h (for the
    tables without a struct: 8 bytes for a next order id, 4 for a World row, 1 for the
    new-order marker).  Every transaction the handlers commit stores well-typed rows only,
    so a read that finds a row finds a value long enough for its struct. *)

From S2P Require Import Prelude Kv Random Query Values Ctx Runtime Chain NewOrder Payment.
From S2P Require Import ReadTxns Tfb Handlers Invariant Entry Lifecycle Serve.

(** ** Well-typed rows *)

Definition row_size (r : row) : option nat :=
  match row_table r with
  | TWarehouse => Some (sizeof warehouse_val_t)
  | TDistrict => Some (sizeof district_val_t)
  | TCustomer => Some (sizeof customer_val_t)
  | TCustName => None
  | THistory => Some (sizeof history_val_t)
  | TItem => Some (sizeof item_val_t)
  | TStock => Some (sizeof stock_val_t)
  | TOorder => Some (sizeof oorder_val_t)
  | TNewOrder => Some 1%nat
  | TOrderLine => Some (sizeof order_line_val_t)
  | TNextOId => Some 8%nat
  | TWorld => Some 4%nat
  end.

(** A key of a row of the schema, with a value of the row's size. *)
Definition typed_write (kv : write) : Prop :=
  ∃ r, row_ok r ∧ kv.1 = enc_key r ∧ row_size r = Some (length kv.2) ∧ bytes_ok kv.2.

(** The same, for a row of one of the tables [ts]. *)
Definition typed_in (ts : list table) (kv : write) : Prop :=
  ∃ r, row_ok r ∧ row_table r ∈ ts ∧ kv.1 = enc_key r ∧ row_size r = Some (length kv.2) ∧
    bytes_ok kv.2.

Lemma typed_in_write ts kv : typed_in ts kv → typed_write kv.
Proof. intros (r & ? & _ & ? & ? & ?). by exists r. Qed.

Lemma typed_row ts r v :
  row_ok r → row_table r ∈ ts → row_size r = Some (length v) → bytes_ok v →
  typed_in ts (enc_key r, v).
Proof. intros. by exists r. Qed.

(** A row of another table is not written. *)
Lemma typed_in_other ts ws r :
  Forall (typed_in ts) ws → row_ok r → row_table r ∉ ts → last_write (enc_key r) ws = None.
Proof.
  intros Hws Hr Ht. apply last_write_None. intros (kv & Ek & Hkv)%list_elem_of_fmap.
  destruct (proj1 (Forall_forall _ _) Hws kv Hkv) as (r' & Hr' & Ht' & Ek' & _).
  assert (r = r') as -> by (apply enc_key_inj; congruence). done.
Qed.

(** ** The bytes of a packed struct *)

(** The character arrays of a struct hold bytes; integers are cut to bytes anyway. *)
Definition fval_bytes (f : fld) (v : fval) : Prop := bytes_ok (enc_fval f v) ∧
  length (enc_fval f v) = fld_size f.

Lemma enc_fvals_sized l vs :
  Forall2 fval_bytes l vs → length (enc_fvals l vs) = layout_size l ∧ bytes_ok (enc_fvals l vs).
Proof.
  induction 1 as [|f v l vs [Hb Hl] _ [IH1 IH2]]; [split; [done|constructor]|]. cbn [enc_fvals].
  split; [|by apply Forall_app]. rewrite length_app, Hl, IH1. done.
Qed.

Lemma fint_bytes n s x : fval_bytes (FInt n s) (VInt x).
Proof. split; [apply le_bytes_ok|apply le_bytes_length]. Qed.

Lemma zero_chars_bytes n : fval_bytes (FChars n) (VChars (zero_chars n)).
Proof. split; [|apply zero_chars_length]. apply Forall_replicate. unfold byte_ok. lia. Qed.

Create HintDb schema.
#[export] Hint Resolve fint_bytes zero_chars_bytes : schema.

(** A packed record literal of integers and zeroed arrays is bytes of its struct's size. *)
Ltac packed_row :=
  apply enc_fvals_sized; cbn -[zero_chars];
  repeat (apply Forall2_cons_2 || apply Forall2_nil_2); auto with schema.

(** A key depends on the low 32 bits of its components only. *)
Lemma be32_u32 x : be32 (u32 x) = be32 x.
Proof.
  unfold be32, wrap_u. change (2 ^ 32) with 4294967296. change (2 ^ 24) with 16777216.
  change (2 ^ 16) with 65536. change (2 ^ 8) with 256.
  assert (∀ a b, b ∈ [16777216; 65536; 256; 1] → a = x mod 4294967296 →
    a / b mod 256 = x / b mod 256) as Hb.
  { intros a b Hb ->. rewrite !elem_of_cons in Hb.
    destruct Hb as [->|[->|[->|[->|[]%elem_of_nil]]]];
      Z.to_euclidean_division_equations; lia. }
  rewrite <- (Z.div_1_r (x mod 4294967296)) at 4. rewrite <- (Z.div_1_r x) at 8.
  do 3 (f_equal; [apply Hb; [set_solver|done]|]). f_equal. apply Hb; [set_solver|done].
Qed.

Lemma next_o_id_bytes_sized x : length (next_o_id_bytes x) = 8%nat ∧ bytes_ok (next_o_id_bytes x).
Proof.
  unfold next_o_id_bytes, kv_encode_next_o_id, poke. cbn -[Z.land Z.shiftr].
  split; [done|].
  assert (∀ y, byte_ok (Z.land y 0xFF)) as Hb.
  { intros y. change 0xFF with (Z.ones 8). rewrite Z.land_ones by lia. unfold byte_ok.
    apply Z.mod_pos_bound. lia. }
  repeat (apply Forall_cons_2; [apply Hb|]). apply Forall_nil_2.
Qed.

(** ** What the transactions commit *)

Definition order_tables : list table := [TOorder; TNewOrder; TOrderLine; TNextOId; TStock].
Definition payment_tables : list table := [TWarehouse; TDistrict; TCustomer; THistory].

Lemma world_row_typed id n : typed_in [TWorld] (enc_key (RWorld id), be32 n).
Proof.
  exists (RWorld (u32 id)). cbn [fst snd]. split_and!.
  - split; [|done]. cbn. apply Forall_cons_2; [by apply wrap_u_range|apply Forall_nil_2].
  - by left.
  - unfold enc_key, row_tail, be32s, row_comps. cbn [fmap list_fmap concat row_table].
    by rewrite be32_u32.
  - done.
  - apply be32_bytes_ok.
Qed.

Lemma new_order_typed c now : no_ctx_ok c → Forall (typed_in order_tables) (new_order_writes c now).
Proof.
  intros Hc. destruct (no_ctx_ids c Hc) as (Iw & Id & _). pose proof (no_cnt c Hc).
  destruct (no_ctx_lens c Hc) as (L1 & L2 & _).
  assert (in_u 32 (u32 (no_d_next_o_id c))) as Io by (by apply wrap_u_range).
  unfold new_order_writes. rewrite !Forall_app, !Forall_fmap. split_and!.
  - assert (length (pack (new_order_oorder c now)) = 20%nat ∧
      bytes_ok (pack (new_order_oorder c now))) as [L B] by packed_row.
    repeat apply Forall_cons_2; [| |apply Forall_nil_2]; apply typed_row.
    + split; [by forall_list|done].
    + by left.
    + by rewrite L.
    + done.
    + split; [by forall_list|done].
    + by right; left.
    + done.
    + repeat constructor; done.
  - apply Forall_forall. intros i Hi%elem_of_upto.
    assert (length (pack (order_line_row c i)) = 46%nat ∧
      bytes_ok (pack (order_line_row c i))) as [L B] by packed_row.
    apply typed_row; [|by set_unfold; auto 7|by rewrite L|done]. split; [|done]. cbn. forall_list.
  - destruct (next_o_id_bytes_sized (no_d_next_o_id c + 1)) as [L B].
    apply Forall_cons_2; [|apply Forall_nil_2].
    apply typed_row; [split; [by forall_list|done]|by set_unfold; auto 7|by rewrite L|done].
  - apply Forall_forall. intros i Hi%elem_of_upto.
    assert (length (pack (stock_row c i)) = 306%nat ∧
      bytes_ok (pack (stock_row c i))) as [L B] by packed_row.
    destruct (no_get _ _ i L1 (no_supply c Hc)) as [_ R1]; [lia|].
    destruct (no_get _ _ i L2 (no_items c Hc)) as [_ R2]; [lia|].
    apply typed_row; [|by set_unfold; auto 7|by rewrite L|done]. split; [|done]. cbn. forall_list.
Qed.

Lemma payment_typed c ytd now : pay_ctx_ok c → Forall (typed_in payment_tables) (payment_writes c ytd now).
Proof.
  intros Hc. destruct (pay_ctx_ids c Hc) as (Iw & _ & Icw & Icd & Ic).
  assert (in_u 32 (u32 now)) as In by (by apply wrap_u_range).
  unfold payment_writes.
  set (r1 := payment_warehouse _). set (r2 := payment_district _).
  set (r3 := payment_customer _ _ _). set (r4 := mk_history_val _ _ _).
  assert (length (pack r1) = 93%nat ∧ bytes_ok (pack r1)) as [L1 B1] by packed_row.
  assert (length (pack r2) = 97%nat ∧ bytes_ok (pack r2)) as [L2 B2] by packed_row.
  assert (length (pack r3) = 663%nat ∧ bytes_ok (pack r3)) as [L3 B3] by packed_row.
  assert (length (pack r4) = 36%nat ∧ bytes_ok (pack r4)) as [L4 B4] by packed_row.
  repeat apply Forall_cons_2; [..|apply Forall_nil_2]; apply typed_row;
    try done; try (by rewrite ?L1, ?L2, ?L3, ?L4); try (by set_unfold; auto 7);
    (split; [by forall_list|done]).
Qed.

(** A transaction whose commit is pending holds well-typed rows. *)
Lemma pending_commit_typed cb t c tr ws :
  chain_ok cb t c (OpCommit tr) ws →
  Forall (typed_in match c with
    CtxNewOrder _ => order_tables | CtxPayment _ => payment_tables | _ => [TWorld] end) ws.
Proof.
  destruct c as [c|c|c|c|c|c|c|c]; cbn [chain_ok].
  - intros [Hc Hok]. destruct cb; cbn in Hok; try naive_solver.
    destruct Hok as (_ & _ & now & ->). by apply new_order_typed.
  - intros [Hc Hok]. destruct cb; cbn in Hok; try naive_solver.
    destruct Hok as (_ & ytd & now & _ & ->). by apply payment_typed.
  - intros (_ & _ & ->). constructor.
  - intros (_ & _ & ->). constructor.
  - naive_solver.
  - naive_solver.
  - naive_solver.
  - intros [Hc Hok]. destruct cb; cbn in Hok; try naive_solver.
    destruct Hok as (_ & _ & -> & _). apply Forall_fmap, Forall_forall. intros i _.
    apply world_row_typed.
Qed.

(** ** Requests commit nothing *)

(** What a request leaves alone: the commits and the FDB states of the handlers. *)
Record frame (w w' : world) : Prop := {
  fr_commits : w_commits w' = w_commits w;
  fr_fdb : g_fdb_state (w_globals w') = g_fdb_state (w_globals w);
  fr_handler : g_handler_fdb_state (w_globals w') = g_handler_fdb_state (w_globals w);
  fr_seed : is_Some (g_seed (w_globals w)) → is_Some (g_seed (w_globals w'));
}.

#[export] Instance frame_refl : Reflexive frame.
Proof. by split. Qed.
#[export] Instance frame_trans : Transitive frame.
Proof. intros x y z [] []. split; try (by etrans). naive_solver. Qed.

Definition keeps_frame {A} (m : W A) : Prop := ∀ w a w', m w = Ok (a, w') → frame w w'.

Section keeps.
Context `{Env} `{RandR}.

Lemma keeps_ret {A} (a : A) : keeps_frame (mret a).
Proof. by intros w b w' [= _ <-]. Qed.
Lemma keeps_bind {A B} (m : W A) (k : A → W B) :
  keeps_frame m → (∀ a, keeps_frame (k a)) → keeps_frame (m ≫= k).
Proof.
  intros Hm Hk w b w' (a & w1 & H1 & H2)%M_bind_inv.
  etrans; [by apply (Hm w a)|by apply (Hk a w1 b)].
Qed.
Lemma keeps_lift {A} (o : outcome A) : keeps_frame (lift o).
Proof. intros w a w'. unfold lift. by destruct o; intros [= _ <-]. Qed.
Lemma keeps_gets {A} (f : world → A) : keeps_frame (gets f).
Proof. by intros w a w' [= _ <-]. Qed.
Lemma keeps_fail {A} u : keeps_frame (fail_with u : W A).
Proof. by intros w a w'. Qed.
Lemma keeps_modify f : (∀ w, frame w (f w)) → keeps_frame (modify f).
Proof. intros Hf w a w' [= _ <-]. apply Hf. Qed.
End keeps.

#[export] Hint Resolve keeps_ret keeps_lift keeps_gets keeps_fail : schema.

(** Walk through a handler: its binds, branches and primitive steps. *)
Ltac keeps_step :=
  lazymatch goal with
  | |- keeps_frame (_ ≫= _) => apply keeps_bind
  | |- keeps_frame (modify _) => apply keeps_modify; intros []; by split
  | |- keeps_frame (match ?x with _ => _ end) => destruct x
  | |- ∀ _, _ => intros ?
  | |- keeps_frame (let _ := _ in _) => cbv zeta
  | |- _ => solve [auto with schema nocore]
  end.
Ltac keeps := repeat keeps_step.

Section requests.
Context `{Env} `{RandR}.

Lemma keeps_deref p : keeps_frame (deref p).
Proof. unfold deref. keeps. Qed.
Lemma keeps_fresh : keeps_frame fresh_id.
Proof. unfold fresh_id. keeps. Qed.
Lemma keeps_ext {A} (f : nat → A) : keeps_frame (ext f).
Proof. unfold ext. keeps. Qed.
Hint Resolve keeps_deref keeps_fresh keeps_ext : schema.
Lemma keeps_yajl : keeps_frame yajl_gen_open.
Proof. unfold yajl_gen_open. pose proof (@keeps_ext bool). keeps. Qed.
Hint Resolve keeps_yajl : schema.
Lemma keeps_calloc {A} `{IsCtx A} (zero : A) : keeps_frame (calloc zero).
Proof. unfold calloc. keeps. Qed.
Lemma keeps_load A `{IsCtx A} a : keeps_frame (load A a).
Proof. unfold load. keeps. Qed.
Hint Resolve keeps_calloc keeps_load : schema.
Lemma keeps_store {A} `{IsCtx A} a (x : A) : keeps_frame (store a x).
Proof. unfold store. keeps. Qed.
Lemma keeps_free a : keeps_frame (free a).
Proof. unfold free. keeps. Qed.
Lemma keeps_send q r : keeps_frame (send_response q r).
Proof. unfold send_response. keeps. Qed.
Lemma keeps_load_tr t : keeps_frame (load_tr t).
Proof. unfold load_tr. keeps. Qed.
Lemma keeps_destroy t : keeps_frame (fdb_transaction_destroy t).
Proof. unfold fdb_transaction_destroy. pose proof keeps_load_tr. keeps. Qed.
Lemma keeps_load_thread s : keeps_frame (load_thread s).
Proof. unfold load_thread. keeps. Qed.
Lemma keeps_submit op cb a : keeps_frame (submit_future op cb a).
Proof. unfold submit_future. keeps. Qed.
Hint Resolve keeps_store keeps_free keeps_send keeps_load_tr keeps_destroy keeps_load_thread
  keeps_submit : schema.
Lemma keeps_create s : keeps_frame (fdb_create_transaction s).
Proof. unfold fdb_create_transaction. keeps. Qed.
Lemma keeps_get t k cb a : keeps_frame (fdb_async_get t k cb a).
Proof. unfold fdb_async_get. keeps. Qed.
Lemma keeps_get_range t b e cb a : keeps_frame (fdb_async_get_range t b e cb a).
Proof. unfold fdb_async_get_range. keeps. Qed.
Lemma keeps_commit t cb a : keeps_frame (fdb_async_commit t cb a).
Proof. unfold fdb_async_commit. keeps. Qed.
Lemma keeps_world_id : keeps_frame get_random_world_id.
Proof. unfold get_random_world_id. keeps. Qed.
Lemma keeps_state : keeps_frame handler_state.
Proof. unfold handler_state. keeps. Qed.
Lemma keeps_calloc_u32 n : keeps_frame (calloc_u32 n).
Proof. unfold calloc_u32. pose proof (@keeps_ext bool). keeps. Qed.
Hint Resolve keeps_create keeps_get keeps_get_range keeps_commit keeps_world_id keeps_state
  keeps_calloc_u32 : schema.
Lemma keeps_draw_ids ids l : keeps_frame (draw_ids ids l).
Proof. revert ids. induction l; intros ids; cbn [draw_ids]; keeps. Qed.
Lemma keeps_cached_worlds n : keeps_frame (cached_worlds n).
Proof. induction n; cbn [cached_worlds]; keeps. Qed.
Hint Resolve keeps_draw_ids keeps_cached_worlds : schema.

Lemma keeps_execute tx q s seed : keeps_frame (execute tx q s seed).
Proof.
  destruct tx; cbn [execute]; unfold tpcc_new_order_execute, tpcc_payment_execute,
    tpcc_order_status_execute, tpcc_delivery_execute, tpcc_stock_level_execute,
    h2o_send_error_503; keeps.
Qed.
Hint Resolve keeps_execute : schema.

Lemma keeps_on_req ep path q : keeps_frame (on_req ep path q).
Proof.
  destruct ep; cbn [on_req]; unfold tpcc_new_order_handler, tpcc_payment_handler,
    tpcc_order_status_handler, tpcc_delivery_handler, tpcc_stock_level_handler,
    tpcc_harness_handler, tpcc_harness_dispatch, plaintext_handler, json_handler,
    db_handler, queries_handler, multi_query_next, updates_handler, cached_worlds_handler,
    h2o_send_error_503, send_json; keeps.
Qed.

Lemma keeps_request ep path : keeps_frame (step (EvRequest ep path)).
Proof. cbn [step]. pose proof keeps_on_req. keeps. Qed.

Lemma request_commits ep path w w' :
  step (EvRequest ep path) w = Ok ((), w') → w_commits w' = w_commits w.
Proof. intros Hstep. by apply (keeps_request ep path w () w' Hstep). Qed.
End requests.

(** ** Properties *)

Section typing.
Context `{Env} `{RandR}.

(** C13: the store is well-typed: whatever the environment answers, every transaction that is
    committed on the way from a world that satisfies the invariant (with any chains of any
    handler pending, NewOrders among them) writes only keys of the schema, each with a value
    of exactly the size of the row's struct. *)
Theorem committed_rows_are_well_typed (w0 w : world) (qs : list nat) :
  inv None w0 → Forall (Forall typed_write) (w_commits w0) → wreach w0 qs w →
  Forall (Forall typed_write) (w_commits w).
Proof.
  intros Hb Hw0 Hreach. induction Hreach as [|qs w ev w' Hreach IH Hen Hstep]; [done|].
  pose proof (wreach_inv _ _ _ Hb Hreach) as Hinv.
  destruct ev as [ep path|f ans|q]; [|destruct Hen as (p & Hp & Hans)|done].
  - by rewrite (request_commits ep path w w' Hstep).
  - destruct (wp_future_next w f p ans Hinv Hp Hans)
      as (c & t & q & ws & n & now & [_ _ _ Hws _] & Hop & Hok & _ & Hwp).
    unfold wp in Hwp. rewrite Hstep in Hwp. destruct Hwp as [_ ->].
    destruct (f_op p) as [?|?|tr|? err]; cbn [future_effect op_tr] in *; try done.
    + subst tr. destruct (a_applied ans); [|done]. cbn. rewrite Hws. cbn.
      apply Forall_app. split; [done|]. apply Forall_cons_2; [|apply Forall_nil_2].
      eapply Forall_impl; [by eapply pending_commit_typed|apply typed_in_write].
    + by destruct (a_error ans =? 0).
Qed.
End typing.

(** ** Witnesses *)

(** The one-line order of Serve.v served to its commit: district, customer, stock, commit;
    then an /updates request served to its own. *)
Definition schema_events : list event :=
  [EvFuture 4 (ans_value (pack sample_district)); EvFuture 5 (ans_value (pack sample_customer));
   EvFuture 6 (ans_value (pack sample_stock)); EvFuture 7 ans_done;
   EvRequest EpUpdates any_path; EvFuture 11 (ans_value (be32 77)); EvFuture 12 ans_done].
Definition schema_world (n : nat) : world :=
  fold_left (λ w ev, after ev w) (take n schema_events) sample_order_world.

Lemma schema_world_reached :
  @wreach (env_ok 1700000000) rand_r_posix sample_order_world [8%nat] (schema_world 7).
Proof.
  change [8%nat] with (([] ++ [w_next (schema_world 4)]) : list nat).
  apply (wreach_step _ _ (schema_world 6) (EvFuture 12 ans_done));
    [|eexists; split; [by vm_compute|done]|by vm_compute].
  apply (wreach_step _ _ (schema_world 5) (EvFuture 11 (ans_value (be32 77))));
    [|eexists; split; [by vm_compute|done]|by vm_compute].
  apply (wreach_step _ [] (schema_world 4) (EvRequest EpUpdates any_path));
    [|done|by vm_compute].
  apply (wreach_step _ [] (schema_world 3) (EvFuture 7 ans_done));
    [|eexists; split; [by vm_compute|done]|by vm_compute].
  apply (wreach_step _ [] (schema_world 2) (EvFuture 6 (ans_value (pack sample_stock))));
    [|eexists; split; [by vm_compute|done]|by vm_compute].
  apply (wreach_step _ [] (schema_world 1) (EvFuture 5 (ans_value (pack sample_customer))));
    [|eexists; split; [by vm_compute|done]|by vm_compute].
  apply (wreach_step _ [] (schema_world 0) (EvFuture 4 (ans_value (pack sample_district))));
    [apply wreach_refl|eexists; split; [by vm_compute|done]|by vm_compute].
Qed.

Lemma committed_rows_are_well_typed_witness :
  length <$> w_commits (schema_world 7) = [5%nat; 1%nat] ∧
  Forall (Forall typed_write) (w_commits (schema_world 7)).
Proof.
  split; [vm_compute; reflexivity|].
  apply (@committed_rows_are_well_typed (env_ok 1700000000) rand_r_posix sample_order_world
    (schema_world 7) [8%nat]).
  - exact (wt_inv _ _ _ _ _ _ _ _ sample_order_waiting).
  - apply Forall_nil_2.
  - exact schema_world_reached.
Defined.
