(* ===== verification/Store.v ===== *)
(** * The store behind the transactions, and serial runs against it

    [store] is the key-value state of FoundationDB: a commit applies its writes in order.
    [store_answer]: what a future holds when the store answers it.  [serial]: requests
    served one after the other, each to its end, all futures answered by the store that
    the commits so far have made of [base]. *)

From S2P Require Import Prelude Kv Random Query Values Ctx Runtime Chain NewOrder Payment.
From S2P Require Import ReadTxns Tfb Handlers Invariant Entry Lifecycle Serve Schema.

(** ** The store *)

Abbreviation store := (gmap (list Z) (list Z)).

Definition apply_writes (ws : list write) (db : store) : store :=
  foldl (λ db kv, <[kv.1 := kv.2]> db) db ws.
Arguments apply_writes : simpl never.

(** The row of the struct [A] at a key. *)
Definition row_at (A : Type) `{Packed A} (db : store) (r : row) : option A :=
  match db !! enc_key r with
  | None => None
  | Some v => match load_struct A v with Ok x => Some x | Ub _ => None end
  end.

(** The place of a key among the stored keys, and the place a key selector resolves to:
    the last stored key below its key (or equal to it, if it says so), moved by its
    offset.  A range read selects the keys from the place of its first selector up to,
    and without, that of its second. *)
Definition rank (db : store) (k : list Z) : Z :=
  Z.of_nat (size (filter (λ kv : list Z * list Z, lex_lt kv.1 k = true) db)).
Definition resolve (db : store) (s : key_selector) : Z :=
  rank db (ks_key s) + (if ks_or_equal s && bool_decide (is_Some (db !! ks_key s)) then 1 else 0)
    - 1 + ks_offset s.
Definition selected (db : store) (b e : key_selector) (k : list Z) : Prop :=
  resolve db b <= rank db k < resolve db e.

#[export] Instance selected_dec db b e k : Decision (selected db b e k).
Proof. unfold selected. apply _. Defined.

(** The future of [op] answered by the store: no error; a range read returns the first of
    the pairs selected, up to the [stop] of its batch, which holds at least one when there
    is one; [fdb_transaction_on_error] allows the retry. *)
Definition store_answer (db : store) (op : fdb_op) (ans : answer) : Prop :=
  match op with
  | OpGet _ k => ans = match db !! k with Some v => ans_value v | None => ans_absent end
  | OpGetRange _ b e =>
      ∃ kvs stop, ans = ans_range kvs ∧ Z.of_nat (length kvs) < 2 ^ 31 ∧ NoDup kvs.*1 ∧
        (∀ k v, (k, v) ∈ kvs ↔ db !! k = Some v ∧ selected db b e k ∧ rank db k < stop) ∧
        (kvs = [] → ∀ k, is_Some (db !! k) → ¬ selected db b e k)
  | OpCommit _ => ans = ans_done
  | OpOnError _ _ => ans = ans_retry
  end.

(** The store after the operation of a future. *)
Definition store_after (op : fdb_op) (ws : list write) (db : store) : store :=
  match op with OpCommit _ => apply_writes ws db | _ => db end.

(** The store a world's commits have made of [base]. *)
Definition store_of (base : store) (w : world) : store :=
  apply_writes (concat (w_commits w)) base.

Section store.
Implicit Types (db : store) (k v : list Z).

Lemma apply_writes_app ws1 ws2 db :
  apply_writes (ws1 ++ ws2) db = apply_writes ws2 (apply_writes ws1 db).
Proof. apply foldl_app. Qed.

Lemma lookup_apply_writes k ws db :
  apply_writes ws db !! k = match last_write k ws with Some v => Some v | None => db !! k end.
Proof.
  revert db. induction ws as [|[k' v] ws IH]; intros db; [done|].
  cbn [last_write]. change (apply_writes ((k', v) :: ws) db) with
    (apply_writes ws (<[k' := v]> db)).
  rewrite IH. destruct (last_write k ws); [done|]. rewrite lookup_insert.
  case_decide; by repeat case_decide.
Qed.

(** A write of a struct is read back as that struct; other rows are left alone. *)
Lemma row_at_written (A : Type) `{PackedOk A} ws db r (x : A) :
  struct_ok x → last_write (enc_key r) ws = Some (pack x) →
  row_at A (apply_writes ws db) r = Some x.
Proof.
  intros Hx Hl. unfold row_at. rewrite lookup_apply_writes, Hl.
  by rewrite load_pack_exact.
Qed.

Lemma row_at_same (A : Type) `{Packed A} ws db r :
  last_write (enc_key r) ws = None → row_at A (apply_writes ws db) r = row_at A db r.
Proof. intros Hl. unfold row_at. by rewrite lookup_apply_writes, Hl. Qed.

Lemma store_answer_ok db op ans : store_answer db op ans → answer_ok op ans ∧ a_error ans = 0.
Proof.
  unfold answer_ok. destruct op; cbn.
  - intros ->. by destruct (db !! _).
  - intros (kvs & stop & -> & Hl & _). by split.
  - by intros ->.
  - by intros ->.
Qed.

(** A struct read through the store. *)
Lemma read_row_at (A : Type) `{PackedOk A} db t r ans :
  store_answer db (OpGet t (enc_key r)) ans → read_row A ans = row_at A db r.
Proof.
  cbn [store_answer]. intros ->. unfold row_at, read_row, future_value.
  destruct (db !! enc_key r) as [v|]; [|done].
  cbn [a_value_error ans_value a_value negb Z.eqb]. unfold load_struct.
  destruct (length v <? sizeof A)%nat eqn:E; [done|]. by rewrite E.
Qed.

Lemma effect_ws_answer db op ans ws :
  store_answer db op ans → effect_ws op ans ws = match op with OpOnError _ _ => [] | _ => ws end.
Proof. destruct op; cbn; try done. by intros ->. Qed.
End store.

(** ** What a range read selects *)

Section ranges.
Implicit Types (db : store) (P Q : list Z → bool).

Definition count db P : Z := Z.of_nat (size (filter (λ kv : list Z * list Z, P kv.1 = true) db)).

Lemma count_le db P Q :
  (∀ x, is_Some (db !! x) → P x = true → Q x = true) → count db P <= count db Q.
Proof.
  intros HPQ. unfold count. apply inj_le, map_subseteq_size, map_subseteq_spec.
  intros k v. rewrite !map_lookup_filter_Some. intros [Hk HP]. split; [done|].
  apply HPQ; [by exists v|done].
Qed.

Lemma count_lt db P Q x :
  (∀ x, is_Some (db !! x) → P x = true → Q x = true) →
  is_Some (db !! x) → P x = false → Q x = true → count db P < count db Q.
Proof.
  intros HPQ [v Hx] HP HQ. unfold count. apply inj_lt, map_subset_size. split.
  - apply map_subseteq_spec. intros k y. rewrite !map_lookup_filter_Some. intros [Hk HPk].
    split; [done|]. apply HPQ; [by exists y|done].
  - intros Hsub. assert (filter (λ kv : list Z * list Z, P kv.1 = true) db !! x = Some v) as E.
    { eapply lookup_weaken; [|exact Hsub]. by apply map_lookup_filter_Some. }
    apply map_lookup_filter_Some in E as [_ E]. cbn in E. congruence.
Qed.

(** The stored keys up to a stored key are one more than those below it. *)
Lemma count_upto db k v :
  db !! k = Some v → count db (λ x, negb (lex_lt k x)) = rank db k + 1.
Proof.
  intros Hk. unfold count, rank.
  assert (filter (λ kv : list Z * list Z, negb (lex_lt k kv.1) = true) db =
    <[k := v]> (filter (λ kv : list Z * list Z, lex_lt kv.1 k = true) db)) as ->.
  { apply map_eq. intros x. destruct (decide (x = k)) as [->|Hne].
    - rewrite lookup_insert_eq. apply map_lookup_filter_Some. cbn. by rewrite lex_lt_irrefl.
    - rewrite lookup_insert_ne by done. rewrite !map_lookup_filter. destruct (db !! x); [|done].
      cbn. f_equal. f_equal. destruct (lex_lt k x) eqn:Hkx.
      + apply lex_lt_asym in Hkx. by rewrite Hkx.
      + destruct (lex_lt x k) eqn:Hxk; [done|]. by destruct Hne; apply lex_lt_total. }
  rewrite map_size_insert_None; [lia|]. apply map_lookup_filter_None. right.
  intros y _. cbn. by rewrite lex_lt_irrefl.
Qed.

(** With [or_equal] 0 and [offset] 0 in both selectors, as src/fdb_database.c passes them, a
    stored key is selected when no stored key below [b] is above it, and some stored key
    below [e] is: the range is the one from [b] to [e] moved back by one key. *)
Lemma selected_iff db b e k :
  is_Some (db !! k) →
  selected db (mk_key_selector b false 0) (mk_key_selector e false 0) k ↔
    (∀ x, is_Some (db !! x) → lex_lt x b = true → lex_lt k x = false) ∧
    ∃ x, is_Some (db !! x) ∧ lex_lt k x = true ∧ lex_lt x e = true.
Proof.
  intros [v Hk]. unfold selected, resolve. cbn [ks_key ks_or_equal ks_offset andb].
  pose proof (count_upto db k v Hk) as Hup.
  change (rank db b) with (count db (λ x, lex_lt x b)).
  change (rank db e) with (count db (λ x, lex_lt x e)).
  split.
  - intros [H1 H2]. split.
    + intros x Hx Hxb. destruct (lex_lt k x) eqn:Hkx; [|done].
      assert (count db (λ x, negb (lex_lt k x)) < count db (λ x, lex_lt x b)); [|lia].
      apply (count_lt db _ _ x); try done; [|by rewrite Hkx]. intros y _ Hy%negb_true_iff.
      eapply lex_lt_trans; [|done]. by eapply lex_le_lt_trans.
    + destruct (decide (map_Forall (λ x _, lex_lt x e = true → lex_lt k x = false) db)) as [Ha|Ha].
      * assert (count db (λ x, lex_lt x e) <= count db (λ x, negb (lex_lt k x))); [|lia].
        apply count_le. intros x [y Hx] Hxe. by rewrite (Ha x y Hx Hxe).
      * apply map_not_Forall in Ha as (x & y & Hx & Hn); [|apply _].
        exists x. split; [by exists y|]. destruct (lex_lt x e), (lex_lt k x); naive_solver.
  - intros [H1 (x & Hx & Hkx & Hxe)]. split.
    + assert (count db (λ x, lex_lt x b) <= count db (λ x, negb (lex_lt k x))); [|lia].
      apply count_le. intros y Hy Hyb. by rewrite (H1 y Hy Hyb).
    + assert (count db (λ x, negb (lex_lt k x)) < count db (λ x, lex_lt x e)); [|lia].
      apply (count_lt db _ _ x); try done; [|by rewrite Hkx]. intros y _ Hy%negb_true_iff.
      eapply lex_lt_trans; [|done]. by eapply lex_le_lt_trans.
Qed.

Lemma rank_le db k1 k2 : lex_lt k2 k1 = false → rank db k1 <= rank db k2.
Proof.
  intros Hk. change (count db (λ x, lex_lt x k1) <= count db (λ x, lex_lt x k2)).
  apply count_le. intros x _ Hx. destruct (lex_lt k1 k2) eqn:Hk12.
  - by eapply lex_lt_trans.
  - by rewrite <- (lex_lt_total k1 k2).
Qed.

Lemma rank_inj db k1 k2 :
  is_Some (db !! k1) → is_Some (db !! k2) → rank db k1 = rank db k2 → k1 = k2.
Proof.
  assert (∀ k1 k2, is_Some (db !! k1) → lex_lt k1 k2 = true → rank db k1 < rank db k2) as Hlt.
  { intros x y Hx Hxy. change (count db (λ z, lex_lt z x) < count db (λ z, lex_lt z y)).
    apply (count_lt db _ _ x); [|done|apply lex_lt_irrefl|done].
    intros z _ Hz. by eapply lex_lt_trans. }
  intros H1 H2 E. apply lex_lt_total.
  - destruct (lex_lt k1 k2) eqn:E'; [|done]. specialize (Hlt k1 k2 H1 E'). lia.
  - destruct (lex_lt k2 k1) eqn:E'; [|done]. specialize (Hlt k2 k1 H2 E'). lia.
Qed.

(** The first of the pairs selected, if there is one. *)
Lemma first_selected db b e k :
  is_Some (db !! k) → selected db b e k →
  ∃ k0, is_Some (db !! k0) ∧ selected db b e k0 ∧
    ∀ k', is_Some (db !! k') → selected db b e k' → rank db k0 <= rank db k'.
Proof.
  intros Hk Hsel. remember (Z.to_nat (rank db k)) as n eqn:En. revert k En Hk Hsel.
  induction n as [n IH] using lt_wf_ind. intros k -> Hk Hsel.
  destruct (decide (map_Forall (λ k' _, selected db b e k' → rank db k <= rank db k') db))
    as [Hmin|Hmin].
  - exists k. split; [done|]. split; [done|]. intros k' [v' Hk']. by apply (Hmin k' v').
  - apply map_not_Forall in Hmin as (k' & v' & Hk' & Hn); [|apply _].
    assert (selected db b e k' ∧ rank db k' < rank db k) as [Hsel' Hlt].
    { destruct (decide (selected db b e k')) as [|Hns]; [|by destruct Hn].
      split; [done|]. destruct (decide (rank db k <= rank db k')); [by destruct Hn|lia]. }
    apply (IH (Z.to_nat (rank db k'))) with k'; [|done|by exists v'|done].
    unfold rank in *. lia.
Qed.

(** A range read can always be answered, with one pair if no more. *)
Lemma range_answer_exists db t b e :
  ∃ ans, store_answer db (OpGetRange t b e) ans.
Proof.
  destruct (decide (map_Forall (λ k _, ¬ selected db b e k) db)) as [Hno|Hsome].
  - exists (ans_range []), [], 0. split; [done|]. split; [done|]. split; [apply NoDup_nil_2|].
    split.
    + intros k y. rewrite elem_of_nil. split; [done|]. unfold rank. lia.
    + intros _ k [v Hk]. by apply (Hno k v).
  - apply map_not_Forall in Hsome as (k & v & Hk & Hsel); [|apply _].
    destruct (first_selected db b e k) as (k0 & [v0 Hk0] & Hsel0 & Hmin);
      [by exists v|by apply dec_stable|].
    exists (ans_range [(k0, v0)]), [(k0, v0)], (rank db k0 + 1).
    split; [done|]. split; [done|]. split; [apply NoDup_singleton|]. split; [|done].
    intros k' v'. rewrite list_elem_of_singleton. split.
    + intros [= -> ->]. split; [done|]. split; [done|]. lia.
    + intros (Hk' & Hsel' & Hlt). assert (rank db k0 <= rank db k') by (apply Hmin; [by exists v'|done]).
      assert (k' = k0) as -> by (apply (rank_inj db); [by exists v'|by exists v0|lia]). congruence.
Qed.
End ranges.

(** ** Serial runs *)

Section serial.
Context `{Env} `{RandR} (base : store).

(** The futures pending are answered by the store, until none is. *)
Inductive drained : world → world → Prop :=
  | drained_done w : w_futures w = ∅ → drained w w
  | drained_step w f p ans w1 w2 :
      w_futures w !! f = Some p → store_answer (store_of base w) (f_op p) ans →
      step (EvFuture f ans) w = Ok ((), w1) → drained w1 w2 → drained w w2.

(** Requests served one after the other. *)
Inductive serial (w0 : world) : world → Prop :=
  | serial_start : serial w0 w0
  | serial_request w ep path w1 w2 :
      serial w0 w → enabled w (EvRequest ep path) →
      step (EvRequest ep path) w = Ok ((), w1) → drained w1 w2 → serial w0 w2.

(** ** Invariants of serial runs *)

(** A property of the store and one of the running chain that its callbacks keep. *)
Variables (B : store → Prop) (K : store → callback → ctx → list write → Prop).

Definition chain_keeps : Prop :=
  ∀ db cb t c op ws ans n now,
    chain_ok cb t c op ws → op_tr op = t → store_answer db op ans →
    chain_next now cb t c (effect_ws op ans ws) ans n →
    B db → K db cb c ws →
    B (store_after op ws db) ∧
    match n with
    | NContinue _ c' ws' cb' _ => K (store_after op ws db) cb' c' ws'
    | _ => True
    end.

Definition starts_keep : Prop :=
  ∀ db cb t c op, chain_ok cb t c op [] → first_callback c cb → fresh_ctx c → B db →
    K db cb c [].


(** At most one chain runs. *)
Record serial_inv (w : world) : Prop := {
  si_inv : inv None w;
  si_store : B (store_of base w);
  si_chain : w_futures w = ∅ ∨ ∃ f p c t q ws,
    w_futures w = {[f := p]} ∧ chain_at w (f_ctx p) c t q ws ∧ op_tr (f_op p) = t ∧
    K (store_of base w) (f_cb p) c ws;
}.

Hypothesis Hchain : chain_keeps.
Hypothesis Hstart : starts_keep.

Lemma serial_inv_future w f p ans w1 :
  serial_inv w → w_futures w !! f = Some p → store_answer (store_of base w) (f_op p) ans →
  step (EvFuture f ans) w = Ok ((), w1) → serial_inv w1.
Proof.
  intros [Hinv HB Hc] Hp Hans Hstep. destruct (store_answer_ok _ _ _ Hans) as [Hok Herr].
  destruct (wp_future w f p ans Hinv Hp Hok) as (? & _ & Hi).
  destruct (wp_future_next w f p ans Hinv Hp Hok)
    as (c & t & q & ws & n & now & Hat & Hop & Hcok & Hnext & Hwp).
  unfold wp in Hi, Hwp. cbn [step] in *. rewrite Hstep in Hi, Hwp.
  destruct Hwp as [Hmoved Hcom].
  destruct Hc as [Hc|(f' & p' & c' & t' & q' & ws' & Hf & Hat' & _ & HK)];
    [by rewrite Hc, lookup_empty in Hp|].
  rewrite Hf in Hp. apply lookup_singleton_Some in Hp as [-> ->].
  pose proof Hat as [Hh Ht Hq Hws Hl]. pose proof Hat' as [Hh' Ht' _ Hws' _].
  assert (c' = c) as -> by congruence. assert (t' = t) as -> by congruence.
  assert (ws' = ws) as -> by congruence.
  destruct (Hchain _ _ _ _ _ _ _ _ _ Hcok Hop Hans Hnext HB HK) as [HB' HK'].
  assert (store_of base w1 = store_after (f_op p) ws (store_of base w)) as Est.
  { unfold store_of. rewrite Hcom. destruct (f_op p) as [?|?|tr|? err]; cbn in *; try done.
    - subst ans tr. cbn. rewrite concat_app, apply_writes_app, Hws. cbn. by rewrite app_nil_r.
    - subst ans. done. }
  rewrite <- Est in HB', HK'. split; [done|done|].
  destruct Hmoved as [timed d ws1 cb op fut -> Hdt Hdq Eh Et Ef _ Er _|r -> _ _ Ef _ _].
  - rewrite Hf, delete_singleton_eq in Ef. destruct fut as [g|]; [right|by left].
    exists g, (mk_fcb op cb (f_ctx p)), d, t, q, ws1.
    assert (w_futures w1 = {[g := mk_fcb op cb (f_ctx p)]}) as Ef' by (by rewrite Ef).
    split_and!; [done| | |done].
    + split; [|done|done| |by rewrite Er]; rewrite ?Eh, ?Et; apply lookup_insert_eq.
    + destruct (inv_chain _ _ Hi g (mk_fcb op cb (f_ctx p)))
        as (d' & t' & q2 & ws2 & [Gh Gt _ _ _] & <- & _);
        [by rewrite Ef', lookup_singleton_eq|done|].
      cbn in *. rewrite Eh, lookup_insert_eq in Gh. congruence.
  - left. by rewrite Ef, Hf, delete_singleton_eq.
Qed.

Lemma serial_inv_drained w w' : serial_inv w → drained w w' → serial_inv w' ∧ w_futures w' = ∅.
Proof.
  intros Hs Hd. induction Hd as [w Hf|w f p ans w1 w2 Hp Hans Hstep _ IH]; [done|].
  apply IH. by eapply serial_inv_future.
Qed.

Lemma serial_inv_request w ep path w1 :
  serial_inv w → w_futures w = ∅ → enabled w (EvRequest ep path) →
  step (EvRequest ep path) w = Ok ((), w1) → serial_inv w1.
Proof.
  intros [Hinv HB _] Hf Hen Hstep.
  pose proof (wp_request ep path w Hinv) as Hwp. unfold wp in Hwp. rewrite Hstep in Hwp.
  destruct (arrived_new w Hinv) as (Hinv' & Hq & Hun).
  pose proof (inv_entry _ _ _ Hinv' Hq Hun Hwp) as Hinv1.
  assert (store_of base w1 = store_of base w) as Est.
  { unfold store_of. by rewrite (request_commits ep path w w1 Hstep). }
  split; [done|by rewrite Est|].
  destruct Hwp as [[_ _ Ef _ _ _ _ _]|a t c fut [Eh Et Ef Er _ _ Etr Ereq Efut _ _ Hctx]].
  - left. by rewrite Ef.
  - cbn in Ef. rewrite Hf in Ef. destruct fut as [[f p]|]; [right|by left].
    destruct Efut as (_ & <- & Hok & Hfirst). exists f, p, c, t, (w_next w), [].
    split_and!; [done| |by eapply chain_ok_op_tr|].
    + split; [|done|done| |].
      * rewrite Eh. apply lookup_insert_eq.
      * rewrite Et. apply lookup_insert_eq.
      * rewrite Er. cbn. set_solver.
    + rewrite Est. by eapply Hstart.
Qed.

Lemma serial_inv_run w0 w :
  booted w0 → B (store_of base w0) → serial w0 w → serial_inv w ∧ w_futures w = ∅.
Proof.
  intros Hb HB. induction 1 as [|w ep path w1 w2 _ [IH Hf] Hen Hstep Hd].
  - pose proof (boot_futures _ Hb) as Hf. split; [|done].
    split; [by apply inv_booted|done|by left].
  - eapply serial_inv_drained; [|done]. by eapply serial_inv_request.
Qed.
End serial.

(** ** Properties *)

(** The range the adapter asks for. *)
Lemma get_range_op `{Env} w w' t b e cb a rc f p :
  fdb_async_get_range (Some t) b e cb a w = Ok (rc, w') →
  w_futures w !! f = None → w_futures w' !! f = Some p →
  f_op p = OpGetRange t (mk_key_selector b false 0) (mk_key_selector e false 0).
Proof.
  intros Hcall Hf Hp. destruct (w_trs w !! t) as [ws|] eqn:Ht.
  - pose proof (fdb_async_get_range_eq t ws b e cb a w Ht) as E.
    rewrite M_bind_run, Hcall in E.
    destruct (submit_cases (OpGetRange t (mk_key_selector b false 0)
      (mk_key_selector e false 0)) cb a (-1) w)
      as (w1 & E' & _ & _ & [(w2 & Hq & ->)|[Hq _]]); rewrite E' in E; injection E as ->;
      cbn in Hp; rewrite (q_futures _ _ Hq) in Hp; [|congruence].
    apply lookup_insert_Some in Hp as [[_ <-]|[_ Hp]]; [done|congruence].
  - unfold fdb_async_get_range in Hcall. rewrite M_bind_run in Hcall.
    unfold load_tr, deref, gets, lift, mbind, M_bind in Hcall. cbn in Hcall.
    by rewrite Ht in Hcall.
Qed.

(** C26: the range reads of the adapter are moved back by one key.  The rows answered are
    the first, in key order, of those that lie below some stored key still before the end
    and that no stored key before the begin lies above.  So the last row before the begin
    is read, when the range holds another row; and the last row of the range never is.
    StockLevel reads its stock rows through this. *)
Theorem range_reads_are_shifted `{Env} (w w' : world) (t : nat) (b e : list Z) (cb : callback)
    (a : nat) (rc : Z) (f : nat) (p : fdb_callback_ctx_t) (db : store) (ans : answer) :
  fdb_async_get_range (Some t) b e cb a w = Ok (rc, w') →
  w_futures w !! f = None → w_futures w' !! f = Some p →
  store_answer db (f_op p) ans →
  let stored k := is_Some (db !! k) in
  (∃ stop, ∀ k v, (k, v) ∈ a_kvs ans ↔
     db !! k = Some v ∧ rank db k < stop ∧
     (∀ x, stored x → lex_lt x b = true → lex_lt k x = false) ∧
     (∃ x, stored x ∧ lex_lt k x = true ∧ lex_lt x e = true)) ∧
  (∀ k v, db !! k = Some v → lex_lt k b = true →
     (∀ x, stored x → lex_lt x b = true → lex_lt k x = false) →
     (∃ x, stored x ∧ lex_lt k x = true ∧ lex_lt x e = true) → (k, v) ∈ a_kvs ans) ∧
  (∀ k v, (∀ x, stored x → lex_lt x e = true → lex_lt k x = false) → (k, v) ∉ a_kvs ans).
Proof.
  intros Hcall Hf Hp Hans. cbn zeta.
  rewrite (get_range_op _ _ _ _ _ _ _ _ _ _ Hcall Hf Hp) in Hans.
  destruct Hans as (kvs & stop & -> & _ & _ & Hrows & Hnil). cbn [a_kvs ans_range].
  assert (∀ k v, db !! k = Some v → is_Some (db !! k)) as Hst by (intros k v; by eexists).
  split; [|split].
  - exists stop. intros k v. rewrite Hrows. split.
    + intros (Hk & Hsel & Hlt). by apply selected_iff in Hsel as [? ?]; [|by eapply Hst].
    + intros (Hk & Hlt & H1 & H2). split; [done|]. split; [|done].
      apply selected_iff; [by eapply Hst|done].
  - intros k v Hk Hkb Hlast Hx. apply Hrows. split; [done|].
    assert (selected db (mk_key_selector b false 0) (mk_key_selector e false 0) k) as Hsel
      by (apply selected_iff; [by eapply Hst|done]).
    split; [done|]. destruct kvs as [|[k1 v1] kvs].
    { by destruct (Hnil eq_refl k (Hst _ _ Hk)). }
    destruct (proj1 (Hrows k1 v1)) as (Hk1 & Hsel1 & Hlt1); [by left|].
    apply selected_iff in Hsel1 as [Hle _]; [|by eapply Hst].
    pose proof (rank_le db k k1 (Hle k (Hst _ _ Hk) Hkb)). lia.
  - intros k v Hlast Hin. apply Hrows in Hin as (Hk & Hsel & _).
    apply selected_iff in Hsel as [_ (x & Hx & Hkx & Hxe)]; [|by eapply Hst].
    rewrite (Hlast x Hx Hxe) in Hkx. done.
Qed.

(** ** Witnesses *)

(** Four keys, of which the range from [2] to [4] holds [2] and [3]: [1] and [2] are read. *)
Definition four_keys : store := list_to_map ((λ i, ([i], [])) <$> [1; 2; 3; 4]).
Definition range_world : world :=
  mk_world ∅ {[3%nat := []]} ∅ ∅ [] [] ∅ (mk_globals None 0 None None [] false) 5 0.
Definition four_sel (k : Z) : key_selector := mk_key_selector [k] false 0.

Lemma four_keys_stored k : is_Some (four_keys !! k) → ∃ i, i ∈ [1; 2; 3; 4] ∧ k = [i].
Proof.
  intros [v Hk]. apply elem_of_list_to_map_2, list_elem_of_fmap in Hk as (i & [= -> ->] & Hi).
  by exists i.
Qed.

Lemma four_keys_answer :
  store_answer four_keys (OpGetRange 3 (four_sel 2) (four_sel 4)) (ans_range [([1], []); ([2], [])]).
Proof.
  exists [([1], []); ([2], [])], 4. split; [done|]. split; [by cbn|].
  split; [repeat constructor; set_solver|]. split; [|done]. intros k v.
  destruct (four_keys !! k) as [y|] eqn:Hk.
  - assert (∃ i, i ∈ [1; 2; 3; 4] ∧ k = [i] ∧ y = []) as (i & Hi & -> & ->).
    { apply elem_of_list_to_map_2, list_elem_of_fmap in Hk as (i & [= -> ->] & Hi). by exists i. }
    rewrite !elem_of_cons, elem_of_nil in Hi.
    destruct Hi as [->|[->|[->|[->|[]]]]]; split; rewrite !elem_of_cons, elem_of_nil.
    1, 3: intros Hin; assert (v = []) as -> by naive_solver; unfold selected; split_and!; by vm_compute.
    1, 2: naive_solver.
    1, 3: naive_solver.
    all: intros (_ & [_ Hs] & _); by vm_compute in Hs.
  - split; [|by intros [? _]]. rewrite !elem_of_cons, elem_of_nil.
    by intros [[= -> ->]|[[= -> ->]|[]]].
Qed.

(** Of the answer [1], [2] to the range from [2] to [4]: [1], the last key before the range,
    has to be in it, and [3], its last, cannot be. *)
Lemma range_reads_are_shifted_witness :
  ([1], []) ∈ a_kvs (ans_range [([1], []); ([2], [])]) ∧
  ([3], []) ∉ a_kvs (ans_range [([1], []); ([2], [])]).
Proof.
  destruct (@range_reads_are_shifted (env_ok 0) range_world _ 3 [2] [4] SlOnRangeRead 2 _ 5 _
    four_keys _ eq_refl eq_refl (lookup_insert_eq _ _ _) four_keys_answer) as (_ & Hfirst & Hlast).
  split.
  - apply Hfirst; [by vm_compute|done| |].
    + intros x (i & Hi & ->)%four_keys_stored. rewrite !elem_of_cons, elem_of_nil in Hi.
      destruct Hi as [->|[->|[->|[->|[]]]]]; by vm_compute.
    + exists [2]. split; [by exists []|done].
  - apply Hlast. intros x (i & Hi & ->)%four_keys_stored.
    rewrite !elem_of_cons, elem_of_nil in Hi.
    destruct Hi as [->|[->|[->|[->|[]]]]]; by vm_compute.
Defined.
