(* ===== verification/Scratch.v ===== *)
(** * What a chain of callbacks has in its context

    A context holds the parameters of its request and fields the callbacks fill with what
    they read.  [known cb c] is the context with every field zeroed that no callback before
    [cb] has filled since the chain was started: for the first callback the context as its
    entry leaves it ([clean]), which is also where a retry starts over.

    A chain never looks at the other fields ([chain_next_known]): its steps from two
    contexts that agree on what is known agree, so whatever an attempt that failed has left
    in the context has no effect on the next one; [attempt] is what it does change, the
    seed and with it the customer of a Payment by name. *)

From S2P Require Import Prelude Kv Random Query Values Ctx Runtime Chain NewOrder Payment.
From S2P Require Import ReadTxns Tfb Handlers Invariant Entry.

(** ** The known fields *)

(** The first [n] cells of an array of 15. *)
Definition cut (n : Z) (l : list Z) : list Z :=
  take (Z.to_nat n) l ++ replicate (15 - Z.to_nat n) 0.

Definition no_known (cb : callback) (c : new_order_ctx_t) : new_order_ctx_t :=
  match cb with
  | NoOnCustomerRead =>
      no_set_current_ol (no_set_discount (no_set_stock c (cut 0 []) (cut 0 [])) 0) 0
  | NoOnStockRead =>
      no_set_stock c (cut (no_current_ol c) (no_s_quantity c))
        (cut (no_current_ol c) (no_s_amount c))
  | NoOnCommit =>
      no_set_stock c (cut (no_ol_cnt c) (no_s_quantity c)) (cut (no_ol_cnt c) (no_s_amount c))
  | _ =>
      no_set_current_ol (no_set_discount (no_set_stock (no_set_district c 0 0)
        (cut 0 []) (cut 0 [])) 0) 0
  end.

(** The customer of a payment by name is drawn with the district's row. *)
Definition pc_known_id (c : payment_ctx_t) : payment_ctx_t :=
  if pc_by_name c then pc_set_c_id c 0 (pc_seed c) else c.

Definition pay_known (cb : callback) (c : payment_ctx_t) : payment_ctx_t :=
  match cb with
  | PayOnDistrictRead => pc_known_id (pc_set_d_ytd (pc_set_customer c 0 0) 0)
  | PayOnCustomerRead => pc_set_customer c 0 0
  | PayOnCommit => c
  | _ => pc_known_id (pc_set_w_ytd (pc_set_d_ytd (pc_set_customer c 0 0) 0) 0)
  end.

Definition known (cb : callback) (c : ctx) : ctx :=
  match c with
  | CtxNewOrder c => CtxNewOrder (no_known cb c)
  | CtxPayment c => CtxPayment (pay_known cb c)
  | _ => c
  end.

(** The parameters alone, and a context that holds nothing else. *)
Definition clean (c : ctx) : ctx :=
  match c with
  | CtxNewOrder c => CtxNewOrder (no_known NoOnDistrictRead c)
  | CtxPayment c => CtxPayment (pay_known PayOnWarehouseRead c)
  | _ => c
  end.
Definition untouched (c : ctx) : Prop := clean c = c.

Definition known_next (n : next) : next :=
  match n with
  | NContinue timed c ws cb op => NContinue timed (known cb c) ws cb op
  | _ => n
  end.

(** ** Arrays *)

Lemma arr0_cut n l i : 0 <= i < n → n <= 15 → arr0 (cut n l) i = arr0 l i.
Proof.
  intros Hi Hn. unfold arr0, cut. destruct (decide (Z.to_nat i < length l)%nat) as [Hl|Hl].
  - rewrite lookup_app_l by (rewrite length_take; lia). by rewrite lookup_take_lt by lia.
  - rewrite (lookup_ge_None_2 l) by lia. rewrite lookup_app_r by (rewrite length_take; lia).
    destruct (replicate _ _ !! _) as [x|] eqn:E; [|done].
    by apply lookup_replicate in E as [-> _].
Qed.

Lemma take_cut n l : length l = 15%nat → take (Z.to_nat n) (cut n l) = take (Z.to_nat n) l.
Proof.
  intros Hl. unfold cut. destruct (decide (Z.to_nat n <= 15)%nat).
  - apply take_app_length'. rewrite length_take. lia.
  - replace (15 - Z.to_nat n)%nat with 0%nat by lia. cbn [replicate]. rewrite app_nil_r.
    by rewrite !(take_ge l) by lia.
Qed.

Lemma cut_cut n l : length l = 15%nat → cut n (cut n l) = cut n l.
Proof. intros Hl. unfold cut at 1. by rewrite take_cut. Qed.

Lemma length_cut n l : length l = 15%nat → length (cut n l) = 15%nat.
Proof. intros Hl. unfold cut. rewrite length_app, length_take, length_replicate. lia. Qed.

Lemma cut_insert i x l :
  0 <= i < 15 → length l = 15%nat →
  cut (i + 1) (<[Z.to_nat i := x]> (cut i l)) = cut (i + 1) (<[Z.to_nat i := x]> l).
Proof.
  intros Hi Hl. unfold cut at 1 3. apply (f_equal (.++ _)). apply list_eq. intros j.
  destruct (decide (j < Z.to_nat (i + 1))%nat) as [Hj|Hj].
  2: { by rewrite !lookup_take_ge by lia. }
  rewrite !lookup_take_lt by lia. destruct (decide (j = Z.to_nat i)) as [->|Hne].
  - rewrite !list_lookup_insert_eq; [done|lia|by rewrite length_cut by done; lia].
  - rewrite !list_lookup_insert_ne by done. unfold cut.
    rewrite lookup_app_l by (rewrite length_take; lia). by rewrite lookup_take_lt by lia.
Qed.

(** ** NewOrder *)

Lemma no_writes_known c now :
  no_ctx_ok c → new_order_writes (no_known NoOnCommit c) now = new_order_writes c now.
Proof.
  intros Hc. pose proof (no_cnt c Hc) as Hcnt. unfold new_order_writes.
  cbn [no_known no_set_stock no_ol_cnt no_w_id no_d_id no_d_next_o_id].
  f_equal. f_equal; [|f_equal]; apply list_fmap_ext; intros j i Hi%list_elem_of_lookup_2;
    apply elem_of_upto in Hi;
    unfold order_line_write, order_line_row, stock_write, stock_row; cbn -[pack];
    by rewrite arr0_cut by lia.
Qed.

Lemma no_start_known t c ws now :
  no_ctx_ok c →
  known_next (no_start t (no_known NoOnStockRead c) ws now) = known_next (no_start t c ws now).
Proof.
  intros Hc. pose proof (no_cur c Hc). destruct (no_ctx_lens c Hc) as (_ & _ & _ & L4 & L5).
  unfold no_start. cbn [no_known no_set_stock no_ol_cnt no_current_ol no_d_next_o_id
    no_ol_supply_w no_ol_i_id].
  destruct (Z.leb_spec (no_ol_cnt c) (no_current_ol c)) as [Hle|Hlt].
  - assert (no_current_ol c = no_ol_cnt c) as -> by lia.
    destruct (fits_s 32 _); [|done]. cbn [known_next known].
    change (no_set_stock c (cut (no_ol_cnt c) (no_s_quantity c))
      (cut (no_ol_cnt c) (no_s_amount c))) with (no_known NoOnCommit c).
    rewrite no_writes_known by done. cbn [no_known no_set_stock no_ol_cnt no_s_quantity
      no_s_amount]. by rewrite !cut_cut.
  - cbn [known_next known no_known no_set_stock no_current_ol no_s_quantity no_s_amount].
    by rewrite !cut_cut.
Qed.

(** Contexts that agree on the cells read so far start the same. *)
Lemma no_start_agree t c1 c2 ws now :
  no_ctx_ok c1 → no_ctx_ok c2 → no_known NoOnStockRead c1 = no_known NoOnStockRead c2 →
  known_next (no_start t c1 ws now) = known_next (no_start t c2 ws now).
Proof.
  intros H1 H2 E. by rewrite <- (no_start_known t c1), <- (no_start_known t c2), E.
Qed.

Lemma no_set_stock_cut_ok c n :
  no_ctx_ok c → no_ctx_ok (no_set_stock c (cut n (no_s_quantity c)) (cut n (no_s_amount c))).
Proof.
  intros Hc. destruct (no_ctx_lens c Hc) as (? & ? & ? & ? & ?).
  assert (∀ l, Forall (in_s 32) l → Forall (in_s 32) (cut n l)) as Hcut.
  { intros l Hl. apply Forall_app. split; [by apply Forall_take|].
    apply Forall_replicate. range. }
  destruct Hc. split; try done; [|by apply Hcut..].
  repeat (apply Forall_cons; split; [cbn; by rewrite ?length_cut|]). apply Forall_nil_2.
Qed.

Lemma no_known_ok cb c : no_ctx_ok c → no_ctx_ok (no_known cb c).
Proof.
  intros Hc.
  assert (∀ d, no_ctx_ok d → no_ctx_ok (no_set_current_ol (no_set_discount
    (no_set_stock d (cut 0 []) (cut 0 [])) 0) 0)) as Hz.
  { intros d Hd. exact (proj1 (no_reset_ok _ 0 (no_set_stock_cut_ok d 0 Hd))). }
  destruct cb; try by apply no_set_stock_cut_ok. all: apply Hz; [try done].
  all: apply no_set_district_ok; [done|range].
Qed.

(** A step depends on what is known only. *)
Lemma no_next_known cb t c op ws now ans :
  no_ctx_ok c → no_chain_ok cb t c op ws → a_error ans = 0 →
  known_next (no_next cb t (no_known cb c) ws now ans) =
    known_next (no_next cb t c ws now ans).
Proof.
  intros Hc Hok Herr. pose proof (no_known_ok cb c Hc) as Hk.
  destruct cb; try done; unfold no_next; rewrite Herr; cbn [negb Z.eqb].
  - by destruct (read_row district_val_t ans) as [dv|].
  - destruct (read_row customer_val_t ans) as [cv|]; [|done].
    by apply no_start_agree;
      [exact (proj1 (no_reset_ok _ _ Hk))|exact (proj1 (no_reset_ok _ _ Hc))|].
  - destruct Hok as (_ & Hcur & _). destruct (read_row stock_val_t ans) as [sv|]; [|done].
    destruct (no_ctx_lens c Hc) as (_ & _ & _ & L4 & L5). pose proof (no_cnt c Hc).
    pose proof (no_cur c Hc).
    change (no_ol_quantity (no_known NoOnStockRead c)) with (no_ol_quantity c).
    change (no_current_ol (no_known NoOnStockRead c)) with (no_current_ol c).
    destruct (restock _ _) as [qty|u] eqn:Hq; [|done]. apply restock_range in Hq.
    apply no_start_agree; [by apply no_take_stock_ok..|].
    unfold no_take_stock, no_known.
    cbn [no_set_stock no_set_current_ol no_current_ol no_s_quantity no_s_amount no_ol_quantity].
    by rewrite !cut_insert by (done || lia).
  - done.
  - done.
Qed.

(** ** Payment *)

Ltac by_name c := destruct c as [? ? ? ? ? ? ? ? ? ? [] ? ? ? ? ?]; reflexivity.

(** The draw of the customer sets what it needs. *)
Lemma pay_pick_known `{RandR} c y :
  pay_pick_customer (pc_set_d_ytd (pay_known PayOnDistrictRead c) y) =
    pay_pick_customer (pc_set_d_ytd (pc_set_customer c 0 0) y).
Proof.
  unfold pay_pick_customer, pay_known, pc_known_id.
  destruct c as [? ? ? s ? ? ? ? ? ? [] ? ? ? ? ?]; [|done]. cbn.
  by destruct (get_random_number_defined (CUSTOMERS_PER_DISTRICT - 1) s) as (r & s' & ->).
Qed.

Lemma pay_pick_commutes `{RandR} c b n y :
  pay_pick_customer (pc_set_d_ytd (pc_set_customer c b n) y) =
    pc_set_customer (pay_pick_customer (pc_set_d_ytd c y)) b n.
Proof.
  unfold pay_pick_customer. cbn. destruct (pc_by_name c); [|done].
  by destruct (get_random_number _ _) as [[r s]|].
Qed.

Lemma pay_next_known `{RandR} cb t c op ws now ans :
  pay_chain_ok cb t c op ws → a_error ans = 0 →
  known_next (pay_next cb t (pay_known cb c) ws now ans) =
    known_next (pay_next cb t c ws now ans).
Proof.
  intros Hok Herr. destruct cb; try done; unfold pay_next; rewrite Herr; cbn [negb Z.eqb].
  - destruct (read_row warehouse_val_t ans) as [wv|]; [by_name c|done].
  - destruct (read_row district_val_t ans) as [dv|]; [|done].
    by rewrite pay_pick_known, pay_pick_commutes.
  - by destruct (read_row customer_val_t ans) as [cv|].
  - by_name c.
Qed.

(** ** Chains *)

Section chains.
Context `{RandR}.

Lemma known_next_continue n timed c ws cb op :
  known_next n = NContinue timed (known cb c) ws cb op →
  ∃ c', n = NContinue timed c' ws cb op ∧ known cb c' = known cb c.
Proof. destruct n as [timed' c' ws' cb' op'| |]; [|done..]. intros [= -> E -> -> ->]. by eexists. Qed.

(** The steps of a chain from contexts that agree on what is known. *)
Lemma chain_next_known now cb t c c0 op ws ans timed c' ws' cb' op' :
  chain_ok cb t c op ws → chain_ok cb t c0 op ws → known cb c0 = known cb c →
  a_error ans = 0 → chain_next now cb t c ws ans (NContinue timed c' ws' cb' op') →
  ∃ c0', chain_next now cb t c0 ws ans (NContinue timed c0' ws' cb' op') ∧
    known cb' c0' = known cb' c'.
Proof.
  intros Hok Hok0 E Herr Hn.
  destruct c as [c|c|c|c|c|c|c|c], c0 as [c0|c0|c0|c0|c0|c0|c0|c0]; try discriminate E;
    cbn [chain_next chain_ok] in *; try done; try (by destruct Hn as (? & ? & ?)).
  - injection E as E. destruct Hok as [Hc Hok], Hok0 as [Hc0 Hok0].
    destruct (known_next_continue (no_next cb t c0 ws now ans) timed c' ws' cb' op')
      as (c0' & -> & Ek); [|by exists c0'].
    rewrite <- (no_next_known cb t c0 op), E, (no_next_known cb t c op), <- Hn by done. done.
  - injection E as E. destruct Hok as [Hc Hok], Hok0 as [Hc0 Hok0].
    destruct (known_next_continue (pay_next cb t c0 ws now ans) timed c' ws' cb' op')
      as (c0' & -> & Ek); [|by exists c0'].
    rewrite <- (pay_next_known cb t c0 op), E, (pay_next_known cb t c op), <- Hn by done. done.
  - injection E as ->. by exists c'.
Qed.

(** Waiting for its first future, a chain knows its parameters only. *)
Lemma first_known c cb : first_callback c cb → known cb (clean c) = known cb c.
Proof.
  destruct c as [c|c|c|c|c|c|c|c]; try done; cbn; intros ->; [done|by_name c].
Qed.

Lemma clean_untouched c : untouched (clean c).
Proof.
  destruct c as [c|c|c|c|c|c|c|c]; try done. by_name c.
Qed.

Lemma clean_fresh c : fresh_ctx c → fresh_ctx (clean c).
Proof.
  destruct c as [c|c|c|c|c|c|c|c]; try done. cbn. unfold pc_known_id. cbn.
  by destruct (pc_by_name c).
Qed.

Lemma clean_chain_ok c cb t op :
  first_callback c cb → chain_ok cb t c op [] →
  first_callback (clean c) cb ∧ chain_ok cb t (clean c) op [].
Proof.
  destruct c as [c|c|c|c|c|c|c|c]; try done; cbn [clean chain_ok first_callback].
  - intros -> [Hc Hok]. split; [done|]. split; [by apply no_known_ok|done].
  - intros -> [Hc Hok]. split; [done|].
    unfold pay_known, pc_known_id. cbn. destruct (pc_by_name c) eqn:E.
    all: split; [|done]; destruct Hc as [Hids _ _ ?]; rewrite !Forall_cons in Hids;
      destruct Hids as (? & ? & ? & ? & ? & _).
    all: split; cbn; try done; try range; repeat (apply Forall_cons_2; [done || range|]);
      apply Forall_nil_2.
Qed.

(** ** The attempts of a request *)

(** The parameters of a request's context: what the entry drew for it.  The numbers of an
    /updates request are not among them, its callbacks draw them. *)
Definition params (c : ctx) : ctx :=
  match c with
  | CtxUpdate c =>
      CtxUpdate (mk_update_ctx (up_req c) (up_tr c) (up_num_query c) 0 (up_ids c) None false)
  | _ => clean c
  end.

(** A Payment by name draws its customer in every attempt, from where the attempt before
    left the seed. *)
Definition redraw (c : ctx) : ctx :=
  match c with CtxPayment c => CtxPayment (pay_pick_customer c) | _ => c end.

(** [s] has the parameters of the request [c], its customer drawn [k] times so far. *)
Definition attempt (c s : ctx) : Prop := ∃ k, params s = params (Nat.iter k redraw c).

Lemma attempt_self c : attempt c c.
Proof. by exists 0%nat. Qed.

Lemma params_clean c : params (clean c) = params c.
Proof. destruct c as [c|c|c|c|c|c|c|c]; try done. by_name c. Qed.

Lemma params_redraw c d : params c = params d → params (redraw c) = params (redraw d).
Proof.
  destruct c as [c|c|c|c|c|c|c|c], d as [d|d|d|d|d|d|d|d]; try done. cbn [params clean redraw].
  unfold pay_known, pc_known_id, pay_pick_customer. cbn. intros [= E].
  destruct c as [? ? ? s ? ? ? ? ? ? [] ? ? ? ? ?], d as [? ? ? s' ? ? ? ? ? ? [] ? ? ? ? ?];
    cbn in *; simplify_eq; try done.
  by destruct (get_random_number_defined (CUSTOMERS_PER_DISTRICT - 1) s') as (r & s & ->).
Qed.

(** The callbacks keep the parameters; one of Payment's draws the customer. *)
Lemma no_next_clean cb t c ws now ans timed c' ws' cb' op' :
  no_ctx_ok c → no_next cb t c ws now ans = NContinue timed c' ws' cb' op' →
  clean c' = clean (CtxNewOrder c).
Proof.
  unfold no_next, no_start, no_fail. intros Hc Hn.
  repeat case_match; simplify_eq; done.
Qed.

Lemma pay_next_clean cb t c ws now ans timed c' ws' cb' op' :
  pay_next cb t c ws now ans = NContinue timed c' ws' cb' op' →
  clean c' = clean (CtxPayment c) ∨ clean c' = clean (redraw (CtxPayment c)).
Proof.
  unfold pay_next, pay_fail. intros Hn.
  repeat case_match; simplify_eq; try (by left); try (left; by_name c).
  right. cbn [clean redraw]. unfold pay_pick_customer, pay_known, pc_known_id.
  destruct c as [? ? ? s ? ? ? ? ? ? [] ? ? ? ? ?]; cbn; [|done].
  by destruct (get_random_number_defined (CUSTOMERS_PER_DISTRICT - 1) s) as (r & s' & ->).
Qed.

Lemma chain_next_attempt now cb t c0 c op ws ans timed c' ws' cb' op' :
  chain_ok cb t c op ws → attempt c0 c →
  chain_next now cb t c (effect_ws op ans ws) ans (NContinue timed c' ws' cb' op') →
  attempt c0 c'.
Proof.
  intros Hok [k Hk] Hn.
  assert (params c' = params c ∨ params c' = params (redraw c)) as [E|E].
  { destruct c as [c|c|c|c|c|c|c|c]; cbn [chain_next chain_ok] in *; try done;
      try (by destruct Hn as (? & ? & ?)).
    - left. pose proof (no_next_clean _ _ _ _ _ _ _ _ _ _ _ (proj1 Hok) (eq_sym Hn)) as E.
      by destruct c'.
    - destruct (pay_next_clean _ _ _ _ _ _ _ _ _ _ _ (eq_sym Hn)) as [E|E];
        [left|right]; by destruct c'.
    - left. destruct Hn as [seed Hn]. unfold up_next in Hn. by repeat case_match; simplify_eq. }
  - exists k. by rewrite E.
  - exists (S k). rewrite E. by apply params_redraw.
Qed.
End chains.
