(* ===== verification/Isolation.v ===== *)
(** * Concurrent transactions against FoundationDB's optimistic concurrency control

    FoundationDB serves the reads of a transaction from the store as it was at the
    transaction's read version, remembers the keys read, and refuses a commit when one of
    them has been written since.  [fdb_answers] says so for the futures of src/, and
    [concurrent] are the runs in which the chains of any number of requests interleave
    under it, conflicts, other errors, commits of unknown result and retries included.

    [recorded] notes, for every request of a run, the context its entry left and, for every
    commit, the request it is of.  [solo]: a chain that has run without errors and without
    others against one store, from a given start; that an attempt that failed leaves
    nothing behind that matters is Scratch's [chain_next_known].  Every transaction a
    concurrent run commits is what the chain of its request writes when it runs alone
    against the store it is applied to ([committed_transactions_are_serializable]), so
    whatever solo transactions keep, concurrent runs keep ([concurrent_keeps]). *)

From S2P Require Import Prelude Kv Random Query Values Ctx Runtime Chain NewOrder Payment.
From S2P Require Import ReadTxns Tfb Handlers Invariant Entry Lifecycle Serve Schema Store.
From S2P Require Import Scratch.

(** ** FoundationDB *)

(** An open transaction that has read: the version it reads at, and the keys it has read. *)
Record fdb_txn : Type := mk_fdb_txn {
  tx_version : nat;
  tx_reads : list (list Z);
}.

Section fdb.
Context (base : store).

(** The store after the first [v] commits. *)
Definition store_at (w : world) (v : nat) : store :=
  apply_writes (concat (take v (w_commits w))) base.

(** What a transaction reads: its version is chosen with its first read. *)
Definition snapshot (w : world) (x : option fdb_txn) (v : nat) (reads : list (list Z)) : Prop :=
  match x with
  | Some tx => v = tx_version tx ∧ reads = tx_reads tx
  | None => (v <= length (w_commits w))%nat ∧ reads = []
  end.

(** No key the transaction has read has been written since its version. *)
Definition unchanged (w : world) (x : option fdb_txn) : Prop :=
  match x with
  | Some tx =>
      ∀ k, k ∈ tx_reads tx → k ∉ (concat (drop (tx_version tx) (w_commits w))).*1
  | None => True
  end.

(** The answers FoundationDB may give to an operation of a transaction [x] with the
    buffered writes [ws], and the transaction afterwards.  A read sees the writes buffered
    before.  A commit that is applied, reported as an error or not, had no conflict.  A
    range read leaves no trace here: the one program that makes one never commits. *)
Inductive fdb_answers (w : world) (ws : list write) (x : option fdb_txn) :
    fdb_op → answer → option fdb_txn → Prop :=
  | answers_get t k v reads ans :
      snapshot w x v reads → store_answer (apply_writes ws (store_at w v)) (OpGet t k) ans →
      fdb_answers w ws x (OpGet t k) ans (Some (mk_fdb_txn v (k :: reads)))
  | answers_range t b e v reads ans :
      snapshot w x v reads →
      store_answer (apply_writes ws (store_at w v)) (OpGetRange t b e) ans →
      fdb_answers w ws x (OpGetRange t b e) ans (Some (mk_fdb_txn v reads))
  | answers_commit t ans :
      answer_ok (OpCommit t) ans → (a_applied ans = true → ws = [] ∨ unchanged w x) →
      fdb_answers w ws x (OpCommit t) ans x
  | answers_reset t err ans :
      a_error ans = 0 → fdb_answers w ws x (OpOnError t err) ans None
  | answers_error op ans :
      a_error ans ≠ 0 → (∀ t, op ≠ OpCommit t) → fdb_answers w ws x op ans x.

Lemma fdb_answers_ok w ws x op ans x' : fdb_answers w ws x op ans x' → answer_ok op ans.
Proof.
  destruct 1 as [???? ans _ Ha|?????? _ Ha|?? Ha _|??? _|?? Herr _].
  1, 2: by eapply store_answer_ok.
  - done.
  - by intros ?.
  - by intros ?.
Qed.

(** A transaction is gone when it is destroyed. *)
Definition open_txns (w : world) (X : gmap nat fdb_txn) : gmap nat fdb_txn :=
  filter (λ tx : nat * fdb_txn, is_Some (w_trs w !! tx.1)) X.

(** ** Runs *)

Context `{Env} `{RandR}.

(** Runs from [w0]: requests arrive and futures become ready in any order. *)
Inductive concurrent (w0 : world) : world → gmap nat fdb_txn → Prop :=
  | concurrent_start : concurrent w0 w0 ∅
  | concurrent_request w X ep path w' :
      concurrent w0 w X → enabled w (EvRequest ep path) →
      step (EvRequest ep path) w = Ok ((), w') → concurrent w0 w' X
  | concurrent_future w X f p ans x' w' :
      concurrent w0 w X → w_futures w !! f = Some p →
      fdb_answers w (default [] (w_trs w !! op_tr (f_op p))) (X !! op_tr (f_op p))
        (f_op p) ans x' →
      step (EvFuture f ans) w = Ok ((), w') →
      concurrent w0 w' (open_txns w' (partial_alter (λ _, x') (op_tr (f_op p)) X)).

(** A world whose chains have only been started: the booted process, or any number of
    requests that wait for their first future. *)
Record launched (w : world) : Prop := {
  la_inv : inv None w;
  la_commits : w_commits w = [];
  la_chains : ∀ f p, w_futures w !! f = Some p → ∃ c t q, chain_at w (f_ctx p) c t q [] ∧
    op_tr (f_op p) = t ∧ chain_ok (f_cb p) t c (f_op p) [] ∧
    first_callback c (f_cb p) ∧ fresh_ctx c;
}.

(** ** A chain that runs alone *)

(** The chain waits for [op] with its callback, context and writes, having read only [db]
    since its start with a context that holds nothing but its parameters. *)
Inductive solo (db : store) (t : nat) (s : ctx) :
    callback → ctx → fdb_op → list write → list (list Z) → Prop :=
  | solo_start cb op :
      chain_ok cb t s op [] → first_callback s cb → fresh_ctx s → untouched s →
      solo db t s cb s op [] []
  | solo_read cb c k reads ans now timed c' ws' cb' op' :
      solo db t s cb c (OpGet t k) [] reads → store_answer db (OpGet t k) ans →
      chain_next now cb t c [] ans (NContinue timed c' ws' cb' op') →
      solo db t s cb' c' op' ws' (k :: reads).

(** A transaction that wrote [ws] after its chain ran alone against [db] from [s]. *)
Definition solo_commit_from (db : store) (s : ctx) (ws : list write) : Prop :=
  ∃ t cb c reads, solo db t s cb c (OpCommit t) ws reads.
Definition solo_commit (db : store) (ws : list write) : Prop :=
  ∃ s, solo_commit_from db s ws.

(** ** The requests of a run *)

(** [R] knows the context of every request as it is in [w]. *)
Definition knows_requests (w : world) (R : gmap nat ctx) : Prop :=
  ∀ a c q, w_heap w !! a = Some c → ctx_req c = Some q → R !! q = Some c.

(** The same runs, recorded: [R] has for every request the context its entry has left (at
    the start, the one it waits with), [O] for every commit the request whose future it
    was. *)
Inductive recorded (w0 : world) :
    world → gmap nat fdb_txn → gmap nat ctx → list nat → Prop :=
  | recorded_start R : knows_requests w0 R → recorded w0 w0 ∅ R []
  | recorded_request w X R O ep path w' R' :
      recorded w0 w X R O → step (EvRequest ep path) w = Ok ((), w') →
      (∀ q, q ≠ w_next w → R' !! q = R !! q) →
      (∀ a c, w_heap w' !! a = Some c → ctx_req c = Some (w_next w) →
        R' !! w_next w = Some c) →
      recorded w0 w' X R' O
  | recorded_future w X R O f p c q ans x' w' :
      recorded w0 w X R O → w_futures w !! f = Some p →
      w_heap w !! f_ctx p = Some c → ctx_req c = Some q →
      fdb_answers w (default [] (w_trs w !! op_tr (f_op p))) (X !! op_tr (f_op p))
        (f_op p) ans x' →
      step (EvFuture f ans) w = Ok ((), w') →
      recorded w0 w' (open_txns w' (partial_alter (λ _, x') (op_tr (f_op p)) X)) R
        (O ++ replicate (length (w_commits w') - length (w_commits w)) q).
End fdb.

(** ** The steps of a chain, whatever its handler *)

Section steps.
Context `{RandR}.

Lemma chain_get_ws cb t c t' k ws : chain_ok cb t c (OpGet t' k) ws → ws = [] ∧ t' = t.
Proof.
  intros Hok. split; [|by apply (chain_ok_op_tr _ _ _ _ _ Hok)].
  destruct c; cbn in Hok; try naive_solver.
  all: destruct Hok as [_ Hok]; destruct cb; cbn in Hok; naive_solver.
Qed.

Lemma chain_next_ok now cb t c op ws ans timed c' ws' cb' op' :
  chain_ok cb t c op ws →
  chain_next now cb t c (effect_ws op ans ws) ans (NContinue timed c' ws' cb' op') →
  chain_ok cb' t c' op' ws'.
Proof.
  destruct c; cbn [chain_ok chain_next]; intros Hok Hn; try done; try (by destruct Hn as (? & ? & ?)).
  - destruct Hok as [Hc Hok].
    by destruct (no_next_ok _ _ _ _ _ _ _ _ _ _ _ _ Hc Hok (eq_sym Hn)) as (n & -> & ? & _ & _ & ?).
  - destruct Hok as [Hc Hok].
    by destruct (pay_next_ok _ _ _ _ _ _ _ _ _ _ _ _ Hc Hok (eq_sym Hn)) as (n & -> & ? & _ & _ & ?).
  - destruct Hok as [Hc Hok], Hn as [seed Hn].
    by destruct (up_next_ok _ _ _ _ _ _ _ _ _ _ _ _ Hc Hok (eq_sym Hn)) as (n & -> & ? & _ & _ & ?).
Qed.

(** What the entries know of the parameters, the callbacks do not change. *)
Lemma no_next_params cb t c ws now ans timed c' ws' cb' op' :
  no_next cb t c ws now ans = NContinue timed c' ws' cb' op' →
  ∃ n, c' = CtxNewOrder n ∧ no_ol_cnt n = no_ol_cnt c ∧ no_ol_quantity n = no_ol_quantity c.
Proof.
  unfold no_next, no_start, no_fail. intros Hn.
  repeat case_match; simplify_eq; by eexists.
Qed.

Lemma pay_next_params cb t c ws now ans timed c' ws' cb' op' :
  pay_next cb t c ws now ans = NContinue timed c' ws' cb' op' →
  ∃ n, c' = CtxPayment n ∧ pc_w_id n = pc_w_id c ∧ pc_c_w_id n = pc_c_w_id c ∧
    pc_c_d_id n = pc_c_d_id c.
Proof.
  unfold pay_next, pay_fail, pay_pick_customer. intros Hn.
  repeat case_match; simplify_eq; by eexists.
Qed.

Lemma chain_next_fresh now cb t c ws ans timed c' ws' cb' op' :
  chain_next now cb t c ws ans (NContinue timed c' ws' cb' op') → fresh_ctx c → fresh_ctx c'.
Proof.
  destruct c; cbn [chain_next fresh_ctx]; intros Hn; try done; try (by destruct Hn as (? & ? & ?)).
  - destruct (no_next_params _ _ _ _ _ _ _ _ _ _ _ (eq_sym Hn)) as (n & -> & E1 & E2).
    cbn [fresh_ctx]. by rewrite E1, E2.
  - destruct (pay_next_params _ _ _ _ _ _ _ _ _ _ _ (eq_sym Hn)) as (n & -> & E1 & E2 & E3).
    cbn [fresh_ctx]. by rewrite E1, E2, E3.
  - destruct Hn as [seed Hn]. unfold up_next in Hn.
    by repeat case_match; simplify_eq.
Qed.

(** After an error a chain that goes on asks whether it may retry. *)
Lemma chain_next_error now cb t c op ws ans timed c' ws' cb' op' :
  chain_ok cb t c op ws → a_error ans ≠ 0 →
  chain_next now cb t c (effect_ws op ans ws) ans (NContinue timed c' ws' cb' op') →
  ∃ err, op' = OpOnError t err.
Proof.
  intros Hok Herr%Z.eqb_neq. destruct c; cbn [chain_next]; intros Hn; try done;
    try (by destruct Hn as (? & ? & ?)).
  - unfold no_next, no_fail in Hn. rewrite Herr in Hn.
    destruct cb; cbn [negb] in Hn; simplify_eq; by eexists.
  - unfold pay_next, pay_fail in Hn. rewrite Herr in Hn.
    destruct cb; cbn [negb] in Hn; simplify_eq; by eexists.
  - destruct Hn as [seed Hn]. unfold up_next in Hn. rewrite Herr in Hn. by destruct cb.
Qed.

(** Allowed to retry, it starts over. *)
Lemma chain_next_retry now cb t c err ws ans timed c' ws' cb' op' :
  chain_ok cb t c (OpOnError t err) ws → a_error ans = 0 →
  chain_next now cb t c (effect_ws (OpOnError t err) ans ws) ans
    (NContinue timed c' ws' cb' op') →
  first_callback c' cb' ∧ ws' = [].
Proof.
  intros Hok Herr. cbn [effect_ws]. rewrite Herr. cbn [Z.eqb].
  destruct c; cbn [chain_ok chain_next] in *; intros Hn; try (by destruct Hok as (_ & ? & ?));
    try done.
  - destruct Hok as [_ Hok]. destruct cb; try naive_solver.
    cbn [no_next pay_next] in Hn. rewrite Herr in Hn. cbn [Z.eqb] in Hn.
    by injection Hn as _ -> -> -> _.
  - destruct Hok as [_ Hok]. destruct cb; try naive_solver.
    cbn [no_next pay_next] in Hn. rewrite Herr in Hn. cbn [Z.eqb] in Hn.
    by injection Hn as _ -> -> -> _.
  - destruct Hok as [_ Hok]. destruct cb; naive_solver.
Qed.

(** A commit or a range read without error is the last future of its chain. *)
Lemma chain_next_last now cb t c op ws ans timed c' ws' cb' op' :
  chain_ok cb t c op ws → a_error ans = 0 →
  match op with OpCommit _ | OpGetRange _ _ _ => True | _ => False end →
  ¬ chain_next now cb t c (effect_ws op ans ws) ans (NContinue timed c' ws' cb' op').
Proof.
  intros Hok Herr Hop. destruct c; cbn [chain_ok chain_next] in *; intros Hn; try done;
    try (by destruct Hn as (? & ? & ?)).
  - destruct Hok as [_ Hok]. unfold no_next in Hn. rewrite Herr in Hn. destruct op; try done;
      destruct cb; naive_solver.
  - destruct Hok as [_ Hok]. unfold pay_next in Hn. rewrite Herr in Hn. destruct op; try done;
      destruct cb; naive_solver.
  - destruct Hok as [_ Hok], Hn as [seed Hn]. unfold up_next in Hn. rewrite Herr in Hn.
    destruct op; try done; destruct cb; naive_solver.
Qed.
End steps.

(** ** Solo chains *)

Section solo.
Context `{RandR}.

Lemma solo_ok db t s cb c op ws reads :
  solo db t s cb c op ws reads → chain_ok cb t c op ws ∧ fresh_ctx c.
Proof.
  induction 1 as [|cb c k reads ans now timed c' ws' cb' op' _ [IH1 IH2] _ Hn]; [done|].
  split; [|by eapply chain_next_fresh]. by eapply (chain_next_ok _ _ _ _ (OpGet t k) []).
Qed.

(** A chain that has read only [reads] runs the same against a store that agrees on them. *)
Lemma solo_agree db db' t s cb c op ws reads :
  solo db t s cb c op ws reads → (∀ k, k ∈ reads → db' !! k = db !! k) →
  solo db' t s cb c op ws reads.
Proof.
  induction 1 as [|cb c k reads ans now timed c' ws' cb' op' _ IH Hans Hn]; intros Hag;
    [by apply solo_start|].
  eapply solo_read; [apply IH; set_solver| |done].
  cbn in *. by rewrite Hag by set_solver.
Qed.

(** A chain whose context agrees with that of a solo chain of the request [r] on what it
    knows. *)
Definition solo_like (db : store) (t : nat) (r : ctx) (cb : callback) (c : ctx) (op : fdb_op)
    (ws : list write) (reads : list (list Z)) : Prop :=
  ∃ s c0, attempt r s ∧ known cb c0 = known cb c ∧ solo db t s cb c0 op ws reads.

(** At its start, or started over, every chain is like one that knows its parameters only. *)
Lemma solo_like_start db t r cb c op :
  chain_ok cb t c op [] → first_callback c cb → fresh_ctx c → attempt r c →
  solo_like db t r cb c op [] [].
Proof.
  intros Hok Hfirst Hf [k Hk]. exists (clean c), (clean c).
  destruct (clean_chain_ok c cb t op Hfirst Hok).
  split; [exists k; by rewrite params_clean|]. split; [by apply first_known|].
  apply solo_start; [done|done|by apply clean_fresh|apply clean_untouched].
Qed.

(** What one read without error makes of a chain that waits for it. *)
Lemma solo_next db t r cb c k ws reads ans now timed c' ws' cb' op' :
  chain_ok cb t c (OpGet t k) ws → solo_like db t r cb c (OpGet t k) ws reads →
  store_answer (apply_writes ws db) (OpGet t k) ans →
  chain_next now cb t c ws ans (NContinue timed c' ws' cb' op') →
  solo_like db t r cb' c' op' ws' (k :: reads).
Proof.
  intros Hok (s & c0 & Hr & E & Hs) Hans Hn. destruct (solo_ok _ _ _ _ _ _ _ _ Hs) as [Hok0 _].
  destruct (chain_get_ws _ _ _ _ _ _ Hok) as [-> _].
  destruct (store_answer_ok _ _ _ Hans) as [_ Herr].
  destruct (chain_next_known _ _ _ _ _ _ _ _ _ _ _ _ _ Hok Hok0 E Herr Hn) as (c0' & Hn' & E').
  exists s, c0'. split; [done|]. split; [done|]. by eapply solo_read.
Qed.
End solo.

(** ** The invariant of concurrent runs *)

Section concurrent.
Context `{Env} `{RandR} (base : store).

(** What the transaction [x] of a waiting chain of the request [r] has seen: nothing yet, or
    a store of the past, alone.  While it asks whether it may retry, nothing is known. *)
Definition chain_isolated (w : world) (x : option fdb_txn) (r : ctx) (cb : callback) (t : nat)
    (c : ctx) (op : fdb_op) (ws : list write) : Prop :=
  (fresh_ctx c ∧ attempt r c) ∧ chain_ok cb t c op ws ∧
  match op with
  | OpOnError _ _ => True
  | _ =>
      match x with
      | None => ws = [] ∧ first_callback c cb
      | Some tx =>
          (tx_version tx <= length (w_commits w))%nat ∧
          solo_like (store_at base w (tx_version tx)) t r cb c op ws (tx_reads tx)
      end
  end.

(** The [i]-th commit, of the request [r]. *)
Definition commit_solo (w : world) (r : ctx) (i : nat) (ws : list write) : Prop :=
  ws ≠ [] → ∃ s, attempt r s ∧ solo_commit_from (store_at base w i) s ws.

Record isolated (w : world) (X : gmap nat fdb_txn) (R : gmap nat ctx) (O : list nat)
    : Prop := {
  iso_inv : inv None w;
  iso_open : ∀ t, is_Some (X !! t) → is_Some (w_trs w !! t);
  iso_chains : ∀ f p, w_futures w !! f = Some p → ∃ c t q ws r,
    chain_at w (f_ctx p) c t q ws ∧ op_tr (f_op p) = t ∧ R !! q = Some r ∧
    chain_isolated w (X !! t) r (f_cb p) t c (f_op p) ws;
  iso_commits : ∀ i ws, w_commits w !! i = Some ws → ∃ q r,
    O !! i = Some q ∧ R !! q = Some r ∧ commit_solo w r i ws;
  iso_owners : length O = length (w_commits w);
  iso_arrived : ∀ q, q ∈ O → q ∈ w_reqs w ∨ q ∈ (w_responses w).*1;
}.

(** Commits only add versions. *)
Lemma store_at_grows w w' cs v :
  w_commits w' = w_commits w ++ cs → (v <= length (w_commits w))%nat →
  store_at base w' v = store_at base w v.
Proof. intros E Hv. unfold store_at. by rewrite E, take_app_le. Qed.

Lemma chain_isolated_grows w w' cs x r cb t c op ws :
  w_commits w' = w_commits w ++ cs → chain_isolated w x r cb t c op ws →
  chain_isolated w' x r cb t c op ws.
Proof.
  intros E (Hf & Hok & Hx). split; [done|]. split; [done|]. destruct op; try done.
  all: destruct x as [tx|]; [|done]; destruct Hx as [Hv Hs].
  all: split; [rewrite E, length_app; lia|by rewrite (store_at_grows w w' cs)].
Qed.

(** A chain waiting for a read or its commit has run alone against its snapshot. *)
Lemma isolated_solo w x r cb t c op ws v reads :
  chain_isolated w x r cb t c op ws → (∀ t err, op ≠ OpOnError t err) →
  snapshot w x v reads →
  (v <= length (w_commits w))%nat ∧ solo_like (store_at base w v) t r cb c op ws reads.
Proof.
  intros ([Hf Hr] & Hok & Hx) Hop Hsn. destruct op; try (by edestruct Hop).
  all: destruct x as [tx|]; destruct Hsn as [Hv ->]; [by subst|].
  all: destruct Hx as [-> Hfirst]; split; [done|by apply solo_like_start].
Qed.

(** An unchanged transaction agrees with the latest store on what it has read. *)
Lemma unchanged_agrees w x v reads k :
  unchanged w x → snapshot w x v reads → k ∈ reads →
  store_at base w (length (w_commits w)) !! k = store_at base w v !! k.
Proof.
  intros Hun Hsn Hk. destruct x as [tx|]; destruct Hsn as [Hv ->]; [|set_solver].
  subst v. specialize (Hun k Hk). unfold store_at. rewrite firstn_all.
  rewrite <- (take_drop (tx_version tx) (w_commits w)) at 1.
  rewrite concat_app, apply_writes_app, lookup_apply_writes.
  by rewrite (proj2 (last_write_None _ _) Hun).
Qed.

Lemma snapshot_exists w x : ∃ v reads, snapshot w x v reads.
Proof. destruct x as [tx|]; [by eexists _, _|]. exists 0%nat, []. split; [lia|done]. Qed.

(** A future answered by FoundationDB leaves its chain isolated. *)
Lemma isolated_next w w' cs x x' r cb t c op ws ans now timed c' ws' cb' op' :
  chain_isolated w x r cb t c op ws → fdb_answers base w ws x op ans x' →
  w_commits w' = w_commits w ++ cs →
  chain_next now cb t c (effect_ws op ans ws) ans (NContinue timed c' ws' cb' op') →
  chain_isolated w' x' r cb' t c' op' ws'.
Proof.
  intros Hiso Hans Ecom Hn. pose proof Hiso as ([Hf Hr] & Hok & _).
  pose proof (chain_next_attempt _ _ _ _ _ _ _ _ _ _ _ _ _ Hok Hr Hn) as Hr'.
  pose proof (chain_next_fresh _ _ _ _ _ _ _ _ _ _ _ Hn Hf) as Hf'.
  pose proof (chain_next_ok _ _ _ _ _ _ _ _ _ _ _ _ Hok Hn) as Hok'.
  split; [done|]. split; [done|].
  destruct Hans as [t' k v reads ans Hsn Ha|t' b e v reads ans Hsn Ha|t' ans Ha _|t' err ans Ha
    |op ans Herr Hnc].
  - edestruct isolated_solo as [Hv Hs]; [exact Hiso|done|exact Hsn|].
    destruct (chain_get_ws _ _ _ _ _ _ Hok) as [-> ->].
    pose proof (solo_next _ _ _ _ _ _ _ _ _ _ _ _ _ _ _ Hok Hs Ha Hn) as Hs'.
    rewrite <- (store_at_grows w w' cs) in Hs' by done.
    destruct op'; try done; cbn; rewrite Ecom, length_app; (split; [lia|done]).
  - destruct (store_answer_ok _ _ _ Ha) as [_ Herr].
    by destruct (chain_next_last _ _ _ _ _ _ _ _ _ _ _ _ Hok Herr I Hn).
  - destruct (decide (a_error ans = 0)) as [Herr|Herr].
    + by destruct (chain_next_last _ _ _ _ _ _ _ _ _ _ _ _ Hok Herr I Hn).
    + by destruct (chain_next_error _ _ _ _ _ _ _ _ _ _ _ _ Hok Herr Hn) as [err ->].
  - assert (t' = t) as -> by exact (chain_ok_op_tr _ _ _ _ _ Hok).
    destruct (chain_next_retry _ _ _ _ _ _ _ _ _ _ _ _ Hok Ha Hn) as [??]. by destruct op'.
  - by destruct (chain_next_error _ _ _ _ _ _ _ _ _ _ _ _ Hok Herr Hn) as [err ->].
Qed.

(** A commit that is applied ran alone against the latest store. *)
Lemma isolated_commit w x x' r cb t c t' ws ans :
  chain_isolated w x r cb t c (OpCommit t') ws →
  fdb_answers base w ws x (OpCommit t') ans x' → a_applied ans = true →
  commit_solo w r (length (w_commits w)) ws.
Proof.
  intros Hiso Hans Happ Hne.
  assert (ws = [] ∨ unchanged w x) as [?|Hun]; [|done|].
  { inversion Hans as [| |? ? ? Hc| |? ? ? Hno]; subst; [by apply Hc|by destruct (Hno t')]. }
  destruct (snapshot_exists w x) as (v & reads & Hsn).
  edestruct isolated_solo as (Hv & s & c0 & Hr & _ & Hs); [exact Hiso|done|exact Hsn|].
  pose proof Hiso as (_ & Hok & _). pose proof (chain_ok_op_tr _ _ _ _ _ Hok) as Et.
  cbn in Et. subst t'. exists s. split; [done|]. exists t, cb, c0, reads. eapply solo_agree; [done|].
  intros k Hk. by eapply unchanged_agrees.
Qed.
End concurrent.

(** ** Preservation *)

Section preservation.
Context `{Env} `{RandR} (base : store).

Lemma isolated_launched w R : launched w → knows_requests w R → isolated base w ∅ R [].
Proof.
  intros [Hinv Hcom Hch] HR. split; [done| | | | |].
  - intros t [x Hx]. by rewrite lookup_empty in Hx.
  - intros f p Hp. destruct (Hch f p Hp) as (c & t & q & Hat & Hop & Hok & Hfirst & Hf).
    exists c, t, q, [], c. rewrite lookup_empty. split; [done|]. split; [done|].
    split; [by eapply HR; destruct Hat|]. split; [by split; [|apply attempt_self]|].
    split; [done|]. by destruct (f_op p).
  - intros i ws. by rewrite Hcom, lookup_nil.
  - by rewrite Hcom.
  - intros q. by rewrite elem_of_nil.
Qed.

(** The commits of an isolated world stay solo when others follow. *)
Lemma solo_commits_grow w w' cs (R R' : gmap nat ctx) (O : list nat) q r :
  (∀ i ws, w_commits w !! i = Some ws → ∃ q r,
    O !! i = Some q ∧ R !! q = Some r ∧ commit_solo base w r i ws) →
  length O = length (w_commits w) → (∀ q, q ∈ O → R' !! q = R !! q) →
  (cs = [] ∨ ∃ ws, cs = [ws] ∧ R' !! q = Some r ∧
    commit_solo base w r (length (w_commits w)) ws) →
  w_commits w' = w_commits w ++ cs →
  ∀ i ws, w_commits w' !! i = Some ws → ∃ q' r',
    (O ++ replicate (length cs) q) !! i = Some q' ∧ R' !! q' = Some r' ∧
    commit_solo base w' r' i ws.
Proof.
  intros Hcom HO HR Hcs E i ws. rewrite E, lookup_app_Some. intros [Hi|[Hi Hws]].
  - pose proof (lookup_lt_Some _ _ _ Hi). destruct (Hcom i ws Hi) as (q' & r' & HOi & Hr & Hs).
    exists q', r'. rewrite lookup_app_l by lia. split; [done|].
    rewrite HR by by eapply list_elem_of_lookup_2. split; [done|]. unfold commit_solo.
    by rewrite (store_at_grows base w w' cs) by (done || lia).
  - destruct Hcs as [->|(ws0 & -> & Hr & Hs)]; [by rewrite lookup_nil in Hws|].
    pose proof (lookup_lt_Some _ _ _ Hws) as Hl. cbn in Hl.
    assert (i = length (w_commits w)) as -> by lia. rewrite Nat.sub_diag in Hws.
    injection Hws as <-. exists q, r. rewrite lookup_app_r, HO, Nat.sub_diag by lia.
    split; [done|]. split; [done|]. unfold commit_solo.
    by rewrite (store_at_grows base w w' [ws0]).
Qed.

(** The requests that have arrived stay live or answered. *)
Lemma entry_keeps_requests w w' q :
  entry_post (w_next w) (upd_reqs ({[w_next w]} ∪.) (bump_next w)) w' →
  q ∈ w_reqs w ∨ q ∈ (w_responses w).*1 → q ∈ w_reqs w' ∨ q ∈ (w_responses w').*1.
Proof.
  intros [[_ _ _ Er [r Erp] _ _ _]|a t c fut [_ _ _ Er Erp _ _ _ _ _ _]]; rewrite Er, Erp; cbn;
    rewrite ?fmap_app, ?elem_of_app; cbn; rewrite ?list_elem_of_singleton; [|set_solver].
  destruct (decide (q = w_next w)); set_solver.
Qed.

Lemma moved_keeps_requests f a t q n w w' q' :
  chain_moved f a t q n w w' →
  q' ∈ w_reqs w ∨ q' ∈ (w_responses w).*1 → q' ∈ w_reqs w' ∨ q' ∈ (w_responses w').*1.
Proof.
  intros [? ? ? ? ? ? _ _ _ _ _ _ _ Er Erp|r _ _ _ _ Er Erp]; rewrite Er, Erp; [done|].
  rewrite fmap_app, elem_of_app. cbn. rewrite list_elem_of_singleton.
  destruct (decide (q' = q)); set_solver.
Qed.

Lemma isolated_request w X R O ep path w' R' :
  isolated base w X R O → step (EvRequest ep path) w = Ok ((), w') →
  (∀ q, q ≠ w_next w → R' !! q = R !! q) →
  (∀ a c, w_heap w' !! a = Some c → ctx_req c = Some (w_next w) →
    R' !! w_next w = Some c) →
  isolated base w' X R' O.
Proof.
  intros [Hinv Hopen Hch Hcom HO Harr] Hstep HR HR'.
  pose proof (wp_request ep path w Hinv) as Hwp. unfold wp in Hwp. rewrite Hstep in Hwp.
  destruct (arrived_new w Hinv) as (Hinv' & Hq & Hun).
  pose proof (inv_entry _ _ _ Hinv' Hq Hun Hwp) as Hinv1.
  assert (w_commits w' = w_commits w ++ []) as Ec
    by (by rewrite app_nil_r, (request_commits ep path w w' Hstep)).
  assert (∀ q, q ∈ w_reqs w ∨ q ∈ (w_responses w).*1 → q ≠ w_next w) as Hold.
  { intros q Hq' ->. destruct (inv_fresh _ _ Hinv (w_next w)) as (_ & _ & _ & ? & ?); [done|].
    naive_solver. }
  split; [done| | | | |].
  3: { rewrite <- (app_nil_r O). apply (solo_commits_grow w w' [] R R' O 0%nat (CtxUpdate update_ctx_zero));
         [done|done| |by left|done]. intros q Hq'. by apply HR, Hold, Harr. }
  3: { by rewrite Ec, app_nil_r. }
  3: { intros q Hq'%Harr. by eapply entry_keeps_requests. }
  - intros t Ht. apply Hopen in Ht.
    destruct Hwp as [[_ Et _ _ _ _ _ _]|a t' c fut [_ Et _ _ _ _ _ _ _ _ _ _]]; rewrite Et;
      [done|]. rewrite lookup_insert_is_Some'. by right.
  - intros f p Hp.
    destruct Hwp as [[Eh Et Ef Er _ _ _ _]|a t c fut
      [Eh Et Ef Er _ [[Ha _] [Ht _]] Etr Ereq Efut _ _ Hctx]]; rewrite Ef in Hp; cbn in *.
    + destruct (Hch f p Hp) as (c & t & q & ws & r & [Gh Gt Gq Gw Gl] & Hop & Hr & Hiso).
      exists c, t, q, ws, r. destruct (Hun _ _ Gh) as [_ Hne].
      split_and!; [|done|by rewrite HR by congruence|by eapply chain_isolated_grows].
      split; rewrite ?Eh, ?Et, ?Er; try done. set_solver.
    + assert (fut = Some (f, p) ∨ w_futures w !! f = Some p) as [->|Hp'].
      { destruct fut as [[g p']|]; [|by right]. rewrite lookup_insert in Hp.
        case_decide; [left|by right]. congruence. }
      * destruct Efut as (_ & <- & Hok & Hfirst). exists c, t, (w_next w), [], c.
        assert (X !! t = None) as ->.
        { apply eq_None_not_Some. intros [ws Hws]%Hopen.
          destruct (inv_fresh _ _ Hinv t) as (_ & E & _); [lia|congruence]. }
        split; [|split; [by eapply chain_ok_op_tr|split]].
        -- split; rewrite ?Eh, ?Et, ?Er, ?lookup_insert_eq; (done || set_solver).
        -- apply (HR' (f_ctx p)); [by rewrite Eh, lookup_insert_eq|done].
        -- split; [by split; [|apply attempt_self]|]. split; [done|]. by destruct (f_op p).
      * destruct (Hch f p Hp') as (d & t' & q & ws & r & [Gh Gt Gq Gw Gl] & Hop & Hr & Hiso).
        exists d, t', q, ws, r. destruct (Hun _ _ Gh) as [_ Hne].
        split_and!; [|done|by rewrite HR by congruence|by eapply chain_isolated_grows].
        destruct (inv_fresh _ _ Hinv a) as (Fa & _); [lia|].
        destruct (inv_fresh _ _ Hinv t) as (_ & Ft & _); [lia|].
        split; rewrite ?Eh, ?Et, ?Er, ?lookup_insert_ne by congruence; (done || set_solver).
Qed.
Lemma future_effect_commits w f p ans c t q ws :
  w_futures w !! f = Some p → chain_at w (f_ctx p) c t q ws → op_tr (f_op p) = t →
  w_commits (future_effect (f_op p) ans w) = w_commits w ++ committed (f_op p) ans ws.
Proof.
  intros _ Hat Hop. by eapply committed_effect.
Qed.

(** Another chain does not notice. *)
Lemma moved_other w w' f p c t q ws n g p' c' t' q' ws' :
  inv None w → w_futures w !! f = Some p → chain_at w (f_ctx p) c t q ws →
  chain_moved f (f_ctx p) t q n w w' → w_futures w !! g = Some p' → g ≠ f →
  chain_at w (f_ctx p') c' t' q' ws' → chain_at w' (f_ctx p') c' t' q' ws' ∧ t' ≠ t.
Proof.
  intros Hinv Hp Hat Hmoved Hg Hne Hat'.
  assert (f_ctx p' ≠ f_ctx p) as Ha.
  { intros E. apply Hne. by apply (inv_one _ _ Hinv g f p' p). }
  split.
  - eapply (chain_at_other w w' _ _ _ _ _ _ _ _ _ _ Hat Hat' Ha);
      [| | |apply (inv_tr _ _ Hinv)|apply (inv_req _ _ Hinv)];
      destruct Hmoved as [????? fut _ _ _ Eh Et _ _ Er _|? _ Eh Et _ Er _]; intros i Hi;
      rewrite ?Eh, ?Et, ?Er, ?lookup_insert_ne, ?lookup_delete_ne by done; (done || set_solver).
  - intros ->. destruct Hat as [Hh Ht _ _ _], Hat' as [Hh' Ht' _ _ _].
    apply Ha. by eapply (inv_tr _ _ Hinv).
Qed.

Lemma lookup_open_txns w X t : is_Some (w_trs w !! t) → open_txns w X !! t = X !! t.
Proof.
  intros Ht. unfold open_txns. rewrite map_lookup_filter. destruct (X !! t) as [x|]; [|done].
  cbn. by rewrite option_guard_True.
Qed.

Lemma isolated_future w X R O f p c q ans x' w' :
  isolated base w X R O → w_futures w !! f = Some p →
  w_heap w !! f_ctx p = Some c → ctx_req c = Some q →
  fdb_answers base w (default [] (w_trs w !! op_tr (f_op p))) (X !! op_tr (f_op p))
    (f_op p) ans x' →
  step (EvFuture f ans) w = Ok ((), w') →
  isolated base w' (open_txns w' (partial_alter (λ _, x') (op_tr (f_op p)) X)) R
    (O ++ replicate (length (w_commits w') - length (w_commits w)) q).
Proof.
  intros [Hinv Hopen Hch Hcom HO Harr] Hp Hc Hq Hans Hstep. pose proof (fdb_answers_ok _ _ _ _ _ _ _ Hans) as Ha.
  destruct (wp_future w f p ans Hinv Hp Ha) as (cw & _ & Hinv').
  destruct (wp_future_next w f p ans Hinv Hp Ha)
    as (c1 & t & q1 & ws & n & now & Hat & Hop & Hok & Hnext & Hwp).
  assert (c1 = c) as -> by (destruct Hat; congruence).
  assert (q1 = q) as -> by (destruct Hat; congruence).
  unfold wp in Hinv', Hwp. cbn [step] in *. rewrite Hstep in Hinv', Hwp.
  destruct Hwp as [Hmoved Ec]. rewrite (future_effect_commits _ f _ _ c t q ws Hp Hat Hop) in Ec.
  destruct (Hch f p Hp) as (c0 & t0 & q0 & ws0 & r & Hat0 & Hop0 & Hr & Hiso).
  pose proof Hat as [Gh Gt Gq Gw Gl]. destruct Hat0 as [Gh0 Gt0 Gq0 Gw0 _].
  subst t t0. assert (c0 = c) as -> by congruence. assert (q0 = q) as -> by congruence.
  assert (ws0 = ws) as -> by congruence. rewrite Gw in Hans. cbn [default from_option id] in Hans.
  rewrite Ec, length_app, Nat.add_sub_swap, Nat.sub_diag by lia. cbn [Nat.add].
  split; [done| | | | |].
  - intros t [x Hx]. unfold open_txns in Hx. by apply map_lookup_filter_Some in Hx as [_ Hx].
  - intros g p' Hg.
    assert (g ≠ f ∧ w_futures w !! g = Some p' ∨
      ∃ timed c' ws' cb op, n = NContinue timed c' ws' cb op ∧ p' = mk_fcb op cb (f_ctx p) ∧
        chain_at w' (f_ctx p) c' (op_tr (f_op p)) q ws') as [[Hne Hg']|Hnew].
    { destruct Hmoved as [timed c' ws' cb op fut -> Et' Eq' Eh Et Ef _ Er _|rsp -> _ _ Ef _ _];
        rewrite Ef in Hg; [|by apply lookup_delete_Some in Hg as [? ?]; left].
      destruct fut as [h|]; [|by apply lookup_delete_Some in Hg as [? ?]; left].
      rewrite lookup_insert in Hg. case_decide; [right|by apply lookup_delete_Some in Hg as [? ?]; left].
      simplify_eq. eexists timed, c', ws', cb, op. split; [done|]. split; [done|].
      by split; rewrite ?Eh, ?Et, ?Er, ?lookup_insert_eq. }
    + destruct (Hch g p' Hg') as (d & t' & q' & ws' & r' & Hat' & Hop' & Hr' & Hiso').
      destruct (moved_other _ _ _ _ _ _ _ _ _ _ _ _ _ _ _ Hinv Hp Hat Hmoved Hg' Hne Hat')
        as [Hat2 Hne2].
      exists d, t', q', ws', r'. do 3 (split; [done|]).
      rewrite lookup_open_txns, lookup_partial_alter_ne by (done || by destruct Hat2).
      by eapply chain_isolated_grows.
    + destruct Hnew as (timed & c' & ws' & cb & op & -> & -> & Hat2).
      exists c', (op_tr (f_op p)), q, ws', r.
      pose proof (isolated_next base w w' _ _ _ _ _ _ _ _ _ _ _ _ _ _ _ _ Hiso Hans Ec Hnext) as Hi.
      split; [done|]. split; [by apply (chain_ok_op_tr _ _ _ _ _ (proj1 (proj2 Hi)))|].
      split; [done|].
      by rewrite lookup_open_txns, lookup_partial_alter_eq by by destruct Hat2.
  - apply (solo_commits_grow w w' (committed (f_op p) ans ws) R R O q r); try done. unfold committed.
    destruct (f_op p) as [| |t'|] eqn:Eop; try (by left). destruct (a_applied ans) eqn:Happ; [|by left].
    right. exists ws. split; [done|]. split; [done|]. by eapply isolated_commit.
  - by rewrite Ec, !length_app, length_replicate, HO.
  - intros q' [Hq'|[-> _]%elem_of_replicate]%elem_of_app; eapply moved_keeps_requests; try done;
      [by apply Harr|by left].
Qed.

Lemma recorded_isolated w0 w X R O :
  launched w0 → recorded base w0 w X R O → isolated base w X R O.
Proof.
  intros Hw0. induction 1 as [R HR|w X R O ep path w' R' _ IH Hstep HR HR'
    |w X R O f p c q ans x' w' _ IH Hp Hc Hq Hans Hstep].
  - by apply isolated_launched.
  - by eapply isolated_request.
  - by eapply isolated_future.
Qed.

(** Every run can be recorded. *)
Lemma requests_known w : inv None w → ∃ R, knows_requests w R.
Proof.
  intros Hinv. pose proof (inv_req _ _ Hinv) as Hreq. unfold knows_requests. revert Hreq.
  generalize (w_heap w). intros h. induction h as [|a c h Ha IH] using map_ind; intros Hreq.
  { exists ∅. intros a c q. by rewrite lookup_empty. }
  destruct IH as [R HR].
  { intros a1 a2 c1 c2 q H1 H2.
    apply (Hreq a1 a2 c1 c2 q); rewrite lookup_insert_ne; congruence. }
  exists (match ctx_req c with Some q => <[q := c]> R | None => R end).
  intros a' c' q. rewrite lookup_insert. case_decide as E; intros Hc Hq; simplify_eq.
  - by rewrite Hq, lookup_insert_eq.
  - pose proof (HR a' c' q Hc Hq) as HRq. destruct (ctx_req c) as [q'|] eqn:Hq'; [|done].
    rewrite lookup_insert_ne; [done|]. intros ->. apply E.
    by apply (Hreq a a' c c' q); [apply lookup_insert_eq|rewrite lookup_insert_ne|..].
Qed.

Lemma request_known w w' (R : gmap nat ctx) :
  inv None w' → ∃ R' : gmap nat ctx, (∀ q, q ≠ w_next w → R' !! q = R !! q) ∧
    ∀ a c, w_heap w' !! a = Some c → ctx_req c = Some (w_next w) → R' !! w_next w = Some c.
Proof.
  intros [R1 H1]%requests_known.
  exists (partial_alter (λ _, R1 !! w_next w) (w_next w) R). split.
  - intros q Hq. by rewrite lookup_partial_alter_ne.
  - intros a c Ha Hc. rewrite lookup_partial_alter_eq. by eapply H1.
Qed.

Lemma concurrent_recorded w0 w X :
  launched w0 → concurrent base w0 w X → ∃ R O, recorded base w0 w X R O.
Proof.
  intros Hw0. induction 1 as [|w X ep path w' _ (R & O & IH) Hen Hstep
    |w X f p ans x' w' _ (R & O & IH) Hp Hans Hstep].
  - destruct (requests_known w0 (la_inv _ Hw0)) as [R HR]. exists R, []. by apply recorded_start.
  - pose proof (iso_inv _ _ _ _ _ (recorded_isolated _ _ _ _ _ Hw0 IH)) as Hinv.
    pose proof (wp_step w _ Hinv Hen) as Hwp. unfold wp in Hwp. rewrite Hstep in Hwp.
    destruct (request_known w w' R Hwp) as (R' & ? & ?). exists R', O.
    by eapply recorded_request.
  - pose proof (iso_inv _ _ _ _ _ (recorded_isolated _ _ _ _ _ Hw0 IH)) as Hinv.
    destruct (inv_chain _ _ Hinv f p Hp) as (c & t & q & ws & [? _ ? _ _] & _); [done|].
    eexists R, _. by eapply recorded_future.
Qed.

Lemma concurrent_isolated w0 w X :
  launched w0 → concurrent base w0 w X → ∃ R O, isolated base w X R O.
Proof.
  intros Hw0 (R & O & Hr)%concurrent_recorded; [|done]. exists R, O.
  by eapply recorded_isolated.
Qed.

Lemma store_at_commit w i ws :
  w_commits w !! i = Some ws →
  store_at base w (S i) = apply_writes ws (store_at base w i).
Proof.
  intros Hi. unfold store_at. rewrite (take_S_r _ _ ws Hi), concat_app, apply_writes_app.
  cbn. by rewrite app_nil_r.
Qed.

(** What every solo transaction keeps holds of all versions of the store. *)
Lemma concurrent_keeps (B : store → Prop) w0 w X :
  (∀ db ws, solo_commit db ws → B db → B (apply_writes ws db)) →
  launched w0 → concurrent base w0 w X → B base → ∀ v, B (store_at base w v).
Proof.
  intros HB Hw0 Hr Hbase.
  destruct (concurrent_isolated _ _ _ Hw0 Hr) as (R & O & [_ _ _ Hcom _ _]).
  induction v as [|v IH]; [done|]. destruct (w_commits w !! v) as [ws|] eqn:Hv.
  - rewrite (store_at_commit w v ws Hv). destruct (Hcom v ws Hv) as (q & r & _ & _ & Hs).
    destruct ws as [|kv ws]; [done|]. destruct Hs as (s & _ & Hs); [done|].
    apply HB; [by exists s|done].
  - unfold store_at in *. apply lookup_ge_None in Hv. rewrite take_ge in IH |- * by lia. done.
Qed.
End preservation.

(** ** An executable FoundationDB *)

(** Reads at the latest version, commits that conflict refused with [not_committed]. *)
Definition conflict_free (w : world) (ws : list write) (x : option fdb_txn) : bool :=
  match ws, x with
  | _ :: _, Some tx =>
      forallb (λ k, negb (bool_decide (k ∈ (concat (drop (tx_version tx) (w_commits w))).*1)))
        (tx_reads tx)
  | _, _ => true
  end.

Definition fdb_serve (base : store) (w : world) (ws : list write) (x : option fdb_txn)
    (op : fdb_op) : option (answer * option fdb_txn) :=
  match op with
  | OpGet _ k =>
      let v := match x with Some tx => tx_version tx | None => length (w_commits w) end in
      let reads := match x with Some tx => tx_reads tx | None => [] end in
      let db := apply_writes ws (store_at base w v) in
      Some (match db !! k with Some y => ans_value y | None => ans_absent end,
        Some (mk_fdb_txn v (k :: reads)))
  | OpGetRange _ _ _ => None
  | OpCommit _ => Some (if conflict_free w ws x then ans_done else ans_error 1020, x)
  | OpOnError _ _ => Some (ans_retry, None)
  end.

Lemma fdb_serve_answers base w ws x op ans x' :
  fdb_serve base w ws x op = Some (ans, x') → fdb_answers base w ws x op ans x'.
Proof.
  destruct op as [t k| |t|t err]; cbn; try done; intros E; simplify_eq.
  - apply answers_get; [by destruct x|done].
  - apply answers_commit; [by destruct (conflict_free _ _ _)|].
    destruct (conflict_free w ws x') eqn:Hc; [|done]. intros _.
    destruct ws as [|y ws]; [by left|right]. destruct x' as [tx|]; [|done]. cbn in Hc |- *.
    intros k Hk. rewrite forallb_forall in Hc.
    specialize (Hc k). rewrite <- list_elem_of_In in Hc. specialize (Hc Hk).
    by apply negb_true_iff, bool_decide_eq_false in Hc.
  - by apply answers_reset.
Qed.

Section schedule.
Context `{Env} `{RandR} (base : store).

(** A schedule: a request arrives, or the future with this number becomes ready. *)
Definition play1 (wX : world * gmap nat fdb_txn) (ev : endpoint + nat)
    : option (world * gmap nat fdb_txn) :=
  let '(w, X) := wX in
  match ev with
  | inl ep =>
      match step (EvRequest ep (mk_request_path [] 0 None)) w with
      | Ok (_, w') => Some (w', X)
      | Ub _ => None
      end
  | inr f =>
      p ← w_futures w !! f;
      let t := op_tr (f_op p) in
      '(ans, x') ← fdb_serve base w (default [] (w_trs w !! t)) (X !! t) (f_op p);
      match step (EvFuture f ans) w with
      | Ok (_, w') => Some (w', open_txns w' (partial_alter (λ _, x') t X))
      | Ub _ => None
      end
  end.

Fixpoint play (wX : world * gmap nat fdb_txn) (evs : list (endpoint + nat))
    : option (world * gmap nat fdb_txn) :=
  match evs with [] => Some wX | ev :: evs => wX ← play1 wX ev; play wX evs end.

Lemma play1_concurrent w0 w X ev w' X' :
  concurrent base w0 w X → play1 (w, X) ev = Some (w', X') → concurrent base w0 w' X'.
Proof.
  intros Hr. destruct ev as [ep|f]; cbn [play1].
  - destruct (step _ w) as [[[] w1]|u] eqn:Hs; [|done].
    intros [= -> ->]. by eapply concurrent_request.
  - intros (p & Hp & E)%bind_Some. apply bind_Some in E as ([ans x'] & Ha & E).
    destruct (step _ w) as [[[] w1]|u] eqn:Hs; [|done]. simplify_eq.
    eapply concurrent_future; [done|done| |done]. by apply fdb_serve_answers.
Qed.

Lemma play_concurrent w0 evs w X w' X' :
  concurrent base w0 w X → play (w, X) evs = Some (w', X') → concurrent base w0 w' X'.
Proof.
  revert w X. induction evs as [|ev evs IH]; intros w X Hr E; cbn in E; [by simplify_eq|].
  apply bind_Some in E as ([w1 X1] & E1 & E). eapply IH; [|done]. by eapply play1_concurrent.
Qed.

Lemma play_from w0 evs w X : play (w0, ∅) evs = Some (w, X) → concurrent base w0 w X.
Proof. apply play_concurrent, concurrent_start. Qed.
End schedule.

(** ** Properties *)

Section serializability.
Context `{Env} `{RandR}.

(** C3: the transactions a concurrent run commits are serializable in the order of their
    commits: however the chains of its requests interleave, with conflicts, other errors,
    commits of unknown result and retries, each transaction committed with writes has
    written what the chain of its own request (the request of the future that committed)
    writes running alone and without errors against the store its writes are applied to,
    from a context with the parameters the request's entry left and nothing else.  Retries
    change none of them, but for a Payment by name: each attempt draws its customer anew
    ([attempt]: from where the draws before left the context's seed). *)
Theorem committed_transactions_are_serializable (base : store) (w0 w : world)
    (X : gmap nat fdb_txn) :
  launched w0 → concurrent base w0 w X →
  ∃ R O, recorded base w0 w X R O ∧ length O = length (w_commits w) ∧
    ∀ i ws, w_commits w !! i = Some ws →
      ∃ q c, O !! i = Some q ∧ R !! q = Some c ∧
        (ws ≠ [] → ∃ s, attempt c s ∧ solo_commit_from (store_at base w i) s ws) ∧
        store_at base w (S i) = apply_writes ws (store_at base w i).
Proof.
  intros Hw0 Hr. destruct (concurrent_recorded base _ _ _ Hw0 Hr) as (R & O & Hrec).
  destruct (recorded_isolated base _ _ _ _ _ Hw0 Hrec) as [_ _ _ Hcom HO _].
  exists R, O. split; [done|]. split; [done|]. intros i ws Hi.
  destruct (Hcom i ws Hi) as (q & r & HOi & HRq & Hs). exists q, r.
  do 3 (split; [done|]). by apply store_at_commit.
Qed.
End serializability.

(** ** A run with a conflict

    Two Payments of one warehouse and district interleave: the second commit conflicts with
    the first and its chain starts over. *)

Definition client (c_id ytd : Z) : payment_ctx_t :=
  mk_payment_ctx None None None 0 1 8 1 8 c_id (zero_chars 16) false 500 ytd ytd 0 0.
Definition clients_store : store :=
  apply_writes (payment_writes (client 2896 0) 0 0 ++ payment_writes (client 238 500) 0 0) ∅.
Definition clients_world : world :=
  mk_world ∅ ∅ ∅ ∅ [] [] {[0%nat := mk_thread_state true 0 0]}
    (mk_globals (Some 0%nat) 1 (Some 0%nat) (Some 7) [] true) 1 0.
Definition clients_schedule : list (endpoint + nat) :=
  inl EpPayment :: inl EpPayment ::
  (inr <$> [4; 8; 9; 10; 11; 12; 13; 14; 15; 16; 17; 18; 19]%nat).
Definition clients_run : option (world * gmap nat fdb_txn) :=
  play (H := env_ok 1700000000) (H0 := rand_r_posix) clients_store (clients_world, ∅)
    clients_schedule.
Definition clients_end : world := default clients_world (fst <$> clients_run).

Lemma booted_launched w : booted w → w_commits w = [] → launched w.
Proof.
  intros Hb Hc. split; [by apply inv_booted|done|].
  intros f p. by rewrite (boot_futures _ Hb), lookup_empty.
Qed.

Lemma clients_launched : launched clients_world.
Proof. apply booted_launched; [|done]. split; try done. by exists 0%nat, (mk_thread_state true 0 0). Qed.

Lemma clients_concurrent : ∃ X,
  @concurrent clients_store (env_ok 1700000000) rand_r_posix clients_world clients_end X.
Proof.
  unfold clients_end. destruct clients_run as [[w X]|] eqn:E; [|by vm_compute in E].
  exists X. by eapply play_from.
Qed.

Lemma committed_transactions_are_serializable_witness :
  ∃ ws, w_commits clients_end !! 1%nat = Some ws ∧ length ws = 4%nat ∧
    ∃ c s, @attempt rand_r_posix c s ∧
      @solo_commit_from rand_r_posix (store_at clients_store clients_end 1) s ws.
Proof.
  destruct clients_concurrent as [X Hr].
  destruct (w_commits clients_end !! 1%nat) as [ws|] eqn:Hi; [|by vm_compute in Hi].
  exists ws. split; [done|]. assert (length ws = 4%nat) as Hl.
  { change (default 0%nat (length <$> Some ws) = 4%nat). rewrite <- Hi. by vm_compute. }
  split; [exact Hl|].
  destruct (@committed_transactions_are_serializable (env_ok 1700000000) rand_r_posix
    clients_store clients_world clients_end X clients_launched Hr) as (R & O & _ & _ & H).
  destruct (H 1%nat ws Hi) as (q & c & _ & _ & Hs & _).
  destruct Hs as (s & Hs); [by destruct ws|]. by exists c, s.
Defined.
