(* ===== verification/Contention.v ===== *)
(** * Termination under contention

    Progress bounds the futures of runs without errors.  Here transactions conflict:
    FoundationDB refuses a commit, but only for a reason, a write the transaction did not see
    ([fdb_contends]), and then lets the chain start over with a newer read version.

    Nothing in the handlers bounds the retries.  They end all the same: a chain can be
    refused only if another has committed since it last started ([stale]), every commit
    ends its chain, and a chain that starts over is not stale ([future_contends]).
    The retries of [K] chains are therefore at most quadratic in [K]. *)

From S2P Require Import Prelude Kv Random Query Values Ctx Runtime Chain NewOrder Payment.
From S2P Require Import ReadTxns Tfb Handlers Invariant Entry Lifecycle Serve Progress Schema.
From S2P Require Import Store Scratch Isolation.

(** ** A FoundationDB that refuses commits only for conflicts *)

Section contention.
Context (base : store).

(** The answers to an operation of a transaction [x] with the buffered writes [ws] that was
    started, or started over, after [b] commits: it reads at a version since then; a commit
    that is refused has read a key written since its version; an error may be retried. *)
Inductive fdb_contends (w : world) (ws : list write) (x : option fdb_txn) (b : nat) :
    fdb_op → answer → option fdb_txn → Prop :=
  | contends_read op ans tx :
      fdb_answers base w ws x op ans (Some tx) → a_error ans = 0 →
      (∀ t, op ≠ OpCommit t) → (∀ t err, op ≠ OpOnError t err) → (b <= tx_version tx)%nat →
      fdb_contends w ws x b op ans (Some tx)
  | contends_commit t :
      ws = [] ∨ unchanged w x → fdb_contends w ws x b (OpCommit t) ans_done x
  | contends_refuse t err :
      err ≠ 0 → ¬ unchanged w x → fdb_contends w ws x b (OpCommit t) (ans_error err) x
  | contends_retry t err :
      fdb_contends w ws x b (OpOnError t err) ans_retry None.

Lemma contends_answers w ws x b op ans x' :
  fdb_contends w ws x b op ans x' → fdb_answers base w ws x op ans x'.
Proof.
  destruct 1 as [op ans tx Ha _ _ _ _|t Hun|t err Herr _|t err]; [done|..].
  - by apply answers_commit.
  - apply answers_commit; [by intros ?|done].
  - by apply answers_reset.
Qed.

Context `{Env} `{RandR}.

(** The state of a run: the world, FoundationDB's open transactions, and for each the
    number of commits when its chain was last started (none for those of the start). *)
Record cstate : Type := mk_cstate {
  cs_world : world;
  cs_txns : gmap nat fdb_txn;
  cs_born : gmap nat nat;
}.

Definition born (s : cstate) (t : nat) : nat := default 0%nat (cs_born s !! t).

Definition reborn (op : fdb_op) (w : world) (B : gmap nat nat) : gmap nat nat :=
  match op with OpOnError t _ => <[t := length (w_commits w)]> B | _ => B end.

(** [n] futures become ready, one after the other, in any order. *)
Inductive contended : nat → cstate → cstate → Prop :=
  | contended_0 s : contended 0 s s
  | contended_S n w X B f p ans x' w' s' :
      w_futures w !! f = Some p →
      fdb_contends w (default [] (w_trs w !! op_tr (f_op p))) (X !! op_tr (f_op p))
        (born (mk_cstate w X B) (op_tr (f_op p))) (f_op p) ans x' →
      step (EvFuture f ans) w = Ok ((), w') →
      contended n (mk_cstate w' (open_txns w' (partial_alter (λ _, x') (op_tr (f_op p)) X))
        (reborn (f_op p) w' B)) s' →
      contended (S n) (mk_cstate w X B) s'.

(** ** What is left to do *)

(** Another chain has committed since this one was last started. *)
Definition stale (s : cstate) (p : fdb_callback_ctx_t) : bool :=
  match f_op p with
  | OpOnError _ _ => false
  | op => (born s (op_tr op) <? length (w_commits (cs_world s)))%nat
  end.

(** A retry costs at most [retry_cost] futures: the [on_error] one and 15 order lines,
    district, customer and commit. *)
Definition retry_cost : Z := 19.

Definition weight (s : cstate) (p : fdb_callback_ctx_t) : Z :=
  future_left (cs_world s) p + (if stale s p then retry_cost else 0).

Definition potential (s : cstate) : Z :=
  let K := Z.of_nat (size (w_futures (cs_world s))) in
  map_sum (weight s) (w_futures (cs_world s)) + retry_cost * K * K.

(** The invariant of the runs: the memory's, and that no transaction reads at a version
    before its chain was started. *)
Definition versions_ok (s : cstate) : Prop :=
  ∀ t tx, cs_txns s !! t = Some tx → (born s t <= tx_version tx)%nat.
Definition births_ok (s : cstate) : Prop :=
  ∀ t, (born s t <= length (w_commits (cs_world s)))%nat.

Record contention_ok (s : cstate) : Prop := {
  co_inv : inv None (cs_world s);
  co_versions : versions_ok s;
  co_births : births_ok s;
}.

Lemma chain_left_retry cb t c t' err ws :
  chain_ok cb t c (OpOnError t' err) ws → chain_left cb c <= retry_cost.
Proof.
  unfold retry_cost. destruct c as [c|c|c|c|c|c|c|c]; cbn [chain_ok];
    try (intros _; destruct cb; cbn; lia).
  - intros [Hc Hok]. pose proof (no_cnt c Hc). pose proof (no_cur c Hc).
    destruct cb; cbn in *; lia.
  - intros [Hc Hok]. destruct cb; cbn in *; try done; naive_solver.
Qed.

Lemma weight_bounds s f p :
  inv None (cs_world s) → w_futures (cs_world s) !! f = Some p → 1 <= weight s p <= 520.
Proof.
  intros Hinv Hp. pose proof (future_left_bounds _ _ _ Hinv Hp). unfold weight, retry_cost.
  destruct (stale s p); lia.
Qed.

(** A refused transaction has missed a commit. *)
Lemma refused_stale w ws x b op ans x' :
  (∀ tx, x = Some tx → (b <= tx_version tx)%nat) →
  fdb_contends w ws x b op ans x' → a_error ans ≠ 0 →
  (b < length (w_commits w))%nat ∧ (∃ t, op = OpCommit t) ∧ a_applied ans = false.
Proof.
  intros Hv Hans Herr.
  destruct Hans as [op ans tx _ He|t _|t err He Hun|t err]; try (by destruct Herr); [].
  split; [|split; [by exists t|done]]. destruct x as [tx|]; [|by destruct Hun].
  specialize (Hv tx eq_refl).
  destruct (decide (tx_version tx < length (w_commits w))%nat) as [|Hge]; [lia|].
  destruct Hun. cbn. intros k _. rewrite drop_ge by lia. apply not_elem_of_nil.
Qed.

Lemma contends_version w ws x b op ans tx :
  (∀ tx, x = Some tx → (b <= tx_version tx)%nat) → fdb_contends w ws x b op ans (Some tx) →
  (b <= tx_version tx)%nat ∧ ∀ t err, op ≠ OpOnError t err.
Proof. intros Hv Hans. inversion Hans; subst; (split; [by auto|done]). Qed.

(** The chain of a ready future, and what becomes of the others. *)
Lemma contends_moved w X B f p ans x' w' :
  contention_ok (mk_cstate w X B) → w_futures w !! f = Some p →
  fdb_contends w (default [] (w_trs w !! op_tr (f_op p))) (X !! op_tr (f_op p))
    (born (mk_cstate w X B) (op_tr (f_op p))) (f_op p) ans x' →
  step (EvFuture f ans) w = Ok ((), w') →
  inv None w' ∧ ∃ c q ws n now, chain_at w (f_ctx p) c (op_tr (f_op p)) q ws ∧
    chain_ok (f_cb p) (op_tr (f_op p)) c (f_op p) ws ∧
    chain_next now (f_cb p) (op_tr (f_op p)) c (effect_ws (f_op p) ans ws) ans n ∧
    chain_moved f (f_ctx p) (op_tr (f_op p)) q n w w' ∧
    w_commits w' = w_commits w ++ committed (f_op p) ans ws ∧
    (∀ g p', g ≠ f → w_futures w !! g = Some p' →
      w_heap w' !! f_ctx p' = w_heap w !! f_ctx p' ∧ op_tr (f_op p') ≠ op_tr (f_op p)).
Proof.
  intros [Hinv _ _] Hp Hans Hstep. cbn in Hinv.
  pose proof (fdb_answers_ok _ _ _ _ _ _ _ (contends_answers _ _ _ _ _ _ _ Hans)) as Ha.
  destruct (wp_future w f p ans Hinv Hp Ha) as (? & _ & Hi).
  destruct (wp_future_next w f p ans Hinv Hp Ha)
    as (c & t & q & ws & n & now & Hat & Hop & Hok & Hnext & Hwp).
  unfold wp in Hi, Hwp. cbn [step] in *. rewrite Hstep in Hi, Hwp.
  destruct Hwp as [Hmoved Ec]. rewrite (future_effect_commits _ f _ _ c t q ws Hp Hat Hop) in Ec.
  split; [done|]. subst t. exists c, q, ws, n, now. do 5 (split; [done|]).
  intros g p' Hne Hg.
  destruct (inv_chain _ _ Hinv g p' Hg) as (c' & t' & q' & ws' & Hat' & Hop' & _); [done|].
  destruct (moved_other _ _ _ _ _ _ _ _ _ _ _ _ _ _ _ Hinv Hp Hat Hmoved Hg Hne Hat')
    as [[Hh' _ _ _ _] Hne']. destruct Hat' as [Hh _ _ _ _]. split; congruence.
Qed.

(** A chain that goes on has less left to do, and nothing was committed. *)
Lemma weight_less w X B w' X' p ans x' c ws now timed c' ws' cb' op' :
  let t := op_tr (f_op p) in let s := mk_cstate w X B in
  let p' := mk_fcb op' cb' (f_ctx p) in
  versions_ok s → fdb_contends w ws (X !! t) (born s t) (f_op p) ans x' →
  w_heap w !! f_ctx p = Some c → w_heap w' !! f_ctx p = Some c' →
  chain_ok (f_cb p) t c (f_op p) ws →
  chain_next now (f_cb p) t c (effect_ws (f_op p) ans ws) ans
    (NContinue timed c' ws' cb' op') →
  w_commits w' = w_commits w ++ committed (f_op p) ans ws →
  w_commits w' = w_commits w ∧
  weight (mk_cstate w' X' (reborn (f_op p) w' B)) p' < weight s p.
Proof.
  cbn zeta. intros Hv Hans Hh Hh' Hok Hn Hcom.
  pose proof (chain_next_ok _ _ _ _ _ _ _ _ _ _ _ _ Hok Hn) as Hok'.
  pose proof (chain_ok_op_tr _ _ _ _ _ Hok') as Etr.
  unfold weight, future_left. cbn [cs_world f_ctx f_cb]. rewrite Hh, Hh'.
  destruct (decide (a_error ans = 0)) as [Herr|Herr].
  - pose proof (chain_next_less _ _ _ _ _ _ _ _ _ _ _ _ Hok Herr Hn) as Hless.
    assert (∀ t, f_op p ≠ OpCommit t) as Hnc.
    { intros t' E. rewrite E in Hok, Hn. by destruct (chain_next_last _ _ _ _ _ _ _ _ _ _ _ _ Hok Herr I Hn). }
    assert (w_commits w' = w_commits w) as Hcom'.
    { rewrite Hcom. unfold committed. destruct (f_op p) as [| |t'|]; rewrite ?app_nil_r; try done.
      by destruct (Hnc t'). }
    split; [done|].
    cut (stale (mk_cstate w' X' (reborn (f_op p) w' B)) (mk_fcb op' cb' (f_ctx p)) = true →
      stale (mk_cstate w X B) p = true).
    { intros Hst. destruct (stale _ (mk_fcb _ _ _)); [rewrite Hst by done|]; [lia|].
      unfold retry_cost. destruct (stale _ p); lia. }
    unfold stale, born. cbn [f_op cs_world cs_born]. rewrite Hcom'.
    destruct op'; cbn [op_tr] in Etr |- *; try done; subst tr;
      (destruct (f_op p) as [| |t'|t' err] eqn:Ep; cbn [op_tr reborn]; try done;
       rewrite lookup_insert_eq, Hcom'; cbn [default from_option id];
       by rewrite Nat.ltb_irrefl).
  - destruct (refused_stale w ws _ _ _ ans x' (Hv (op_tr (f_op p))) Hans Herr)
      as (Hlt & [t' Ep] & Happ).
    destruct (chain_next_error _ _ _ _ _ _ _ _ _ _ _ _ Hok Herr Hn) as [err ->].
    pose proof (chain_left_retry _ _ _ _ _ _ Hok') as Hr.
    pose proof (chain_left_bounds _ _ _ _ _ Hok) as Hl.
    split; [rewrite Hcom, Ep; cbn; by rewrite Happ, app_nil_r|].
    assert (stale (mk_cstate w X B) p = true) as ->.
    { unfold stale. rewrite Ep in *. by apply Nat.ltb_lt. }
    cbn [stale f_op]. lia.
Qed.

(** Another chain may have become stale, by one commit. *)
Lemma weight_other w X B w' X' p op :
  w_heap w' !! f_ctx p = w_heap w !! f_ctx p → op_tr (f_op p) ≠ op_tr op →
  weight (mk_cstate w' X' (reborn op w' B)) p <=
    weight (mk_cstate w X B) p +
      (if decide (w_commits w' = w_commits w) then 0 else retry_cost).
Proof.
  intros Hh Hne. unfold weight, future_left. cbn [cs_world]. rewrite Hh.
  assert (stale (mk_cstate w' X' (reborn op w' B)) p =
    match f_op p with OpOnError _ _ => false | o =>
      (born (mk_cstate w X B) (op_tr o) <? length (w_commits w'))%nat end) as ->.
  { unfold stale, born. cbn [cs_world cs_born]. unfold reborn.
    destruct op; try done. destruct (f_op p); cbn in Hne |- *;
      rewrite ?lookup_insert_ne by congruence; done. }
  unfold stale. cbn [cs_world]. unfold retry_cost.
  case_decide as E; [rewrite E; lia|]. destruct (f_op p); repeat case_match; lia.
Qed.

(** A future fewer pays for the retries the commit at its end allows the others. *)
Lemma fewer_futures (k : nat) (x y y' : Z) :
  k ≠ 0%nat → 0 < x → y' <= y + retry_cost * Z.of_nat (pred k) →
  y' + retry_cost * Z.of_nat (pred k) * Z.of_nat (pred k) <
  x + y + retry_cost * Z.of_nat k * Z.of_nat k.
Proof.
  intros Hk Hx Hy. unfold retry_cost in *.
  replace (Z.of_nat (pred k)) with (Z.of_nat k - 1) in * by lia. nia.
Qed.

(** A ready future brings the end of the run nearer. *)
Lemma future_contends w X B f p ans x' w' :
  contention_ok (mk_cstate w X B) → w_futures w !! f = Some p →
  fdb_contends w (default [] (w_trs w !! op_tr (f_op p))) (X !! op_tr (f_op p))
    (born (mk_cstate w X B) (op_tr (f_op p))) (f_op p) ans x' →
  step (EvFuture f ans) w = Ok ((), w') →
  potential (mk_cstate w' (open_txns w' (partial_alter (λ _, x') (op_tr (f_op p)) X))
    (reborn (f_op p) w' B)) < potential (mk_cstate w X B).
Proof.
  intros Hc Hp Hans Hstep.
  destruct (contends_moved w X B f p ans x' w' Hc Hp Hans Hstep)
    as (Hinv' & c & q & ws & n & now & [Hh _ _ Hws _] & Hok & Hnext & Hmoved & Hcom & Hother).
  destruct Hc as [Hinv Hv _]. rewrite Hws in Hans. cbn [default from_option id] in Hans.
  set (X' := open_txns _ _). set (B' := reborn _ _ _).
  unfold potential. cbn [cs_world].
  pose proof (weight_bounds (mk_cstate w X B) f p Hinv Hp) as Hw.
  rewrite (map_sum_delete (weight (mk_cstate w X B)) (w_futures w) f p) by done.
  assert (∀ d, (if decide (w_commits w' = w_commits w) then 0 else retry_cost) <= d →
    map_sum (weight (mk_cstate w' X' B')) (delete f (w_futures w)) <=
    map_sum (weight (mk_cstate w X B)) (delete f (w_futures w)) +
      d * Z.of_nat (size (delete f (w_futures w)))) as Hrest.
  { intros d Hd. apply map_sum_le. intros g p' [Hne Hg]%lookup_delete_Some.
    destruct (Hother g p') as [Hh' Ht']; [done|done|].
    pose proof (weight_other w X B w' X' p' (f_op p) Hh' Ht') as Ho. fold B' in Ho. lia. }
  pose proof (map_size_delete_Some f (w_futures w) ltac:(by eexists)) as Hsize.
  assert (size (w_futures w) ≠ 0%nat) as Hne0.
  { rewrite map_size_non_empty_iff. intros E. by rewrite E in Hp. }
  assert (w_futures w' = delete f (w_futures w) → map_sum (weight (mk_cstate w' X' B'))
      (w_futures w') + retry_cost * Z.of_nat (size (w_futures w')) * Z.of_nat (size (w_futures w')) <
    weight (mk_cstate w X B) p + map_sum (weight (mk_cstate w X B)) (delete f (w_futures w)) +
    retry_cost * Z.of_nat (size (w_futures w)) * Z.of_nat (size (w_futures w))) as Hend.
  { intros ->. specialize (Hrest retry_cost ltac:(unfold retry_cost; case_decide; lia)).
    rewrite Hsize in Hrest |- *. apply fewer_futures; [done|lia|done]. }
  destruct Hmoved as [timed c' ws' cb' op' fut -> _ _ Eh _ Ef Hfut _ _|r -> _ _ Ef _ _];
    [|by apply Hend].
  destruct fut as [g|]; [|by apply Hend].
  destruct (weight_less w X B w' X' p ans x' c ws now timed c' ws' cb' op' Hv Hans Hh
    ltac:(by rewrite Eh, lookup_insert_eq) Hok Hnext Hcom) as [Hcom' Hless]. fold B' in Hless.
  assert (delete f (w_futures w) !! g = None) as Hg.
  { apply lookup_delete_None. right. by apply (inv_fresh _ _ Hinv g). }
  specialize (Hrest 0). rewrite decide_True in Hrest by done. specialize (Hrest ltac:(lia)).
  rewrite Ef, map_sum_insert, map_size_insert_None, Hsize by done.
  replace (S (pred (size (w_futures w)))) with (size (w_futures w)) by lia. lia.
Qed.

Lemma future_contention_ok w X B f p ans x' w' :
  contention_ok (mk_cstate w X B) → w_futures w !! f = Some p →
  fdb_contends w (default [] (w_trs w !! op_tr (f_op p))) (X !! op_tr (f_op p))
    (born (mk_cstate w X B) (op_tr (f_op p))) (f_op p) ans x' →
  step (EvFuture f ans) w = Ok ((), w') →
  contention_ok (mk_cstate w' (open_txns w' (partial_alter (λ _, x') (op_tr (f_op p)) X))
    (reborn (f_op p) w' B)).
Proof.
  intros Hc Hp Hans Hstep.
  destruct (contends_moved w X B f p ans x' w' Hc Hp Hans Hstep)
    as (Hinv' & c & q & ws & n & now & _ & _ & _ & _ & Hcom & _).
  destruct Hc as [_ Hv Hb]. split; [done|..].
  - intros t tx. cbn. intros [Hx _]%map_lookup_filter_Some. revert Hx.
    rewrite lookup_partial_alter. case_decide as Ht; intros Hx.
    + subst t x'. destruct (contends_version _ _ _ _ _ _ _ (Hv _) Hans) as [Hle Hno].
      unfold born, reborn in *. cbn in *.
      destruct (f_op p) as [| | |t err]; try done. by destruct (Hno t err).
    + pose proof (Hv t tx Hx) as Hv0. unfold born, reborn in *. cbn in *.
      destruct (f_op p); try done. by rewrite lookup_insert_ne.
  - intros t. specialize (Hb t). unfold born, reborn in *. cbn in *.
    rewrite Hcom, length_app. destruct (f_op p) as [| | |t' err]; try lia.
    rewrite lookup_insert. case_decide; cbn; rewrite ?Hcom, ?length_app; lia.
Qed.

(** There is always an answer to a pending future. *)
Lemma contends_exists s f p :
  contention_ok s → w_futures (cs_world s) !! f = Some p →
  ∃ ans x', fdb_contends (cs_world s) (default [] (w_trs (cs_world s) !! op_tr (f_op p)))
    (cs_txns s !! op_tr (f_op p)) (born s (op_tr (f_op p))) (f_op p) ans x'.
Proof.
  intros [_ Hv Hb] _. specialize (Hv (op_tr (f_op p))). specialize (Hb (op_tr (f_op p))).
  set (x := cs_txns s !! op_tr (f_op p)) in *. set (w := cs_world s) in *.
  set (ws := default [] _). set (b := born s _) in *.
  assert (∃ v reads, snapshot w x v reads ∧ (b <= v)%nat) as (v & reads & Hsn & Hle).
  { destruct x as [tx|].
    - exists (tx_version tx), (tx_reads tx). split; [done|by apply Hv].
    - by exists (length (w_commits w)), []. }
  destruct (f_op p) as [t k|t b1 e|t|t err].
  - eexists _, _. eapply contends_read; [by eapply answers_get| |done|done|done].
    by destruct (_ !! k).
  - destruct (range_answer_exists (apply_writes ws (store_at base w v)) t b1 e) as [ans Hans].
    eexists ans, _. eapply contends_read;
      [by eapply answers_range|by eapply store_answer_ok|done|done|done].
  - destruct (decide (Forall (λ k, k ∉ match x with Some tx =>
      (concat (drop (tx_version tx) (w_commits w))).*1 | None => [] end)
      match x with Some tx => tx_reads tx | None => [] end)) as [Hun|Hun].
    + eexists _, _. apply contends_commit. right. destruct x as [tx|]; [|done].
      by rewrite Forall_forall in Hun.
    + eexists (ans_error 1020), _. apply contends_refuse; [done|]. intros Hun'. apply Hun.
      destruct x as [tx|]; [|apply Forall_nil_2]. by apply Forall_forall.
  - eexists _, _. apply contends_retry.
Qed.

(** ** Runs *)

Lemma contended_potential n s s' :
  contention_ok s → contended n s s' →
  contention_ok s' ∧ Z.of_nat n + potential s' <= potential s.
Proof.
  intros Hc Hrun. induction Hrun as [s|n w X B f p ans x' w' s' Hp Hans Hstep _ IH];
    [split; [done|lia]|].
  pose proof (future_contends w X B f p ans x' w' Hc Hp Hans Hstep).
  destruct IH as [? ?]; [by eapply future_contention_ok|]. split; [done|lia].
Qed.

Lemma potential_bounds s :
  contention_ok s →
  let K := Z.of_nat (size (w_futures (cs_world s))) in
  K <= potential s <= retry_cost * K * K + 520 * K.
Proof.
  intros [Hinv _ _]. cbn zeta. unfold potential.
  destruct (map_sum_bounds (weight s) 1 520 (w_futures (cs_world s))).
  { intros f p Hp. by eapply weight_bounds. }
  unfold retry_cost in *. nia.
Qed.

(** Contended runs are runs. *)
Lemma contended_reach w0 qs n s s' :
  booted w0 → contention_ok s → wreach w0 qs (cs_world s) → contended n s s' →
  wreach w0 qs (cs_world s').
Proof.
  intros Hb Hc Hr Hrun. revert Hc Hr.
  induction Hrun as [s|n w X B f p ans x' w' s' Hp Hans Hstep _ IH]; [done|]. intros Hc Hr.
  apply IH; [by eapply future_contention_ok|].
  eapply (wreach_step w0 qs w (EvFuture f ans)); [done| |done]. exists p. split; [done|].
  eapply fdb_answers_ok. by eapply contends_answers.
Qed.
End contention.

(** ** Properties *)

(** C12: conflicts do not keep the transactions from ending: when [K] chains wait and FoundationDB
    refuses a commit only for a write it has missed, at most [19 K^2 + 520 K] more futures
    become ready, however their chains interleave, conflict and start over; nothing in the
    handlers bounds the retries of a chain. *)
Theorem contended_runs_terminate `{Env} `{RandR} (base : store) (n : nat) (s s' : cstate) :
  contention_ok s → contended base n s s' →
  let K := Z.of_nat (size (w_futures (cs_world s))) in
  Z.of_nat n + potential s' <= potential s <= 19 * K * K + 520 * K ∧
  (potential s' = 0 ↔ w_futures (cs_world s') = ∅).
Proof.
  intros Hc Hrun. cbn zeta. destruct (contended_potential base n s s' Hc Hrun) as [Hc' Hn].
  pose proof (potential_bounds s Hc). pose proof (potential_bounds s' Hc').
  unfold retry_cost in *. split; [lia|]. rewrite <- map_size_empty_iff. split; [nia|].
  intros E. rewrite E in *. lia.
Qed.

(** C6: every request is answered, conflicts or not: while no call of the environment fails and
    commits are refused only for conflicts, a run of the pending futures cannot go on for
    ever; it can always take another step (or shows one of its callback's undefined
    behaviours) as long as a future is pending, and when none is, every request that has
    arrived has been answered exactly once and no context or transaction is left. *)
Theorem contended_runs_answer_every_request `{Env} `{RandR} (base : store) (w0 : world)
    (qs : list nat) (n : nat) (s s' : cstate) :
  EnvOk → booted w0 → wreach w0 qs (cs_world s) → contention_ok s → contended base n s s' →
  let K := Z.of_nat (size (w_futures (cs_world s))) in
  Z.of_nat n <= 19 * K * K + 520 * K ∧
  (w_futures (cs_world s') = ∅ →
     w_heap (cs_world s') = ∅ ∧ w_trs (cs_world s') = ∅ ∧ w_reqs (cs_world s') = ∅ ∧
     (w_responses (cs_world s')).*1 ≡ₚ qs) ∧
  (∀ f p, w_futures (cs_world s') !! f = Some p →
     (∃ s'', contended base 1 s' s'') ∨
     (∃ ans u, step (EvFuture f ans) (cs_world s') = Ub u ∧ chain_ub (f_cb p) u)).
Proof.
  intros HE Hb Hr Hc Hrun. cbn zeta. destruct (contended_potential base n s s' Hc Hrun) as [Hc' Hn].
  pose proof (potential_bounds s Hc). pose proof (potential_bounds s' Hc').
  unfold retry_cost in *. split; [lia|]. split.
  - intros Hf. eapply wreach_settled; [done|done| |done].
    by apply (contended_reach base w0 qs n s s' Hb Hc Hr Hrun).
  - intros f p Hp. destruct (contends_exists base s' f p Hc' Hp) as (ans & x' & Hans).
    destruct s' as [w' X' B']. cbn [cs_world] in *.
    destruct (wp_future w' f p ans (co_inv _ Hc') Hp
      (fdb_answers_ok _ _ _ _ _ _ _ (contends_answers _ _ _ _ _ _ _ _ Hans)))
      as (c & Hh & Hwp).
    unfold wp in Hwp. cbn [step] in *.
    destruct (future_callback run_callback f ans w') as [[[] w'']|u] eqn:Hstep.
    + left. eexists. eapply contended_S; [done|done|exact Hstep|apply contended_0].
    + right. exists ans, u. split; [done|].
      destruct Hwp as [Hu|[(_ & Hy & _)|(_ & Hm & _)]]; [done|by destruct (env_yajl_ok HE)|].
      pose proof (contended_reach base w0 qs n s _ Hb Hc Hr Hrun) as Hr'.
      by rewrite (wreach_numbers _ _ _ HE Hb Hr' _ _ Hh) in Hm.
Qed.

(** ** Witnesses *)

Section play.
Context (base : store) `{Env} `{RandR}.

(** The future [f] answered by Isolation's executable FoundationDB. *)
Definition contend1 (s : cstate) (f : nat) : option cstate :=
  let w := cs_world s in
  p ← w_futures w !! f;
  let t := op_tr (f_op p) in
  '(ans, x') ← fdb_serve base w (default [] (w_trs w !! t)) (cs_txns s !! t) (f_op p);
  match step (EvFuture f ans) w with
  | Ok (_, w') => Some (mk_cstate w' (open_txns w' (partial_alter (λ _, x') t (cs_txns s)))
      (reborn (f_op p) w' (cs_born s)))
  | Ub _ => None
  end.

Fixpoint contend (s : cstate) (fs : list nat) : option cstate :=
  match fs with [] => Some s | f :: fs => s ← contend1 s f; contend s fs end.

Lemma fdb_serve_contends w ws x b op ans x' :
  (∀ tx, x = Some tx → (b <= tx_version tx)%nat) → (b <= length (w_commits w))%nat →
  fdb_serve base w ws x op = Some (ans, x') → fdb_contends base w ws x b op ans x'.
Proof.
  intros Hv Hb Hs. pose proof (fdb_serve_answers _ _ _ _ _ _ _ Hs) as Ha.
  destruct op as [t k| |t|t err]; cbn in Hs; try done; simplify_eq.
  - eapply contends_read; [done|by destruct (_ !! k)|done|done|].
    cbn. destruct x as [tx|]; [by apply (Hv tx)|done].
  - destruct (conflict_free w ws x') eqn:Hc.
    + apply contends_commit. inversion Ha; subst; naive_solver.
    + apply contends_refuse; [done|]. intros Hun. revert Hc. apply not_false_iff_true.
      unfold conflict_free. destruct ws as [|y ws], x' as [tx|]; try done.
      apply forallb_forall. intros k Hk%list_elem_of_In.
      apply negb_true_iff, bool_decide_eq_false. by apply Hun.
  - apply contends_retry.
Qed.

Lemma contend_contended s fs s' :
  contention_ok s → contend s fs = Some s' → contended base (length fs) s s'.
Proof.
  revert s. induction fs as [|f fs IH]; intros s Hc E; cbn in E; [simplify_eq; apply contended_0|].
  apply bind_Some in E as (s1 & E1 & E). destruct s as [w X B]. unfold contend1 in E1.
  cbn [cs_world cs_txns cs_born] in E1. apply bind_Some in E1 as (p & Hp & E1).
  apply bind_Some in E1 as ([ans x'] & Hs & E1).
  destruct (step _ w) as [[[] w1]|u] eqn:Hstep; [|done]. injection E1 as <-.
  assert (fdb_contends base w (default [] (w_trs w !! op_tr (f_op p))) (X !! op_tr (f_op p))
    (born (mk_cstate w X B) (op_tr (f_op p))) (f_op p) ans x') as Hans.
  { destruct Hc as [_ Hv Hb]. apply fdb_serve_contends; [by apply Hv|apply Hb|done]. }
  eapply contended_S; [done|exact Hans|done|]. apply IH; [|done].
  by eapply future_contention_ok.
Qed.

(** The start of the bookkeeping, in any world that satisfies the invariant. *)
Lemma contention_start w : inv None w → contention_ok (mk_cstate w ∅ ∅).
Proof.
  intros Hinv. split; [done| |]; unfold versions_ok, births_ok, born; cbn; intros t.
  - intros tx. by rewrite lookup_empty.
  - rewrite lookup_empty. cbn. lia.
Qed.
End play.

(** The two Payments of Isolation's schedule: both requests wait for their first read, then
    their futures become ready in turn; the second commit is refused and starts over. *)
Definition clients_asked : world :=
  after (EvRequest EpPayment any_path) (after (EvRequest EpPayment any_path) clients_world).
Definition clients_futures : list nat := [4; 8; 9; 10; 11; 12; 13; 14; 15; 16; 17; 18; 19]%nat.
Definition clients_settled : option cstate :=
  contend clients_store (H := env_ok 1700000000) (H0 := rand_r_posix)
    (mk_cstate clients_asked ∅ ∅) clients_futures.

Lemma clients_booted : booted clients_world.
Proof. split; try done. by exists 0%nat, (mk_thread_state true 0 0). Qed.

Lemma clients_asked_reached :
  @wreach (env_ok 1700000000) rand_r_posix clients_world [1; 5]%nat clients_asked.
Proof.
  apply (wreach_step clients_world [1]%nat (after (EvRequest EpPayment any_path) clients_world)
    (EvRequest EpPayment any_path)); [|done|by vm_compute].
  by apply (wreach_step clients_world [] clients_world (EvRequest EpPayment any_path));
    [apply wreach_refl|..|vm_compute].
Qed.

Lemma clients_contention : @contention_ok (mk_cstate clients_asked ∅ ∅).
Proof.
  apply contention_start.
  exact (@wreach_inv (env_ok 1700000000) rand_r_posix _ _ _ (inv_booted _ clients_booted) clients_asked_reached).
Qed.

Lemma clients_settled_eq :
  clients_settled = @contend clients_store (env_ok 1700000000) rand_r_posix
    (mk_cstate clients_asked ∅ ∅) clients_futures.
Proof. reflexivity. Qed.

Lemma clients_contended : ∃ s',
  @contended clients_store (env_ok 1700000000) rand_r_posix 13 (mk_cstate clients_asked ∅ ∅) s' ∧
  w_futures (cs_world s') = ∅.
Proof.
  destruct clients_settled as [s'|] eqn:E; [|by vm_compute in E]. exists s'. split.
  - rewrite clients_settled_eq in E.
    exact (@contend_contended clients_store (env_ok 1700000000) rand_r_posix
      (mk_cstate clients_asked ∅ ∅) clients_futures s' clients_contention E).
  - change (default ∅ ((λ s, w_futures (cs_world s)) <$> Some s') = ∅). rewrite <- E.
    by vm_compute.
Qed.

Lemma contended_runs_terminate_witness :
  ∃ s', @contended clients_store (env_ok 1700000000) rand_r_posix 13
      (mk_cstate clients_asked ∅ ∅) s' ∧
    13 + potential s' <= potential (mk_cstate clients_asked ∅ ∅) ∧ potential s' = 0.
Proof.
  destruct clients_contended as (s' & Hrun & Hf). exists s'. split; [exact Hrun|].
  destruct (@contended_runs_terminate (env_ok 1700000000) rand_r_posix clients_store 13
    (mk_cstate clients_asked ∅ ∅) s' clients_contention Hrun) as [[Hn _] Hz].
  split; [exact Hn|]. by apply Hz.
Defined.

Lemma contended_runs_answer_every_request_witness :
  ∃ s', @contended clients_store (env_ok 1700000000) rand_r_posix 13
      (mk_cstate clients_asked ∅ ∅) s' ∧
    (w_responses (cs_world s')).*1 ≡ₚ [1; 5]%nat ∧ w_heap (cs_world s') = ∅.
Proof.
  destruct clients_contended as (s' & Hrun & Hf). exists s'. split; [exact Hrun|].
  destruct (@contended_runs_answer_every_request (env_ok 1700000000) rand_r_posix clients_store
    clients_world [1; 5]%nat 13 (mk_cstate clients_asked ∅ ∅) s' (env_ok_ok _) clients_booted
    clients_asked_reached clients_contention Hrun) as (_ & Hall & _).
  destruct (Hall Hf) as (Hh & _ & _ & Hr). by split.
Defined.
