(* ===== verification/Transactions.v ===== *)
(** * What NewOrder and Payment commit

    The callback chains of src/handlers/tpcc_new_order.c and tpcc_payment.c served to
    their end: the rows they commit are those of [new_order_rows] and [payment_rows], the
    abstract descriptions of the two transactions; then row by row what a NewOrder has
    stored, what becomes of it when a future fails, and two NewOrders in a row. *)

From S2P Require Import Prelude Kv Random Query Values Ctx Runtime Chain NewOrder Payment.
From S2P Require Import ReadTxns Tfb Handlers Invariant Entry Lifecycle Serve Schema Store.

(** ** NewOrder *)

(** A stock row whose subtraction cannot overflow. *)
Definition stock_in_range (sv : stock_val_t) : Prop :=
  struct_ok sv ∧ - 2 ^ 31 + 255 <= s_quantity sv.

(** The quantity [on_stock_read] leaves: [s_quantity - ol_quantity], 91 more below ten. *)
Definition restocked (q o : Z) : Z := if q - o <? 10 then q - o + 91 else q - o.

Definition no_take (c : new_order_ctx_t) (sv : stock_val_t) : new_order_ctx_t :=
  no_take_stock c (restocked (s_quantity sv) (arr0 (no_ol_quantity c) (no_current_ol c))).

(** The context after the three kinds of reads. *)
Definition no_read (c : new_order_ctx_t) (dv : district_val_t) (cv : customer_val_t)
    (svs : list stock_val_t) : new_order_ctx_t :=
  fold_left no_take svs
    (no_set_current_ol (no_set_discount (no_set_district c (d_tax dv) (d_next_o_id dv))
       (c_discount cv)) 0).

Lemma restock_Ok q o :
  in_s 32 q → - 2 ^ 31 + 255 <= q → in_u 8 o → restock q o = Ok (restocked q o).
Proof.
  intros Hq Hlo Ho. unfold restock, restocked. rewrite chk_s_Ok by range.
  cbn [mbind outcome_bind]. destruct (Z.ltb_spec (q - o) 10); [|done].
  by rewrite chk_s_Ok by range.
Qed.

Lemma struct_ok_stock sv : struct_ok sv → in_s 32 (s_quantity sv).
Proof.
  destruct sv. unfold struct_ok. cbn. intros Hf. apply Forall2_cons in Hf as [[_ Hq] _]. exact Hq.
Qed.

Lemma no_take_ok c sv :
  no_ctx_ok c → no_current_ol c < no_ol_cnt c → stock_in_range sv →
  restock (s_quantity sv) (arr0 (no_ol_quantity c) (no_current_ol c)) =
    Ok (restocked (s_quantity sv) (arr0 (no_ol_quantity c) (no_current_ol c))) ∧
  no_ctx_ok (no_take c sv).
Proof.
  intros Hc Hcur [Hok Hlo]. destruct (no_ctx_lens c Hc) as (_ & _ & L3 & _).
  pose proof (no_cnt c Hc). pose proof (no_cur c Hc).
  destruct (no_get _ _ (no_current_ol c) L3 (no_qtys c Hc)) as [_ Hq]; [lia|].
  assert (restock (s_quantity sv) (arr0 (no_ol_quantity c) (no_current_ol c)) =
    Ok (restocked (s_quantity sv) (arr0 (no_ol_quantity c) (no_current_ol c)))) as Hr.
  { apply restock_Ok; [by apply struct_ok_stock|done|done]. }
  split; [done|]. apply no_take_stock_ok; [done|done|]. by eapply restock_range.
Qed.

Lemma no_read_fixed c svs :
  let c' := fold_left no_take svs c in
  no_tr c' = no_tr c ∧ no_req c' = no_req c ∧ no_w_id c' = no_w_id c ∧
  no_d_id c' = no_d_id c ∧ no_c_id c' = no_c_id c ∧ no_ol_cnt c' = no_ol_cnt c ∧
  no_ol_supply_w c' = no_ol_supply_w c ∧ no_ol_i_id c' = no_ol_i_id c ∧
  no_ol_quantity c' = no_ol_quantity c ∧ no_all_local c' = no_all_local c ∧
  no_d_next_o_id c' = no_d_next_o_id c ∧
  no_current_ol c' = no_current_ol c + Z.of_nat (length svs).
Proof.
  revert c. induction svs as [|sv svs IH]; intros c; cbn zeta.
  - cbn. split_and!; (done || lia).
  - cbn [fold_left length]. specialize (IH (no_take c sv)). cbn zeta in IH.
    destruct IH as (-> & -> & -> & -> & -> & -> & -> & -> & -> & -> & -> & ->). cbn.
    split_and!; (done || lia).
Qed.

(** The quantities and amounts after the stock reads, line by line. *)
Lemma no_read_stocks c svs i :
  length (no_s_quantity c) = 15%nat → length (no_s_amount c) = 15%nat →
  0 <= no_current_ol c → no_current_ol c + Z.of_nat (length svs) <= 15 →
  let c' := fold_left no_take svs c in
  (0 <= i < no_current_ol c →
    arr0 (no_s_quantity c') i = arr0 (no_s_quantity c) i ∧
    arr0 (no_s_amount c') i = arr0 (no_s_amount c) i) ∧
  (∀ sv, svs !! Z.to_nat (i - no_current_ol c) = Some sv → no_current_ol c <= i →
    arr0 (no_s_quantity c') i = restocked (s_quantity sv) (arr0 (no_ol_quantity c) i) ∧
    arr0 (no_s_amount c') i = arr0 (no_ol_quantity c) i * 100).
Proof.
  revert c. induction svs as [|sv svs IH]; intros c L1 L2 Hcur Hlen; cbn zeta; [done|].
  cbn [fold_left]. cbn [length] in Hlen.
  destruct (IH (no_take c sv)) as [IH1 IH2]; cbn; rewrite ?length_insert; try done; try lia.
  cbn in IH1, IH2. split.
  - intros Hi. destruct IH1 as [-> ->]; [lia|]. by rewrite !arr0_insert_ne by lia.
  - intros sv' Hsv Hi. destruct (decide (i = no_current_ol c)) as [->|Hne].
    + destruct IH1 as [-> ->]; [lia|]. rewrite !arr0_insert_eq by lia.
      rewrite Z.sub_diag in Hsv. by change (Some sv = Some sv') in Hsv; simplify_eq.
    + apply IH2; [|lia]. rewrite <- Hsv.
      by replace (Z.to_nat (i - no_current_ol c)) with
        (S (Z.to_nat (i - (no_current_ol c + 1)))) by lia.
Qed.

Section new_order.
Context `{Env} `{RandR}.

(** The stock loop: from the first pending read to the commit. *)
Lemma serve_stocks w a c t q op svs :
  EnvOk → waiting w a (CtxNewOrder c) t q [] NoOnStockRead op →
  Z.of_nat (length svs) = no_ol_cnt c - no_current_ol c → Forall stock_in_range svs →
  in_s 32 (no_d_next_o_id c + 1) →
  ∃ w' now, served a w ((λ sv, ans_value (pack sv)) <$> svs) w' ∧
    let c' := fold_left no_take svs c in
    waiting w' a (CtxNewOrder c') t q (new_order_writes c' now) NoOnCommit (OpCommit t) ∧
    same_log w w'.
Proof.
  intros HE Hw Hlen Hsvs Hoid. revert w c op Hw Hlen Hoid.
  induction Hsvs as [|sv svs Hsv Hsvs IH]; intros w c op Hw Hlen Hoid.
  { destruct (waiting_chain_ok _ _ _ _ _ _ _ _ Hw) as [_ (_ & Hcur & _)].
    cbn in Hlen. lia. }
  destruct (waiting_chain_ok _ _ _ _ _ _ _ _ Hw) as [Hc (_ & Hcur & ->)].
  destruct (no_take_ok c sv Hc Hcur Hsv) as [Hr Hc'].
  pose proof Hw as [_ Hat _]. pose proof Hat as [_ Ht Hq _ _]. cbn [ctx_tr ctx_req] in Ht, Hq.
  pose proof (no_callback_refines NoOnStockRead no_on_stock_read w a c t q []
    (ans_value (pack sv)) eq_refl Hat Hc (λ _, Hcur)) as Hrun.
  unfold no_next in Hrun. rewrite (read_row_pack stock_val_t) in Hrun by apply Hsv.
  cbv iota beta in Hrun. rewrite Hr in Hrun.
  change (no_take_stock c _) with (no_take c sv) in Hrun. cbn [a_error ans_value negb] in Hrun.
  unfold no_start in Hrun. cbn [length] in Hlen.
  assert (no_current_ol (no_take c sv) = no_current_ol c + 1) as Ecur by done.
  assert (no_ol_cnt (no_take c sv) = no_ol_cnt c) as Ecnt by done.
  destruct (Z.leb_spec (no_ol_cnt (no_take c sv)) (no_current_ol (no_take c sv))) as [Hle|Hlt].
  - assert (fits_s 32 (no_d_next_o_id (no_take c sv) + 1) = true) as Hfit.
    { by apply fits_s_true. }
    rewrite Hfit in Hrun. destruct svs as [|sv' svs]; [|cbn [length] in Hlen; lia].
    destruct (serve_read _ _ _ _ _ _ _ _ _ _ _ _ _ _ _ HE Hw Hrun Ht Hq)
      as (w' & Hserved & Hw' & Hlog).
    eexists w', _. split; [exact Hserved|]. by split.
  - destruct (serve_read _ _ _ _ _ _ _ _ _ _ _ _ _ _ _ HE Hw Hrun Ht Hq)
      as (w1 & Hserved & Hw1 & Hlog).
    destruct (IH w1 (no_take c sv) _ Hw1) as (w' & now & Hserved' & Hw' & Hlog'); [lia|done|].
    exists w', now. split; [by apply (served_app a w [ans_value (pack sv)] w1)|].
    split; [done|]. destruct Hlog, Hlog'. split; congruence.
Qed.

(** A whole attempt: from the pending district read to the pending commit. *)
Lemma serve_new_order_reads w a c t q op dv cv svs :
  EnvOk → waiting w a (CtxNewOrder c) t q [] NoOnDistrictRead op →
  struct_ok dv → struct_ok cv → 1 <= no_ol_cnt c →
  Z.of_nat (length svs) = no_ol_cnt c → Forall stock_in_range svs →
  in_s 32 (d_next_o_id dv + 1) →
  ∃ w' now,
    served a w (ans_value (pack dv) :: ans_value (pack cv) ::
      ((λ sv, ans_value (pack sv)) <$> svs)) w' ∧
    waiting w' a (CtxNewOrder (no_read c dv cv svs)) t q
      (new_order_writes (no_read c dv cv svs) now) NoOnCommit (OpCommit t) ∧
    same_log w w'.
Proof.
  intros HE Hw Hdv Hcv Hcnt Hlen Hsvs Hoid.
  destruct (waiting_chain_ok _ _ _ _ _ _ _ _ Hw) as [Hc [_ ->]].
  pose proof Hw as [_ Hat _]. pose proof Hat as [_ Ht Hq _ _]. cbn [ctx_tr ctx_req] in Ht, Hq.
  pose proof (no_callback_refines NoOnDistrictRead no_on_district_read w a c t q []
    (ans_value (pack dv)) eq_refl Hat Hc ltac:(done)) as Hrun.
  unfold no_next in Hrun. rewrite (read_row_pack district_val_t) in Hrun by done.
  cbn [a_error ans_value negb] in Hrun.
  destruct (serve_read _ _ _ _ _ _ _ _ _ _ _ _ _ _ _ HE Hw Hrun Ht Hq)
    as (w1 & Hs1 & Hw1 & Hlog1).
  destruct (waiting_chain_ok _ _ _ _ _ _ _ _ Hw1) as [Hc1 _].
  set (c1 := no_set_district c (d_tax dv) (d_next_o_id dv)) in *.
  pose proof Hw1 as [_ Hat1 _].
  pose proof (no_callback_refines NoOnCustomerRead no_on_customer_read w1 a c1 t q []
    (ans_value (pack cv)) eq_refl Hat1 Hc1 ltac:(done)) as Hrun1.
  unfold no_next in Hrun1. rewrite (read_row_pack customer_val_t) in Hrun1 by done.
  cbn [a_error ans_value negb] in Hrun1. set (c2 := no_set_current_ol _ 0) in Hrun1.
  unfold no_start in Hrun1. destruct (Z.leb_spec (no_ol_cnt c2) (no_current_ol c2)) as [Hle|Hlt].
  { cbn in Hle. lia. }
  destruct (serve_read _ _ _ _ _ _ _ _ _ _ _ _ _ _ _ HE Hw1 Hrun1 Ht Hq)
    as (w2 & Hs2 & Hw2 & Hlog2).
  destruct (serve_stocks w2 a c2 t q _ svs HE Hw2) as (w' & now & Hs3 & Hw3 & Hlog3);
    [cbn; lia|done|done|].
  exists w', now. split; [|split; [done|]].
  - apply (served_app a w [ans_value (pack dv)] w1); [done|].
    by apply (served_app a w1 [ans_value (pack cv)] w2).
  - destruct Hlog1, Hlog2, Hlog3. split; congruence.
Qed.
End new_order.

(** ** The rows of a NewOrder *)

(** A row and its bytes, as the pair handed to [fdb_sync_set]. *)
Definition at_key (rv : row * list Z) : write := (enc_key rv.1, rv.2).

Lemma last_write_rows r rows :
  row_ok r → Forall (λ rv : row * list Z, row_ok rv.1) rows →
  last_write (enc_key r) (at_key <$> rows) = last_write r rows.
Proof.
  intros Hr Hrows. induction Hrows as [|[r' v] rows Hr' _ IH]; [done|].
  cbn [fmap list_fmap last_write at_key fst snd]. rewrite IH.
  destruct (last_write r rows); [done|].
  destruct (decide (r' = r)) as [->|Hne]; [by rewrite decide_True|].
  by rewrite decide_False by by apply enc_key_ne.
Qed.

(** What a NewOrder with the parameters of [c] commits, when its district row held the
    order id [o_id] and the stock rows of its lines were [svs]. *)
Definition order_rows (c : new_order_ctx_t) (o_id : Z) (svs : list stock_val_t) (now : Z)
    : list (row * list Z) :=
  let w := no_w_id c in let d := no_d_id c in let o := u32 o_id in
  let line i := mk_order_line_val (arr0 (no_ol_i_id c) i) (arr0 (no_ol_supply_w c) i) 0
    (arr0 (no_ol_quantity c) i) (arr0 (no_ol_quantity c) i * 100) (zero_chars 24) in
  let stock i := mk_stock_val
    (restocked (default 0 (s_quantity <$> svs !! Z.to_nat i)) (arr0 (no_ol_quantity c) i))
    (zero_chars 240) (arr0 (no_ol_quantity c) i) 1 0 (zero_chars 50) in
  [(ROorder w d o, pack (mk_oorder_val (no_c_id c) (-1) (no_ol_cnt c)
      (if no_all_local c then 1 else 0) now));
   (RNewOrder w d o, [0])] ++
  ((λ i, (ROrderLine w d o (i + 1), pack (line i))) <$> upto (no_ol_cnt c)) ++
  [(RNextOId w d, next_o_id_bytes (o_id + 1))] ++
  ((λ i, (RStock (arr0 (no_ol_supply_w c) i) (arr0 (no_ol_i_id c) i), pack (stock i))) <$>
    upto (no_ol_cnt c)).

Lemma fmap_upto_ext {A} (f g : Z → A) n :
  (∀ i, 0 <= i < n → f i = g i) → f <$> upto n = g <$> upto n.
Proof. intros Hfg. apply list_fmap_ext. intros k i Hi. apply Hfg, elem_of_upto. by eapply list_elem_of_lookup_2. Qed.

(** The buffered writes of the chain are the abstract rows. *)
Lemma no_read_rows c dv cv svs now :
  no_ctx_ok c → Z.of_nat (length svs) = no_ol_cnt c →
  new_order_writes (no_read c dv cv svs) now = at_key <$> order_rows c (d_next_o_id dv) svs now.
Proof.
  intros Hc Hlen. destruct (no_ctx_lens c Hc) as (_ & _ & _ & L4 & L5). pose proof (no_cnt c Hc).
  unfold no_read. set (c0 := no_set_current_ol _ 0).
  destruct (no_read_fixed c0 svs) as (_ & _ & Ew & Ed & Ec & En & Es & Ei & Eq & El & Eo & _).
  assert (∀ i, 0 <= i < no_ol_cnt c →
    arr0 (no_s_quantity (fold_left no_take svs c0)) i =
      restocked (default 0 (s_quantity <$> svs !! Z.to_nat i)) (arr0 (no_ol_quantity c) i) ∧
    arr0 (no_s_amount (fold_left no_take svs c0)) i = arr0 (no_ol_quantity c) i * 100) as Hl.
  { intros i Hi. destruct (lookup_lt_is_Some_2 svs (Z.to_nat i)) as [sv Hsv]; [lia|].
    destruct (no_read_stocks c0 svs i) as [_ Hs]; [done|done|done|cbn; lia|].
    destruct (Hs sv) as [-> ->]; [by rewrite Z.sub_0_r|cbn; lia|]. by rewrite Hsv. }
  unfold new_order_writes, new_order_oorder, order_rows, at_key.
  rewrite !fmap_app, <- !list_fmap_compose. rewrite Ew, Ed, Ec, En, El, Eo.
  cbn [no_ol_cnt no_w_id no_d_id no_c_id no_all_local no_d_next_o_id c0 no_set_current_ol
    no_set_discount no_set_district fmap list_fmap].
  do 2 f_equal; [|f_equal].
  - apply fmap_upto_ext. intros i Hi. unfold order_line_write, order_line_row.
    rewrite Ew, Ed, Eo, Es, Ei, Eq. by rewrite (proj2 (Hl i Hi)).
  - apply fmap_upto_ext. intros i Hi. unfold stock_write, stock_row.
    rewrite Es, Ei, Eq. by rewrite (proj1 (Hl i Hi)).
Qed.

Lemma order_rows_ok c o_id svs now :
  no_ctx_ok c → Forall (λ rv : row * list Z, row_ok rv.1) (order_rows c o_id svs now).
Proof.
  intros Hc. destruct (no_ctx_ids c Hc) as (Iw & Id & _). pose proof (no_cnt c Hc).
  destruct (no_ctx_lens c Hc) as (L1 & L2 & _).
  assert (in_u 32 (u32 o_id)) as Io by (by apply wrap_u_range).
  unfold order_rows. rewrite !Forall_app. split_and!.
  - do 2 (apply Forall_cons_2; [split; [by forall_list|done]|]). apply Forall_nil_2.
  - apply Forall_fmap, Forall_forall. intros i Hi%elem_of_upto. split; [|done].
    cbn. forall_list.
  - apply Forall_cons_2; [split; [by forall_list|done]|apply Forall_nil_2].
  - apply Forall_fmap, Forall_forall. intros i Hi%elem_of_upto. split; [|done].
    destruct (no_get _ _ i L1 (no_supply c Hc)) as [_ R1]; [lia|].
    destruct (no_get _ _ i L2 (no_items c Hc)) as [_ R2]; [lia|].
    cbn. forall_list.
Qed.

(** The last value an abstract row list gives each kind of row. *)
Lemma order_rows_last c o_id svs now :
  let rows := order_rows c o_id svs now in
  let o := u32 o_id in
  last_write (RNextOId (no_w_id c) (no_d_id c)) rows = Some (next_o_id_bytes (o_id + 1)) ∧
  last_write (ROorder (no_w_id c) (no_d_id c) o) rows =
    Some (pack (mk_oorder_val (no_c_id c) (-1) (no_ol_cnt c)
      (if no_all_local c then 1 else 0) now)) ∧
  last_write (RNewOrder (no_w_id c) (no_d_id c) o) rows = Some [0] ∧
  (∀ i, 0 <= i < no_ol_cnt c →
    last_write (ROrderLine (no_w_id c) (no_d_id c) o (i + 1)) rows =
      Some (pack (mk_order_line_val (arr0 (no_ol_i_id c) i) (arr0 (no_ol_supply_w c) i) 0
        (arr0 (no_ol_quantity c) i) (arr0 (no_ol_quantity c) i * 100) (zero_chars 24)))) ∧
  (∀ i, 0 <= i < no_ol_cnt c →
    (∀ j, i < j < no_ol_cnt c →
      RStock (arr0 (no_ol_supply_w c) j) (arr0 (no_ol_i_id c) j) ≠
      RStock (arr0 (no_ol_supply_w c) i) (arr0 (no_ol_i_id c) i)) →
    last_write (RStock (arr0 (no_ol_supply_w c) i) (arr0 (no_ol_i_id c) i)) rows =
      Some (pack (mk_stock_val
        (restocked (default 0 (s_quantity <$> svs !! Z.to_nat i)) (arr0 (no_ol_quantity c) i))
        (zero_chars 240) (arr0 (no_ol_quantity c) i) 1 0 (zero_chars 50)))).
Proof.
  cbn zeta. unfold order_rows.
  assert (∀ r (g : Z → list Z), (∀ w i, r ≠ RStock w i) → last_write r
    ((λ i, (RStock (arr0 (no_ol_supply_w c) i) (arr0 (no_ol_i_id c) i), g i)) <$>
      upto (no_ol_cnt c)) = None) as E2
    by (intros r g Hr; apply (last_write_loop_None (λ i, RStock _ _)); intros j _ E;
        by eapply Hr).
  assert (∀ r (g : Z → list Z), (∀ w d o i, r ≠ ROrderLine w d o i) → last_write r
    ((λ i, (ROrderLine (no_w_id c) (no_d_id c) (u32 o_id) (i + 1), g i)) <$>
      upto (no_ol_cnt c)) = None) as E3
    by (intros r g Hr; apply (last_write_loop_None (λ i, ROrderLine _ _ _ (i + 1)));
        intros j _ E; by eapply Hr).
  split_and!.
  - rewrite !last_write_app, E2 by done. cbn [last_write]. by rewrite decide_True.
  - rewrite !last_write_app, E2, E3 by done. cbn [last_write].
    rewrite decide_False by done. rewrite decide_False by done. by rewrite decide_True.
  - rewrite !last_write_app, E2, E3 by done. cbn [last_write].
    rewrite decide_False by done. by rewrite decide_True.
  - intros i Hi. rewrite !last_write_app, E2 by done. cbn [last_write].
    rewrite decide_False by done.
    rewrite (last_write_upto (λ i, ROrderLine (no_w_id c) (no_d_id c) (u32 o_id) (i + 1)));
      [done|done|].
    intros j Hj [= E]. lia.
  - intros i Hi Hlast. rewrite !last_write_app.
    rewrite (last_write_upto (λ i, RStock (arr0 (no_ol_supply_w c) i) (arr0 (no_ol_i_id c) i)));
      done.
Qed.

(** No district row among them. *)
Lemma order_rows_tables c o_id svs now r v :
  (r, v) ∈ order_rows c o_id svs now →
  row_table r ∈ [TOorder; TNewOrder; TOrderLine; TNextOId; TStock].
Proof.
  unfold order_rows. rewrite !elem_of_app, !list_elem_of_fmap, !elem_of_cons.
  intros [[[= -> _]|[[= -> _]|[]%elem_of_nil]]|[(? & [= -> _] & _)|
    [[[= -> _]|[]%elem_of_nil]|(? & [= -> _] & _)]]]; cbn [row_table]; auto 7.
Qed.

Lemma order_rows_other c o_id svs now r :
  row_table r ∉ [TOorder; TNewOrder; TOrderLine; TNextOId; TStock] →
  last_write r (order_rows c o_id svs now) = None.
Proof.
  intros Htab. apply last_write_None. rewrite list_elem_of_fmap.
  intros ([r' v] & -> & Hin). by apply order_rows_tables in Hin.
Qed.

(** No line beyond the order's own. *)
Lemma order_rows_no_line c o_id svs now w d o i :
  no_ol_cnt c <= i → last_write (ROrderLine w d o (i + 1)) (order_rows c o_id svs now) = None.
Proof.
  intros Hi. apply last_write_None. rewrite list_elem_of_fmap. intros ([r v] & E & Hin).
  cbn in E. subst r. revert Hin.
  unfold order_rows. rewrite !elem_of_app, !list_elem_of_fmap, !elem_of_cons.
  intros [[E|[E|[]%elem_of_nil]]|[(j & E & Hj%elem_of_upto)|
    [[E|[]%elem_of_nil]|(j & E & _)]]]; try discriminate E.
  injection E. intros. lia.
Qed.

(** A whole NewOrder, from the pending district read to the response. *)
Lemma serve_new_order `{Env} `{RandR} (w : world) (a t q : nat) (c : new_order_ctx_t)
    (op : fdb_op) (dv : district_val_t) (cv : customer_val_t) (svs : list stock_val_t) :
  EnvOk → waiting w a (CtxNewOrder c) t q [] NoOnDistrictRead op →
  struct_ok dv → struct_ok cv → Forall stock_in_range svs →
  1 <= no_ol_cnt c → Z.of_nat (length svs) = no_ol_cnt c → in_s 32 (d_next_o_id dv + 1) →
  ∃ w' now,
    served a w (ans_value (pack dv) :: ans_value (pack cv) ::
      ((λ sv, ans_value (pack sv)) <$> svs) ++ [ans_done]) w' ∧
    w_commits w' = w_commits w ++ [at_key <$> order_rows c (d_next_o_id dv) svs now] ∧
    w_responses w' = w_responses w ++ [(q, RInline None None
      [JMapOpen; jstr "status" 6; jstr "ok" 2; jstr "o_id" 4; JInteger (d_next_o_id dv);
       JMapClose])] ∧
    w_heap w' !! a = None ∧ w_trs w' !! t = None.
Proof.
  intros HE Hw Hdv Hcv Hsvs Hcnt Hlen Hoid.
  destruct (waiting_chain_ok _ _ _ _ _ _ _ _ Hw) as [Hc _].
  destruct (serve_new_order_reads w a c t q op dv cv svs HE Hw)
    as (w1 & now & Hs1 & Hw1 & [Hl1 Hl2]); try done.
  destruct (waiting_chain_ok _ _ _ _ _ _ _ _ Hw1) as [Hc1 _].
  pose proof (wt_at _ _ _ _ _ _ _ _ Hw1) as Hat1.
  destruct (serve_finish w1 a _ t q _ _ _ ans_done
    (RInline None None (new_order_body (no_read c dv cv svs))) (λ _, env_yajl_ok HE) Hw1)
    as (w2 & Hs2 & _ & Hh & Ht & Hr & Hcm); [done| |].
  { apply (no_callback_refines NoOnCommit no_on_commit (add_commit _ w1) a
      (no_read c dv cv svs) t q (new_order_writes (no_read c dv cv svs) now));
      [done| |done|done]. by destruct Hat1; split. }
  exists w2, now. split_and!; [| | |done|done].
  - by apply (served_app a w (_ :: _ :: _) w1).
  - rewrite <- (no_read_rows c dv cv svs now) by done. rewrite Hcm, <- Hl1. cbn.
    by rewrite (at_ws _ _ _ _ _ _ Hat1).
  - rewrite Hr, Hl2. unfold new_order_body, no_read.
    by destruct (no_read_fixed (no_set_current_ol (no_set_discount (no_set_district c
      (d_tax dv) (d_next_o_id dv)) (c_discount cv)) 0) svs)
      as (_ & _ & _ & _ & _ & _ & _ & _ & _ & _ & -> & _).
Qed.

Lemma order_line_ok c o i :
  no_ctx_ok c → 0 <= i < no_ol_cnt c →
  row_ok (ROrderLine (no_w_id c) (no_d_id c) (u32 o) (i + 1)).
Proof.
  intros Hc Hi. destruct (no_ctx_ids c Hc) as (Iw & Id & _). pose proof (no_cnt c Hc).
  pose proof (wrap_u_range 32 o ltac:(lia)). split; [cbn; forall_list|done].
Qed.

Lemma order_district_ok c : no_ctx_ok c → row_ok (RDistrict (no_w_id c) (no_d_id c)).
Proof. intros Hc. destruct (no_ctx_ids c Hc) as (? & ? & _). split; [by forall_list|done]. Qed.

(** The rows among them, one by one. *)
Lemma order_rows_member c o_id svs now r v :
  (r, v) ∈ order_rows c o_id svs now →
  let wid := no_w_id c in let d := no_d_id c in let o := u32 o_id in
  r ∈ [RNextOId wid d; ROorder wid d o; RNewOrder wid d o] ∨
  ∃ i, 0 <= i < no_ol_cnt c ∧
    (r = ROrderLine wid d o (i + 1) ∨
     r = RStock (arr0 (no_ol_supply_w c) i) (arr0 (no_ol_i_id c) i)).
Proof.
  unfold order_rows. rewrite !elem_of_app, !list_elem_of_fmap, !elem_of_cons. cbn zeta.
  intros [[[= -> _]|[[= -> _]|[]%elem_of_nil]]|[(i & [= -> _] & Hi%elem_of_upto)|
    [[[= -> _]|[]%elem_of_nil]|(i & [= -> _] & Hi%elem_of_upto)]]].
  - left. auto.
  - left. auto.
  - right. exists i. auto.
  - left. auto.
  - right. exists i. auto.
Qed.

(** What the writes of a NewOrder leave in each row. *)
Lemma order_rows_stored c o_id svs now :
  no_ctx_ok c → Z.of_nat (length svs) = no_ol_cnt c →
  let w := no_w_id c in let d := no_d_id c in let o := u32 o_id in
  let stored r := last_write (enc_key r) (at_key <$> order_rows c o_id svs now) in
  stored (RNextOId w d) = Some (next_o_id_bytes (o_id + 1)) ∧
  stored (ROorder w d o) = Some (pack (mk_oorder_val (no_c_id c) (-1) (no_ol_cnt c)
    (if no_all_local c then 1 else 0) now)) ∧
  stored (RNewOrder w d o) = Some [0] ∧
  (∀ i, 0 <= i < no_ol_cnt c →
    stored (ROrderLine w d o (i + 1)) =
      Some (pack (mk_order_line_val (arr0 (no_ol_i_id c) i) (arr0 (no_ol_supply_w c) i) 0
        (arr0 (no_ol_quantity c) i) (arr0 (no_ol_quantity c) i * 100) (zero_chars 24)))) ∧
  (∀ i sv, svs !! Z.to_nat i = Some sv → 0 <= i →
    (∀ j, i < j < no_ol_cnt c →
      RStock (arr0 (no_ol_supply_w c) j) (arr0 (no_ol_i_id c) j) ≠
      RStock (arr0 (no_ol_supply_w c) i) (arr0 (no_ol_i_id c) i)) →
    stored (RStock (arr0 (no_ol_supply_w c) i) (arr0 (no_ol_i_id c) i)) =
      Some (pack (mk_stock_val (restocked (s_quantity sv) (arr0 (no_ol_quantity c) i))
        (zero_chars 240) (arr0 (no_ol_quantity c) i) 1 0 (zero_chars 50)))) ∧
  (∀ r, row_ok r → stored r ≠ None →
    r ∈ [RNextOId w d; ROorder w d o; RNewOrder w d o] ∨
    ∃ i, 0 <= i < no_ol_cnt c ∧
      (r = ROrderLine w d o (i + 1) ∨
       r = RStock (arr0 (no_ol_supply_w c) i) (arr0 (no_ol_i_id c) i))).
Proof.
  intros Hc Hlen. cbn zeta. destruct (no_ctx_ids c Hc) as (Iw & Id & _).
  pose proof (order_rows_ok c o_id svs now Hc) as Hrows.
  destruct (order_rows_last c o_id svs now) as (H1 & H2 & H3 & H4 & H5).
  assert (in_u 32 (u32 o_id)) as Io by (by apply wrap_u_range).
  destruct (no_ctx_lens c Hc) as (L1 & L2 & _). pose proof (no_cnt c Hc) as Hcnt. split_and!.
  - rewrite last_write_rows; [done|split; [by forall_list|done]|done].
  - rewrite last_write_rows; [done|split; [by forall_list|done]|done].
  - rewrite last_write_rows; [done|split; [by forall_list|done]|done].
  - intros i Hi. rewrite last_write_rows; [by apply H4|by apply order_line_ok|done].
  - intros i sv Hsv Hi Hlast. assert (0 <= i < no_ol_cnt c) as Hi'.
    { apply lookup_lt_Some in Hsv. lia. }
    destruct (no_get _ _ i L1 (no_supply c Hc)) as [_ R1]; [lia|].
    destruct (no_get _ _ i L2 (no_items c Hc)) as [_ R2]; [lia|].
    rewrite last_write_rows; [|split; [cbn; forall_list|done]|done].
    rewrite H5 by done. by rewrite Hsv.
  - intros r Hr. rewrite last_write_rows by done. intros [v Hv]%not_eq_None_Some.
    by eapply order_rows_member, last_write_Some.
Qed.

(** An [on_error] that does not allow a retry ends the chain. *)
Lemma serve_exhausted `{Env} `{RandR} w a t q c ws op e :
  EnvOk → waiting w a (CtxNewOrder c) t q ws NoOnErrorRetry op → a_error e ≠ 0 →
  ∃ w', served a w [e] w' ∧ w_commits w' = w_commits w ∧
    w_heap w' !! a = None ∧ w_trs w' !! t = None ∧
    w_responses w' = w_responses w ++ [(q, RError 503 "Error" "transaction retry exhausted")].
Proof.
  intros HE Hw Herr. destruct (waiting_chain_ok _ _ _ _ _ _ _ _ Hw) as [Hc [err ->]].
  pose proof (wt_at _ _ _ _ _ _ _ _ Hw) as Hat.
  destruct (serve_finish w a _ t q ws NoOnErrorRetry (OpOnError t err) e
    (RError 503 "Error" "transaction retry exhausted") (λ _, env_yajl_ok HE) Hw)
    as (w' & S & _ & Hh & Ht & Hr & Hcm).
  - by intros ?.
  - cbn [future_effect]. rewrite (proj2 (Z.eqb_neq _ _) Herr).
    etrans; [by apply (no_callback_refines NoOnErrorRetry no_on_error_retry w a c t q ws)|].
    unfold no_next, no_fail. by rewrite (proj2 (Z.eqb_neq _ _) Herr).
  - exists w'. split_and!; try done. rewrite Hcm. cbn [future_effect].
    by rewrite (proj2 (Z.eqb_neq _ _) Herr).
Qed.

(** ** Properties of NewOrder *)

(** C7: a NewOrder whose reads find the district row [dv], the customer row [cv] and the
    stock rows [svs] of its lines commits exactly [order_rows] in one transaction and
    answers with the district's order id; afterwards its context and transaction are
    gone. *)
Theorem new_order_commits `{Env} `{RandR} (w : world) (a t q : nat) (c : new_order_ctx_t)
    (op : fdb_op) (dv : district_val_t) (cv : customer_val_t) (svs : list stock_val_t) :
  EnvOk → waiting w a (CtxNewOrder c) t q [] NoOnDistrictRead op →
  struct_ok dv → struct_ok cv → Forall stock_in_range svs →
  1 <= no_ol_cnt c → Z.of_nat (length svs) = no_ol_cnt c → in_s 32 (d_next_o_id dv + 1) →
  ∃ w' now,
    served a w (ans_value (pack dv) :: ans_value (pack cv) ::
      ((λ sv, ans_value (pack sv)) <$> svs) ++ [ans_done]) w' ∧
    w_commits w' = w_commits w ++ [at_key <$> order_rows c (d_next_o_id dv) svs now] ∧
    w_responses w' = w_responses w ++ [(q, RInline None None
      [JMapOpen; jstr "status" 6; jstr "ok" 2; jstr "o_id" 4; JInteger (d_next_o_id dv);
       JMapClose])] ∧
    w_heap w' !! a = None ∧ w_trs w' !! t = None.
Proof. apply serve_new_order. Qed.

(** C18: what the callbacks of a NewOrder store.  Served by its district, customer and stock
    rows and a commit, the chain commits one transaction that holds, and holds only: the
    order header, the new-order marker and one row per order line under the district's
    order id, the next-order-id row one higher, and for the stock of each line the row its
    last line leaves (an item on two lines is decremented for the later one only).  No
    other row is written: no line beyond the order's, no other stock, not the district's
    own row. *)
Theorem new_order_final_rows `{Env} `{RandR} (w : world) (a t q : nat) (c : new_order_ctx_t)
    (op : fdb_op) (dv : district_val_t) (cv : customer_val_t) (svs : list stock_val_t) :
  EnvOk → waiting w a (CtxNewOrder c) t q [] NoOnDistrictRead op →
  struct_ok dv → struct_ok cv → Forall stock_in_range svs →
  1 <= no_ol_cnt c → Z.of_nat (length svs) = no_ol_cnt c → in_s 32 (d_next_o_id dv + 1) →
  ∃ w' ws now,
    served a w (ans_value (pack dv) :: ans_value (pack cv) ::
      ((λ sv, ans_value (pack sv)) <$> svs) ++ [ans_done]) w' ∧
    w_commits w' = w_commits w ++ [ws] ∧
    let wid := no_w_id c in let d := no_d_id c in let o := u32 (d_next_o_id dv) in
    let stored r := last_write (enc_key r) ws in
    stored (RNextOId wid d) = Some (next_o_id_bytes (d_next_o_id dv + 1)) ∧
    stored (ROorder wid d o) = Some (pack (mk_oorder_val (no_c_id c) (-1) (no_ol_cnt c)
      (if no_all_local c then 1 else 0) now)) ∧
    stored (RNewOrder wid d o) = Some [0] ∧
    (∀ i, 0 <= i < no_ol_cnt c →
      stored (ROrderLine wid d o (i + 1)) =
        Some (pack (mk_order_line_val (arr0 (no_ol_i_id c) i) (arr0 (no_ol_supply_w c) i) 0
          (arr0 (no_ol_quantity c) i) (arr0 (no_ol_quantity c) i * 100) (zero_chars 24)))) ∧
    (∀ i sv, svs !! Z.to_nat i = Some sv → 0 <= i →
      (∀ j, i < j < no_ol_cnt c →
        RStock (arr0 (no_ol_supply_w c) j) (arr0 (no_ol_i_id c) j) ≠
        RStock (arr0 (no_ol_supply_w c) i) (arr0 (no_ol_i_id c) i)) →
      stored (RStock (arr0 (no_ol_supply_w c) i) (arr0 (no_ol_i_id c) i)) =
        Some (pack (mk_stock_val (restocked (s_quantity sv) (arr0 (no_ol_quantity c) i))
          (zero_chars 240) (arr0 (no_ol_quantity c) i) 1 0 (zero_chars 50)))) ∧
    (∀ r, row_ok r → stored r ≠ None →
      r ∈ [RNextOId wid d; ROorder wid d o; RNewOrder wid d o] ∨
      ∃ i, 0 <= i < no_ol_cnt c ∧
        (r = ROrderLine wid d o (i + 1) ∨
         r = RStock (arr0 (no_ol_supply_w c) i) (arr0 (no_ol_i_id c) i))).
Proof.
  intros HE Hw Hdv Hcv Hsvs Hcnt Hlen Hoid.
  destruct (serve_new_order w a t q c op dv cv svs) as (w' & now & Hs & Hcm & _); try done.
  eexists w', _, now. split; [exact Hs|]. split; [exact Hcm|].
  apply order_rows_stored; [|done]. apply (waiting_chain_ok _ _ _ _ _ _ _ _ Hw).
Qed.

(** C39: NewOrder advances the next-order-id row but reads the id from the district row,
    which it leaves alone.  Two NewOrders of a district served one after the other, the
    second with the district row of the store the first has left: the row is still the
    one the first has read, though the next-order-id row is one higher; both are answered
    with the same order id, the second header replaces the first, and the lines the first
    order had more stay under the header of the second. *)
Theorem new_order_reuses_the_order_id `{Env} `{RandR} (db : store) (w1 w2 : world)
    (a1 t1 q1 a2 t2 q2 : nat) (c1 c2 : new_order_ctx_t) (op1 op2 : fdb_op)
    (dv : district_val_t) (cv1 cv2 : customer_val_t) (svs1 svs2 : list stock_val_t) :
  EnvOk → waiting w1 a1 (CtxNewOrder c1) t1 q1 [] NoOnDistrictRead op1 →
  waiting w2 a2 (CtxNewOrder c2) t2 q2 [] NoOnDistrictRead op2 →
  no_w_id c2 = no_w_id c1 → no_d_id c2 = no_d_id c1 →
  db !! enc_key (RDistrict (no_w_id c1) (no_d_id c1)) = Some (pack dv) →
  struct_ok dv → in_s 32 (d_next_o_id dv + 1) → struct_ok cv1 → struct_ok cv2 →
  Forall stock_in_range svs1 → Forall stock_in_range svs2 →
  1 <= no_ol_cnt c1 → Z.of_nat (length svs1) = no_ol_cnt c1 →
  1 <= no_ol_cnt c2 → Z.of_nat (length svs2) = no_ol_cnt c2 →
  ∃ w1' w2' ws1 ws2 now1 now2,
    let db1 := apply_writes ws1 db in let db2 := apply_writes ws2 db1 in
    let wid := no_w_id c1 in let d := no_d_id c1 in let o := u32 (d_next_o_id dv) in
    let header c now := pack (mk_oorder_val (no_c_id c) (-1) (no_ol_cnt c)
      (if no_all_local c then 1 else 0) now) in
    let body := RInline None None [JMapOpen; jstr "status" 6; jstr "ok" 2; jstr "o_id" 4;
      JInteger (d_next_o_id dv); JMapClose] in
    (served a1 w1 (ans_value (pack dv) :: ans_value (pack cv1) ::
       ((λ sv, ans_value (pack sv)) <$> svs1) ++ [ans_done]) w1' ∧
     w_commits w1' = w_commits w1 ++ [ws1] ∧ w_responses w1' = w_responses w1 ++ [(q1, body)] ∧
     db1 !! enc_key (RNextOId wid d) = Some (next_o_id_bytes (d_next_o_id dv + 1)) ∧
     db1 !! enc_key (RDistrict wid d) = Some (pack dv) ∧
     db1 !! enc_key (ROorder wid d o) = Some (header c1 now1)) ∧
    (served a2 w2 (ans_value (pack dv) :: ans_value (pack cv2) ::
       ((λ sv, ans_value (pack sv)) <$> svs2) ++ [ans_done]) w2' ∧
     w_commits w2' = w_commits w2 ++ [ws2] ∧ w_responses w2' = w_responses w2 ++ [(q2, body)] ∧
     db2 !! enc_key (ROorder wid d o) = Some (header c2 now2)) ∧
    ∀ i, no_ol_cnt c2 <= i < no_ol_cnt c1 →
      db2 !! enc_key (ROrderLine wid d o (i + 1)) =
      Some (pack (mk_order_line_val (arr0 (no_ol_i_id c1) i) (arr0 (no_ol_supply_w c1) i) 0
        (arr0 (no_ol_quantity c1) i) (arr0 (no_ol_quantity c1) i * 100) (zero_chars 24))).
Proof.
  intros HE Hw1 Hw2 Ew Ed Hdb Hdv Hoid Hcv1 Hcv2 Hsv1 Hsv2 Hn1 Hl1 Hn2 Hl2.
  destruct (serve_new_order w1 a1 t1 q1 c1 op1 dv cv1 svs1)
    as (w1' & now1 & S1 & C1 & R1 & _); try done.
  destruct (serve_new_order w2 a2 t2 q2 c2 op2 dv cv2 svs2)
    as (w2' & now2 & S2 & C2 & R2 & _); try done.
  destruct (waiting_chain_ok _ _ _ _ _ _ _ _ Hw1) as [Hc1 _].
  destruct (waiting_chain_ok _ _ _ _ _ _ _ _ Hw2) as [Hc2 _].
  destruct (order_rows_stored c1 (d_next_o_id dv) svs1 now1 Hc1 Hl1)
    as (P1 & P2 & _ & P4 & _ & P6).
  destruct (order_rows_stored c2 (d_next_o_id dv) svs2 now2 Hc2 Hl2)
    as (_ & Q2 & _ & _ & _ & Q6).
  rewrite Ew, Ed in Q2, Q6.
  eexists w1', w2', _, _, now1, now2. cbn zeta.
  split; [|split]; [do 3 (split; [eassumption|])|do 3 (split; [eassumption|])|];
    rewrite ?lookup_apply_writes; [rewrite P1, P2|by rewrite Q2|].
  - split; [done|]. split; [|done].
    destruct (last_write (enc_key (RDistrict _ _)) _) eqn:E; [|done]. exfalso.
    destruct (P6 (RDistrict (no_w_id c1) (no_d_id c1)))
      as [Hin|(i & _ & [?|?])]; [by apply order_district_ok|by rewrite E| |done|done].
    rewrite !elem_of_cons, elem_of_nil in Hin. naive_solver.
  - intros i Hi. pose proof (no_cnt c2 Hc2). rewrite !lookup_apply_writes, P4 by lia.
    destruct (last_write (enc_key (ROrderLine _ _ _ _)) (at_key <$> order_rows c2 _ _ _))
      eqn:E; [|done]. exfalso.
    destruct (Q6 (ROrderLine (no_w_id c1) (no_d_id c1) (u32 (d_next_o_id dv)) (i + 1)))
      as [Hin|(j & Hj & [[= ?]|?])]; [apply order_line_ok; (done || lia)|by rewrite E| |lia|done].
    rewrite !elem_of_cons, elem_of_nil in Hin. naive_solver.
Qed.

(** C28: an error [e] of any of NewOrder's futures, the commit's included.  Of a read's or
    the commit's: the handler asks [fdb_transaction_on_error]; a commit whose result was
    unknown may have been applied all the same, nothing else is committed or answered.
    When the answer [r] allows the retry, the chain starts over: the transaction is empty
    again, the order's parameters are unchanged and the district is read again.
    Otherwise, the request is answered 503 and its context and transaction are freed; so
    they are when the future that failed was the one that asked. *)
Theorem new_order_retry_starts_over `{Env} `{RandR} (w : world) (a t q : nat)
    (c : new_order_ctx_t) (ws : list write) (cb : callback) (op : fdb_op) (e : answer) :
  EnvOk → waiting w a (CtxNewOrder c) t q ws cb op → a_error e ≠ 0 →
  let exhausted := (q, RError 503 "Error" "transaction retry exhausted") in
  (cb ≠ NoOnErrorRetry → ∀ r,
    ∃ w', served a w [e; r] w' ∧
      w_commits w' = w_commits w ++
        (match op with OpCommit _ => if a_applied e then [ws] else [] | _ => [] end) ∧
      if a_error r =? 0 then
        waiting w' a (CtxNewOrder (no_set_current_ol c 0)) t q [] NoOnDistrictRead
          (OpGet t (enc_key (RDistrict (no_w_id c) (no_d_id c)))) ∧
        w_responses w' = w_responses w
      else
        w_heap w' !! a = None ∧ w_trs w' !! t = None ∧
        w_responses w' = w_responses w ++ [exhausted]) ∧
  (cb = NoOnErrorRetry →
    ∃ w', served a w [e] w' ∧ w_commits w' = w_commits w ∧
      w_heap w' !! a = None ∧ w_trs w' !! t = None ∧
      w_responses w' = w_responses w ++ [exhausted]).
Proof.
  intros HE Hw Herr. cbn zeta. split; [intros Hcb r|intros ->; by apply (serve_exhausted w a t q c ws op e)].
  destruct (waiting_chain_ok _ _ _ _ _ _ _ _ Hw) as [Hc Hok].
  pose proof (wt_at _ _ _ _ _ _ _ _ Hw) as [_ Ht Hq _ _].
  destruct (serve_error w a _ t q ws cb NoOnErrorRetry op e HE Hw Herr)
    as (w1 & S1 & Hw1 & C1 & R1).
  { intros w' Hat.
    rewrite (no_callback_refines cb _ w' a c t q ws _ (no_callback_run _ _ _ _ _ Hok))
      by (done || intros ->; apply Hok).
    f_equal. unfold no_next. rewrite (proj2 (Z.eqb_neq _ _) Herr). by destruct cb. }
  destruct (Z.eqb_spec (a_error r) 0) as [Hr|Hr].
  - destruct (serve_restart w1 a (CtxNewOrder c) t q ws NoOnErrorRetry NoOnDistrictRead
      (OpGet t (enc_key (RDistrict (no_w_id c) (no_d_id c)))) (a_error e) r
      (CtxNewOrder (no_set_current_ol c 0)))
      as (w2 & S2 & Hw2 & [L1 L2]); try done.
    { intros w' Hat.
      etrans; [by apply (no_callback_refines NoOnErrorRetry no_on_error_retry w' a c t q [])|].
      unfold no_next. by rewrite Hr. }
    exists w2. split; [by apply (served_app a w [e] w1)|].
    split; [by rewrite L1, C1|]. split; [done|congruence].
  - destruct (serve_exhausted w1 a t q c ws _ r HE Hw1 Hr) as (w2 & S2 & C2 & Hh & Htr & R2).
    exists w2. split; [by apply (served_app a w [e] w1)|].
    split; [by rewrite C2, C1|]. rewrite R2, R1. by split_and!.
Qed.

(** ** Payment *)

(** The customer a Payment charges: by name, one drawn with the context's seed. *)
Definition pay_customer_id `{RandR} (c : payment_ctx_t) : Z := pc_c_id (pay_pick_customer c).

(** What a Payment with the parameters of [c] commits when it read [wv], [dv] and [cv]. *)
Definition payment_rows `{RandR} (c : payment_ctx_t) (wv : warehouse_val_t)
    (dv : district_val_t) (cv : customer_val_t) (now : Z) : list (row * list Z) :=
  let w := pc_w_id c in let cw := pc_c_w_id c in let cd := pc_c_d_id c in
  let id := pay_customer_id c in let h := pc_h_amount c in
  [(RWarehouse w, pack (payment_warehouse (w_ytd wv + h)));
   (RDistrict cw cd, pack (payment_district (d_ytd dv + h)));
   (RCustomer cw cd id,
    pack (payment_customer (c_balance cv - h) (c_ytd_payment cv + h) (i16 (c_payment_cnt cv + 1))));
   (RHistory w cw cd id (u32 now), pack (mk_history_val now h (zero_chars 24)))].

(** The sums of a Payment fit their 64 bits. *)
Definition payment_in_range (c : payment_ctx_t) (wv : warehouse_val_t) (dv : district_val_t)
    (cv : customer_val_t) : Prop :=
  Forall (in_s 64) [w_ytd wv + pc_h_amount c; d_ytd dv + pc_h_amount c;
    c_balance cv - pc_h_amount c; c_ytd_payment cv + pc_h_amount c].

Definition pay_read `{RandR} (c : payment_ctx_t) (wv : warehouse_val_t) (dv : district_val_t)
    (cv : customer_val_t) : payment_ctx_t :=
  pc_set_customer (pay_pick_customer (pc_set_d_ytd (pc_set_w_ytd c (w_ytd wv)) (d_ytd dv)))
    (c_balance cv) (c_payment_cnt cv).

Section payment.
Context `{Env} `{RandR}.

(** The pick does not look at the sums. *)
Lemma pay_pick_ytd c y1 y2 :
  pc_c_id (pay_pick_customer (pc_set_d_ytd (pc_set_w_ytd c y1) y2)) = pay_customer_id c.
Proof.
  unfold pay_customer_id, pay_pick_customer. cbn. destruct (pc_by_name c); [|done].
  by destruct (get_random_number _ _) as [[r s]|].
Qed.

Lemma pay_read_rows c wv dv cv now :
  payment_writes (pay_read c wv dv cv) (c_ytd_payment cv) now =
    at_key <$> payment_rows c wv dv cv now.
Proof.
  unfold payment_writes, payment_rows, at_key, pay_read.
  destruct (pay_pick_fields (pc_set_d_ytd (pc_set_w_ytd c (w_ytd wv)) (d_ytd dv)))
    as (_ & _ & E3 & E4 & E5 & E6 & E7 & E8).
  cbn [pc_set_customer pc_w_id pc_c_w_id pc_c_d_id pc_c_id pc_h_amount pc_w_ytd pc_d_ytd
    pc_c_balance pc_c_payment_cnt].
  rewrite pay_pick_ytd, E3, E4, E5, E6, E7, E8. done.
Qed.

Lemma pay_read_fits c wv dv cv :
  payment_in_range c wv dv cv → payment_fits (pay_read c wv dv cv) (c_ytd_payment cv) = true.
Proof.
  unfold payment_in_range, payment_fits, pay_read. rewrite !Forall_cons.
  intros (H1 & H2 & H3 & H4 & _).
  destruct (pay_pick_fields (pc_set_d_ytd (pc_set_w_ytd c (w_ytd wv)) (d_ytd dv)))
    as (_ & _ & _ & _ & _ & E6 & E7 & E8).
  cbn [pc_set_customer pc_h_amount pc_w_ytd pc_d_ytd pc_c_balance].
  rewrite E6, E7, E8. cbn. by rewrite !fits_s_true.
Qed.
End payment.

Section serve_payment.
Context `{Env} `{RandR}.

(** One read of a Payment that finds its row. *)
Lemma serve_payment_read w a t q c ws cb run tr key v timed c' ws' cb' op' :
  EnvOk → waiting w a (CtxPayment c) t q ws cb (OpGet tr key) →
  pay_callback cb = Some run → run_callback cb = run →
  pay_next cb t c ws (env_time (w_tick w)) (ans_value v) =
    NContinue timed (CtxPayment c') ws' cb' op' →
  pc_tr c' = pc_tr c → pc_req c' = pc_req c →
  ∃ w', served a w [ans_value v] w' ∧ waiting w' a (CtxPayment c') t q ws' cb' op' ∧
    same_log w w'.
Proof.
  intros HE Hw Hrun Hrun' Hnext Ht' Hq'.
  destruct (waiting_chain_ok _ _ _ _ _ _ _ _ Hw) as [Hc _].
  pose proof (wt_at _ _ _ _ _ _ _ _ Hw) as Hat. pose proof Hat as [_ Ht Hq _ _].
  cbn [ctx_tr ctx_req] in Ht, Hq.
  pose proof (pay_callback_refines cb run w a c t q ws (ans_value v) Hrun Hat Hc) as Href.
  rewrite Hnext, <- Hrun' in Href.
  eapply (serve_read w a _ t q ws cb tr key v); [done|done|exact Href| |]; cbn; congruence.
Qed.

(** From the pending warehouse read to the pending commit. *)
Lemma serve_payment_reads w a t q c op wv dv cv :
  EnvOk → waiting w a (CtxPayment c) t q [] PayOnWarehouseRead op →
  struct_ok wv → struct_ok dv → struct_ok cv → payment_in_range c wv dv cv →
  ∃ w' now,
    served a w [ans_value (pack wv); ans_value (pack dv); ans_value (pack cv)] w' ∧
    waiting w' a (CtxPayment (pay_read c wv dv cv)) t q
      (payment_writes (pay_read c wv dv cv) (c_ytd_payment cv) now) PayOnCommit (OpCommit t) ∧
    same_log w w'.
Proof.
  intros HE Hw Hwv Hdv Hcv Hfit.
  destruct (waiting_chain_ok _ _ _ _ _ _ _ _ Hw) as [_ [_ ->]].
  destruct (serve_payment_read w a t q c [] _ pay_on_warehouse_read _ _ (pack wv) false
    (pc_set_w_ytd c (w_ytd wv)) [] PayOnDistrictRead
    (OpGet t (enc_key (RDistrict (pc_c_w_id c) (pc_c_d_id c)))) HE Hw eq_refl eq_refl)
    as (w1 & S1 & Hw1 & [L1 L1']); [|done|done|].
  { unfold pay_next. by rewrite (read_row_pack warehouse_val_t). }
  set (c1 := pc_set_w_ytd c (w_ytd wv)) in *.
  set (c2 := pay_pick_customer (pc_set_d_ytd c1 (d_ytd dv))).
  destruct (pay_pick_fields (pc_set_d_ytd c1 (d_ytd dv))) as (F1 & F2 & _).
  fold c2 in F1, F2.
  destruct (serve_payment_read w1 a t q c1 [] _ pay_on_district_read _ _ (pack dv) false
    c2 [] PayOnCustomerRead
    (OpGet t (enc_key (RCustomer (pc_c_w_id c2) (pc_c_d_id c2) (pc_c_id c2)))) HE Hw1
    eq_refl eq_refl) as (w2 & S2 & Hw2 & [L2 L2']); [|done|done|].
  { unfold pay_next. by rewrite (read_row_pack district_val_t). }
  destruct (serve_payment_read w2 a t q c2 [] _ pay_on_customer_read _ _ (pack cv) true
    (pay_read c wv dv cv) (payment_writes (pay_read c wv dv cv) (c_ytd_payment cv)
      (env_time (w_tick w2))) PayOnCommit (OpCommit t) HE Hw2 eq_refl eq_refl)
    as (w3 & S3 & Hw3 & [L3 L3']); [|done|done|].
  { unfold pay_next. rewrite (read_row_pack customer_val_t) by done.
    cbn [a_error ans_value negb]. change (pc_set_customer c2 _ _) with (pay_read c wv dv cv).
    by rewrite pay_read_fits. }
  exists w3, (env_time (w_tick w2)). split; [|split; [done|split; congruence]].
  apply (served_app a w [_] w1); [done|]. by apply (served_app a w1 [_] w2).
Qed.

(** A whole Payment, from the pending warehouse read to the response. *)
Lemma serve_payment w a t q c op wv dv cv :
  EnvOk → waiting w a (CtxPayment c) t q [] PayOnWarehouseRead op →
  struct_ok wv → struct_ok dv → struct_ok cv → payment_in_range c wv dv cv →
  ∃ w' now,
    served a w [ans_value (pack wv); ans_value (pack dv); ans_value (pack cv); ans_done] w' ∧
    w_commits w' = w_commits w ++ [at_key <$> payment_rows c wv dv cv now] ∧
    w_responses w' = w_responses w ++ [(q, RInline None None (payment_body c))] ∧
    w_heap w' !! a = None ∧ w_trs w' !! t = None.
Proof.
  intros HE Hw Hwv Hdv Hcv Hfit.
  destruct (serve_payment_reads w a t q c op wv dv cv HE Hw Hwv Hdv Hcv Hfit)
    as (w3 & now & S3 & Hw3 & [L3 L3']).
  pose proof (wt_at _ _ _ _ _ _ _ _ Hw3) as Hat3.
  destruct (waiting_chain_ok _ _ _ _ _ _ _ _ Hw3) as [Hc3 _].
  destruct (serve_finish w3 a _ t q _ _ _ ans_done
    (RInline None None (payment_body (pay_read c wv dv cv))) (λ _, env_yajl_ok HE) Hw3)
    as (w4 & S4 & _ & Hh & Ht & Hr & Hcm); [done| |].
  { refine (pay_callback_refines PayOnCommit pay_on_commit
      (future_effect (OpCommit t) ans_done w3) a (pay_read c wv dv cv) t q
      (payment_writes (pay_read c wv dv cv) (c_ytd_payment cv) now) ans_done eq_refl _ Hc3).
    by destruct Hat3; split. }
  exists w4, now. split_and!; [| | |done|done].
  - by apply (served_app a w [_; _; _] w3).
  - rewrite Hcm, <- pay_read_rows, <- L3. cbn. by rewrite (at_ws _ _ _ _ _ _ Hat3).
  - rewrite Hr, L3'. unfold payment_body, pay_read. cbn.
    by destruct (pay_pick_fields (pc_set_d_ytd (pc_set_w_ytd c (w_ytd wv)) (d_ytd dv)))
      as (_ & _ & _ & _ & _ & -> & _).
Qed.
End serve_payment.

(** The district row a Payment stores. *)
Lemma payment_district_row `{RandR} c wv dv cv now :
  pay_ctx_ok c →
  last_write (enc_key (RDistrict (pc_c_w_id c) (pc_c_d_id c)))
    (at_key <$> payment_rows c wv dv cv now) =
  Some (pack (payment_district (d_ytd dv + pc_h_amount c))).
Proof.
  intros Hc. destruct (pay_ctx_ids c Hc) as (Iw & _ & Icw & Icd & Ic).
  assert (in_u 32 (pay_customer_id c)) as Id.
  { unfold pay_customer_id, pay_pick_customer. destruct (pc_by_name c); [|done].
    destruct (get_random_number _ _) as [[r s]|]; [by apply wrap_u_range|done]. }
  assert (in_u 32 (u32 now)) as In by (by apply wrap_u_range).
  rewrite last_write_rows.
  - unfold payment_rows. cbn [last_write]. do 2 (rewrite decide_False by done).
    by rewrite decide_True.
  - split; [by forall_list|done].
  - unfold payment_rows. repeat (apply Forall_cons_2; [split; [cbn; by forall_list|done]|]).
    apply Forall_nil_2.
Qed.

Lemma payment_warehouse_ok y : in_s 64 y → struct_ok (payment_warehouse y).
Proof. intros. struct_fields. Qed.
Lemma payment_district_ok y : in_s 64 y → struct_ok (payment_district y).
Proof. intros. struct_fields. Qed.

(** ** Properties of Payment *)

(** C8: a Payment whose reads find the warehouse, district and customer rows commits exactly
    [payment_rows]: the amount is added to the year-to-date sums of the warehouse, the
    district and the customer and taken from the customer's balance, the payment is
    counted and a history row is added; the response names the amount. *)
Theorem payment_commits `{Env} `{RandR} (w : world) (a t q : nat) (c : payment_ctx_t)
    (op : fdb_op) (wv : warehouse_val_t) (dv : district_val_t) (cv : customer_val_t) :
  EnvOk → waiting w a (CtxPayment c) t q [] PayOnWarehouseRead op →
  struct_ok wv → struct_ok dv → struct_ok cv → payment_in_range c wv dv cv →
  ∃ w' now,
    served a w [ans_value (pack wv); ans_value (pack dv); ans_value (pack cv); ans_done] w' ∧
    w_commits w' = w_commits w ++ [at_key <$> payment_rows c wv dv cv now] ∧
    w_responses w' = w_responses w ++ [(q, RInline None None (payment_body c))] ∧
    w_heap w' !! a = None ∧ w_trs w' !! t = None.
Proof. apply serve_payment. Qed.

(** an error of any of Payment's futures restarts the chain from the warehouse read
    with an empty transaction, nothing committed or answered. *)
Theorem payment_retry_starts_over `{Env} `{RandR} (w : world) (a t q : nat)
    (c : payment_ctx_t) (ws : list write) (cb : callback) (op : fdb_op) (err : Z) :
  EnvOk → waiting w a (CtxPayment c) t q ws cb op → cb ≠ PayOnErrorRetry → err ≠ 0 →
  ∃ w', served a w [ans_error err; ans_retry] w' ∧
    waiting w' a (CtxPayment c) t q [] PayOnWarehouseRead
      (OpGet t (enc_key (RWarehouse (pc_w_id c)))) ∧
    w_commits w' = w_commits w ∧ w_responses w' = w_responses w.
Proof.
  intros HE Hw Hcb Herr. destruct (waiting_chain_ok _ _ _ _ _ _ _ _ Hw) as [Hc Hok].
  pose proof (wt_at _ _ _ _ _ _ _ _ Hw) as [_ Ht Hq _ _].
  destruct (serve_error w a _ t q ws cb PayOnErrorRetry op (ans_error err) HE Hw Herr)
    as (w1 & S1 & Hw1 & C1 & R1).
  { intros w' Hat.
    rewrite (pay_callback_refines cb _ w' a c t q ws _ (pay_callback_run _ _ _ _ _ Hok)) by done.
    f_equal. unfold pay_next. cbn [a_error ans_error].
    rewrite (proj2 (Z.eqb_neq _ _) Herr). by destruct cb. }
  destruct (serve_restart w1 a (CtxPayment c) t q ws PayOnErrorRetry PayOnWarehouseRead
    (OpGet t (enc_key (RWarehouse (pc_w_id c)))) err ans_retry (CtxPayment c))
    as (w2 & S2 & Hw2 & [L1 L2]); try done.
  { intros w' Hat.
    by apply (pay_callback_refines PayOnErrorRetry pay_on_error_retry w' a c t q []). }
  exists w2. split; [by apply (served_app a w [_] w1)|]. split; [done|].
  rewrite L1, C1, L2, R1. split; [|done]. destruct op; cbn; by rewrite app_nil_r.
Qed.

(** Payment stores the district row with every field but the year-to-date sum zeroed:
    the next NewOrder of the district, whatever id the district had reached, answers and
    stores order id 0. *)
Theorem payment_resets_the_order_id `{Env} `{RandR} (p : payment_ctx_t)
    (wv : warehouse_val_t) (dv : district_val_t) (pcv : customer_val_t) (paid : Z)
    (w : world) (a t q : nat) (c : new_order_ctx_t) (op : fdb_op) (cv : customer_val_t)
    (svs : list stock_val_t) :
  EnvOk → pay_ctx_ok p → payment_in_range p wv dv pcv →
  pc_c_w_id p = no_w_id c → pc_c_d_id p = no_d_id c →
  waiting w a (CtxNewOrder c) t q [] NoOnDistrictRead op →
  struct_ok cv → Forall stock_in_range svs →
  1 <= no_ol_cnt c → Z.of_nat (length svs) = no_ol_cnt c →
  ∃ v w' now,
    last_write (enc_key (RDistrict (no_w_id c) (no_d_id c)))
      (payment_writes (pay_read p wv dv pcv) (c_ytd_payment pcv) paid) = Some v ∧
    served a w (ans_value v :: ans_value (pack cv) ::
      ((λ sv, ans_value (pack sv)) <$> svs) ++ [ans_done]) w' ∧
    w_commits w' = w_commits w ++ [at_key <$> order_rows c 0 svs now] ∧
    w_responses w' = w_responses w ++ [(q, RInline None None
      [JMapOpen; jstr "status" 6; jstr "ok" 2; jstr "o_id" 4; JInteger 0; JMapClose])].
Proof.
  intros HE Hp Hfit Ew Ed Hw Hcv Hsvs Hcnt Hlen.
  assert (in_s 64 (d_ytd dv + pc_h_amount p)) as Hy
    by (unfold payment_in_range in Hfit; rewrite !Forall_cons in Hfit; naive_solver).
  destruct (serve_new_order w a t q c op (payment_district (d_ytd dv + pc_h_amount p)) cv svs)
    as (w' & now & Hs & Hcm & Hr & _); try done; [by apply payment_district_ok|].
  eexists _, w', now. split; [|by split].
  rewrite pay_read_rows, <- Ew, <- Ed. by apply payment_district_row.
Qed.

(** ** Witnesses of NewOrder *)

Lemma sample_stock_ok : stock_in_range sample_stock.
Proof. split; [|done]. struct_fields. Qed.

Lemma sample_district_ok : struct_ok sample_district.
Proof. struct_fields. Qed.
Lemma sample_customer_ok : struct_ok sample_customer.
Proof. struct_fields. Qed.

Lemma new_order_commits_witness :
  ∃ (w' : world) (now : Z),
    w_commits w' = [at_key <$> order_rows sample_order 3001 [sample_stock] now] ∧
    w_responses w' = [(1%nat, RInline None None
      [JMapOpen; jstr "status" 6; jstr "ok" 2; jstr "o_id" 4; JInteger 3001; JMapClose])].
Proof.
  destruct (@new_order_commits (env_ok 1700000000) rand_r_posix sample_order_world 2 3 1
    sample_order sample_order_op sample_district sample_customer [sample_stock])
    as (w' & now & _ & Hc & Hr & _).
  - apply env_ok_ok.
  - exact sample_order_waiting.
  - exact sample_district_ok.
  - exact sample_customer_ok.
  - apply Forall_cons_2; [exact sample_stock_ok|apply Forall_nil_2].
  - done.
  - done.
  - done.
  - exists w', now. split; [exact Hc|exact Hr].
Defined.

(** Two lines of the same item: only the second decrement is stored. *)
Definition sample_twice : new_order_ctx_t :=
  mk_new_order_ctx (Some 3%nat) (Some 1%nat) (Some 0%nat) 9 1 3 42 2
    (<[1%nat := 1]> (<[0%nat := 1]> (replicate 15 0)))
    (<[1%nat := 500]> (<[0%nat := 500]> (replicate 15 0)))
    (<[1%nat := 1]> (<[0%nat := 9]> (replicate 15 0)))
    true 0 0 0 0 (replicate 15 0) (replicate 15 0) 0 false.

Lemma sample_twice_ok : no_ctx_ok sample_twice.
Proof. by split; cbn; try done; forall_list. Qed.

Definition sample_twice_world : world :=
  chain_world (CtxNewOrder sample_twice) NoOnDistrictRead sample_order_op.

Lemma sample_twice_waiting :
  waiting sample_twice_world 2 (CtxNewOrder sample_twice) 3 1 [] NoOnDistrictRead
    sample_order_op.
Proof. apply chain_world_waiting; [done|done|]. split; [apply sample_twice_ok|done]. Qed.

Lemma new_order_final_rows_witness :
  ∃ (w' : world) ws, w_commits w' = [ws] ∧
    last_write (enc_key (RStock 1 500)) ws =
      Some (pack (mk_stock_val 11 (zero_chars 240) 1 1 0 (zero_chars 50))) ∧
    last_write (enc_key (ROrderLine 1 3 3001 3)) ws = None.
Proof.
  destruct (@new_order_final_rows (env_ok 1700000000) rand_r_posix sample_twice_world 2 3 1
    sample_twice sample_order_op sample_district sample_customer [sample_stock; sample_stock])
    as (w' & ws & now & _ & Hc & _ & _ & _ & _ & Hs & Hno).
  - apply env_ok_ok.
  - exact sample_twice_waiting.
  - exact sample_district_ok.
  - exact sample_customer_ok.
  - repeat apply Forall_cons_2; [exact sample_stock_ok|exact sample_stock_ok|apply Forall_nil_2].
  - done.
  - done.
  - done.
  - exists w', ws. split; [exact Hc|]. split.
    + apply (Hs 1 sample_stock); [reflexivity|lia|].
      intros j Hj. change (no_ol_cnt sample_twice) with 2 in Hj. lia.
    + destruct (last_write (enc_key (ROrderLine 1 3 3001 3)) ws) eqn:E; [|done]. exfalso.
      destruct (Hno (ROrderLine 1 3 3001 3)) as [Hin|(i & Hi & [E'|E'])].
      * split; [cbn; forall_list|done].
      * by rewrite E.
      * rewrite !elem_of_cons, elem_of_nil in Hin. naive_solver.
      * change (no_ol_cnt sample_twice) with 2 in Hi. injection E' as E'. lia.
      * done.
Defined.

Lemma new_order_reuses_the_order_id_witness :
  ∃ db1 db2 : store,
    db1 !! enc_key (RDistrict 1 3) = Some (pack sample_district) ∧
    db1 !! enc_key (RNextOId 1 3) = Some (next_o_id_bytes 3002) ∧
    (∃ now, db2 !! enc_key (ROorder 1 3 3001) = Some (pack (mk_oorder_val 42 (-1) 1 1 now))) ∧
    is_Some (db2 !! enc_key (ROrderLine 1 3 3001 2)).
Proof.
  destruct (@new_order_reuses_the_order_id (env_ok 1700000000) rand_r_posix
    {[enc_key (RDistrict 1 3) := pack sample_district]} sample_twice_world sample_order_world
    2 3 1 2 3 1 sample_twice sample_order sample_order_op sample_order_op sample_district
    sample_customer sample_customer [sample_stock; sample_stock] [sample_stock])
    as (w1' & w2' & ws1 & ws2 & now1 & now2 & (_ & _ & _ & Hn & Hd & _) &
        (_ & _ & _ & Hh) & Hl).
  - apply env_ok_ok.
  - exact sample_twice_waiting.
  - exact sample_order_waiting.
  - done.
  - done.
  - apply lookup_singleton_eq.
  - exact sample_district_ok.
  - done.
  - exact sample_customer_ok.
  - exact sample_customer_ok.
  - repeat apply Forall_cons_2; [exact sample_stock_ok|exact sample_stock_ok|apply Forall_nil_2].
  - apply Forall_cons_2; [exact sample_stock_ok|apply Forall_nil_2].
  - done.
  - done.
  - done.
  - done.
  - eexists _, _. split; [exact Hd|]. split; [exact Hn|]. split; [by eexists|].
    eexists. exact (Hl 1 ltac:(split; done)).
Defined.

Lemma new_order_retry_starts_over_witness :
  ∃ w' : world,
    waiting w' 2 (CtxNewOrder sample_order) 3 1 [] NoOnDistrictRead sample_order_op ∧
    w_commits w' = [] ∧ w_responses w' = [].
Proof.
  destruct (@new_order_retry_starts_over (env_ok 1700000000) rand_r_posix sample_order_world
    2 3 1 sample_order [] NoOnDistrictRead sample_order_op (ans_error 1020))
    as [H _].
  - apply env_ok_ok.
  - exact sample_order_waiting.
  - done.
  - destruct (H ltac:(done) ans_retry) as (w' & _ & Hc & Hw & Hr). exists w'.
    split; [exact Hw|]. split; [exact Hc|exact Hr].
Defined.

(** ** Witnesses of Payment *)

(** A payment of 5000 by customer 42 of district 3, its warehouse read pending. *)
Definition sample_payment : payment_ctx_t :=
  mk_payment_ctx (Some 3%nat) (Some 1%nat) (Some 0%nat) 9 1 5 1 3 42 (zero_chars 16) false 5000
    0 0 0 0.
Definition sample_payment_op : fdb_op := OpGet 3 (enc_key (RWarehouse 1)).
Definition sample_payment_world : world :=
  chain_world (CtxPayment sample_payment) PayOnWarehouseRead sample_payment_op.

Definition sample_warehouse : warehouse_val_t := payment_warehouse 30000000.

Lemma sample_warehouse_ok : struct_ok sample_warehouse.
Proof. struct_fields. Qed.

Lemma sample_payment_ok : pay_ctx_ok sample_payment.
Proof. split; cbn; try range; forall_list. Qed.

Lemma sample_payment_waiting :
  waiting sample_payment_world 2 (CtxPayment sample_payment) 3 1 [] PayOnWarehouseRead
    sample_payment_op.
Proof. apply chain_world_waiting; [done|done|]. split; [apply sample_payment_ok|done]. Qed.

Lemma sample_payment_in_range :
  payment_in_range sample_payment sample_warehouse sample_district sample_customer.
Proof. unfold payment_in_range. cbn. forall_list. Qed.

Lemma payment_commits_witness :
  ∃ w' now,
    w_commits w' = [at_key <$> payment_rows (H := rand_r_posix) sample_payment
      sample_warehouse sample_district sample_customer now] ∧
    w_responses w' = [(1%nat, RInline None None (payment_body sample_payment))].
Proof.
  destruct (@payment_commits (env_ok 1700000000) rand_r_posix sample_payment_world 2 3 1
    sample_payment sample_payment_op sample_warehouse sample_district sample_customer)
    as (w' & now & _ & Hc & Hr & _).
  - apply env_ok_ok.
  - exact sample_payment_waiting.
  - exact sample_warehouse_ok.
  - exact sample_district_ok.
  - exact sample_customer_ok.
  - exact sample_payment_in_range.
  - exists w', now. split; [exact Hc|exact Hr].
Defined.

Lemma payment_retry_starts_over_witness :
  ∃ w' : world,
    waiting w' 2 (CtxPayment sample_payment) 3 1 [] PayOnWarehouseRead sample_payment_op ∧
    w_commits w' = [].
Proof.
  destruct (@payment_retry_starts_over (env_ok 1700000000) rand_r_posix sample_payment_world
    2 3 1 sample_payment [] PayOnWarehouseRead sample_payment_op 1020)
    as (w' & _ & Hw & Hc & _).
  - apply env_ok_ok.
  - exact sample_payment_waiting.
  - done.
  - done.
  - exists w'. split; [exact Hw|exact Hc].
Defined.

Lemma payment_resets_the_order_id_witness :
  ∃ w' : world, w_responses w' = [(1%nat, RInline None None
    [JMapOpen; jstr "status" 6; jstr "ok" 2; jstr "o_id" 4; JInteger 0; JMapClose])].
Proof.
  destruct (@payment_resets_the_order_id (env_ok 1700000000) rand_r_posix sample_payment
    sample_warehouse sample_district sample_customer 1700000000 sample_order_world 2 3 1
    sample_order sample_order_op sample_customer [sample_stock])
    as (v & w' & now & _ & _ & _ & Hr).
  - apply env_ok_ok.
  - exact sample_payment_ok.
  - exact sample_payment_in_range.
  - done.
  - done.
  - exact sample_order_waiting.
  - exact sample_customer_ok.
  - apply Forall_cons_2; [exact sample_stock_ok|apply Forall_nil_2].
  - done.
  - done.
  - exists w'. exact Hr.
Defined.
