(* ===== verification/Ledger.v ===== *)
(** * What an answer says about the commits

    An "ok" of NewOrder or Payment promises that the transaction was committed.  As long as
    FoundationDB knows the result of every commit the promise is kept exactly: the commits
    and the answers of a run go together one by one ([ok_answers_are_committed_once]).

    A commit may also fail with an unknown result, after it was applied.  The handlers treat
    this error like any other and start over, so that the transaction is applied twice
    ([unknown_results_pay_twice]); the documentation of FoundationDB asks the clients for
    transactions that can be repeated. *)

From S2P Require Import Prelude Kv Random Query Values Ctx Runtime Chain NewOrder Payment.
From S2P Require Import ReadTxns Tfb Handlers Invariant Entry Lifecycle Serve Progress Schema.
From S2P Require Import Store Scratch Isolation Contention Transactions.

(** ** One answer for each commit *)

Section ledger.
Context (base : store) `{Env} `{RandR}.

(** A chain says "ok" when its commit has come back without an error. *)
Lemma transaction_ok_next now cb t c op ws ws' ans r :
  chain_ok cb t c op ws → chain_next now cb t c ws' ans (NFinish r) → transaction_ok r = true →
  op = OpCommit t ∧ a_error ans = 0.
Proof.
  intros Hok Hn Hr. destruct c as [c|c|c|c|c|c|c|c]; cbn [chain_ok chain_next] in *;
    try (by destruct Hn as (? & [= <-] & ?); congruence); try done.
  - destruct Hok as [_ Hok]. unfold no_next, no_start, no_fail in Hn.
    repeat case_match; simplify_eq; try done. split; [apply Hok|by apply Z.eqb_eq, negb_false_iff].
  - destruct Hok as [_ Hok]. unfold pay_next, pay_fail in Hn.
    repeat case_match; simplify_eq; try done. split; [apply Hok|by apply Z.eqb_eq, negb_false_iff].
  - destruct Hn as [seed Hn]. unfold up_next in Hn. by repeat case_match; simplify_eq.
Qed.

(** What a run has added: the commits with the requests they were made for, and the answers. *)
Record ledger (w w' : world) (L : list (nat * list write)) (rs : list (nat * response))
    : Prop := {
  lg_commits : w_commits w' = w_commits w ++ L.*2;
  lg_responses : w_responses w' = w_responses w ++ rs;
  lg_answered : L.*1 `sublist_of` rs.*1;
  lg_committed : ∀ q r, (q, r) ∈ rs → transaction_ok r = true → q ∈ L.*1;
}.

Lemma ledger_app w1 w2 w3 L1 L2 rs1 rs2 :
  ledger w1 w2 L1 rs1 → ledger w2 w3 L2 rs2 → ledger w1 w3 (L1 ++ L2) (rs1 ++ rs2).
Proof.
  intros [C1 R1 S1 O1] [C2 R2 S2 O2]. split.
  - by rewrite C2, C1, fmap_app, app_assoc.
  - by rewrite R2, R1, app_assoc.
  - rewrite !fmap_app. by apply sublist_app.
  - intros q r Hin Hr. rewrite fmap_app, elem_of_app.
    apply elem_of_app in Hin as [Hin|Hin]; [left; by eapply O1|right; by eapply O2].
Qed.

(** A future either commits, and then its chain ends, or adds no commit. *)
Lemma contends_commits w ws0 x b op ans x' ws :
  fdb_contends base w ws0 x b op ans x' →
  (∃ t, op = OpCommit t) ∧ a_error ans = 0 ∧ committed op ans ws = [ws] ∨
  committed op ans ws = [] ∧ ∀ t, op = OpCommit t → a_error ans ≠ 0.
Proof.
  destruct 1 as [op ans tx _ _ Hc _ _|t _|t err Herr _|t err]; cbn.
  - right. destruct op as [| |t|]; cbn; [by split..| |by split]. by destruct (Hc t).
  - left. by split; [eexists|].
  - by right.
  - by right.
Qed.

Lemma ledger_future w X B f p ans x' w' :
  contention_ok (mk_cstate w X B) → w_futures w !! f = Some p →
  fdb_contends base w (default [] (w_trs w !! op_tr (f_op p))) (X !! op_tr (f_op p))
    (born (mk_cstate w X B) (op_tr (f_op p))) (f_op p) ans x' →
  step (EvFuture f ans) w = Ok ((), w') →
  ∃ L rs, ledger w w' L rs.
Proof.
  intros Hc Hp Hans Hstep.
  destruct (contends_moved base w X B f p ans x' w' Hc Hp Hans Hstep)
    as (_ & c & q & ws & n & now & _ & Hok & Hnext & Hmoved & Hcom & _).
  destruct (contends_commits _ _ _ _ _ _ _ ws Hans) as [([t' Eop] & Herr & Ec)|[Ec Herr]];
    rewrite Ec in Hcom;
    destruct Hmoved as [timed c' ws' cb' op' fut -> _ _ _ _ _ _ _ Er|r -> _ _ _ _ Er].
  - rewrite Eop in Hok, Hnext.
    by destruct (chain_next_last _ _ _ _ _ _ _ _ _ _ _ _ Hok Herr I Hnext).
  - exists [(q, ws)], [(q, r)]. split; [done|done|done|].
    intros q' r' [= -> ->]%list_elem_of_singleton _. cbn. by apply list_elem_of_singleton.
  - exists [], []. rewrite app_nil_r in Hcom.
    split; cbn; rewrite ?app_nil_r; [done|done|done|]. intros q' r' []%elem_of_nil.
  - exists [], [(q, r)]. split; [done|done|apply sublist_nil_l|].
    intros q' r' [= -> ->]%list_elem_of_singleton Hr.
    destruct (transaction_ok_next _ _ _ _ _ _ _ _ _ Hok Hnext Hr) as [Eop Herr'].
    by destruct (Herr _ Eop).
Qed.

Lemma contended_ledger n s s' :
  contention_ok s → contended base n s s' →
  ∃ L rs, ledger (cs_world s) (cs_world s') L rs.
Proof.
  intros Hc Hrun. induction Hrun as [s|n w X B f p ans x' w' s' Hp Hans Hstep _ IH].
  - exists [], []. split; cbn; rewrite ?app_nil_r; try done. intros q r []%elem_of_nil.
  - destruct IH as (L2 & rs2 & H2); [by eapply future_contention_ok|].
    destruct (ledger_future w X B f p ans x' w' Hc Hp Hans Hstep) as (L1 & rs1 & H1).
    exists (L1 ++ L2), (rs1 ++ rs2). by eapply ledger_app.
Qed.
End ledger.

(** ** A commit whose result is unknown *)

(** commit_unknown_result of an applied commit: FoundationDB's error 1021. *)
Definition ans_unknown : answer := mk_answer 1021 1021 None 1021 [] true.

Section unknown.
Context `{Env} `{RandR}.

(** A Payment whose commit was applied but reported as unknown reads its warehouse again. *)
Lemma serve_payment_unknown w a t q c ws :
  EnvOk → waiting w a (CtxPayment c) t q ws PayOnCommit (OpCommit t) →
  ∃ w', served a w [ans_unknown; ans_retry] w' ∧
    waiting w' a (CtxPayment c) t q [] PayOnWarehouseRead
      (OpGet t (enc_key (RWarehouse (pc_w_id c)))) ∧
    w_commits w' = w_commits w ++ [ws] ∧ w_responses w' = w_responses w.
Proof.
  intros HE Hw. destruct (waiting_chain_ok _ _ _ _ _ _ _ _ Hw) as [Hc _].
  pose proof (wt_at _ _ _ _ _ _ _ _ Hw) as Hat. pose proof Hat as [Hh Ht Hq Hws Hl].
  destruct (serve_continue_log w (add_commit ws w) a (CtxPayment c) t q ws PayOnCommit
    (OpCommit t) ans_unknown false (CtxPayment c) ws PayOnErrorRetry (OpOnError t 1021))
    as (w1 & S1 & Hw1 & [Hcm1 Hr1] & _); try done.
  { cbn [future_effect a_applied ans_unknown]. rewrite Hws. cbn [default].
    by apply (pay_callback_refines PayOnCommit pay_on_commit (add_commit ws w) a c t q ws). }
  pose proof (wt_at _ _ _ _ _ _ _ _ Hw1) as [Hh1 _ _ Hws1 Hl1].
  destruct (serve_continue w1 (future_effect (OpOnError t 1021) ans_retry w1) a (CtxPayment c)
    t q ws PayOnErrorRetry (OpOnError t 1021) ans_retry false (CtxPayment c) []
    PayOnWarehouseRead (OpGet t (enc_key (RWarehouse (pc_w_id c)))))
    as (w2 & S2 & Hw2 & [Hcm2 Hr2] & _); try done.
  { apply (pay_callback_refines PayOnErrorRetry pay_on_error_retry
      (future_effect (OpOnError t 1021) ans_retry w1) a c t q []); [done| |done].
    split; try done. cbn. by rewrite lookup_alter_eq, Hws1. }
  exists w2. split; [by apply (served_app a w [ans_unknown] w1)|].
  split; [done|]. split; [by rewrite Hcm2, Hcm1|congruence].
Qed.

(** What the attempts have in common: the keys but the customer's, and the amount. *)
Lemma pay_read_fields c wv dv cv :
  let c' := pay_read c wv dv cv in
  pc_w_id c' = pc_w_id c ∧ pc_c_w_id c' = pc_c_w_id c ∧ pc_c_d_id c' = pc_c_d_id c ∧
  pc_h_amount c' = pc_h_amount c.
Proof.
  cbn zeta. unfold pay_read. cbn [pc_set_customer pc_w_id pc_c_w_id pc_c_d_id pc_h_amount].
  by destruct (pay_pick_fields (pc_set_d_ytd (pc_set_w_ytd c (w_ytd wv)) (d_ytd dv)))
    as (_ & _ & -> & -> & -> & -> & _).
Qed.
End unknown.

(** The warehouse row a Payment stores. *)
Lemma payment_warehouse_row `{RandR} c wv dv cv now :
  pay_ctx_ok c →
  last_write (enc_key (RWarehouse (pc_w_id c))) (at_key <$> payment_rows c wv dv cv now) =
  Some (pack (payment_warehouse (w_ytd wv + pc_h_amount c))).
Proof.
  intros Hc. destruct (pay_ctx_ids c Hc) as (Iw & _ & Icw & Icd & Ic).
  pose proof (pay_pick_id c Ic) as Id.
  assert (in_u 32 (u32 now)) as In by (by apply wrap_u_range).
  rewrite last_write_rows.
  - unfold payment_rows. cbn [last_write]. do 3 (rewrite decide_False by done).
    by rewrite decide_True.
  - split; [by forall_list|done].
  - unfold payment_rows, pay_customer_id.
    repeat (apply Forall_cons_2; [split; [cbn; by forall_list|done]|]). apply Forall_nil_2.
Qed.

(** ** Properties *)

(** C9: an "ok" is one commit: in a run in which commits are refused only for conflicts, the
    transactions committed are, in order, those of distinct requests that are answered in
    the run, and every request answered with the "ok" of a NewOrder or a Payment is one of
    them: none is answered without its commit, none commits twice, and no retried attempt
    leaves a commit behind. *)
Theorem ok_answers_are_committed_once `{Env} `{RandR} (base : store) (n : nat) (s s' : cstate) :
  contention_ok s → contended base n s s' →
  ∃ (L : list (nat * list write)) (rs : list (nat * response)),
    w_commits (cs_world s') = w_commits (cs_world s) ++ L.*2 ∧
    w_responses (cs_world s') = w_responses (cs_world s) ++ rs ∧
    L.*1 `sublist_of` rs.*1 ∧ NoDup rs.*1 ∧
    ∀ q r, (q, r) ∈ rs → transaction_ok r = true → q ∈ L.*1.
Proof.
  intros Hc Hrun. destruct (contended_ledger base n s s' Hc Hrun) as (L & rs & [Lc Lr Ls Lo]).
  exists L, rs. split_and!; try done.
  destruct (contended_potential base n s s' Hc Hrun) as [Hc' _].
  pose proof (inv_resp _ _ (co_inv _ Hc')) as Hnd. rewrite Lr, fmap_app in Hnd.
  by apply NoDup_app in Hnd as (_ & _ & ?).
Qed.

(** C29: unknown commits are repeated: when FoundationDB reports an applied commit of a Payment
    as unknown (error 1021), the Payment starts over, reads the sums it has just stored and
    adds its amount again. The request is answered once, with one "ok" for one amount; two
    commits stay behind, and the warehouse and the district of the last one have received
    the amount twice. *)
Theorem unknown_results_pay_twice `{Env} `{RandR} (w : world) (a t q : nat)
    (c : payment_ctx_t) (op : fdb_op) (wv : warehouse_val_t) (dv : district_val_t)
    (cv cv2 : customer_val_t) :
  EnvOk → waiting w a (CtxPayment c) t q [] PayOnWarehouseRead op →
  let h := pc_h_amount c in
  let wv2 := payment_warehouse (w_ytd wv + h) in
  let dv2 := payment_district (d_ytd dv + h) in
  struct_ok wv → struct_ok dv → struct_ok cv → struct_ok cv2 →
  payment_in_range c wv dv cv → payment_in_range c wv2 dv2 cv2 →
  ∃ w' ws1 ws2,
    served a w [ans_value (pack wv); ans_value (pack dv); ans_value (pack cv); ans_unknown;
      ans_retry; ans_value (pack wv2); ans_value (pack dv2); ans_value (pack cv2);
      ans_done] w' ∧
    w_commits w' = w_commits w ++ [ws1; ws2] ∧
    w_responses w' = w_responses w ++ [(q, RInline None None (payment_body c))] ∧
    last_write (enc_key (RWarehouse (pc_w_id c))) ws1 = Some (pack wv2) ∧
    last_write (enc_key (RDistrict (pc_c_w_id c) (pc_c_d_id c))) ws1 = Some (pack dv2) ∧
    last_write (enc_key (RWarehouse (pc_w_id c))) ws2 =
      Some (pack (payment_warehouse (w_ytd wv + 2 * h))) ∧
    last_write (enc_key (RDistrict (pc_c_w_id c) (pc_c_d_id c))) ws2 =
      Some (pack (payment_district (d_ytd dv + 2 * h))).
Proof.
  intros HE Hw h wv2 dv2 Hwv Hdv Hcv Hcv2 Hfit Hfit2.
  destruct (waiting_chain_ok _ _ _ _ _ _ _ _ Hw) as [Hc _].
  destruct (serve_payment_reads w a t q c op wv dv cv) as (w1 & now1 & S1 & Hw1 & [C1 R1]);
    try done.
  set (c1 := pay_read c wv dv cv) in *.
  destruct (pay_read_fields c wv dv cv) as (Ew & Ecw & Ecd & Eh). fold c1 in Ew, Ecw, Ecd, Eh.
  destruct (serve_payment_unknown w1 a t q c1 _ HE Hw1) as (w2 & S2 & Hw2 & C2 & R2).
  destruct (waiting_chain_ok _ _ _ _ _ _ _ _ Hw2) as [Hc1 _].
  pose proof Hfit as Hsums. unfold payment_in_range in Hsums. rewrite !Forall_cons in Hsums.
  destruct Hsums as (Fw & Fd & _).
  destruct (serve_payment w2 a t q c1 _ wv2 dv2 cv2 HE Hw2) as (w3 & now2 & S3 & C3 & R3 & _).
  { by apply payment_warehouse_ok. }
  { by apply payment_district_ok. }
  { done. }
  { unfold payment_in_range. by rewrite Eh. }
  eexists w3, _, _. split; [|split; [by rewrite C3, C2, C1, <- app_assoc|split]].
  - apply (served_app a w [_; _; _] w1); [done|]. by apply (served_app a w1 [_; _] w2).
  - rewrite R3, R2, R1. unfold payment_body. by rewrite Eh.
  - unfold c1. rewrite pay_read_rows, payment_warehouse_row, payment_district_row by done.
    fold c1. rewrite <- Ew, <- Ecw, <- Ecd, payment_warehouse_row, payment_district_row by done.
    rewrite Eh. cbn [wv2 dv2 w_ytd d_ytd payment_warehouse payment_district]. fold h.
    by replace (w_ytd wv + 2 * h) with (w_ytd wv + h + h) by lia;
      replace (d_ytd dv + 2 * h) with (d_ytd dv + h + h) by lia.
Qed.

(** ** Witnesses *)

(** Two clients' Payments of which one is refused once: two commits, two answers. *)
Lemma ok_answers_are_committed_once_witness :
  ∃ (s' : cstate) (L : list (nat * list write)) (rs : list (nat * response)),
    w_futures (cs_world s') = ∅ ∧
    w_commits (cs_world s') = w_commits (cs_world (mk_cstate clients_asked ∅ ∅)) ++ L.*2 ∧
    w_responses (cs_world s') = w_responses (cs_world (mk_cstate clients_asked ∅ ∅)) ++ rs ∧
    ∀ q r, (q, r) ∈ rs → transaction_ok r = true → q ∈ L.*1.
Proof.
  destruct clients_contended as (s' & Hrun & Hf).
  destruct (@ok_answers_are_committed_once (env_ok 1700000000) rand_r_posix clients_store 13
    (mk_cstate clients_asked ∅ ∅) s' clients_contention Hrun)
    as (L & rs & HL & Hrs & _ & _ & Hok).
  exists s', L, rs.
  exact (conj Hf (conj HL (conj Hrs Hok))).
Defined.

Lemma unknown_results_pay_twice_witness :
  ∃ (w' : world) (ws1 ws2 : list write),
    w_commits w' = [ws1; ws2] ∧
    w_responses w' = [(1%nat, RInline None None (payment_body sample_payment))] ∧
    last_write (enc_key (RWarehouse 1)) ws2 = Some (pack (payment_warehouse 30010000)).
Proof.
  destruct (@unknown_results_pay_twice (env_ok 1700000000) rand_r_posix sample_payment_world
    2 3 1 sample_payment sample_payment_op sample_warehouse sample_district sample_customer
    sample_customer) as (w' & ws1 & ws2 & _ & Hc & Hr & _ & _ & Hw & _).
  - apply env_ok_ok.
  - exact sample_payment_waiting.
  - exact sample_warehouse_ok.
  - exact sample_district_ok.
  - exact sample_customer_ok.
  - exact sample_customer_ok.
  - exact sample_payment_in_range.
  - unfold payment_in_range. cbn. forall_list.
  - exists w', ws1, ws2. split; [exact Hc|]. split; [exact Hr|exact Hw].
Defined.
