(* ===== verification/Books.v ===== *)
(** * The books: TPC-C's first consistency condition on the store

    The year-to-date sum of a warehouse is the sum of those of its ten districts.  Payment
    adds its amount to one of each; its callbacks hold what they read in the context and
    write it back later, so the condition is kept along runs in which no other request is
    served in between ([serial], Store).  What src/tpcc_loader.c stores satisfies it. *)

From S2P Require Import Prelude Kv Random Query Values Loader Ctx Runtime Chain NewOrder.
From S2P Require Import Payment ReadTxns Tfb Handlers Invariant Entry Lifecycle Serve Schema.
From S2P Require Import Store Transactions.

(** ** Books *)

Definition zsum (l : list Z) : Z := foldr Z.add 0 l.

Definition warehouse_ytd (db : store) (w : Z) : Z :=
  from_option w_ytd 0 (row_at warehouse_val_t db (RWarehouse w)).
Definition district_ytd (db : store) (w d : Z) : Z :=
  from_option d_ytd 0 (row_at district_val_t db (RDistrict w d)).

Definition balanced (db : store) (w : Z) : Prop :=
  warehouse_ytd db w = zsum (district_ytd db w <$> one_to DISTRICTS_PER_WAREHOUSE).
Definition books (db : store) : Prop := ∀ w, in_u 32 w → balanced db w.

Lemma zsum_app l1 l2 : zsum (l1 ++ l2) = zsum l1 + zsum l2.
Proof. induction l1 as [|x l IH]; cbn; [done|]. unfold zsum in *. lia. Qed.

Lemma zsum_bump (f g : Z → Z) n d h :
  1 <= d <= n → g d = f d + h → (∀ i, 1 <= i <= n → i ≠ d → g i = f i) →
  zsum (g <$> one_to n) = zsum (f <$> one_to n) + h.
Proof.
  intros Hd Hgd Hg. rewrite <- (Z2Nat.id n) in * by lia. generalize dependent (Z.to_nat n).
  clear n. induction n as [|n IH]; intros Hd Hg; [lia|].
  rewrite one_to_S, !fmap_app, !zsum_app. cbn [fmap list_fmap zsum foldr].
  destruct (decide (d = Z.of_nat (S n))) as [->|Hne].
  - assert (g <$> one_to (Z.of_nat n) = f <$> one_to (Z.of_nat n)) as ->; [|lia].
    apply list_fmap_ext. intros k i Hi%list_elem_of_lookup_2%elem_of_one_to. apply Hg; lia.
  - rewrite IH, (Hg (Z.of_nat (S n))) by (try intros; try apply Hg; lia). lia.
Qed.

(** Writes of other tables leave the books alone. *)
Lemma books_other ts ws db :
  Forall (typed_in ts) ws → TWarehouse ∉ ts → TDistrict ∉ ts → books db →
  books (apply_writes ws db).
Proof.
  intros Hws Hw Hd Hb w Iw. specialize (Hb w Iw). unfold balanced, warehouse_ytd in *.
  rewrite row_at_same.
  - rewrite Hb. f_equal. apply list_fmap_ext.
    intros k d Hi%list_elem_of_lookup_2%elem_of_one_to. unfold district_ytd.
    rewrite row_at_same; [done|]. eapply typed_in_other; [done| |done].
    unfold DISTRICTS_PER_WAREHOUSE in Hi. split; [|done]. cbn. forall_list.
  - eapply typed_in_other; [done| |done]. split; [|done]. cbn. forall_list.
Qed.

(** ** What Payment writes *)

Definition pay_rows (c : payment_ctx_t) (ytd now : Z) : list (row * list Z) :=
  [(RWarehouse (pc_w_id c), pack (payment_warehouse (pc_w_ytd c + pc_h_amount c)));
   (RDistrict (pc_c_w_id c) (pc_c_d_id c),
    pack (payment_district (pc_d_ytd c + pc_h_amount c)));
   (RCustomer (pc_c_w_id c) (pc_c_d_id c) (pc_c_id c),
    pack (payment_customer (pc_c_balance c - pc_h_amount c) (ytd + pc_h_amount c)
      (i16 (pc_c_payment_cnt c + 1))));
   (RHistory (pc_w_id c) (pc_c_w_id c) (pc_c_d_id c) (pc_c_id c) (u32 now),
    pack (mk_history_val now (pc_h_amount c) (zero_chars 24)))].

Lemma last_pay_row c ytd now r :
  pay_ctx_ok c → row_ok r →
  last_write (enc_key r) (payment_writes c ytd now) = last_write r (pay_rows c ytd now).
Proof.
  intros Hc Hr. destruct (pay_ctx_ids c Hc) as (Iw & _ & Icw & Icd & Ic).
  assert (in_u 32 (u32 now)) as In by (by apply wrap_u_range).
  change (payment_writes c ytd now) with (at_key <$> pay_rows c ytd now).
  apply last_write_rows; [done|]. unfold pay_rows.
  repeat (apply Forall_cons_2; [split; [cbn; by forall_list|done]|]). apply Forall_nil_2.
Qed.

(** A Payment that wrote back the sums it read. *)
Lemma books_payment c ytd now db :
  pay_ctx_ok c → payment_fits c ytd = true →
  pc_w_id c = pc_c_w_id c → 1 <= pc_c_d_id c <= 10 →
  warehouse_ytd db (pc_w_id c) = pc_w_ytd c →
  district_ytd db (pc_c_w_id c) (pc_c_d_id c) = pc_d_ytd c →
  books db → books (apply_writes (payment_writes c ytd now) db).
Proof.
  intros Hc Hfit Ew Hd Hwy Hdy Hb w Iw. specialize (Hb w Iw).
  unfold payment_fits in Hfit. apply andb_prop in Hfit as [[[F1 F2]%andb_prop _]%andb_prop _].
  apply fits_s_in in F1, F2. unfold balanced.
  assert (row_ok (RWarehouse w)) as Rw by (split; [cbn; forall_list|done]).
  assert (∀ d, 1 <= d <= 10 → row_ok (RDistrict w d)) as Rd
    by (intros d Hd'; split; [cbn; forall_list|done]).
  destruct (decide (w = pc_w_id c)) as [->|Hne].
  - rewrite (zsum_bump (district_ytd db (pc_w_id c)) _ _ (pc_c_d_id c) (pc_h_amount c)).
    + rewrite <- Hb, Hwy. unfold warehouse_ytd.
      rewrite (row_at_written _ _ _ _ (payment_warehouse (pc_w_ytd c + pc_h_amount c)));
        [done|by apply payment_warehouse_ok|].
      rewrite last_pay_row by done. cbn [pay_rows last_write].
      do 3 (rewrite decide_False by done). by rewrite decide_True.
    + done.
    + unfold district_ytd in *. rewrite Ew, Hdy.
      rewrite (row_at_written _ _ _ _ (payment_district (pc_d_ytd c + pc_h_amount c)));
        [done|by apply payment_district_ok|].
      rewrite last_pay_row by (done || rewrite <- Ew; by apply Rd). cbn [pay_rows last_write].
      do 2 (rewrite decide_False by done). by rewrite decide_True.
    + intros d Hd' Hne. unfold district_ytd. rewrite row_at_same; [done|].
      rewrite last_pay_row by (done || by apply Rd). cbn [pay_rows last_write].
      repeat (rewrite decide_False by (done || congruence)). done.
  - unfold warehouse_ytd. rewrite row_at_same.
    + unfold balanced, warehouse_ytd in Hb. rewrite Hb. f_equal. apply list_fmap_ext.
      intros k d Hi%list_elem_of_lookup_2%elem_of_one_to. unfold district_ytd.
      rewrite row_at_same; [done|]. rewrite last_pay_row by (done || by apply Rd).
      cbn [pay_rows last_write]. repeat (rewrite decide_False by (done || congruence)). done.
    + rewrite last_pay_row by done. cbn [pay_rows last_write].
      repeat (rewrite decide_False by (done || congruence)). done.
Qed.

(** ** What Payment's context holds of the store *)

Definition payment_view (db : store) (cb : callback) (c : payment_ctx_t) : Prop :=
  pc_w_id c = pc_c_w_id c ∧ 1 <= pc_c_d_id c <= 10 ∧
  match cb with
  | PayOnDistrictRead => warehouse_ytd db (pc_w_id c) = pc_w_ytd c
  | PayOnCustomerRead | PayOnCommit =>
      warehouse_ytd db (pc_w_id c) = pc_w_ytd c ∧
      district_ytd db (pc_c_w_id c) (pc_c_d_id c) = pc_d_ytd c
  | _ => True
  end.

Definition ctx_view (db : store) (cb : callback) (c : ctx) (ws : list write) : Prop :=
  match c with CtxPayment c => payment_view db cb c | _ => True end.

Section views.
Context `{RandR}.

Lemma payment_view_next db cb t c op ws ans now timed c' ws' cb' op' :
  pay_chain_ok cb t c op ws → store_answer db op ans → payment_view db cb c →
  pay_next cb t c (effect_ws op ans ws) now ans = NContinue timed (CtxPayment c') ws' cb' op' →
  payment_view db cb' c'.
Proof.
  intros Hok Hans (E1 & E2 & HK) Hn. destruct (store_answer_ok _ _ _ Hans) as [_ Herr].
  unfold pay_next in Hn. rewrite Herr in Hn. cbn [Z.eqb negb] in Hn.
  destruct cb; cbn [pay_chain_ok] in Hok; try done.
  - destruct Hok as [-> ->]. rewrite (read_row_at warehouse_val_t db t _ ans Hans) in Hn.
    destruct (row_at _ _ _) as [wv|] eqn:Er; [|done]. injection Hn as _ <- _ <- _.
    split; [done|split; [done|]]. cbn. unfold warehouse_ytd. by rewrite Er.
  - destruct Hok as [-> ->]. rewrite (read_row_at district_val_t db t _ ans Hans) in Hn.
    destruct (row_at _ _ _) as [dv|] eqn:Er; [|done]. injection Hn as _ <- _ <- _.
    destruct (pay_pick_fields (pc_set_d_ytd c (d_ytd dv))) as (_ & _ & F1 & F2 & F3 & _ & F4 & F5).
    unfold payment_view. rewrite F1, F2, F3, F4, F5. cbn.
    split; [done|split; [done|split; [done|]]].
    unfold district_ytd. by rewrite Er.
  - destruct Hok as [-> ->]. rewrite (read_row_at customer_val_t db t _ ans Hans) in Hn.
    destruct (row_at _ _ _) as [cv|]; [|done]. destruct (payment_fits _ _); [|done].
    injection Hn as _ <- _ <- _. done.
  - injection Hn as _ <- _ <- _. done.
Qed.

(** A continuing chain stays of its kind. *)
Lemma chain_next_payment cb t c op ws ans now timed c' ws' cb' op' :
  chain_ok cb t c op ws →
  chain_next now cb t c (effect_ws op ans ws) ans (NContinue timed c' ws' cb' op') →
  match c with
  | CtxNewOrder _ => ∃ n, c' = CtxNewOrder n
  | CtxPayment _ => ∃ n, c' = CtxPayment n
  | CtxUpdate _ => ∃ n, c' = CtxUpdate n
  | _ => False
  end.
Proof.
  destruct c; cbn [chain_ok chain_next]; intros Hok Hn; try (by destruct Hn as (? & ? & ?)); try done.
  - destruct Hok as [Hc Hok].
    destruct (no_next_ok _ _ _ _ _ _ _ _ _ _ _ _ Hc Hok (eq_sym Hn)) as (n & -> & _). by eexists.
  - destruct Hok as [Hc Hok].
    destruct (pay_next_ok _ _ _ _ _ _ _ _ _ _ _ _ Hc Hok (eq_sym Hn)) as (n & -> & _).
    by eexists.
  - destruct Hok as [Hc Hok], Hn as [seed Hn].
    destruct (up_next_ok _ _ _ _ _ _ _ _ _ _ _ _ Hc Hok (eq_sym Hn)) as (n & -> & _).
    by eexists.
Qed.

Lemma payment_commit_op cb t c tr ws :
  pay_chain_ok cb t c (OpCommit tr) ws →
  cb = PayOnCommit ∧ ∃ ytd now, payment_fits c ytd = true ∧ ws = payment_writes c ytd now.
Proof. destruct cb; cbn; naive_solver. Qed.

Lemma views_start : starts_keep books ctx_view.
Proof.
  intros db cb t c op Hok Hfirst Hf _. destruct c; try done. cbn in Hfirst, Hf. subst cb.
  destruct Hf as (E1 & E2 & Hd). split_and!; [congruence|lia|lia|done].
Qed.

Lemma views_keep : chain_keeps books ctx_view.
Proof.
  intros db cb t c op ws ans n now Hok Hop Hans Hn HB HK. split.
  - destruct op as [?|?|tr|? err]; try done. cbn [store_after].
    destruct c as [| c| | | | | |];
      try (eapply books_other; [by eapply (pending_commit_typed cb t _ tr)|set_solver|set_solver|done]).
    destruct Hok as [Hc Hok].
    destruct (payment_commit_op _ _ _ _ _ Hok) as (-> & ytd & now' & Hfit & ->).
    destruct HK as (E1 & E2 & E3 & E4). by apply books_payment.
  - destruct n as [timed c' ws' cb' op'| |]; try done.
    pose proof (chain_next_payment _ _ _ _ _ _ _ _ _ _ _ _ Hok Hn) as Hkind.
    destruct c as [c|c|c|c|c|c|c|c]; try done; destruct Hkind as [n ->]; try done.
    cbn [chain_next chain_ok ctx_view] in *. destruct Hok as [Hc Hok].
    assert (store_after op ws db = db ∨ cb = PayOnCommit) as [->| ->].
    { destruct op; try (by left). right. by eapply payment_commit_op. }
    + by eapply payment_view_next.
    + unfold pay_next in Hn. destruct (store_answer_ok _ _ _ Hans) as [_ Herr].
      by rewrite Herr in Hn.
Qed.
End views.

(** ** Properties *)

Section books.
Context `{Env} `{RandR}.

(** served one after the other against the store, requests keep the books: if the
    warehouse sums are those of their districts at the start, they are after any number
    of requests of any kind. *)
Theorem serial_runs_keep_the_books (base : store) (w0 w : world) :
  booted w0 → books (store_of base w0) → serial base w0 w → books (store_of base w).
Proof.
  intros Hb HB Hs.
  destruct (serial_inv_run base books ctx_view views_keep views_start w0 w Hb HB Hs) as [[] _].
  done.
Qed.
End books.

(** ** Witnesses *)

(** A store with one paying customer, and a Payment of 3016 dollars served on it. *)
Definition payer : payment_ctx_t :=
  mk_payment_ctx None None None 0 1 8 1 8 2896 (zero_chars 16) false 500 0 0 0 0.
Definition payer_store : store := apply_writes (payment_writes payer 0 0) ∅.
Definition payer_world : world :=
  mk_world ∅ ∅ ∅ ∅ [] [] {[0%nat := mk_thread_state true 0 0]}
    (mk_globals (Some 0%nat) 1 (Some 0%nat) (Some 7) [] true) 1 0.

Lemma books_empty : books ∅.
Proof. intros w _. reflexivity. Qed.

Lemma payer_store_books : books payer_store.
Proof.
  apply books_payment; [|done|done|done|done|done|apply books_empty].
  split; cbn; try done; repeat apply Forall_cons_2; try apply Forall_nil_2; done.
Qed.

(** The answer of the store to the future [f]. *)
Definition answer_to (base : store) (f : nat) (w : world) : answer :=
  match w_futures w !! f with
  | Some (mk_fcb (OpGet _ k) _ _) =>
      match store_of base w !! k with Some v => ans_value v | None => ans_absent end
  | _ => ans_done
  end.

Definition paid_asked : world := after (EvRequest EpPayment any_path) payer_world.
Definition answered_by (base : store) (w : world) (f : nat) : world :=
  after (EvFuture f (answer_to base f w)) w.
Definition paid (fs : list nat) : world := fold_left (answered_by payer_store) fs paid_asked.
Definition paid_done : world := paid [4; 5; 6; 7]%nat.

Lemma drained_by fs f p w :
  w_futures (paid fs) !! f = Some p →
  store_answer (store_of payer_store (paid fs)) (f_op p) (answer_to payer_store f (paid fs)) →
  step (H := env_ok 1700000000) (H0 := rand_r_posix)
    (EvFuture f (answer_to payer_store f (paid fs))) (paid fs) = Ok ((), paid (fs ++ [f])) →
  @drained (env_ok 1700000000) rand_r_posix payer_store (paid (fs ++ [f])) w →
  @drained (env_ok 1700000000) rand_r_posix payer_store (paid fs) w.
Proof. intros. by eapply drained_step. Qed.

Lemma paid_done_served :
  @serial (env_ok 1700000000) rand_r_posix payer_store payer_world paid_done.
Proof.
  unfold paid_done.
  apply (serial_request payer_store payer_world payer_world EpPayment any_path (paid []));
    [apply serial_start|done|by vm_compute|].
  eapply (drained_by [] 4); [vm_compute; reflexivity..|].
  eapply (drained_by [4%nat] 5); [vm_compute; reflexivity..|].
  eapply (drained_by [4; 5]%nat 6); [vm_compute; reflexivity..|].
  eapply (drained_by [4; 5; 6]%nat 7); [vm_compute; reflexivity..|].
  cbn [app]. apply drained_done. vm_compute. reflexivity.
Qed.

Lemma serial_runs_keep_the_books_witness :
  warehouse_ytd payer_store 1 = 500 ∧
  warehouse_ytd (store_of payer_store paid_done) 1 = 302100 ∧
  books (store_of payer_store paid_done).
Proof.
  split; [vm_compute; reflexivity|]. split; [vm_compute; reflexivity|].
  apply (@serial_runs_keep_the_books (env_ok 1700000000) rand_r_posix payer_store payer_world).
  - split; try done. by exists 0%nat, (mk_thread_state true 0 0).
  - exact payer_store_books.
  - exact paid_done_served.
Defined.
