(* ===== verification/Consistency.v ===== *)
(** * Consistency conditions under concurrency

    Conditions on the store that hold of every version of it along concurrent runs
    (Isolation), however the transactions interleave, conflict and retry: the books of
    TPC-C's first consistency condition, the stock quantities and the atomicity of orders
    (of the store's versions, [orders_whole], and of each commit, [commit_whole]).
    An invariant of serial runs ([chain_keeps], [starts_keep], Store) is one of solo
    transactions, and so one of concurrent runs ([solo_keeps]). *)

From S2P Require Import Prelude Kv Random Query Values Loader Ctx Runtime Chain NewOrder.
From S2P Require Import Payment ReadTxns Tfb Handlers Invariant Entry Lifecycle Serve Schema.
From S2P Require Import Store Isolation Transactions Books.

Section solo.
Context `{RandR}.
Variables (B : store → Prop) (K : store → callback → ctx → list write → Prop).
Hypothesis Hchain : chain_keeps B K.
Hypothesis Hstart : starts_keep B K.

Lemma solo_view db t s cb c op ws reads : solo db t s cb c op ws reads → B db → K db cb c ws.
Proof.
  induction 1 as [cb op Hok Hfirst Hf|cb c k reads ans now timed c' ws' cb' op' Hs IH Hans Hn];
    intros HB; [by eapply Hstart|].
  destruct (solo_ok _ _ _ _ _ _ _ _ Hs) as [Hok _].
  by apply (Hchain db cb t c (OpGet t k) [] ans _ now Hok eq_refl Hans Hn HB (IH HB)).
Qed.

Lemma solo_keeps db ws : solo_commit db ws → B db → B (apply_writes ws db).
Proof.
  intros (s & t & cb & c & reads & Hs) HB. pose proof (solo_view _ _ _ _ _ _ _ _ Hs HB) as HK.
  destruct (solo_ok _ _ _ _ _ _ _ _ Hs) as [Hok _].
  assert (store_answer db (OpCommit t) ans_done) as Hans by done.
  pose proof (decision_chain_next 0 0 _ _ _ _ _ _ Hok (proj1 (store_answer_ok _ _ _ Hans))) as Hn.
  by apply (Hchain db cb t c (OpCommit t) ws ans_done _ 0 Hok eq_refl Hans Hn HB HK).
Qed.
End solo.

(** ** The rows of a NewOrder about to commit *)

Definition new_order_rows (c : new_order_ctx_t) (now : Z) : list (row * list Z) :=
  let w := no_w_id c in let d := no_d_id c in let o := u32 (no_d_next_o_id c) in
  [(ROorder w d o, pack (new_order_oorder c now)); (RNewOrder w d o, [0])] ++
  ((λ i, (ROrderLine w d o (i + 1), pack (order_line_row c i))) <$> upto (no_ol_cnt c)) ++
  [(RNextOId w d, next_o_id_bytes (no_d_next_o_id c + 1))] ++
  ((λ i, (RStock (arr0 (no_ol_supply_w c) i) (arr0 (no_ol_i_id c) i), pack (stock_row c i))) <$>
    upto (no_ol_cnt c)).

Lemma new_order_writes_rows c now : new_order_writes c now = at_key <$> new_order_rows c now.
Proof.
  unfold new_order_writes, new_order_rows. rewrite !fmap_app, <- !list_fmap_compose. done.
Qed.

Lemma new_order_rows_ok c now :
  no_ctx_ok c → Forall (λ rv : row * list Z, row_ok rv.1) (new_order_rows c now).
Proof.
  intros Hc. destruct (no_ctx_ids c Hc) as (Iw & Id & _). pose proof (no_cnt c Hc).
  destruct (no_ctx_lens c Hc) as (L1 & L2 & _).
  assert (in_u 32 (u32 (no_d_next_o_id c))) as Io by (by apply wrap_u_range).
  unfold new_order_rows. rewrite !Forall_app, !Forall_fmap. split_and!.
  - do 2 (apply Forall_cons_2; [split; [by forall_list|done]|]). apply Forall_nil_2.
  - apply Forall_forall. intros i Hi%elem_of_upto. split; [|done]. cbn. forall_list.
  - apply Forall_cons_2; [split; [by forall_list|done]|apply Forall_nil_2].
  - apply Forall_forall. intros i Hi%elem_of_upto. split; [|done].
    destruct (no_get _ _ i L1 (no_supply c Hc)) as [_ R1]; [lia|].
    destruct (no_get _ _ i L2 (no_items c Hc)) as [_ R2]; [lia|].
    cbn. forall_list.
Qed.

Lemma last_new_order_row c now r :
  no_ctx_ok c → row_ok r →
  last_write (enc_key r) (new_order_writes c now) = last_write r (new_order_rows c now).
Proof. intros. rewrite new_order_writes_rows. by apply last_write_rows, new_order_rows_ok. Qed.

(** A row a NewOrder writes is one of the five kinds. *)
Lemma new_order_row_cases c now r v :
  (r, v) ∈ new_order_rows c now →
  match r with
  | ROorder w d o =>
      w = no_w_id c ∧ d = no_d_id c ∧ o = u32 (no_d_next_o_id c) ∧
      v = pack (new_order_oorder c now)
  | RStock _ _ => ∃ i, 0 <= i < no_ol_cnt c ∧ v = pack (stock_row c i)
  | RNewOrder w d o =>
      w = no_w_id c ∧ d = no_d_id c ∧ o = u32 (no_d_next_o_id c) ∧ v = [0]
  | ROrderLine w d o i =>
      w = no_w_id c ∧ d = no_d_id c ∧ o = u32 (no_d_next_o_id c) ∧ 1 <= i <= no_ol_cnt c
  | _ => True
  end.
Proof.
  unfold new_order_rows. rewrite !elem_of_app, !list_elem_of_fmap, !elem_of_cons.
  intros [[E|[E|E%elem_of_nil]]|[(i & E & Hi)|[[E|E%elem_of_nil]|(i & E & Hi)]]]; try done;
    injection E as -> ->; try done; apply elem_of_upto in Hi.
  - split_and!; (done || lia).
  - by exists i.
Qed.

(** The orders' line rows are always written. *)
Lemma new_order_line_written c now i :
  no_ctx_ok c → 1 <= i <= no_ol_cnt c →
  is_Some (last_write (enc_key (ROrderLine (no_w_id c) (no_d_id c) (u32 (no_d_next_o_id c)) i))
    (new_order_writes c now)).
Proof.
  intros Hc Hi. apply not_eq_None_Some. intros E%last_write_None. apply E.
  apply list_elem_of_fmap. exists (order_line_write c (i - 1)). split.
  - unfold order_line_write. cbn [fst]. by replace (i - 1 + 1) with i by lia.
  - unfold new_order_writes. rewrite !elem_of_app. right; left.
    apply list_elem_of_fmap. eexists. split; [done|]. apply elem_of_upto. lia.
Qed.

(** ** Stock quantities *)

(** TPC-C keeps the quantity of a stock row between 10 and 100. *)
Definition stocked (db : store) : Prop :=
  ∀ w i sv, row_ok (RStock w i) → row_at stock_val_t db (RStock w i) = Some sv →
    10 <= s_quantity sv <= 100.

Definition in_stock (c : new_order_ctx_t) (n : Z) : Prop :=
  ∀ i, 0 <= i < n → 10 <= arr0 (no_s_quantity c) i <= 100.

(** What NewOrder's context holds of it: the new quantities of the lines done. *)
Definition stock_view (db : store) (cb : callback) (c : ctx) (ws : list write) : Prop :=
  match c with
  | CtxNewOrder c => fresh_ctx (CtxNewOrder c) ∧
      match cb with
      | NoOnStockRead => in_stock c (no_current_ol c)
      | NoOnCommit => in_stock c (no_ol_cnt c)
      | _ => True
      end
  | _ => True
  end.

Lemma restock_band q o n :
  restock q o = Ok n → 10 <= q <= 100 → 1 <= o <= 10 → 10 <= n <= 100.
Proof.
  unfold restock. intros Hr Hq Ho. inv_bind. apply chk_s_inv in E as [-> _].
  destruct (Z.ltb_spec (q - o) 10).
  - apply chk_s_inv in Hr as [-> _]. lia.
  - injection Hr as <-. lia.
Qed.

Lemma stock_row_ok c i :
  no_ctx_ok c → 0 <= i < no_ol_cnt c → 10 <= arr0 (no_s_quantity c) i <= 100 →
  struct_ok (stock_row c i).
Proof.
  intros Hc Hi Hq. pose proof (no_cnt c Hc). destruct (no_ctx_lens c Hc) as (_ & _ & L3 & _).
  destruct (no_get _ _ i L3 (no_qtys c Hc)) as [_ R]; [lia|].
  assert (in_s 32 (arr0 (no_s_quantity c) i)) by range.
  assert (in_s 32 (arr0 (no_ol_quantity c) i)) by range.
  struct_fields.
Qed.

(** A NewOrder whose new quantities are in the band stores no other. *)
Lemma stocked_new_order c now db :
  no_ctx_ok c → in_stock c (no_ol_cnt c) → stocked db →
  stocked (apply_writes (new_order_writes c now) db).
Proof.
  intros Hc Hin HB w i sv Hr. destruct (last_write (enc_key (RStock w i)) (new_order_writes c now))
    as [v|] eqn:Hl.
  - pose proof Hl as Hv. rewrite last_new_order_row in Hv by done.
    apply last_write_Some, new_order_row_cases in Hv as (j & Hj & ->).
    rewrite (row_at_written _ _ _ _ (stock_row c j));
      [|by apply stock_row_ok, Hin|done].
    intros [= <-]. by apply Hin.
  - rewrite row_at_same by done. by apply HB.
Qed.

Lemma stock_view_start `{RandR} : starts_keep stocked stock_view.
Proof.
  intros db cb t c op Hok Hfirst Hf _. destruct c; try done. cbn in Hfirst. by subst cb.
Qed.

(** The next quantity of a line, and the start of the following one. *)
Lemma stock_view_taken c qty :
  no_ctx_ok c → no_current_ol c < no_ol_cnt c → 10 <= qty <= 100 →
  in_stock c (no_current_ol c) → in_stock (no_take_stock c qty) (no_current_ol c + 1).
Proof.
  intros Hc Hlt Hq Hin i Hi. pose proof (no_cur c Hc). pose proof (no_cnt c Hc).
  destruct (no_ctx_lens c Hc) as (_ & _ & _ & L4 & _). cbn [no_take_stock no_s_quantity
    no_set_current_ol no_set_stock].
  destruct (decide (i = no_current_ol c)) as [->|].
  - by rewrite arr0_insert_eq by lia.
  - rewrite arr0_insert_ne by lia. apply Hin. lia.
Qed.

Lemma stock_view_next db cb t c op ws ans now timed c' ws' cb' op' :
  no_ctx_ok c → no_chain_ok cb t c op ws → store_answer db op ans → stocked db →
  stock_view db cb (CtxNewOrder c) ws →
  no_next cb t c (effect_ws op ans ws) now ans = NContinue timed (CtxNewOrder c') ws' cb' op' →
  match cb' with
  | NoOnStockRead => in_stock c' (no_current_ol c')
  | NoOnCommit => in_stock c' (no_ol_cnt c')
  | _ => True
  end.
Proof.
  intros Hc Hok Hans HB [Hf Hv] Hn. destruct (store_answer_ok _ _ _ Hans) as [_ Herr].
  assert (∀ d ws0, no_start t d ws0 now = NContinue timed (CtxNewOrder c') ws' cb' op' →
    in_stock d (no_current_ol d) →
    match cb' with
    | NoOnStockRead => in_stock c' (no_current_ol c')
    | NoOnCommit => in_stock c' (no_ol_cnt c')
    | _ => True
    end) as Hstart.
  { intros d ws0 E Hd. unfold no_start in E. destruct (Z.leb_spec (no_ol_cnt d) (no_current_ol d)).
    - destruct (fits_s 32 _); [|done]. injection E as _ <- _ <- _. intros i Hi. apply Hd. lia.
    - by injection E as _ <- _ <- _. }
  unfold no_next in Hn. rewrite Herr in Hn. cbn [Z.eqb negb] in Hn.
  destruct cb; cbn [no_chain_ok] in Hok; try done.
  - destruct (read_row _ ans); [|done]. by injection Hn as _ <- _ <- _.
  - destruct (read_row _ ans); [|done]. eapply Hstart; [done|].
    intros i Hi. cbn in Hi. lia.
  - destruct Hok as (-> & Hlt & ->). pose proof (no_cur c Hc). pose proof (no_cnt c Hc).
    rewrite (read_row_at stock_val_t db t _ ans Hans) in Hn.
    destruct (row_at _ _ _) as [sv|] eqn:Er; [|done].
    destruct (restock _ _) as [qty|] eqn:Hq; [|done]. eapply Hstart; [done|].
    destruct (no_ctx_lens c Hc) as (L1 & L2 & _).
    destruct (no_get _ _ (no_current_ol c) L1 (no_supply c Hc)) as [_ R1]; [lia|].
    destruct (no_get _ _ (no_current_ol c) L2 (no_items c Hc)) as [_ R2]; [lia|].
    apply stock_view_taken; [done|done| |done]. eapply restock_band; [done| |apply Hf; lia].
    eapply HB; [|done]. split; [cbn; forall_list|done].
  - by injection Hn as _ <- _ <- _.
Qed.

(** Rows of tables a transaction does not write stay as they are. *)
Lemma row_at_other (A : Type) `{Packed A} ts ws db r :
  Forall (typed_in ts) ws → row_ok r → row_table r ∉ ts →
  row_at A (apply_writes ws db) r = row_at A db r.
Proof. intros. by eapply row_at_same, typed_in_other. Qed.

(** What a commit that is not a NewOrder's writes. *)
Lemma other_commit_typed cb t c ws :
  chain_ok cb t c (OpCommit t) ws → (∀ n, c ≠ CtxNewOrder n) →
  ∃ ts, Forall (typed_in ts) ws ∧ (ts = payment_tables ∨ ts = [TWorld]).
Proof.
  intros Hok Hne. pose proof (pending_commit_typed _ _ _ _ _ Hok) as Hty.
  destruct c; try (by eexists; split; [exact Hty|auto]). by edestruct Hne.
Qed.

Lemma new_order_commit cb t c ws :
  chain_ok cb t (CtxNewOrder c) (OpCommit t) ws →
  cb = NoOnCommit ∧ no_ctx_ok c ∧ ∃ now, ws = new_order_writes c now.
Proof. intros [Hc Hok]. destruct cb; cbn in Hok; naive_solver. Qed.

Lemma new_order_or_not c : (∃ n, c = CtxNewOrder n) ∨ ∀ n, c ≠ CtxNewOrder n.
Proof. destruct c; [left; by eexists|by right..]. Qed.

Section conditions.
Context `{RandR}.

Lemma stock_view_keeps : chain_keeps stocked stock_view.
Proof.
  intros db cb t c op ws ans n now Hok Hop Hans Hn HB HK. split.
  - destruct op as [?|?|tr|? err]; try done. cbn [store_after op_tr] in *. subst tr.
    destruct (new_order_or_not c) as [[d ->]|Hne].
    + destruct (new_order_commit _ _ _ _ Hok) as (-> & Hc & now' & ->).
      destruct HK as [_ HK]. by apply stocked_new_order.
    + destruct (other_commit_typed _ _ _ _ Hok) as (ts & Hty & Hts); [done|].
      intros w i sv Hr. rewrite (row_at_other _ ts) by (done || destruct Hts; set_solver).
      by apply HB.
  - destruct n as [timed c' ws' cb' op'| |]; try done.
    pose proof (chain_next_fresh _ _ _ _ _ _ _ _ _ _ _ Hn) as Hf.
    pose proof (chain_next_payment _ _ _ _ _ _ _ _ _ _ _ _ Hok Hn) as Hkind.
    destruct c as [c|c|c|c|c|c|c|c]; try done; destruct Hkind as [d ->]; try done.
    destruct Hok as [Hc Hok], HK as [Hfr HK]. split; [by apply Hf|].
    by eapply stock_view_next.
Qed.
End conditions.

(** ** Orders *)

(** Every order in the store has its new-order marker and all the lines its header counts. *)
Definition orders_whole (db : store) : Prop :=
  ∀ w d o ov, row_ok (ROorder w d o) → row_at oorder_val_t db (ROorder w d o) = Some ov →
    is_Some (db !! enc_key (RNewOrder w d o)) ∧
    ∀ i, 1 <= i <= o_ol_cnt ov → is_Some (db !! enc_key (ROrderLine w d o i)).

(** A stored header counts the lines of its order, whatever the clock said. *)
Lemma oorder_cnt_read c now ov :
  no_ctx_ok c → load_struct oorder_val_t (pack (new_order_oorder c now)) = Ok ov →
  o_ol_cnt ov = no_ol_cnt c.
Proof.
  intros Hc. pose proof (no_cnt c Hc). unfold load_struct, pack, new_order_oorder.
  cbn -[Z.modulo Z.div Z.mul Z.add wrap_s wrap_u]. intros [= <-]. cbn [o_ol_cnt].
  rewrite (Z.div_small (no_ol_cnt c)), (Z.mod_small (no_ol_cnt c)) by lia.
  change (0 mod 256 + 256 * 0) with 0. rewrite Z.mul_0_r, Z.add_0_r.
  apply wrap_s_id; [lia|range].
Qed.

Lemma orders_whole_new_order c now db :
  no_ctx_ok c → orders_whole db → orders_whole (apply_writes (new_order_writes c now) db).
Proof.
  intros Hc HB w d o ov Hr Hov.
  assert (∀ k, is_Some (db !! k) ∨ is_Some (last_write k (new_order_writes c now)) →
    is_Some (apply_writes (new_order_writes c now) db !! k)) as Hin.
  { intros k Hk. rewrite lookup_apply_writes. destruct (last_write k _); [done|].
    by destruct Hk as [?|[? ?]]. }
  destruct (last_write (enc_key (ROorder w d o)) (new_order_writes c now)) as [v|] eqn:Hl.
  - unfold row_at in Hov. rewrite lookup_apply_writes, Hl in Hov.
    rewrite last_new_order_row in Hl by done.
    apply last_write_Some, new_order_row_cases in Hl as (-> & -> & -> & ->).
    destruct (load_struct oorder_val_t _) as [ov'|] eqn:Hld; [|done]. injection Hov as ->.
    apply oorder_cnt_read in Hld; [|done]. split.
    + apply Hin. right. apply not_eq_None_Some. intros E%last_write_None. apply E.
      apply list_elem_of_fmap. eexists (_, [0]). split; [done|].
      unfold new_order_writes. rewrite !elem_of_app. left. set_solver.
    + intros i Hi. apply Hin. right. apply new_order_line_written; [done|lia].
  - rewrite row_at_same in Hov by done. destruct (HB w d o ov Hr Hov) as [H1 H2].
    split; [by apply Hin; left|]. intros i Hi. apply Hin. left. by apply H2.
Qed.

(** A commit writes a header together with its marker and exactly the lines it counts, or
    nothing of the order. *)
Definition commit_whole (ws : list write) : Prop :=
  ∀ w d o, row_ok (ROorder w d o) →
    match last_write (enc_key (ROorder w d o)) ws with
    | Some v => ∃ ov, load_struct oorder_val_t v = Ok ov ∧
        is_Some (last_write (enc_key (RNewOrder w d o)) ws) ∧
        ∀ i, row_ok (ROrderLine w d o i) →
          is_Some (last_write (enc_key (ROrderLine w d o i)) ws) ↔ 1 <= i <= o_ol_cnt ov
    | None => last_write (enc_key (RNewOrder w d o)) ws = None ∧
        ∀ i, row_ok (ROrderLine w d o i) → last_write (enc_key (ROrderLine w d o i)) ws = None
    end.

(** The marker and the lines a NewOrder writes are those of its order. *)
Lemma new_order_marker_written c now :
  is_Some (last_write (enc_key (RNewOrder (no_w_id c) (no_d_id c) (u32 (no_d_next_o_id c))))
    (new_order_writes c now)).
Proof.
  apply not_eq_None_Some. intros E%last_write_None. apply E.
  apply list_elem_of_fmap. eexists (_, [0]). split; [done|].
  unfold new_order_writes. rewrite !elem_of_app. left. set_solver.
Qed.

Lemma commit_whole_new_order c now : no_ctx_ok c → commit_whole (new_order_writes c now).
Proof.
  intros Hc w d o Hr. destruct (last_write (enc_key (ROorder w d o)) _) as [v|] eqn:Hl.
  - rewrite last_new_order_row in Hl by done.
    apply last_write_Some, new_order_row_cases in Hl as (-> & -> & -> & ->).
    destruct (load_struct oorder_val_t (pack (new_order_oorder c now))) as [ov|u] eqn:Hld;
      [|discriminate Hld].
    exists ov. split; [done|]. rewrite (oorder_cnt_read _ _ _ Hc Hld).
    split; [apply new_order_marker_written|].
    intros i Hi. split; [|by apply new_order_line_written].
    intros [v Hv]. rewrite last_new_order_row in Hv by done.
    by apply last_write_Some, new_order_row_cases in Hv as (_ & _ & _ & ?).
  - rewrite last_new_order_row in Hl by done.
    assert (∀ r v, row_ok r → last_write (enc_key r) (new_order_writes c now) = Some v →
      match r with
      | RNewOrder w' d' o' | ROrderLine w' d' o' _ => (w', d', o') ≠ (w, d, o)
      | _ => True
      end) as Hno.
    { intros r v Hr' Hv. rewrite last_new_order_row in Hv by done.
      apply last_write_Some, new_order_row_cases in Hv.
      destruct r; try done; intros [= -> -> ->]; destruct Hv as (-> & -> & -> & _);
        apply last_write_None in Hl; apply Hl; unfold new_order_rows; left. }
    assert (row_ok (RNewOrder w d o)) as Hm by (destruct Hr as [Hids _]; by split).
    split; [|intros i Hi]; apply eq_None_not_Some; intros [v Hv]; by apply Hno in Hv.
Qed.

(** The order has exactly the lines 1 to [n]. *)
Definition order_lines (db : store) (w d o n : Z) : Prop :=
  ∀ i, row_ok (ROrderLine w d o i) →
    is_Some (db !! enc_key (ROrderLine w d o i)) ↔ 1 <= i <= n.

Lemma order_lines_new ws db w d o ov :
  commit_whole ws → row_ok (ROorder w d o) →
  is_Some (last_write (enc_key (ROorder w d o)) ws) → order_lines db w d o 0 →
  row_at oorder_val_t (apply_writes ws db) (ROorder w d o) = Some ov →
  order_lines (apply_writes ws db) w d o (o_ol_cnt ov).
Proof.
  intros Hws Hr [v Hv] H0 Hov i Hi. specialize (Hws w d o Hr). rewrite Hv in Hws.
  destruct Hws as (ov' & Hld & _ & Hlines). unfold row_at in Hov.
  rewrite lookup_apply_writes, Hv, Hld in Hov. injection Hov as ->.
  rewrite <- (Hlines i Hi), lookup_apply_writes.
  destruct (last_write (enc_key (ROrderLine w d o i)) ws); [tauto|]. rewrite (H0 i Hi). split; [lia|]. intros H1; by apply is_Some_None in H1.
Qed.

Lemma commit_whole_solo `{RandR} db ws : solo_commit db ws → commit_whole ws.
Proof.
  intros (s & t & cb & c & reads & Hs). destruct (solo_ok _ _ _ _ _ _ _ _ Hs) as [Hok _].
  destruct (new_order_or_not c) as [[d ->]|Hne].
  - destruct (new_order_commit _ _ _ _ Hok) as (-> & Hc & now & ->).
    by apply commit_whole_new_order.
  - destruct (other_commit_typed _ _ _ _ Hok Hne) as (ts & Hty & Hts). intros w d o Hr.
    rewrite (typed_in_other ts ws (ROorder w d o))
      by (done || (destruct Hts as [->| ->]; cbn; set_solver)).
    split; [|intros i Hi]; (eapply typed_in_other;
      [done| |destruct Hts as [->| ->]; cbn; set_solver]); [|done].
    destruct Hr as [Hids _]; by split.
Qed.

(** Writes of other tables leave the orders whole. *)
Lemma orders_whole_other ts ws db :
  Forall (typed_in ts) ws → TOorder ∉ ts → orders_whole db → orders_whole (apply_writes ws db).
Proof.
  intros Hty Ht HB w d o ov Hr. rewrite (row_at_other _ ts) by done. intros Hov.
  assert (∀ k, is_Some (db !! k) → is_Some (apply_writes ws db !! k)) as Hin.
  { intros k Hk. rewrite lookup_apply_writes. by destruct (last_write k _). }
  destruct (HB w d o ov Hr Hov) as [H1 H2]. split; [by apply Hin|].
  intros i Hi. by apply Hin, H2.
Qed.

Lemma orders_whole_keeps `{RandR} db ws :
  solo_commit db ws → orders_whole db → orders_whole (apply_writes ws db).
Proof.
  intros (s & t & cb & c & reads & Hs). destruct (solo_ok _ _ _ _ _ _ _ _ Hs) as [Hok _].
  destruct (new_order_or_not c) as [[d ->]|Hne].
  - destruct (new_order_commit _ _ _ _ Hok) as (-> & Hc & now & ->).
    by apply orders_whole_new_order.
  - destruct (other_commit_typed _ _ _ _ Hok Hne) as (ts & Hty & Hts).
    eapply orders_whole_other; [done|]. destruct Hts; set_solver.
Qed.

(** ** Properties *)

Section properties.
Context `{Env} `{RandR}.

(** C4: the books balance in every version of the store along concurrent runs: if the
    warehouse sums are those of their districts at the start, they are after every commit,
    however the requests interleave, conflict, fail and retry. *)
Theorem concurrent_runs_keep_the_books (base : store) (w0 w : world)
    (X : gmap nat fdb_txn) (v : nat) :
  launched w0 → concurrent base w0 w X → books base → books (store_at base w v).
Proof.
  intros Hw0 Hr HB. eapply (concurrent_keeps base books); [|done|done|done].
  apply (solo_keeps books ctx_view); [apply views_keep|apply views_start].
Qed.

(** C11: along concurrent runs every stock row keeps a quantity between 10 and 100, in
    particular none below zero: NewOrder refills a row its order would leave below 10. *)
Theorem concurrent_runs_keep_the_stock (base : store) (w0 w : world)
    (X : gmap nat fdb_txn) (v : nat) :
  launched w0 → concurrent base w0 w X → stocked base → stocked (store_at base w v).
Proof.
  intros Hw0 Hr HB. eapply (concurrent_keeps base stocked); [|done|done|done].
  apply (solo_keeps stocked stock_view); [apply stock_view_keeps|apply stock_view_start].
Qed.

(** C10: orders are atomic along concurrent runs.  Every commit writes either nothing of an
    order or its header together with its marker and exactly the lines the header counts;
    so in every version of the store each header has its marker and its lines 1 to
    [o_ol_cnt], and the order has no other line when its id had none before the commit
    (a reused id may keep lines of the order before). *)
Theorem concurrent_runs_keep_orders_whole (base : store) (w0 w : world)
    (X : gmap nat fdb_txn) :
  launched w0 → concurrent base w0 w X →
  (orders_whole base → ∀ v, orders_whole (store_at base w v)) ∧
  ∀ v ws, w_commits w !! v = Some ws → commit_whole ws ∧
    ∀ wid d o ov, row_ok (ROorder wid d o) →
      is_Some (last_write (enc_key (ROorder wid d o)) ws) →
      order_lines (store_at base w v) wid d o 0 →
      row_at oorder_val_t (store_at base w (S v)) (ROorder wid d o) = Some ov →
      order_lines (store_at base w (S v)) wid d o (o_ol_cnt ov).
Proof.
  intros Hw0 Hr. split; [intros HB; by apply (concurrent_keeps base orders_whole w0 w X);
    [apply orders_whole_keeps|..]|].
  intros v ws Hv. assert (commit_whole ws) as Hws.
  { destruct (concurrent_isolated base _ _ _ Hw0 Hr) as (R & O & [_ _ _ Hcom _ _]).
    destruct (Hcom v ws Hv) as (q & r & _ & _ & Hs). destruct ws as [|kv ws]; [done|].
    destruct Hs as (s & _ & Hs); [done|]. eapply commit_whole_solo. by exists s. }
  split; [done|]. intros wid d o ov Hrow Hin Hno. rewrite (store_at_commit base w v ws Hv).
  by apply order_lines_new.
Qed.
End properties.

(** ** Witnesses *)

(** A NewOrder, with an OrderStatus served in between. *)
Definition order_store : store :=
  apply_writes (at_key <$> [(RDistrict 1 3, pack sample_district);
    (RCustomer 1 3 42, pack sample_customer); (RStock 1 500, pack sample_stock)]) ∅.
Definition order_run : option (world * gmap nat fdb_txn) :=
  play (H := env_ok 1700000000) (H0 := rand_r_posix) order_store (sample_order_world, ∅)
    [inr 4; inl EpOrderStatus; inr 5; inr 9; inr 10; inr 11]%nat.
Definition order_end : world := default sample_order_world (fst <$> order_run).

Lemma order_launched : launched sample_order_world.
Proof.
  pose proof sample_order_waiting as [Hinv Hat _]. split; [done|done|].
  intros f p Hp. cbn in Hp. apply lookup_singleton_Some in Hp as [<- <-].
  exists (CtxNewOrder sample_order), 3%nat, 1%nat. split_and!; [done|done| |done|].
  - split; [apply sample_order_ok|done].
  - intros i Hi. cbn in Hi. assert (i = 0) as -> by lia. by cbn.
Qed.

Lemma order_concurrent : ∃ X,
  @concurrent order_store (env_ok 1700000000) rand_r_posix sample_order_world order_end X.
Proof.
  unfold order_end. destruct order_run as [[w X]|] eqn:E; [|by vm_compute in E].
  exists X. by eapply play_from.
Qed.

Lemma order_store_typed : Forall (typed_in [TDistrict; TCustomer; TStock])
  (at_key <$> [(RDistrict 1 3, pack sample_district); (RCustomer 1 3 42, pack sample_customer);
    (RStock 1 500, pack sample_stock)]).
Proof.
  repeat apply Forall_cons_2; try apply Forall_nil_2; apply typed_row;
    try (split; [cbn; by forall_list|done]); try set_solver.
  all: first [by vm_compute|repeat (apply Forall_cons_2 || apply Forall_nil_2); by vm_compute].
Qed.

Lemma order_store_whole : orders_whole order_store.
Proof.
  eapply orders_whole_other; [apply order_store_typed|set_solver|].
  intros w d o ov _. by unfold row_at; rewrite lookup_empty.
Qed.

Lemma order_store_stocked : stocked order_store.
Proof.
  intros w i sv Hr. unfold row_at, order_store. rewrite lookup_apply_writes, lookup_empty.
  rewrite last_write_rows; [|done|].
  - cbn [last_write]. repeat case_decide; try done. intros Hsv. by vm_compute in Hsv; simplify_eq.
  - repeat apply Forall_cons_2; try apply Forall_nil_2; (split; [cbn; by forall_list|done]).
Qed.

Lemma concurrent_runs_keep_the_stock_witness :
  length (w_commits order_end) = 2%nat ∧
  s_quantity <$> row_at stock_val_t (store_at order_store order_end 2) (RStock 1 500) = Some 98 ∧
  stocked (store_at order_store order_end 2).
Proof.
  destruct order_concurrent as [X Hr]. split; [by vm_compute|]. split; [by vm_compute|].
  exact (@concurrent_runs_keep_the_stock (env_ok 1700000000) rand_r_posix order_store
    sample_order_world order_end X 2 order_launched Hr order_store_stocked).
Defined.

Lemma concurrent_runs_keep_orders_whole_witness :
  o_ol_cnt <$> row_at oorder_val_t (store_at order_store order_end 2) (ROorder 1 3 3001) = Some 1 ∧
  orders_whole (store_at order_store order_end 2) ∧
  ∃ ws, w_commits order_end !! 1%nat = Some ws ∧ length ws = 5%nat ∧ commit_whole ws.
Proof.
  destruct order_concurrent as [X Hr]. split; [by vm_compute|].
  destruct (@concurrent_runs_keep_orders_whole (env_ok 1700000000) rand_r_posix order_store
    sample_order_world order_end X order_launched Hr) as [H1 H2].
  split; [exact (H1 order_store_whole 2%nat)|].
  destruct (w_commits order_end !! 1%nat) as [ws|] eqn:Hi; [|by vm_compute in Hi].
  exists ws. split; [done|]. split; [|exact (proj1 (H2 1%nat ws Hi))].
  change (default 0%nat (length <$> Some ws) = 5%nat). rewrite <- Hi. by vm_compute.
Defined.

Lemma clients_store_books : books clients_store.
Proof.
  unfold clients_store. rewrite apply_writes_app.
  assert (∀ c_id ytd, in_u 32 c_id → in_s 64 ytd → pay_ctx_ok (client c_id ytd)) as Hok.
  { intros. split; cbn; try done; by forall_list. }
  apply books_payment; [by apply Hok|done|done|done|by vm_compute|by vm_compute|].
  apply books_payment; [by apply Hok|done|done|done|done|done|apply books_empty].
Qed.

Lemma concurrent_runs_keep_the_books_witness :
  warehouse_ytd clients_store 1 = 1000 ∧
  warehouse_ytd (store_at clients_store clients_end 2) 1 = 1000 + 301600 + 498300 ∧
  books (store_at clients_store clients_end 2).
Proof.
  destruct clients_concurrent as [X Hr]. split; [by vm_compute|]. split; [by vm_compute|].
  exact (@concurrent_runs_keep_the_books (env_ok 1700000000) rand_r_posix clients_store
    clients_world clients_end X 2 clients_launched Hr clients_store_books).
Defined.
