(* ===== verification/Loaded.v ===== *)
(** * The handlers on the store the loader leaves

    [loaded]: what src/tpcc_loader.c has put in the store when it ends.  Its customer and
    stock tables are stubs, and the callback chains of NewOrder and Payment stop at the
    first row they do not find: on a freshly loaded store no TPC-C request changes
    anything, and the books stay balanced. *)

From S2P Require Import Prelude Kv Random Query Values Loader Ctx Runtime Chain NewOrder.
From S2P Require Import Payment ReadTxns Tfb Handlers Invariant Entry Lifecycle Serve Schema.
From S2P Require Import Store Isolation Transactions Books Consistency.

(** ** The loaded store *)

(** What one entry of the loader may be. *)
Inductive loader_entry (W : Z) : entry → Prop :=
  | le_item i kv : 1 <= i <= 100000 → item_entry i kv → loader_entry W kv
  | le_warehouse w kv : 1 <= w <= W → warehouse_entry w kv → loader_entry W kv
  | le_district w d kvs kv : 1 <= w <= W → 1 <= d <= 10 → district_entries w d kvs →
      kv ∈ kvs → loader_entry W kv
  | le_world i kv : 1 <= i <= 10000 → world_entry i kv → loader_entry W kv.

Record loaded (W : Z) (kvs : list entry) : Prop := {
  ld_entries kv : kv ∈ kvs → loader_entry W kv;
  ld_warehouses w : 1 <= w <= W → ∃ kv, kv ∈ kvs ∧ warehouse_entry w kv;
  ld_districts w d : 1 <= w <= W → 1 <= d <= 10 →
    ∃ ds, district_entries w d ds ∧ ∀ kv, kv ∈ ds → kv ∈ kvs;
}.

Definition loaded_store (kvs : list entry) : store := apply_writes kvs ∅.

Lemma Forall2_elem_r {A B} (R : A → B → Prop) l k y :
  Forall2 R l k → y ∈ k → ∃ x, x ∈ l ∧ R x y.
Proof. intros HR Hy. apply list_elem_of_lookup in Hy as [i Hi].
  destruct (Forall2_lookup_r _ _ _ _ _ HR Hi) as (x & Hx & ?). exists x.
  split; [by eapply list_elem_of_lookup_2|done].
Qed.

Lemma Forall2_elem_l {A B} (R : A → B → Prop) l k x :
  Forall2 R l k → x ∈ l → ∃ y, y ∈ k ∧ R x y.
Proof. intros HR Hx. apply list_elem_of_lookup in Hx as [i Hi].
  destruct (Forall2_lookup_l _ _ _ _ _ HR Hi) as (y & Hy & ?). exists y.
  split; [by eapply list_elem_of_lookup_2|done].
Qed.

(** The batches of a load that met no error, in terms of [loaded]. *)
Lemma loaded_batches W items ws ds worlds :
  Forall2 item_entry (one_to 100000) items → warehouse_rows W ws → district_rows W ds →
  Forall2 world_entry (one_to 10000) worlds → loaded W (items ++ ws ++ ds ++ worlds).
Proof.
  intros Hi Hw (kvss & -> & Hd) Hwo. split.
  - intros kv. rewrite !elem_of_app. intros [Hkv|[Hkv|[Hkv|Hkv]]].
    + destruct (Forall2_elem_r _ _ _ _ Hi Hkv) as (i & Hin%elem_of_one_to & ?).
      by eapply le_item.
    + destruct (Forall2_elem_r _ _ _ _ Hw Hkv) as (i & Hin%elem_of_one_to & ?).
      by eapply le_warehouse.
    + apply list_elem_of_In, in_concat in Hkv as (kvs & Hkvs & Hkv).
      apply in_concat in Hkvs as (l & Hl & Hkvs). apply list_elem_of_In in Hl, Hkvs, Hkv.
      destruct (Forall2_elem_r _ _ _ _ Hd Hl) as (w & Hin%elem_of_one_to & Hds).
      destruct (Forall2_elem_r _ _ _ _ Hds Hkvs) as (d & Hin'%elem_of_one_to & ?).
      by eapply le_district.
    + destruct (Forall2_elem_r _ _ _ _ Hwo Hkv) as (i & Hin%elem_of_one_to & ?).
      by eapply le_world.
  - intros w Hin%elem_of_one_to. destruct (Forall2_elem_l _ _ _ _ Hw Hin) as (kv & ? & ?).
    exists kv. rewrite !elem_of_app. auto.
  - intros w d Hin%elem_of_one_to Hin'%elem_of_one_to.
    destruct (Forall2_elem_l _ _ _ _ Hd Hin) as (l & Hl & Hds).
    destruct (Forall2_elem_l _ _ _ _ Hds Hin') as (kvs & Hkvs & ?). exists kvs.
    split; [done|]. intros kv Hkv. rewrite !elem_of_app. right; right; left.
    apply list_elem_of_In, in_concat. exists kvs. split; [|by apply list_elem_of_In].
    apply in_concat. exists l. split; by apply list_elem_of_In.
Qed.

(** The value the loader gives a row, for the rows it writes. *)
Definition loader_value (W : Z) (r : row) (v : list Z) : Prop :=
  match r with
  | RWarehouse w => 1 <= w <= W ∧
      ∃ wv : warehouse_val_t, v = pack wv ∧ struct_ok wv ∧ w_ytd wv = 30000000
  | RDistrict w d => 1 <= w <= W ∧ 1 <= d <= 10 ∧
      ∃ dv : district_val_t, v = pack dv ∧ struct_ok dv ∧ d_ytd dv = 3000000
  | RItem _ | RNextOId _ _ | RWorld _ => True
  | _ => False
  end.

Lemma loader_entry_row W kv :
  in_u 32 W → loader_entry W kv → ∃ r, row_ok r ∧ kv.1 = enc_key r ∧ loader_value W r kv.2.
Proof.
  intros HW He. assert (∀ x, 1 <= x <= W → in_u 32 x) as Hu by (intros; range).
  destruct He as [i kv Hi [E _]|w kv Hw (E & wv & Ev & Hok & _ & Hy)
    |w d kvs kv Hw Hd (dv & -> & Hok & _ & Hy & _) Hkv|i kv Hi (n & -> & _)].
  - exists (RItem i). split_and!; [|done|done]. split; [|done]. cbn. forall_list.
  - exists (RWarehouse w). specialize (Hu w Hw). split; [split; [cbn; forall_list|done]|].
    split; [done|split; [done|by exists wv]].
  - specialize (Hu w Hw). rewrite !elem_of_cons in Hkv.
    destruct Hkv as [->|[->|[]%elem_of_nil]].
    + exists (RDistrict w d). split; [split; [cbn; forall_list|done]|].
      split; [done|split; [done|split; [done|by exists dv]]].
    + exists (RNextOId w d). split; [split; [cbn; forall_list|done]|done].
  - exists (RWorld i). split; [split; [cbn; forall_list|done]|done].
Qed.

Section loaded.
Context (W : Z) (kvs : list entry) (HW : in_u 32 W) (Hl : loaded W kvs).

Lemma loaded_value r v : row_ok r → loaded_store kvs !! enc_key r = Some v → loader_value W r v.
Proof.
  intros Hr. unfold loaded_store. rewrite lookup_apply_writes.
  destruct (last_write _ kvs) as [v'|] eqn:Ev; [|by rewrite lookup_empty].
  intros [= ->]. apply last_write_Some in Ev.
  destruct (loader_entry_row W _ HW (ld_entries _ _ Hl _ Ev)) as (r' & Hr' & E & Hv).
  by rewrite (enc_key_inj _ _ Hr Hr' E).
Qed.

Lemma loaded_is_Some k v : (k, v) ∈ kvs → is_Some (loaded_store kvs !! k).
Proof.
  intros Hkv. unfold loaded_store. rewrite lookup_apply_writes.
  destruct (last_write k kvs) eqn:E; [done|]. apply last_write_None in E as [].
  apply list_elem_of_fmap. by exists (k, v).
Qed.

Lemma loaded_warehouse_ytd w :
  in_u 32 w → warehouse_ytd (loaded_store kvs) w = if bool_decide (1 <= w <= W) then 30000000 else 0.
Proof.
  intros Iw. unfold warehouse_ytd, row_at.
  assert (row_ok (RWarehouse w)) as Rw by (split; [cbn; forall_list|done]).
  destruct (loaded_store kvs !! _) as [v|] eqn:E.
  - destruct (loaded_value _ _ Rw E) as (Hw & wv & -> & Hok & Hy).
    rewrite load_pack_exact, bool_decide_true by done. done.
  - case_bool_decide as Hw; [|done]. destruct (ld_warehouses _ _ Hl w Hw) as ([k v] & Hkv & Ek & _).
    cbn [fst] in Ek. apply loaded_is_Some in Hkv. rewrite Ek, E in Hkv. by destruct Hkv.
Qed.

Lemma loaded_district_ytd w d :
  in_u 32 w → 1 <= d <= 10 →
  district_ytd (loaded_store kvs) w d = if bool_decide (1 <= w <= W) then 3000000 else 0.
Proof.
  intros Iw Hd. unfold district_ytd, row_at.
  assert (row_ok (RDistrict w d)) as Rd by (split; [cbn; forall_list|done]).
  destruct (loaded_store kvs !! _) as [v|] eqn:E.
  - destruct (loaded_value _ _ Rd E) as (Hw & _ & dv & -> & Hok & Hy).
    rewrite load_pack_exact, bool_decide_true by done. done.
  - case_bool_decide as Hw; [|done].
    destruct (ld_districts _ _ Hl w d Hw Hd) as (ds & (dv & -> & _) & Hkv).
    assert (is_Some (loaded_store kvs !! enc_key (RDistrict w d))) as Hs.
    { apply (loaded_is_Some _ (pack dv)), Hkv. by left. }
    rewrite E in Hs. by destruct Hs.
Qed.

Lemma loaded_books : books (loaded_store kvs).
Proof.
  intros w Iw. unfold balanced. rewrite loaded_warehouse_ytd by done.
  assert (district_ytd (loaded_store kvs) w <$> one_to DISTRICTS_PER_WAREHOUSE =
    (λ _, if bool_decide (1 <= w <= W) then 3000000 else 0) <$> one_to 10) as ->.
  { apply list_fmap_ext. intros k d Hd%list_elem_of_lookup_2%elem_of_one_to.
    by apply loaded_district_ytd. }
  by case_bool_decide.
Qed.

(** ** Runs on it *)

(** The store is as loaded, but for the World rows. *)
Definition as_loaded (db : store) : Prop :=
  ∀ r, row_ok r → row_table r ≠ TWorld → db !! enc_key r = loaded_store kvs !! enc_key r.

(** No NewOrder or Payment is past its customer read. *)
Definition before_customer (db : store) (cb : callback) (c : ctx) (ws : list write) : Prop :=
  match c with
  | CtxNewOrder _ => cb ≠ NoOnStockRead ∧ cb ≠ NoOnCommit
  | CtxPayment _ => cb ≠ PayOnCommit
  | _ => True
  end.

(** A customer read finds nothing. *)
Lemma no_customer db t w d c ans :
  as_loaded db → Forall (in_u 32) [w; d; c] →
  store_answer db (OpGet t (enc_key (RCustomer w d c))) ans →
  read_row customer_val_t ans = None.
Proof.
  intros Has Hids Hans. assert (row_ok (RCustomer w d c)) as Hr by (by split).
  rewrite (read_row_at customer_val_t db t _ ans Hans). unfold row_at. rewrite Has by done.
  destruct (loaded_store kvs !! _) as [v|] eqn:E; [|done].
  by destruct (loaded_value _ _ Hr E).
Qed.

Context `{RandR}.

Lemma before_customer_start : starts_keep as_loaded before_customer.
Proof. intros db cb t c op _ Hfirst _ _. by destruct c; cbn in *; subst. Qed.

Lemma before_customer_keep : chain_keeps as_loaded before_customer.
Proof.
  intros db cb t c op ws ans n now Hok Hop Hans Hn HB HK.
  destruct (store_answer_ok _ _ _ Hans) as [_ Herr]. split.
  - destruct op as [?|?|tr|? err]; try done. cbn [store_after].
    pose proof (pending_commit_typed cb t c tr ws Hok) as Hty. intros r Hr Ht.
    rewrite <- HB by done. rewrite lookup_apply_writes.
    destruct c as [c|c| | | | | |]; cbn [chain_ok before_customer] in Hok, HK;
      [|by destruct Hok as [_ [-> _]%payment_commit_op]
       |by rewrite (typed_in_other [TWorld]) by (done || set_solver)..].
    destruct Hok as [_ Hok], HK. by destruct cb; cbn in Hok; try naive_solver.
  - destruct n as [timed c' ws' cb' op'| |]; try done.
    pose proof (chain_next_payment _ _ _ _ _ _ _ _ _ _ _ _ Hok Hn) as Hkind.
    destruct c as [c|c|c|c|c|c|c|c]; try done; destruct Hkind as [n ->]; try done;
      cbn [chain_next chain_ok before_customer] in *; destruct Hok as [Hc Hok].
    + unfold no_next in Hn. rewrite Herr in Hn. cbn [Z.eqb negb] in Hn.
      destruct cb; cbn [no_chain_ok] in Hok; try (by destruct HK); try done.
      * by destruct (read_row _ ans); simplify_eq.
      * destruct Hok as [-> ->]. rewrite (no_customer db t _ _ _ ans) in Hn by (done || apply Hc).
        done.
      * by simplify_eq.
    + unfold pay_next in Hn. rewrite Herr in Hn. cbn [Z.eqb negb] in Hn.
      destruct cb; cbn [pay_chain_ok] in Hok; try done.
      * by destruct (read_row _ ans); simplify_eq.
      * by destruct (read_row _ ans); simplify_eq.
      * destruct Hok as [-> ->], (pay_ctx_ids c Hc) as (_ & _ & I1 & I2 & I3).
        rewrite (no_customer db t (pc_c_w_id c) (pc_c_d_id c) (pc_c_id c) ans) in Hn
          by (done || by forall_list). done.
      * by simplify_eq.
Qed.
End loaded.

(** ** Properties *)

Section properties.
Context `{LoadEnvOk} `{RandROk} `{Env}.

(** What src/tpcc_loader.c leaves in an empty store. *)
Lemma load_leaves_loaded (W : Z) (s : lstate) :
  0 < W → W * 10 < 2 ^ 31 → in_u 32 (l_seed s) → l_batches s = [] →
  ∃ s' kvs, load_data W s = Ok (Some (), s') ∧ loaded W kvs ∧
    apply_writes (concat (l_batches s')) ∅ = loaded_store kvs.
Proof.
  intros HW HW10 Hs Hnil.
  destruct (load_data_batches W s HW HW10 Hs Hnil)
    as (s' & bi & items & ws & ds & bw & worlds & Hrun & Hb' & Hbi & _ & Hi & Hw & Hd & Hbw & _ & Hwo).
  exists s', (items ++ ws ++ ds ++ worlds). split; [done|]. split; [by apply loaded_batches|].
  rewrite Hb', !concat_app. cbn. by rewrite !app_nil_r, Hbi, Hbw.
Qed.

(** Served one after the other against it, requests change World rows only. *)
Lemma serial_runs_keep_the_loaded_store (W : Z) kvs w0 w :
  in_u 32 W → loaded W kvs → booted w0 → w_commits w0 = [] →
  serial (loaded_store kvs) w0 w → as_loaded kvs (store_of (loaded_store kvs) w).
Proof.
  intros IW Hl Hb Hc Hrun.
  destruct (serial_inv_run (loaded_store kvs) (as_loaded kvs) before_customer
    (before_customer_keep W _ IW Hl) (before_customer_start _) w0 w Hb) as [[_ HB _] _];
    [|exact Hrun|done].
  intros r' _ _. unfold store_of. by rewrite Hc.
Qed.

(** C22: on the store src/tpcc_loader.c leaves, whose books balance, no number of requests
    served concurrently changes any row but World rows: without customers every NewOrder
    and Payment stops before its commit. *)
Theorem loaded_store_is_never_changed (W : Z) (s : lstate) :
  0 < W → W * 10 < 2 ^ 31 → in_u 32 (l_seed s) → l_batches s = [] →
  ∃ s', load_data W s = Ok (Some (), s') ∧
    let base := apply_writes (concat (l_batches s')) ∅ in
    books base ∧
    ∀ w0 w X v, launched w0 → concurrent base w0 w X →
      ∀ r, row_ok r → row_table r ≠ TWorld →
        store_at base w v !! enc_key r = base !! enc_key r.
Proof.
  intros HW HW10 Hs Hnil.
  destruct (load_leaves_loaded W s HW HW10 Hs Hnil) as (s' & kvs & Hrun & Hl & Eb).
  exists s'. split; [done|]. cbn zeta. rewrite Eb. assert (in_u 32 W) as IW by range.
  split; [by eapply loaded_books|]. intros w0 w X v Hw0 Hr r Hr' Ht.
  by apply (concurrent_keeps (loaded_store kvs) (as_loaded kvs) w0 w X
    (solo_keeps _ _ (before_customer_keep W kvs IW Hl) (before_customer_start kvs)) Hw0 Hr).
Qed.
End properties.

(** ** Witness *)

(** One OrderStatus request, whatever the store. *)
Lemma done_world_concurrent base : ∃ X,
  @concurrent base (env_ok 1700000000) rand_r_posix boot_world done_world X.
Proof.
  eexists. eapply (concurrent_future base boot_world pending_world ∅ 4 (mk_fcb (OpCommit 3)
    OsOnCommit 2) ans_done None); [|by vm_compute| |by vm_compute].
  - apply (concurrent_request base boot_world boot_world ∅ EpOrderStatus any_path);
      [apply concurrent_start|done|by vm_compute].
  - apply answers_commit; [done|]. intros _. left. by vm_compute.
Qed.

Lemma loaded_store_is_never_changed_witness :
  ∃ s', @load_data load_env_ok rand_r_posix 2 load_start = Ok (Some (), s') ∧
    let base := apply_writes (concat (l_batches s')) ∅ in
    books base ∧ store_at base done_world 1 !! enc_key (RDistrict 1 1) =
      base !! enc_key (RDistrict 1 1).
Proof.
  destruct (@loaded_store_is_never_changed load_env_ok ltac:(by split) rand_r_posix
    rand_r_posix_ok (env_ok 1700000000) 2 load_start) as (s' & Hrun & Hbooks & Hsame).
  - lia.
  - lia.
  - by split.
  - done.
  - destruct (done_world_concurrent (apply_writes (concat (l_batches s')) ∅)) as [X Hr].
    exists s'. split; [exact Hrun|]. split; [exact Hbooks|].
    apply (Hsame boot_world done_world X 1%nat).
    + apply booted_launched; [exact boot_world_booted|done].
    + exact Hr.
    + split; [cbn; forall_list|done].
    + done.
Defined.
