(* ===== verification/Queries.v ===== *)
(** * What the read-only transactions, the TechEmpower chains and the entry points do

    The answers of StockLevel, OrderStatus, Delivery and /db, the rows and the response of
    /updates, the end of /queries, the draws of /cached-worlds, the draws with which the
    TPC-C entry points start and the transaction mix of the harness. *)

From S2P Require Import Prelude Kv Random Query Values Ctx Runtime Chain NewOrder Payment.
From S2P Require Import ReadTxns Tfb Handlers Invariant Entry Lifecycle Serve.

(** ** Chains of one future *)

(** StockLevel answers with the number of rows of the range that hold a stock value
    below the threshold and writes nothing; the key of the answer carries the literal's
    terminating NUL. *)
Theorem stock_level_counts_the_rows_below `{Env} `{RandR} (w : world) (a t q : nat)
    (c : stock_level_ctx_t) (ws : list write) (cb : callback) (op : fdb_op)
    (kvs : list write) :
  ¬ yajl_fails → waiting w a (CtxStockLevel c) t q ws cb op → Z.of_nat (length kvs) < 2 ^ 31 →
  ∃ w', served a w [ans_range kvs] w' ∧
    w_responses w' = w_responses w ++ [(q, RInline None None
      [JMapOpen; JString (bytes_of_string "status"); JString (bytes_of_string "ok");
       JString (bytes_of_string "below_threshold" ++ [0]);
       JInteger (below_count (sl_threshold c) kvs); JMapClose])] ∧
    w_commits w' = w_commits w ∧ w_heap w' !! a = None.
Proof.
  intros Hy Hw Hlen. destruct (waiting_chain_ok _ _ _ _ _ _ _ _ Hw) as (-> & -> & ->).
  pose proof (wt_at _ _ _ _ _ _ _ _ Hw) as Hat.
  destruct (serve_finish w a _ t q [] _ _ (ans_range kvs)
    (RInline None None (stock_level_body (below_count (sl_threshold c) kvs))) (λ _, Hy) Hw)
    as (w' & Hs & _ & Hh & _ & Hr & Hcm).
  - by intros _.
  - cbn [run_callback future_effect]. rewrite (sl_on_range_read_refines w a c t q []) by done. unfold sl_next.
    cbn [a_error a_kvs_error a_kvs ans_range]. by rewrite count_below_eq by lia.
  - by exists w'.
Qed.

(** OrderStatus and Delivery read nothing and write nothing: whatever the future of
    their empty commit holds, an error included, they answer "ok". *)
Theorem order_status_and_delivery_only_answer `{Env} `{RandR} (w : world) (a t q : nat)
    (c : ctx) (ws : list write) (cb : callback) (op : fdb_op) (ans : answer) :
  ¬ yajl_fails → waiting w a c t q ws cb op → answer_ok op ans →
  match c with CtxOrderStatus _ | CtxDelivery _ => True | _ => False end →
  ∃ w', served a w [ans] w' ∧ w_heap w' !! a = None ∧ w_trs w' !! t = None ∧
    w_responses w' = w_responses w ++ [(q, RInline None None
      match c with CtxDelivery d => delivery_body d | _ => order_status_body end)] ∧
    w_commits w' = w_commits w ++ (if a_applied ans then [[]] else []).
Proof.
  intros Hy Hw Hans Hc. pose proof (wt_at _ _ _ _ _ _ _ _ Hw) as Hat.
  assert (ws = [] ∧ op = OpCommit t ∧ run_callback cb ans a (future_effect op ans w) =
    exec_next a t q (NFinish (RInline None None match c with CtxDelivery d => delivery_body d
      | _ => order_status_body end)) (future_effect op ans w)) as (-> & -> & Hrun).
  { assert (∀ w', same_chains w w' → w_trs w' = w_trs w → chain_at w' a c t q ws) as Hat'.
    { intros w' [] E. destruct Hat. by split; congruence. }
    destruct c as [| |c|c| | | |]; try done;
      destruct (waiting_chain_ok _ _ _ _ _ _ _ _ Hw) as (-> & -> & ->); (split; [done|]);
      (split; [done|]).
    - cbn [run_callback]. rewrite (os_on_commit_refines _ a c t q []); [done|]. apply Hat'; [apply effect_same|].
      cbn. by destruct (a_applied ans).
    - cbn [run_callback]. rewrite (dl_on_commit_refines _ a c t q []); [done|]. apply Hat'; [apply effect_same|].
      cbn. by destruct (a_applied ans). }
  destruct (serve_finish w a c t q [] cb (OpCommit t) ans _ (λ _, Hy) Hw Hans Hrun)
    as (w' & Hs & _ & Hh & Ht & Hr & Hcm).
  exists w'. split_and!; try done. rewrite Hcm. cbn. rewrite (at_ws _ _ _ _ _ _ Hat).
  destruct (a_applied ans); cbn; [done|]. by rewrite app_nil_r.
Qed.

(** /db answers with the id it drew and the first four bytes of the row, read as a
    big-endian number; a missing or short row, or an error, is a 503. *)
Theorem db_answers_the_row `{Env} `{RandR} (w : world) (a t q : nat) (c : single_query_ctx_t)
    (ws : list write) (cb : callback) (op : fdb_op) (ans : answer) :
  ¬ yajl_fails → waiting w a (CtxSingleQuery c) t q ws cb op → answer_ok op ans →
  (∀ v, a_value ans = Some v → bytes_ok v) →
  ∃ w' r, served a w [ans] w' ∧ w_responses w' = w_responses w ++ [(q, r)] ∧
    w_commits w' = w_commits w ∧ w_heap w' !! a = None ∧
    ((a_error ans = 0 ∧ ∃ v, a_value ans = Some v ∧ (4 <= length v)%nat ∧
        r = RInline (Some 200) (Some "application/json"%string)
              (json_world (sq_id c) (be_val (take 4 v)))) ∨
     ((a_error ans ≠ 0 ∨ a_value ans = None ∨
        ∃ v, a_value ans = Some v ∧ (length v < 4)%nat) ∧
      ∃ body, r = RError 503 "Service Unavailable" body)).
Proof.
  intros Hy Hw Hans Hb. destruct (waiting_chain_ok _ _ _ _ _ _ _ _ Hw) as (-> & -> & ->).
  pose proof (wt_at _ _ _ _ _ _ _ _ Hw) as Hat.
  pose proof (on_single_query_result_refines w a c t q [] ans Hat) as Hrun.
  assert (∃ r, sq_next c ans = NFinish r) as [r Hn].
  { unfold sq_next. destruct (negb _); [by eexists|]. destruct (future_value ans 4); by eexists. }
  rewrite Hn in Hrun.
  destruct (serve_finish w a _ t q [] _ _ ans r (λ _, Hy) Hw Hans Hrun)
    as (w' & Hs & _ & Hh & _ & Hr & Hcm).
  exists w', r. split_and!; try done. unfold sq_next in Hn.
  destruct (Z.eqb_spec (a_error ans) 0) as [Herr|Herr]; cbn [negb] in Hn.
  2: { right. injection Hn as <-. split; [by left|by eexists]. }
  unfold future_value in Hn. rewrite (Hans Herr) in Hn. cbn [negb Z.eqb] in Hn.
  destruct (a_value ans) as [v|] eqn:Hv.
  2: { right. injection Hn as <-. split; [by right; left|by eexists]. }
  destruct (Nat.ltb_spec (length v) 4) as [Hl|Hl]; injection Hn as <-.
  - right. split; [|by eexists]. right; right. by exists v.
  - left. split; [done|]. exists v. split_and!; [done|done|]. rewrite ntohl_be_val; [done| |].
    + rewrite length_take. lia.
    + apply Forall_take. by apply Hb.
Qed.

(** the future of /queries never completes: whatever it holds, the process calls
    [multi_query_next] through a function pointer of another type, with the future in
    place of the context. *)
Theorem queries_callback_is_undefined `{Env} `{RandR} (w : world) (f : nat)
    (p : fdb_callback_ctx_t) (c : multi_query_ctx_t) (ans : answer) :
  inv None w → w_futures w !! f = Some p → w_heap w !! f_ctx p = Some (CtxMultiQuery c) →
  step (EvFuture f ans) w = Ub TypeConfusion.
Proof.
  intros Hinv Hp Hc. destruct (inv_chain _ _ Hinv f p Hp) as (c' & t & q & ws & Hat & _ & Hok);
    [done|]. destruct Hat as [Hh _ _ _ _]. rewrite Hc in Hh. injection Hh as <-.
  destruct Hok as (Hcb & _). cbn [step]. unfold future_callback.
  rewrite M_bind_run. cbn [gets]. rewrite Hp, M_bind_run. cbn [modify].
  by rewrite M_bind_run, Hcb.
Qed.

(** ** /updates *)

(** The numbers drawn so far are in TechEmpower's range. *)
Definition numbers_ok (c : update_ctx_t) : Prop :=
  ∀ i, 0 <= i < up_num_result c → 1 <= arr0 (arr_of (up_random_numbers c)) i <= TFB_MAX_ID.

Lemma world_id_range `{RandR} seed : 2 <= (world_id seed).1 <= TFB_MAX_ID + 1.
Proof.
  unfold world_id. destruct (get_random_number_defined TFB_MAX_ID seed) as (r & s & Hr); [done|].
  rewrite Hr. apply get_random_number_range in Hr; [|done]. unfold TFB_MAX_ID in *. cbn [fst].
  rewrite wrap_u_id by range. lia.
Qed.

Lemma up_take_numbers `{RandR} c ans seed :
  up_ctx_ok c → numbers_missing c = false → up_num_result c < up_num_query c → numbers_ok c →
  numbers_ok (up_take c ans seed).
Proof.
  intros [_ Lr _ Hn] (rns & Hr)%numbers_there Hlt Hok i. specialize (Lr rns Hr). unfold up_take, numbers_ok in *.
  rewrite Hr in *. cbn [up_num_result up_set_result up_random_numbers arr_of default id] in *.
  intros Hi. pose proof (world_id_range
    (match future_value ans 4 with None => (world_id seed).2 | Some _ => seed end)) as Hw.
  unfold TFB_MAX_ID in Hw |- *. destruct (decide (i = up_num_result c)) as [->|Hne].
  - rewrite arr0_insert_eq by lia. unfold up_draw. rewrite wrap_u_id by range. lia.
  - rewrite arr0_insert_ne by lia. apply Hok. lia.
Qed.

Section updates.
Context `{Env} `{RandR}.

(** One read of an /updates request, not the last one or the last one. *)
Lemma serve_update_read w a t q c op ans :
  EnvOk → waiting w a (CtxUpdate c) t q [] UpdateOnRead op → numbers_missing c = false →
  answer_ok op ans → a_error ans = 0 →
  ∃ seed w', let c' := up_take c ans seed in
    served a w [ans] w' ∧ same_log w w' ∧
    if up_num_result c' <? up_num_query c' then
      waiting w' a (CtxUpdate c') t q [] UpdateOnRead
        (OpGet t (enc_key (RWorld (arr0 (arr_of (up_ids c')) (up_num_result c')))))
    else waiting w' a (CtxUpdate (up_set_phase c')) t q (update_writes c') UpdateOnCommit
           (OpCommit t).
Proof.
  intros HE Hw Hm Hans Herr. destruct (waiting_chain_ok _ _ _ _ _ _ _ _ Hw) as [Hc (_ & Hlt & ->)].
  destruct (inv_seed _ _ (wt_inv _ _ _ _ _ _ _ _ Hw)) as [seed Hseed].
  pose proof (wt_at _ _ _ _ _ _ _ _ Hw) as Hat. pose proof Hat as [_ Ht Hq _ _].
  pose proof (update_on_read_refines w a c t q [] seed ans Hat Hc Hlt Hseed) as Hrun.
  unfold up_next in Hrun. rewrite Herr in Hrun. cbn [negb Z.eqb] in Hrun. rewrite Hm in Hrun.
  cbv zeta in Hrun.
  set (w1 := upd_globals (g_set_seed (up_seed UpdateOnRead seed ans)) w) in *.
  exists seed. cbv zeta. set (c1 := up_take c ans seed) in *. cbv zeta.
  destruct (up_num_result c1 <? up_num_query c1).
  - destruct (serve_continue w w1 a _ t q _ _ _ _ _ _ _ _ _ HE Hw Hans Hrun)
      as (w' & Hs & Hw' & Hl & _); try done. by exists w'.
  - destruct (serve_continue w w1 a _ t q _ _ _ _ _ _ _ _ _ HE Hw Hans Hrun)
      as (w' & Hs & Hw' & Hl & _); try done. by exists w'.
Qed.

(** The reads of an /updates request. *)
Lemma serve_update_reads anss : ∀ w a t q c op,
  EnvOk → waiting w a (CtxUpdate c) t q [] UpdateOnRead op →
  numbers_missing c = false → numbers_ok c →
  Forall (λ ans, a_error ans = 0 ∧ a_value_error ans = 0) anss →
  Z.of_nat (length anss) = up_num_query c - up_num_result c →
  ∃ c' w', served a w anss w' ∧ same_log w w' ∧ numbers_ok c' ∧ up_ids c' = up_ids c ∧
    up_num_result c' = up_num_query c ∧
    waiting w' a (CtxUpdate (up_set_phase c')) t q (update_writes c') UpdateOnCommit (OpCommit t).
Proof.
  induction anss as [|ans anss IH]; intros w a t q c op HE Hw Hm Hnum Hanss Hlen;
    destruct (waiting_chain_ok _ _ _ _ _ _ _ _ Hw) as [Hc (_ & Hlt & ->)].
  { cbn in Hlen. lia. }
  apply Forall_cons in Hanss as [[Herr Hval] Hanss]. cbn [length] in Hlen.
  destruct (serve_update_read w a t q c _ ans HE Hw Hm) as (seed & w1 & Hs & [L L'] & Hw1);
    [by intros _|done|].
  pose proof (up_take_numbers c ans seed Hc Hm Hlt Hnum) as Hnum'.
  set (c1 := up_take c ans seed) in *.
  assert (up_num_result c1 = up_num_result c + 1 ∧ up_num_query c1 = up_num_query c ∧
    up_ids c1 = up_ids c) as (E1 & E2 & E3) by done.
  destruct (Z.ltb_spec (up_num_result c1) (up_num_query c1)) as [Hl|Hl].
  - destruct (IH w1 a t q c1 _ HE Hw1 eq_refl Hnum' Hanss) as (c' & w' & Hs' & [M M'] & ? & ? & ? & Hw');
      [lia|].
    exists c', w'. split_and!; try congruence; [|split; congruence|done].
    by apply (served_app a w [ans] w1).
  - destruct anss; [|cbn [length] in Hlen; lia].
    exists c1, w1. split_and!; try done; lia.
Qed.
End updates.

(** C27: while no call of the environment fails, an /updates request of n rows, all of whose
    reads end without an error, hands one transaction to its commit that stores for each
    id drawn a new number between 1 and 10000.  It is answered 200 with those ids and
    numbers whatever became of the commit: applied, the transaction is the one committed;
    refused, nothing is committed and the answer is the same. *)
Theorem updates_commit_the_numbers_sent `{Env} `{RandR} (w : world) (a t q : nat)
    (c : update_ctx_t) (op : fdb_op) (anss : list answer) (done : answer) :
  EnvOk → waiting w a (CtxUpdate c) t q [] UpdateOnRead op →
  is_Some (up_random_numbers c) → up_num_result c = 0 →
  Forall (λ ans, a_error ans = 0 ∧ a_value_error ans = 0) anss →
  Z.of_nat (length anss) = up_num_query c → answer_ok (OpCommit t) done →
  let n := up_num_query c in let ids := arr_of (up_ids c) in
  ∃ w' rns, served a w (anss ++ [done]) w' ∧
    (∀ i, 0 <= i < n → 1 <= arr0 rns i <= 10000) ∧
    w_commits w' = w_commits w ++
      (if a_applied done
       then [(λ i, (enc_key (RWorld (arr0 ids i)), be32 (arr0 rns i))) <$> upto n] else []) ∧
    w_responses w' = w_responses w ++ [(q, RInline (Some 200) (Some "application/json"%string)
      (worlds_body ids rns n))] ∧
    w_heap w' !! a = None ∧ w_trs w' !! t = None.
Proof.
  intros HE Hw [rns0 Hrns] H0n Hanss Hlen Hdone. cbn zeta.
  destruct (serve_update_reads anss w a t q c op HE Hw) as
    (c' & w1 & Hs & [L L'] & Hnum & Hids & Hres & Hw1);
    [by unfold numbers_missing; rewrite Hrns|intros i; lia|exact Hanss|lia|].
  pose proof (wt_at _ _ _ _ _ _ _ _ Hw1) as Hat1.
  destruct (waiting_chain_ok _ _ _ _ _ _ _ _ Hw1) as [Hc1 (_ & _ & _ & Hm1)].
  pose proof (chain_at_effect w1 a _ t q _ (OpCommit t) done Hat1 eq_refl) as Hat2.
  pose proof (update_on_commit_refines _ a (up_set_phase c') t q (update_writes c') done 0
    Hat2 Hc1 Hm1) as Hrun.
  destruct (serve_finish w1 a _ t q _ UpdateOnCommit _ done _ (λ _, env_yajl_ok HE) Hw1
    Hdone Hrun)
    as (w2 & Hs2 & _ & Hh & Ht & Hr & Hcm).
  exists w2, (arr_of (up_random_numbers c')).
  unfold numbers_ok in Hnum. rewrite Hres in Hnum. split_and!; [|exact Hnum| | |exact Hh|exact Ht].
  - by apply (served_app a w anss w1).
  - rewrite Hcm, <- L, (committed_effect w1 a _ t q (OpCommit t) done _ Hat1 eq_refl). cbn.
    unfold update_writes, update_row_write. by rewrite Hres, Hids.
  - rewrite Hr, L'. cbn. by rewrite Hres, Hids.
Qed.

(** ** /cached-worlds *)

(** The ids the next [n] draws give, and the seed after them. *)
Fixpoint world_ids `{RandR} (n : nat) (seed : Z) : list Z * Z :=
  match n with
  | O => ([], seed)
  | S n => let '(id, seed) := world_id seed in
           let '(ids, seed) := world_ids n seed in (id :: ids, seed)
  end.

Lemma g_set_seed_twice s1 s2 w :
  upd_globals (g_set_seed s2) (upd_globals (g_set_seed s1) w) = upd_globals (g_set_seed s2) w.
Proof. by destruct w. Qed.

(** C40: /cached-worlds draws its ids between 2 and 10001 and reads the cache at each: the
    10001 entries end at 10000, so the handler reads past the array as soon as one draw
    is 10001, and otherwise lists the cached numbers of its draws in order. *)
Theorem cached_worlds_reads_the_cache `{RandR} (w : world) (n : nat) (seed : Z) :
  g_seed (w_globals w) = Some seed → Z.of_nat (length (g_world_cache (w_globals w))) = 10001 →
  let '(ids, seed') := world_ids n seed in
  let cache := g_world_cache (w_globals w) in
  Forall (λ id, 2 <= id <= 10001) ids ∧
  cached_worlds n w =
    if decide (10001 ∈ ids) then Ub OutOfBounds
    else Ok (concat ((λ id, json_world id (arr0 cache id)) <$> ids),
             upd_globals (g_set_seed seed') w).
Proof.
  revert w seed. induction n as [|n IH]; intros w seed Hs Hlen.
  { cbn. split; [constructor|]. by rewrite g_set_seed_same. }
  cbn [world_ids cached_worlds]. pose proof (world_id_range seed) as Hr.
  rewrite M_bind_run, (get_random_world_id_Ok w seed) by done.
  destruct (world_id seed) as [id s1]. cbn [fst snd] in *.
  specialize (IH (upd_globals (g_set_seed s1) w) s1 eq_refl Hlen).
  destruct (world_ids n s1) as [ids s2]. destruct IH as [Hids IH].
  unfold TFB_MAX_ID in Hr. split; [apply Forall_cons_2; [lia|done]|].
  rewrite M_bind_run. cbn [gets]. rewrite M_bind_run.
  change (g_world_cache (w_globals (upd_globals (g_set_seed s1) w)))
    with (g_world_cache (w_globals w)) in *.
  destruct (decide (id = 10001)) as [->|Hne].
  { rewrite decide_True by (by left). unfold lift, arr_get. cbn [Z.ltb Z.compare].
    by rewrite lookup_ge_None_2 by lia. }
  destruct (arr_get_lt (g_world_cache (w_globals w)) id) as (x & Hx & Hx'); [lia|].
  unfold lift at 1. rewrite Hx, M_bind_run, IH.
  destruct (decide (10001 ∈ ids)) as [Hin|Hin].
  { by rewrite decide_True by (by right). }
  rewrite decide_False; [|by intros [|]%elem_of_cons].
  rewrite g_set_seed_twice. cbn. unfold arr0 at 2. by rewrite Hx'.
Qed.

(** ** The parameters of the TPC-C transactions *)

(** no NewOrder ever starts: its first draw asks for a number up to 0, which divides by
    zero. *)
Theorem new_order_request_divides_by_zero `{Env} `{RandR} (w : world) (path : request_path) :
  EnvOk → step (EvRequest EpNewOrder path) w = Ub DivByZero.
Proof.
  intros HE. cbn [step]. unfold fresh_id, on_req, tpcc_new_order_handler, handler_state, execute,
    tpcc_new_order_execute, calloc, ext, fresh_id, gets, modify, mbind, M_bind, mret, M_ret.
  rewrite malloc_ok. unfold lift. by rewrite new_order_params_ub.
Qed.

(** a Payment's parameters: the draw that decides about a remote customer divides by zero
    when it is below 15, and otherwise the payment is one of warehouse 1, for a customer of
    warehouse 1, in a district from 2 to 10, of 200 to 500000 in steps of 100. *)
Theorem payment_parameters `{RandR} (req st : ptr) (seed r1 s1 r2 s2 : Z) :
  get_random_number (DISTRICTS_PER_WAREHOUSE - 1) seed = Ok (r1, s1) →
  get_random_number 99 s1 = Ok (r2, s2) →
  match payment_params req st seed with
  | Ub u => u = DivByZero ∧ 1 <= r2 < 15
  | Ok c => 15 <= r2 <= 99 ∧ pc_w_id c = 1 ∧ pc_c_w_id c = 1 ∧
      pc_d_id c = 1 + r1 ∧ 2 <= pc_d_id c <= 10 ∧ 2 <= pc_c_d_id c <= 10 ∧
      200 <= pc_h_amount c <= 500000 ∧ pc_h_amount c mod 100 = 0 ∧
      (pc_by_name c = true → pc_c_id c = 0)
  end.
Proof.
  intros H1 H2. unfold payment_params. rewrite H1. cbn [mbind outcome_bind]. rewrite H2.
  cbn [mbind outcome_bind].
  apply get_random_number_range in H1; [|done]. apply get_random_number_range in H2; [|done].
  unfold DISTRICTS_PER_WAREHOUSE in *. destruct (Z.ltb_spec r2 15) as [Hr|Hr].
  { rewrite get_random_number_zero. split; [done|lia]. }
  cbn [mbind outcome_bind mret outcome_ret].
  destruct (get_random_number_defined (10 - 1) s2) as (r3 & s3 & H3); [done|].
  rewrite H3. apply get_random_number_range in H3; [|done]. cbn [mbind outcome_bind].
  destruct (get_random_number_defined 99 s3) as (r4 & s4 & H4); [done|].
  rewrite H4. cbn [mbind outcome_bind].
  destruct (payment_customer_draw (r4 <? 40) s4) as (l & c_id & s5 & -> & _ & Hc).
  cbn [mbind outcome_bind].
  destruct (get_random_number_defined 4999 s5) as (r6 & s6 & H6); [done|].
  rewrite H6. apply get_random_number_range in H6; [|done].
  cbn [mbind outcome_bind mret outcome_ret pc_w_id pc_c_w_id pc_d_id pc_c_d_id pc_h_amount
    pc_by_name pc_c_id].
  rewrite (wrap_u_id 32 (r6 * 100)), (wrap_u_id 32 (100 + r6 * 100)), (wrap_u_id 32 (1 + r1)),
    (wrap_u_id 32 (1 + r3)), wrap_s_id by range. split_and!; try done; try lia.
  replace (100 + r6 * 100) with ((1 + r6) * 100) by lia. by apply Z.mod_mul.
Qed.

(** The choices of the draws 1 to 99 that select a transaction. *)
Definition draws_of (tx : txn) : nat :=
  length (List.filter (λ r, bool_decide (harness_choice r = tx)) ((λ i, i + 1) <$> upto 99)).

(** the harness runs one transaction per request, chosen by a draw from 1 to 99: of the 99
    draws 44 select NewOrder, 43 Payment and 4 each OrderStatus, Delivery and StockLevel
    (the weights ask for 45 of 100 NewOrders). *)
Theorem harness_runs_the_mix `{Env} `{RandR} (req st : ptr) (seed : Z) (w : world) :
  (∃ r seed', get_random_number 99 seed = Ok (r, seed') ∧ 1 <= r <= 99 ∧
    tpcc_harness_dispatch req st seed w = execute (harness_choice r) req st seed' w) ∧
  draws_of <$> [TxNewOrder; TxPayment; TxOrderStatus; TxDelivery; TxStockLevel] =
    [44; 43; 4; 4; 4]%nat.
Proof.
  split; [|by vm_compute].
  destruct (get_random_number_defined 99 seed) as (r & s & Hr); [done|].
  exists r, s. split; [done|]. split; [by eapply get_random_number_range|].
  unfold tpcc_harness_dispatch. by rewrite Hr.
Qed.

(** ** Without an FDB state *)

Section null_state.
Context `{Env} `{RandR}.

(** An entry point that is given no thread state stops at the adapter. *)
Lemma exec_entry_null {A} `{IsCtx A} (zero : A) req oom failed params state set_tr launch w
    (c : A) w1 w2 :
  EnvOk →
  params (upd_heap (<[w_next (bump_tick w) := to_ctx zero]>) (bump_next (bump_tick w))) =
    Ok (c, w1) →
  w_heap w1 !! w_next w = Some (to_ctx zero) →
  state (upd_heap (<[w_next w := to_ctx c]>) w1) = Ok (None, w2) →
  exec_entry zero req oom failed params state set_tr launch w = Ub NullDeref.
Proof.
  intros HE Hp Hh Hs. unfold exec_entry, calloc, ext, fresh_id, gets, modify.
  unfold mbind, M_bind, mret, M_ret. rewrite malloc_ok.
  change (w_next (bump_tick w)) with (w_next w) in *. cbv beta iota in *. rewrite Hp.
  rewrite (store_Ok _ zero) by done. by rewrite Hs.
Qed.
Lemma new_order_null req st seed w :
  EnvOk → tpcc_new_order_execute req st seed w = Ub DivByZero.
Proof.
  intros HE. unfold tpcc_new_order_execute, calloc, ext, fresh_id, gets, modify, mbind, M_bind,
    mret, M_ret.
  rewrite malloc_ok. unfold lift. by rewrite new_order_params_ub.
Qed.

Lemma order_status_null req seed w :
  EnvOk → tpcc_order_status_execute req None seed w = Ub NullDeref.
Proof.
  intros HE. destruct (order_status_params_defined req None seed) as (d & c & b & Hp).
  change (exec_entry order_status_ctx_zero req "oom" "fdb failed"
    (lift (order_status_params req None seed)) (mret None) os_set_tr
    (λ arg c, _ ← fdb_async_commit (os_tr c) OsOnCommit arg; mret ()) w = Ub NullDeref).
  eapply exec_entry_null; [done|by apply lift_eq|apply lookup_insert_eq|done].
Qed.

Lemma delivery_null req seed w :
  EnvOk → tpcc_delivery_execute req None seed w = Ub NullDeref.
Proof.
  intros HE. destruct (delivery_params_defined req None seed) as (d & Hp).
  change (exec_entry delivery_ctx_zero req "oom" "fdb failed"
    (lift (delivery_params req None seed)) (mret None) dl_set_tr
    (λ arg c, _ ← fdb_async_commit (dl_tr c) DlOnCommit arg; mret ()) w = Ub NullDeref).
  eapply exec_entry_null; [done|by apply lift_eq|apply lookup_insert_eq|done].
Qed.

Lemma stock_level_null req seed w :
  EnvOk → tpcc_stock_level_execute req None seed w = Ub NullDeref.
Proof.
  intros HE. destruct (stock_level_params_defined req None seed) as (d & th & Hp).
  change (exec_entry stock_level_ctx_zero req "oom" "fdb failed"
    (lift (stock_level_params req None seed)) (mret None) sl_set_tr
    (λ arg c,
       begin_key ← lift (key_bytes (kv_stock_range_begin (stack_buf 64) (sl_w_id c)));
       end_key ← lift (key_bytes (kv_stock_range_end (stack_buf 64) (sl_w_id c)));
       _ ← fdb_async_get_range (sl_tr c) begin_key end_key SlOnRangeRead arg;
       mret ()) w = Ub NullDeref).
  eapply exec_entry_null; [done|by apply lift_eq|apply lookup_insert_eq|done].
Qed.

Lemma payment_null req seed w :
  EnvOk → tpcc_payment_execute req None seed w = Ub DivByZero ∨
    tpcc_payment_execute req None seed w = Ub NullDeref.
Proof.
  intros HE. set (m := exec_entry payment_ctx_zero req "out of memory"
    "fdb transaction failed"
    (lift (payment_params req None seed)) (mret None) pc_set_tr
    (λ arg c,
       wkey ← lift (key_bytes (kv_warehouse_key (stack_buf 64) (pc_w_id c)));
       _ ← fdb_async_get (pc_tr c) wkey PayOnWarehouseRead arg;
       mret ())).
  cut (m w = Ub DivByZero ∨ m w = Ub NullDeref); [done|]. unfold m.
  pose proof (payment_params_ok req None seed) as Hp.
  destruct (payment_params req None seed) as [c|u] eqn:E.
  - right. eapply exec_entry_null; [done|by apply lift_eq|apply lookup_insert_eq|done].
  - left. subst u. unfold exec_entry, calloc, ext, fresh_id, gets, modify.
    unfold mbind, M_bind, mret, M_ret. by rewrite malloc_ok.
Qed.

(** The arrays of /queries and /updates, filled. *)
Lemma draw_arrays n (w : world) :
  is_Some (g_seed (w_globals w)) →
  ∃ l w', draw_ids (Some (replicate (Z.to_nat n) 0)) (upto n) w = Ok (Some l, w') ∧ quiet w w'.
Proof.
  intros Hs. destruct (draw_ids_quiet (replicate (Z.to_nat n) 0) (upto n) w)
    as (l & w' & Hd & _ & Hqu); [done| |by exists l, w'].
  intros i Hi%elem_of_upto. rewrite length_replicate. lia.
Qed.

Lemma queries_null path req w n :
  EnvOk → g_fdb_state (w_globals w) = None → is_Some (g_seed (w_globals w)) →
  get_query_number path = Ok n →
  queries_handler path req w = Ub NullDeref ∧ updates_handler path req w = Ub NullDeref.
Proof.
  intros HE Hf Hs Hn. unfold queries_handler, updates_handler, calloc, calloc_u32, ext, fresh_id,
    gets, modify.
  rewrite Hn. unfold mbind, M_bind, mret, M_ret, lift. cbv beta iota. rewrite !malloc_ok.
  cbv beta iota.
  split; (match goal with |- context [draw_ids ?a ?b ?w1] =>
    destruct (draw_arrays n w1) as (l & w' & -> & Hqu); [exact Hs|] end);
    (erewrite store_Ok by (rewrite (q_heap _ _ Hqu); apply lookup_insert_eq));
    cbn [w_globals upd_heap]; rewrite (q_fdb _ _ Hqu); cbn; by rewrite Hf.
Qed.

Lemma db_null req w :
  EnvOk → g_fdb_state (w_globals w) = None → is_Some (g_seed (w_globals w)) →
  db_handler req w = Ub NullDeref.
Proof.
  intros HE Hf [seed Hs]. unfold db_handler, calloc, ext, fresh_id, gets, modify.
  unfold mbind, M_bind, mret, M_ret. rewrite malloc_ok.
  rewrite (get_random_world_id_Ok _ seed) by done.
  rewrite (store_Ok _ single_query_ctx_zero) by apply lookup_insert_eq. cbn. by rewrite Hf.
Qed.
End null_state.

(** How a request of an endpoint that opens a transaction ends without an FDB state: in
    [fdb_create_transaction]'s NULL dereference, or in the undefined behaviour of what its
    entry computes before. *)
Definition null_state_ub (ep : endpoint) (path : request_path) (u : ub) : Prop :=
  match ep with
  | EpNewOrder => u = DivByZero
  | EpPayment | EpRun => u = DivByZero ∨ u = NullDeref
  | EpOrderStatus | EpDelivery | EpStockLevel | EpDb => u = NullDeref
  | EpQueries | EpUpdates =>
      match get_query_number path with Ok _ => u = NullDeref | Ub v => u = v end
  | EpPlaintext | EpJson | EpCachedWorlds => False
  end.

Definition opens_transaction (ep : endpoint) : bool :=
  match ep with EpPlaintext | EpJson | EpCachedWorlds => false | _ => true end.

Lemma execute_null `{Env} `{RandR} tx req seed w :
  EnvOk → execute tx req None seed w = Ub DivByZero ∨ execute tx req None seed w = Ub NullDeref.
Proof.
  intros HE. destruct tx; cbn [execute].
  - left. by apply new_order_null.
  - by apply payment_null.
  - right. by apply order_status_null.
  - right. by apply delivery_null.
  - right. by apply stock_level_null.
Qed.

(** Without an FDB state ([initialize_tfb_handlers(.., NULL, ..)] and a zero
    [g_handler_state]) no request of an endpoint that opens a transaction is served. *)
Lemma null_state_requests `{Env} `{RandR} (w : world) (ep : endpoint)
    (path : request_path) :
  EnvOk → g_handler_fdb_state (w_globals w) = None → g_fdb_state (w_globals w) = None →
  is_Some (g_seed (w_globals w)) → opens_transaction ep = true →
  ∃ u, step (EvRequest ep path) w = Ub u ∧ null_state_ub ep path u.
Proof.
  intros HE Hh Hf Hs Hep.
  set (q := w_next w). set (w1 := upd_reqs ({[q]} ∪.) (bump_next w)).
  change (step (EvRequest ep path) w) with (on_req ep path (Some q) w1).
  assert (∀ k : ptr → Z → W (), ∃ seed w2,
    ('(st, seed) ← handler_state; k st seed) w1 = k None seed w2) as Hk.
  { intros k. eexists _, _. unfold handler_state, gets, modify, mbind, M_bind, mret, M_ret.
    cbn [w1 w_globals upd_reqs bump_next]. by rewrite Hh. }
  destruct ep; try done; cbn [on_req null_state_ub].
  - destruct (Hk (execute TxNewOrder (Some q))) as (seed & w2 & E). eexists.
    split; [etrans; [exact E|by apply new_order_null]|done].
  - destruct (Hk (execute TxPayment (Some q))) as (seed & w2 & E).
    destruct (execute_null TxPayment (Some q) seed w2 HE) as [E'|E']; eexists;
      (split; [etrans; [exact E|exact E']|auto]).
  - destruct (Hk (execute TxOrderStatus (Some q))) as (seed & w2 & E). eexists.
    split; [etrans; [exact E|by apply order_status_null]|done].
  - destruct (Hk (execute TxDelivery (Some q))) as (seed & w2 & E). eexists.
    split; [etrans; [exact E|by apply delivery_null]|done].
  - destruct (Hk (execute TxStockLevel (Some q))) as (seed & w2 & E). eexists.
    split; [etrans; [exact E|by apply stock_level_null]|done].
  - destruct (Hk (tpcc_harness_dispatch (Some q))) as (seed & w2 & E).
    destruct (get_random_number_defined 99 seed) as (r & s & Hr); [done|].
    assert (tpcc_harness_dispatch (Some q) None seed w2 =
      execute (harness_choice r) (Some q) None s w2) as E2
      by (unfold tpcc_harness_dispatch; by rewrite Hr).
    destruct (execute_null (harness_choice r) (Some q) s w2 HE) as [E'|E']; eexists;
      (split; [etrans; [exact E|by rewrite E2]|auto]).
  - eexists. split; [by apply db_null|done].
  - destruct (get_query_number path) as [n|u] eqn:Hn; eexists; (split; [|done]).
    + by apply (queries_null path (Some q) w1 n).
    + unfold queries_handler. by rewrite Hn.
  - destruct (get_query_number path) as [n|u] eqn:Hn; eexists; (split; [|done]).
    + by apply (queries_null path (Some q) w1 n).
    + unfold updates_handler. by rewrite Hn.
Qed.

(** ** Witnesses *)

#[local] Existing Instance rand_r_posix.

Definition sample_level : stock_level_ctx_t :=
  mk_stock_level_ctx (Some 3%nat) (Some 1%nat) (Some 0%nat) 1 4 15.
Definition sample_level_op : fdb_op :=
  OpGetRange 3 (mk_key_selector (enc_key (RStock 1 0)) false 0)
    (mk_key_selector (enc_key (RStock 1 0xFFFFFFFF)) false 0).

Lemma sample_level_waiting :
  waiting (chain_world (CtxStockLevel sample_level) SlOnRangeRead sample_level_op) 2
    (CtxStockLevel sample_level) 3 1 [] SlOnRangeRead sample_level_op.
Proof. by apply chain_world_waiting. Qed.

(** Two stock rows, with 12 and 50 items, and a value too short to be one. *)
Definition sample_rows : list write :=
  [(enc_key (RStock 1 7), pack (mk_stock_val 12 (zero_chars 240) 0 0 0 (zero_chars 50)));
   (enc_key (RStock 1 8), pack (mk_stock_val 50 (zero_chars 240) 0 0 0 (zero_chars 50)));
   (enc_key (RStock 1 9), [1; 2; 3])].

Lemma stock_level_counts_the_rows_below_witness :
  ∃ w' r, w_responses w' = [(1%nat, r)] ∧
    r = RInline None None [JMapOpen; JString (bytes_of_string "status");
      JString (bytes_of_string "ok"); JString (bytes_of_string "below_threshold" ++ [0]);
      JInteger 1; JMapClose].
Proof.
  destruct (@stock_level_counts_the_rows_below (env_ok 1700000000) rand_r_posix
    (chain_world (CtxStockLevel sample_level) SlOnRangeRead sample_level_op) 2 3 1
    sample_level [] SlOnRangeRead sample_level_op sample_rows) as (w' & _ & Hr & _).
  - apply env_yajl_ok, env_ok_ok.
  - exact sample_level_waiting.
  - done.
  - exists w'. eexists. split; [exact Hr|]. by vm_compute.
Defined.

Definition sample_delivery : delivery_ctx_t :=
  mk_delivery_ctx (Some 3%nat) (Some 1%nat) (Some 0%nat) 1 4.

(** A commit that failed is answered "ok" all the same. *)
Lemma order_status_and_delivery_only_answer_witness :
  ∃ w', w_responses w' = [(1%nat, RInline None None (delivery_body sample_delivery))] ∧
    w_commits w' = [].
Proof.
  destruct (@order_status_and_delivery_only_answer (env_ok 1700000000) rand_r_posix
    (chain_world (CtxDelivery sample_delivery) DlOnCommit (OpCommit 3)) 2 3 1
    (CtxDelivery sample_delivery) [] DlOnCommit (OpCommit 3) (ans_error 1020))
    as (w' & _ & _ & _ & Hr & Hc).
  - apply env_yajl_ok, env_ok_ok.
  - by apply chain_world_waiting.
  - done.
  - done.
  - exists w'. split; [exact Hr|exact Hc].
Defined.

Definition sample_query : single_query_ctx_t :=
  mk_single_query_ctx (Some 1%nat) (Some 3%nat) 77.

Lemma db_answers_the_row_witness :
  ∃ w' r, w_responses w' = [(1%nat, r)] ∧
    r = RInline (Some 200) (Some "application/json"%string) (json_world 77 258).
Proof.
  destruct (@db_answers_the_row (env_ok 1700000000) rand_r_posix
    (chain_world (CtxSingleQuery sample_query) OnSingleQueryResult
      (OpGet 3 (enc_key (RWorld 77)))) 2 3 1
    sample_query [] OnSingleQueryResult (OpGet 3 (enc_key (RWorld 77)))
    (ans_value [0; 0; 1; 2])) as (w' & r & _ & Hr & _ & _ & Hcase).
  - apply env_yajl_ok, env_ok_ok.
  - by apply chain_world_waiting.
  - done.
  - intros v [= <-]. forall_list.
  - exists w', r. split; [exact Hr|].
    destruct Hcase as [(_ & v & Hv & _ & ->)|[[He|[Hv|(v & Hv & Hl)]] _]].
    + injection Hv as <-. by vm_compute.
    + by destruct He.
    + discriminate Hv.
    + injection Hv as <-. cbn in Hl. lia.
Defined.

Definition sample_multi : multi_query_ctx_t :=
  mk_multi_query_ctx (Some 1%nat) (Some 3%nat) 1 0 (Some [5]) (Some [0]) 0.
Definition sample_multi_op : fdb_op := OpGet 3 (enc_key (RWorld 5)).
Definition sample_multi_world : world :=
  chain_world (CtxMultiQuery sample_multi) MultiQueryNextCast sample_multi_op.

Lemma sample_multi_waiting :
  waiting sample_multi_world 2 (CtxMultiQuery sample_multi) 3 1 [] MultiQueryNextCast
    sample_multi_op.
Proof. apply chain_world_waiting; [done|done|]. split; [done|]. split; [done|by eexists]. Qed.

Lemma queries_callback_is_undefined_witness :
  step (H := env_ok 1700000000) (H0 := rand_r_posix)
    (EvFuture 4 (ans_value [0; 0; 0; 9])) sample_multi_world = Ub TypeConfusion.
Proof.
  apply (@queries_callback_is_undefined (env_ok 1700000000) rand_r_posix sample_multi_world 4
    (mk_fcb sample_multi_op MultiQueryNextCast 2) sample_multi).
  - exact (wt_inv _ _ _ _ _ _ _ _ sample_multi_waiting).
  - reflexivity.
  - reflexivity.
Defined.

Definition sample_update : update_ctx_t :=
  mk_update_ctx (Some 1%nat) (Some 3%nat) 2 0 (Some [5; 9]) (Some [0; 0]) false.

Lemma sample_update_waiting :
  waiting (chain_world (CtxUpdate sample_update) UpdateOnRead (OpGet 3 (enc_key (RWorld 5)))) 2
    (CtxUpdate sample_update) 3 1 [] UpdateOnRead (OpGet 3 (enc_key (RWorld 5))).
Proof.
  apply chain_world_waiting; [done|done|]. split; [|done].
  split; [by exists [5; 9]|by intros rns [= <-]|done|done].
Qed.

Lemma updates_commit_the_numbers_sent_witness :
  ∃ w' rns, w_commits w' =
    [[(enc_key (RWorld 5), be32 (arr0 rns 0)); (enc_key (RWorld 9), be32 (arr0 rns 1))]] ∧
    1 <= arr0 rns 0 <= 10000 ∧ 1 <= arr0 rns 1 <= 10000.
Proof.
  destruct (@updates_commit_the_numbers_sent (env_ok 1700000000) rand_r_posix
    (chain_world (CtxUpdate sample_update) UpdateOnRead (OpGet 3 (enc_key (RWorld 5)))) 2 3 1
    sample_update (OpGet 3 (enc_key (RWorld 5))) [ans_value [0; 0; 0; 9]; ans_absent] ans_done)
    as (w' & rns & _ & Hr & Hc & _).
  - apply env_ok_ok.
  - exact sample_update_waiting.
  - by eexists.
  - done.
  - forall_list.
  - done.
  - done.
  - exists w', rns. split; [exact Hc|]. split; apply Hr; by split.
Defined.

(** A process whose World cache is loaded. *)
Definition cache_world : world :=
  mk_world ∅ ∅ ∅ ∅ [] [] ∅
    (mk_globals None 7 None (Some 42) (replicate (Z.to_nat 10001) 6) true) 1 0.

Lemma cached_worlds_reads_the_cache_witness :
  ∃ body w', cached_worlds (H0 := rand_r_posix) 2 cache_world = Ok (body, w').
Proof.
  pose proof (@cached_worlds_reads_the_cache rand_r_posix cache_world 2 42) as Hc.
  specialize (Hc eq_refl). specialize (Hc ltac:(by vm_compute)).
  destruct (world_ids 2 42) as [ids seed'] eqn:E. destruct Hc as [_ Hc].
  destruct (decide (10001 ∈ ids)) as [Hin|Hn]; [exfalso|by eexists _, _].
  vm_compute in E. injection E as <- _. revert Hin. rewrite !elem_of_cons, elem_of_nil. lia.
Defined.

Lemma new_order_request_divides_by_zero_witness :
  step (H := env_ok 1700000000) (H0 := rand_r_posix) (EvRequest EpNewOrder any_path)
    boot_world = Ub DivByZero.
Proof.
  apply (@new_order_request_divides_by_zero (env_ok 1700000000) rand_r_posix boot_world any_path).
  apply env_ok_ok.
Defined.

Lemma payment_parameters_witness :
  ∃ c, payment_params (H0 := rand_r_posix) (Some 1%nat) None 1 = Ok c ∧ pc_w_id c = 1.
Proof.
  pose proof (@payment_parameters rand_r_posix (Some 1%nat) None 1) as Hp.
  destruct (get_random_number (DISTRICTS_PER_WAREHOUSE - 1) 1) as [[r1 s1]|] eqn:E1;
    [|by vm_compute in E1].
  destruct (get_random_number 99 s1) as [[r2 s2]|] eqn:E2;
    [|vm_compute in E1; injection E1 as <- <-; by vm_compute in E2].
  specialize (Hp r1 s1 r2 s2 eq_refl E2).
  destruct (payment_params _ _ _) as [c|u] eqn:E; [|by vm_compute in E].
  exists c. split; [done|]. exact (proj1 (proj2 Hp)).
Defined.
