(* ===== verification/Server.v ===== *)
(** * The process: src/main.c, src/thread.c and the life cycle of src/fdb_database.c

    [main_start] is [main] up to [fdb_run_network], which blocks; [server_step] is what
    happens afterwards: worker threads serve their loops and, when the network has
    returned, [main] stops, joins and cleans up one thread after the other.  What a callback
    of a thread's loop uses of its h2o context it takes from [tc_h2o], which disposal
    clears.  The operating system, h2o and libfdb_c are the class [Host]; the databases, sockets and threads they
    hand out are tracked, so that a second release or a join of no thread shows. *)

From S2P Require Import Prelude Random Query Values Ctx Runtime NewOrder Payment ReadTxns.
From S2P Require Import Tfb Handlers.

(** ** The C data *)

(** [fdb_thread_state_t], with the database and loop it points to. *)
Record fdb_state_t : Type := mk_fdb_state {
  st_db : ptr;
  st_loop : ptr;
  st_active_transactions : Z;
  st_max_transactions : Z;
}.
Definition fdb_state_zero : fdb_state_t := mk_fdb_state None None 0 0.

Record fdb_global_t : Type := mk_fdb_global {
  fg_cluster_file : option (list Z);
  fg_thread_states : ptr;
  fg_num_threads : Z;
  fg_network_started : bool;
}.
Definition fdb_global_zero : fdb_global_t := mk_fdb_global None None 0 false.

(** The thread behind [tid]: where [worker_main] is. *)
Inductive worker_pc : Type := WNone | WCreated | WListening | WReturned | WJoined.

(** [thread_ctx_t]: [tc_h2o] is the loop of an initialized [h2o_ctx], [tc_accept] the
    context [accept_ctx] refers to.  [tc_worker] and [tc_accepted] belong to the thread. *)
Record thread_ctx_t : Type := mk_thread_ctx {
  tc_listen_fd : Z;
  tc_running : bool;
  tc_loop : ptr;
  tc_h2o : ptr;
  tc_accept : ptr;
  tc_fdb_state : fdb_state_t;
  tc_worker : worker_pc;
  tc_accepted : nat;
}.
Definition thread_ctx_zero : thread_ctx_t :=
  mk_thread_ctx 0 false None None None fdb_state_zero WNone 0.

Definition tc_set_running (r : bool) (t : thread_ctx_t) : thread_ctx_t :=
  mk_thread_ctx (tc_listen_fd t) r (tc_loop t) (tc_h2o t) (tc_accept t) (tc_fdb_state t)
    (tc_worker t) (tc_accepted t).
Definition tc_set_h2o (c : ptr) (t : thread_ctx_t) : thread_ctx_t :=
  mk_thread_ctx (tc_listen_fd t) (tc_running t) (tc_loop t) c (tc_accept t) (tc_fdb_state t)
    (tc_worker t) (tc_accepted t).
Definition tc_set_fdb (st : fdb_state_t) (t : thread_ctx_t) : thread_ctx_t :=
  mk_thread_ctx (tc_listen_fd t) (tc_running t) (tc_loop t) (tc_h2o t) (tc_accept t) st
    (tc_worker t) (tc_accepted t).
Definition tc_set_worker (pc : worker_pc) (t : thread_ctx_t) : thread_ctx_t :=
  mk_thread_ctx (tc_listen_fd t) (tc_running t) (tc_loop t) (tc_h2o t) (tc_accept t)
    (tc_fdb_state t) pc (tc_accepted t).
Definition tc_accept_more (n : nat) (t : thread_ctx_t) : thread_ctx_t :=
  mk_thread_ctx (tc_listen_fd t) (tc_running t) (tc_loop t) (tc_h2o t) (tc_accept t)
    (tc_fdb_state t) (tc_worker t) (tc_accepted t + n).

(** [thread_context_t] *)
Record thread_context_t : Type := mk_thread_context {
  tx_h2o : ptr;
  tx_loop : ptr;
  tx_fdb_state : fdb_state_t;
  tx_random_seed : Z;
}.

(** [config_t] ([duration_ms] is never read) and the port. *)
Record config_t : Type := mk_config {
  fdb_cluster_file : list Z;
  warehouses : Z;
  worker_count : Z;
}.

(** A letter of the option string: without an argument, with one, unknown. *)
Inductive opt_kind : Type := OptFlag | OptArg | OptUnknown.

(** ** What the process calls *)

(** Return values by the number of the call.  [host_create_database]: the error, and
    whether the database pointer is set when there is one. *)
Class Host := {
  host_calloc : nat → Z → bool;
  host_socket : nat → Z;
  host_bind : nat → Z;
  host_listen : nat → Z;
  host_pthread_create : nat → Z;
  host_select_api : nat → Z;
  host_setup_network : nat → Z;
  host_create_database : nat → Z * bool;
  host_run_network : nat → Z;
  host_stop_network : nat → Z;
}.

(** No call fails, for a reasonable number of threads. *)
Class HostOk `{Host} : Prop := {
  hcalloc_ok : ∀ t n, 0 <= n <= 2 ^ 16 → host_calloc t n = true;
  hsocket_ok : ∀ t, 0 <= host_socket t;
  hbind_ok : ∀ t, host_bind t = 0;
  hlisten_ok : ∀ t, host_listen t = 0;
  hpthread_ok : ∀ t, host_pthread_create t = 0;
  hselect_ok : ∀ t, host_select_api t = 0;
  hsetup_ok : ∀ t, host_setup_network t = 0;
  hdatabase_ok : ∀ t, (host_create_database t).1 = 0;
  hstop_ok : ∀ t, host_stop_network t = 0;
}.

Inductive network : Type := NetDown | NetSetUp | NetReturned | NetStopped.
Inductive socket : Type := SockNew | SockBound (port : Z) | SockListening (port : Z).

(** Where [main] is: before [fdb_run_network], in it, in the [i]-th [pthread_join] of [n],
    or returned. *)
Inductive main_pc : Type :=
  | MainStarting
  | MainNetwork (listen_fd : Z) (n : nat)
  | MainJoining (listen_fd : Z) (n i : nat)
  | MainReturned (code : Z).

Record sstate : Type := mk_sstate {
  sv_main : fdb_global_t;
  sv_thread : fdb_global_t;
  sv_world : world;
  sv_network : network;
  sv_dbs : gset nat;
  sv_blocks : gset nat;
  sv_socks : gmap Z socket;
  sv_threads : option (list thread_ctx_t);
  sv_routes : list (string * endpoint);
  sv_pc : main_pc;
  sv_next : nat;
  sv_tick : nat;
}.

(** [static fdb_global_t fdb_global]: main.c and thread.c each have their own. *)
Inductive global_ref : Type := MainGlobal | ThreadGlobal.

Definition upd_global (g : global_ref) (f : fdb_global_t → fdb_global_t) (s : sstate) : sstate :=
  let m := match g with MainGlobal => f (sv_main s) | ThreadGlobal => sv_main s end in
  let t := match g with MainGlobal => sv_thread s | ThreadGlobal => f (sv_thread s) end in
  mk_sstate m t (sv_world s) (sv_network s) (sv_dbs s) (sv_blocks s) (sv_socks s)
    (sv_threads s) (sv_routes s) (sv_pc s) (sv_next s) (sv_tick s).
Definition upd_world (f : world → world) (s : sstate) : sstate :=
  mk_sstate (sv_main s) (sv_thread s) (f (sv_world s)) (sv_network s) (sv_dbs s) (sv_blocks s)
    (sv_socks s) (sv_threads s) (sv_routes s) (sv_pc s) (sv_next s) (sv_tick s).
Definition set_network (n : network) (s : sstate) : sstate :=
  mk_sstate (sv_main s) (sv_thread s) (sv_world s) n (sv_dbs s) (sv_blocks s) (sv_socks s)
    (sv_threads s) (sv_routes s) (sv_pc s) (sv_next s) (sv_tick s).
Definition upd_dbs (f : gset nat → gset nat) (s : sstate) : sstate :=
  mk_sstate (sv_main s) (sv_thread s) (sv_world s) (sv_network s) (f (sv_dbs s)) (sv_blocks s)
    (sv_socks s) (sv_threads s) (sv_routes s) (sv_pc s) (sv_next s) (sv_tick s).
Definition upd_blocks (f : gset nat → gset nat) (s : sstate) : sstate :=
  mk_sstate (sv_main s) (sv_thread s) (sv_world s) (sv_network s) (sv_dbs s) (f (sv_blocks s))
    (sv_socks s) (sv_threads s) (sv_routes s) (sv_pc s) (sv_next s) (sv_tick s).
Definition upd_socks (f : gmap Z socket → gmap Z socket) (s : sstate) : sstate :=
  mk_sstate (sv_main s) (sv_thread s) (sv_world s) (sv_network s) (sv_dbs s) (sv_blocks s)
    (f (sv_socks s)) (sv_threads s) (sv_routes s) (sv_pc s) (sv_next s) (sv_tick s).
Definition set_threads (ts : option (list thread_ctx_t)) (s : sstate) : sstate :=
  mk_sstate (sv_main s) (sv_thread s) (sv_world s) (sv_network s) (sv_dbs s) (sv_blocks s)
    (sv_socks s) ts (sv_routes s) (sv_pc s) (sv_next s) (sv_tick s).
Definition add_routes (r : list (string * endpoint)) (s : sstate) : sstate :=
  mk_sstate (sv_main s) (sv_thread s) (sv_world s) (sv_network s) (sv_dbs s) (sv_blocks s)
    (sv_socks s) (sv_threads s) (sv_routes s ++ r) (sv_pc s) (sv_next s) (sv_tick s).
Definition set_pc (pc : main_pc) (s : sstate) : sstate :=
  mk_sstate (sv_main s) (sv_thread s) (sv_world s) (sv_network s) (sv_dbs s) (sv_blocks s)
    (sv_socks s) (sv_threads s) (sv_routes s) pc (sv_next s) (sv_tick s).
Definition bump_id (s : sstate) : sstate :=
  mk_sstate (sv_main s) (sv_thread s) (sv_world s) (sv_network s) (sv_dbs s) (sv_blocks s)
    (sv_socks s) (sv_threads s) (sv_routes s) (sv_pc s) (S (sv_next s)) (sv_tick s).
Definition bump_call (s : sstate) : sstate :=
  mk_sstate (sv_main s) (sv_thread s) (sv_world s) (sv_network s) (sv_dbs s) (sv_blocks s)
    (sv_socks s) (sv_threads s) (sv_routes s) (sv_pc s) (sv_next s) (S (sv_tick s)).

Abbreviation SV := (M sstate).

Definition host {A} (f : nat → A) : SV A :=
  t ← gets sv_tick; _ ← modify bump_call; mret (f t).
Definition new_id : SV nat := i ← gets sv_next; _ ← modify bump_id; mret i.

(** A call of the handlers' code. *)
Definition on_world {A} (m : W A) : SV A := λ s,
  match m (sv_world s) with
  | Ok (a, w) => Ok (a, upd_world (λ _, w) s)
  | Ub u => Ub u
  end.

Definition get_global (g : global_ref) : SV fdb_global_t :=
  gets (match g with MainGlobal => sv_main | ThreadGlobal => sv_thread end).

(** [threads[i]] *)
Definition get_thread (i : nat) : SV thread_ctx_t :=
  ts ← gets sv_threads;
  lift (ts ← from_option_or NullDeref ts; from_option_or OutOfBounds (ts !! i)).
Definition put_thread (i : nat) (t : thread_ctx_t) : SV () :=
  modify (λ s, set_threads ((λ ts, <[i := t]> ts) <$> sv_threads s) s).

(** ** The FDB adapter's life cycle: src/fdb_database.c *)

Definition FDB_CLUSTER_FILE_DEFAULT : list Z := bytes_of_string "/etc/foundationdb/fdb.cluster".

Section server.
Context `{Host} `{Env} `{RandR}.

(** [calloc] of [n] elements: a block, or NULL. *)
Definition host_alloc (n : Z) : SV ptr :=
  ok ← host (λ t, host_calloc t n);
  if negb ok then mret None
  else b ← new_id; _ ← modify (upd_blocks ({[b]} ∪.)); mret (Some b).

Definition fdb_global_init (fdb : global_ref) (cluster_file : option (list Z)) (num_threads : Z)
    : SV Z :=
  _ ← modify (upd_global fdb (λ _, fdb_global_zero));
  let cluster := default FDB_CLUSTER_FILE_DEFAULT cluster_file in
  states ← host_alloc num_threads;
  _ ← modify (upd_global fdb (λ _, mk_fdb_global (Some cluster) states num_threads false));
  err ← host host_select_api;
  if negb (err =? 0) then mret err
  else
    err ← host host_setup_network;
    if negb (err =? 0) then mret err
    else
      _ ← modify (set_network NetSetUp);
      _ ← modify (upd_global fdb (λ g, mk_fdb_global (fg_cluster_file g) (fg_thread_states g)
            (fg_num_threads g) true));
      mret 0.

(** The error and the state it leaves in [*state]. *)
Definition fdb_thread_init (fdb : global_ref) (loop : ptr) : SV (Z * fdb_state_t) :=
  _ ← get_global fdb;
  '(db_err, db) ← host host_create_database;
  if db_err =? 0 then
    d ← new_id;
    _ ← modify (upd_dbs ({[d]} ∪.));
    mret (0, mk_fdb_state (Some d) loop 0 0)
  else if negb db then mret (db_err, mk_fdb_state None loop 0 0)
  else d ← new_id; mret (db_err, mk_fdb_state (Some d) loop 0 0).

Definition fdb_thread_cleanup (state : fdb_state_t) : SV () :=
  match st_db state with
  | None => mret ()
  | Some d =>
      dbs ← gets sv_dbs;
      if decide (d ∈ dbs) then modify (upd_dbs (.∖ {[d]})) else fail_with UseAfterFree
  end.

Definition fdb_global_cleanup (fdb : global_ref) : SV () :=
  g ← get_global fdb;
  _ ← (if fg_network_started g then
         err ← host host_stop_network;
         if err =? 0 then modify (set_network NetStopped) else mret ()
       else mret ());
  match fg_thread_states g with
  | None => mret ()
  | Some b =>
      blocks ← gets sv_blocks;
      if decide (b ∈ blocks) then modify (upd_blocks (.∖ {[b]})) else fail_with UseAfterFree
  end.

(** The hooks of src/handlers/tpcc_handlers.c. *)
Definition cleanup_tpcc_handler_thread_data (state : fdb_state_t) : SV () :=
  fdb_thread_cleanup state.
Definition cleanup_tpcc_handlers : SV () := mret ().

(** ** src/thread.c *)

Definition init_fdb_global (config : config_t) (num_threads : Z) : SV Z :=
  fdb_global_init ThreadGlobal (Some (fdb_cluster_file config)) num_threads.
Definition cleanup_fdb_global : SV () := fdb_global_cleanup ThreadGlobal.

(** [ctx]: the address of the context. *)
Definition initialize_thread_data (ctx : Z) : SV thread_context_t :=
  loop ← new_id;
  '(_, st) ← fdb_thread_init ThreadGlobal (Some loop);
  mret (mk_thread_context (Some loop) (Some loop) st (u32 ctx)).

Definition cleanup_thread_data (ctx : thread_context_t) : SV thread_context_t :=
  _ ← fdb_thread_cleanup (tx_fdb_state ctx);
  match tx_h2o ctx with
  | None => fail_with UseAfterFree
  | Some _ => mret (mk_thread_context None (tx_loop ctx) (tx_fdb_state ctx) (tx_random_seed ctx))
  end.

(** [event_loop_thread]: one call of [h2o_evloop_run] per element; [None] while it runs. *)
Fixpoint event_loop_thread (runs : list Z) : option () :=
  match runs with
  | [] => None
  | r :: runs => if r =? 0 then event_loop_thread runs else Some ()
  end.

(** ** The command line of src/main.c *)

Definition DEFAULT_PORT : Z := 8080.

(** The letters of ["a:c:w:p:h"]. *)
Definition opt_kind_of (c : Z) : opt_kind :=
  if decide (c ∈ [97; 99; 119; 112]) then OptArg
  else if c =? 104 then OptFlag else OptUnknown.

(** The results [getopt] reports inside one argument of letters, and the letter that
    still waits for its argument. *)
Fixpoint getopt_letters (cs : list Z) : list (Z * list Z) * option Z :=
  match cs with
  | [] => ([], None)
  | c :: cs' =>
      match opt_kind_of c with
      | OptArg => match cs' with [] => ([], Some c) | _ => ([(c, cs')], None) end
      | OptFlag => let '(rs, w) := getopt_letters cs' in ((c, []) :: rs, w)
      | OptUnknown => let '(rs, w) := getopt_letters cs' in ((63, []) :: rs, w)
      end
  end.

(** [getopt(argc, argv, "a:c:w:p:h")] of the C library (arguments that are no options are
    passed over), until it returns -1. *)
Fixpoint getopt (args : list (list Z)) : list (Z * list Z) :=
  match args with
  | [] => []
  | arg :: args' =>
      match arg with
      | 45 :: c :: cs =>
          if bool_decide (c :: cs = [45]) then []
          else
            let '(rs, w) := getopt_letters (c :: cs) in
            match w with
            | None => rs ++ getopt args'
            | Some o =>
                match args' with
                | [] => rs ++ [(63, [])]
                | a :: args'' => rs ++ (o, a) :: getopt args''
                end
            end
      | _ => getopt args'
      end
  end.

(** [atoi] of a C string. *)
Definition atoi_arg (arg : list Z) : outcome Z := atoi (arg ++ [0]).

(** The loop over [getopt]: the configuration and port, or an exit code. *)
Fixpoint parse_options (opts : list (Z * list Z)) (config : config_t) (port : Z)
    : outcome (Z + config_t * Z) :=
  match opts with
  | [] => mret (inr (config, port))
  | (opt, optarg) :: opts =>
      if opt =? 97 then
        n ← atoi_arg optarg;
        parse_options opts (mk_config (fdb_cluster_file config) (warehouses config) (u64 n)) port
      else if opt =? 99 then
        parse_options opts (mk_config optarg (warehouses config) (worker_count config)) port
      else if opt =? 119 then
        n ← atoi_arg optarg;
        parse_options opts (mk_config (fdb_cluster_file config) (u64 n) (worker_count config)) port
      else if opt =? 112 then
        n ← atoi_arg optarg; parse_options opts config n
      else mret (inl (if opt =? 104 then 0 else 1))
  end.

Definition default_config : config_t := mk_config FDB_CLUSTER_FILE_DEFAULT 1 1.

(** ** Sockets and worker threads *)

Definition close (fd : Z) : SV () := modify (upd_socks (delete fd)).

Definition create_listening_socket (port : Z) : SV Z :=
  fd ← host host_socket;
  if fd <? 0 then mret (-1)
  else
    _ ← modify (upd_socks (<[fd := SockNew]>));
    let sin_port := u16 port in
    err ← host host_bind;
    if err <? 0 then _ ← close fd; mret (-1)
    else
      _ ← modify (upd_socks (<[fd := SockBound sin_port]>));
      err ← host host_listen;
      if err <? 0 then _ ← close fd; mret (-1)
      else
        _ ← modify (upd_socks (<[fd := SockListening sin_port]>));
        mret fd.

(** The [h2o_ctx] of thread [i], by code that runs in its loop. *)
Definition use_h2o (i : nat) : SV () :=
  t ← get_thread i;
  _ ← lift (from_option_or UseAfterFree (tc_h2o t));
  mret ().

(** [on_accept]: [err], and the connections [h2o_evloop_socket_accept] yields until NULL;
    [h2o_accept] takes [accept_ctx], which refers to [h2o_ctx]. *)
Definition on_accept (i : nat) (err : bool) (conns : nat) : SV () :=
  t ← get_thread i;
  if err then mret ()
  else
    match conns with
    | O => mret ()
    | S _ =>
        _ ← lift (from_option_or NullDeref (tc_accept t));
        _ ← use_h2o i;
        put_thread i (tc_accept_more conns t)
    end.

(** The start of [worker_main]: the listener. *)
Definition worker_begin (i : nat) : SV () :=
  t ← get_thread i;
  _ ← lift (from_option_or NullDeref (tc_loop t));
  put_thread i (tc_set_worker WListening t).

(** One test of [tctx->running] and, while it is set, one [h2o_evloop_run]; its callbacks
    are [on_accept] for the listener. *)
Definition worker_round (i : nat) (err : bool) (conns : nat) : SV () :=
  t ← get_thread i;
  if tc_running t then on_accept i err conns
  else put_thread i (tc_set_worker WReturned t).

(** ** [main] *)

(** The body of the loop that creates the threads. *)
Definition start_thread (listen_fd : Z) (i : nat) : SV () :=
  t ← get_thread i;
  loop ← new_id;
  let t := mk_thread_ctx listen_fd true (Some loop) (Some loop) (Some loop) (tc_fdb_state t)
    (tc_worker t) (tc_accepted t) in
  _ ← put_thread i t;
  '(_, st) ← fdb_thread_init MainGlobal (Some loop);
  _ ← put_thread i (tc_set_fdb st t);
  rc ← host host_pthread_create;
  if rc =? 0 then put_thread i (tc_set_worker WCreated (tc_set_fdb st t)) else mret ().

Definition main_start (args : list (list Z)) : SV () :=
  r ← lift (parse_options (getopt args) default_config DEFAULT_PORT);
  match r with
  | inl code => modify (set_pc (MainReturned code))
  | inr (config, port) =>
      err ← fdb_global_init MainGlobal (Some (fdb_cluster_file config)) (worker_count config);
      if negb (err =? 0) then modify (set_pc (MainReturned 1))
      else
        tfb_seed ← on_world (ext env_time);
        routes ← on_world (initialize_tfb_handlers None (Some (u32 tfb_seed)));
        _ ← modify (add_routes routes);
        routes ← on_world initialize_tpcc_handlers;
        _ ← modify (add_routes routes);
        listen_fd ← create_listening_socket port;
        if listen_fd <? 0 then modify (set_pc (MainReturned 1))
        else
          let n := Z.to_nat (worker_count config) in
          ok ← host (λ t, host_calloc t (worker_count config));
          _ ← modify (set_threads (if negb ok then None
                else Some (replicate n thread_ctx_zero)));
          _ ← for_each (seq 0 n) (start_thread listen_fd);
          modify (set_pc (MainNetwork listen_fd n))
  end.

(** The clean-up loop at index [i]: the flag of the next thread to join, or the end. *)
Definition shutdown_from (listen_fd : Z) (n i : nat) : SV () :=
  if (i <? n)%nat then
    t ← get_thread i;
    _ ← put_thread i (tc_set_running false t);
    modify (set_pc (MainJoining listen_fd n i))
  else
    _ ← modify (set_threads None);
    _ ← close listen_fd;
    _ ← cleanup_tpcc_handlers;
    _ ← cleanup_fdb_global;
    modify (set_pc (MainReturned 0)).

(** The thread behind [tid] once [pthread_join] has returned: one that has returned is
    gone, one that had not would still be where it was. *)
Definition joined_pc (pc : worker_pc) : worker_pc :=
  match pc with WReturned => WJoined | _ => pc end.

(** The rest of the loop's body once [pthread_join] has returned. *)
Definition joined_thread (i : nat) : SV () :=
  t ← get_thread i;
  let t := tc_set_worker (joined_pc (tc_worker t)) t in
  _ ← lift (from_option_or UseAfterFree (tc_h2o t));
  _ ← put_thread i (tc_set_h2o None t);
  fdb_thread_cleanup (tc_fdb_state t).

(** ** The running process *)

Inductive sevent : Type :=
  | SvBegin (i : nat)
  | SvRound (i : nat) (err : bool) (conns : nat)
  | SvRequest (i : nat) (ep : endpoint) (path : request_path)
  | SvNetworkReturns
  | SvJoin.

Definition worker_at (s : sstate) (i : nat) : worker_pc :=
  match sv_threads s with
  | Some ts => match ts !! i with Some t => tc_worker t | None => WNone end
  | None => WNone
  end.

(** What can happen next: a thread runs, a request reaches a listening one, the network
    stops, [pthread_join] returns (or is given no thread). *)
Definition server_enabled (s : sstate) (ev : sevent) : bool :=
  match ev with
  | SvBegin i => match worker_at s i with WCreated => true | _ => false end
  | SvRound i _ _ => match worker_at s i with WListening => true | _ => false end
  | SvRequest i ep _ =>
      match worker_at s i with WListening => true | _ => false end &&
      existsb (λ r, bool_decide (r.2 = ep)) (sv_routes s)
  | SvNetworkReturns => match sv_pc s with MainNetwork _ _ => true | _ => false end
  | SvJoin =>
      match sv_pc s with
      | MainJoining _ _ i =>
          match worker_at s i with WReturned | WNone => true | _ => false end
      | _ => false
      end
  end.

Definition server_step (ev : sevent) : SV () :=
  match ev with
  | SvBegin i => worker_begin i
  | SvRound i err conns => worker_round i err conns
  | SvRequest i ep path => _ ← use_h2o i; on_world (step (EvRequest ep path))
  | SvNetworkReturns =>
      pc ← gets sv_pc;
      match pc with
      | MainNetwork fd n =>
          _ ← host host_run_network; _ ← modify (set_network NetReturned); shutdown_from fd n 0
      | _ => mret ()
      end
  | SvJoin =>
      pc ← gets sv_pc;
      match pc with
      | MainJoining fd n i =>
          t ← get_thread i;
          _ ← lift (assert_or BadThread (match tc_worker t with WNone => false | _ => true end));
          _ ← joined_thread i;
          shutdown_from fd n (S i)
      | _ => mret ()
      end
  end.

(** The states of the process after a start. *)
Inductive sreach (s0 : sstate) : sstate → Prop :=
  | sreach_refl : sreach s0 s0
  | sreach_step s ev s' :
      sreach s0 s → server_enabled s ev = true → server_step ev s = Ok ((), s') → sreach s0 s'.
End server.
