(* ===== verification/Startup.v ===== *)
(** * Start and shutdown of the process

    What [main] of src/main.c has set up when it blocks in [fdb_run_network], how a start
    ends for every call that may fail ([start_outcome]), and the runs from there: worker
    threads serve, and once the network has returned [main] stops and joins them one by
    one. *)

From S2P Require Import Prelude Random Query Values Ctx Runtime Chain NewOrder Payment.
From S2P Require Import ReadTxns Tfb Handlers Invariant Entry Lifecycle Serve Schema Queries.
From S2P Require Import Server.

(** ** States *)

(** Before [main]: zeroed statics, nothing open. *)
Record unstarted (s : sstate) : Prop := {
  un_dbs : sv_dbs s = ∅;
  un_blocks : sv_blocks s = ∅;
  un_socks : sv_socks s = ∅;
  un_threads : sv_threads s = None;
  un_main : sv_main s = fdb_global_zero;
  un_thread : sv_thread s = fdb_global_zero;
  un_network : sv_network s = NetDown;
  un_routes : sv_routes s = [];
  un_handler : g_handler_fdb_state (w_globals (sv_world s)) = None;
  un_pc : sv_pc s = MainStarting;
}.

(** The [j]-th thread as created: its loop and database are the ids [b + 2j], [b + 2j + 1]. *)
Definition thread_at (fd : Z) (b j : nat) : thread_ctx_t :=
  let l := (b + 2 * j)%nat in
  mk_thread_ctx fd true (Some l) (Some l) (Some l) (mk_fdb_state (Some (S l)) (Some l) 0 0)
    WCreated 0.

(** [main] blocked in [fdb_run_network] with [n] threads. *)
Record started (n : nat) (port : Z) (s : sstate) : Prop := {
  go_fd : ∃ fd b, 0 <= fd ∧ sv_pc s = MainNetwork fd n ∧
    sv_socks s = {[fd := SockListening (u16 port)]} ∧
    sv_threads s = Some (thread_at fd b <$> seq 0 n) ∧
    sv_dbs s = list_to_set ((λ j, S (b + 2 * j)) <$> seq 0 n);
  go_network : sv_network s = NetSetUp;
  go_global : ∃ blk cf, sv_main s = mk_fdb_global (Some cf) (Some blk) (Z.of_nat n) true ∧
    sv_blocks s = {[blk]};
  go_thread : sv_thread s = fdb_global_zero;
  go_routes : sv_routes s = tfb_routes ++ tpcc_routes;
  go_null : g_fdb_state (w_globals (sv_world s)) = None ∧
    g_handler_fdb_state (w_globals (sv_world s)) = None;
  go_seed : is_Some (g_seed (w_globals (sv_world s)));
}.

(** ** Startup *)

(** The computation ends with a result and state in [Q]. *)
Definition yields {A} (m : SV A) (s : sstate) (Q : A → sstate → Prop) : Prop :=
  ∃ a s', m s = Ok (a, s') ∧ Q a s'.

Lemma yields_bind {A B} (m : SV A) (k : A → SV B) s a s1 Q :
  m s = Ok (a, s1) → yields (k a) s1 Q → yields (m ≫= k) s Q.
Proof. intros Hm (b & s2 & Hk & HQ). exists b, s2. by rewrite M_bind_run, Hm. Qed.

(** One call of known outcome. *)
Ltac ystep tac := eapply yields_bind; [solve [tac] | cbn beta iota].

Section startup.
Context `{HostOk} `{Env} `{RandR}.

Lemma get_thread_Ok i ts t s :
  sv_threads s = Some ts → ts !! i = Some t → get_thread i s = Ok (t, s).
Proof.
  intros Hts Ht. unfold get_thread, gets, lift, mbind, M_bind, outcome_bind. cbn.
  by rewrite Hts; cbn; rewrite Ht.
Qed.

Lemma put_thread_Ok i ts t s :
  sv_threads s = Some ts → put_thread i t s = Ok ((), set_threads (Some (<[i := t]> ts)) s).
Proof. intros Hts. unfold put_thread, modify. by rewrite Hts. Qed.

Lemma fdb_thread_init_Ok g l s :
  fdb_thread_init g (Some l) s =
    Ok ((0, mk_fdb_state (Some (sv_next s)) (Some l) 0 0),
      upd_dbs ({[sv_next s]} ∪.) (bump_id (bump_call s))).
Proof.
  unfold fdb_thread_init, host, get_global, gets, modify, new_id, mbind, M_bind, mret, M_ret.
  pose proof (hdatabase_ok (sv_tick s)) as Hd.
  destruct (host_create_database (sv_tick s)) as [e db]. cbn in Hd. subst e. reflexivity.
Qed.

Lemma host_Ok {A} (f : nat → A) s : host f s = Ok (f (sv_tick s), bump_call s).
Proof. reflexivity. Qed.

Lemma new_id_Ok s : new_id s = Ok (sv_next s, bump_id s).
Proof. reflexivity. Qed.

(** One thread created. *)
Lemma start_thread_Ok fd i ts s :
  sv_threads s = Some ts → ts !! i = Some thread_ctx_zero →
  start_thread fd i s = Ok ((),
    mk_sstate (sv_main s) (sv_thread s) (sv_world s) (sv_network s)
      ({[S (sv_next s)]} ∪ sv_dbs s) (sv_blocks s) (sv_socks s)
      (Some (<[i := mk_thread_ctx fd true (Some (sv_next s)) (Some (sv_next s))
         (Some (sv_next s)) (mk_fdb_state (Some (S (sv_next s))) (Some (sv_next s)) 0 0)
         WCreated 0]> ts))
      (sv_routes s) (sv_pc s) (S (S (sv_next s))) (S (S (sv_tick s)))).
Proof.
  intros Hts Ht. unfold start_thread.
  mstep ltac:(by eapply get_thread_Ok). mstep ltac:(apply new_id_Ok).
  mstep ltac:(by apply put_thread_Ok). mstep ltac:(apply fdb_thread_init_Ok).
  mstep ltac:(by apply put_thread_Ok). mstep ltac:(apply host_Ok).
  rewrite hpthread_ok. cbn [Z.eqb]. erewrite put_thread_Ok by reflexivity. cbn.
  by rewrite !list_insert_insert_eq.
Qed.

(** The loop: threads from [k] on. *)
Lemma start_threads_Ok fd b k m s :
  sv_threads s = Some ((thread_at fd b <$> seq 0 k) ++ replicate m thread_ctx_zero) →
  sv_next s = (b + 2 * k)%nat →
  ∃ nx tk, for_each (seq k m) (start_thread fd) s = Ok ((),
    mk_sstate (sv_main s) (sv_thread s) (sv_world s) (sv_network s)
      (sv_dbs s ∪ list_to_set ((λ j, S (b + 2 * j)) <$> seq k m)) (sv_blocks s) (sv_socks s)
      (Some (thread_at fd b <$> seq 0 (k + m))) (sv_routes s) (sv_pc s) nx tk).
Proof.
  revert k s. induction m as [|m IH]; intros k s Hts Hn.
  - exists (sv_next s), (sv_tick s). cbn. rewrite Nat.add_0_r.
    rewrite app_nil_r in Hts. rewrite union_empty_r_L, <- Hts. by destruct s.
  - cbn [seq for_each].
    assert (((thread_at fd b <$> seq 0 k) ++ replicate (S m) thread_ctx_zero) !! k =
      Some thread_ctx_zero) as Hk.
    { rewrite lookup_app_r; rewrite length_fmap, length_seq; [|done]. by rewrite Nat.sub_diag. }
    rewrite M_bind_run, (start_thread_Ok fd k _ s Hts Hk).
    edestruct (IH (S k)) as (nx & tk & Hrun); [| |exists nx, tk; etrans; [exact Hrun|]].
    + cbn [sv_threads]. rewrite seq_S, fmap_app, insert_app_r_alt;
        rewrite length_fmap, length_seq; [|done]. rewrite Nat.sub_diag, <- app_assoc. cbn.
      by rewrite Hn.
    + cbn. lia.
    + cbn. do 2 f_equal. f_equal.
      * rewrite Hn. set_solver.
      * by replace (k + S m)%nat with (S (k + m)) by lia.
Qed.

(** The adapter's network set up. *)
Lemma fdb_global_init_Ok g cf n s :
  0 <= n <= 2 ^ 16 →
  fdb_global_init g (Some cf) n s = Ok (0, upd_global g (λ _, mk_fdb_global (Some cf)
      (Some (sv_next s)) n true)
    (set_network NetSetUp (bump_call (bump_call (upd_blocks ({[sv_next s]} ∪.)
      (bump_id (bump_call s))))))).
Proof.
  intros Hn. unfold fdb_global_init, host_alloc, host, new_id, gets, modify, mbind, M_bind,
    mret, M_ret.
  destruct g; cbn; rewrite hcalloc_ok by done; cbn; rewrite hselect_ok; cbn;
    by rewrite hsetup_ok.
Qed.

Lemma create_listening_socket_Ok port s :
  ∃ fd, 0 <= fd ∧ create_listening_socket port s = Ok (fd,
    upd_socks (<[fd := SockListening (u16 port)]>)
      (bump_call (bump_call (bump_call s)))).
Proof.
  exists (host_socket (sv_tick s)). pose proof (hsocket_ok (sv_tick s)) as Hfd. split; [done|].
  unfold create_listening_socket. mstep ltac:(apply host_Ok).
  rewrite (proj2 (Z.ltb_ge _ _) Hfd). mstep ltac:(reflexivity). mstep ltac:(apply host_Ok).
  rewrite hbind_ok. cbn [Z.ltb Z.compare]. mstep ltac:(reflexivity). mstep ltac:(apply host_Ok).
  rewrite hlisten_ok. cbn. unfold upd_socks, bump_call, modify, mbind, M_bind, mret, M_ret. cbn.
  by rewrite !insert_insert_eq.
Qed.

(** What the handlers' initialization leaves in their statics. *)
Lemma initialize_tfb_Ok seed s :
  on_world (initialize_tfb_handlers None seed) s =
    Ok (tfb_routes, upd_world (λ w, upd_globals (initialize_tfb_globals None seed) w) s).
Proof. reflexivity. Qed.

Lemma initialize_tpcc_Ok s :
  on_world initialize_tpcc_handlers s = Ok (tpcc_routes,
    upd_world (λ w, upd_globals (g_set_handler_seed (u32 (env_time (w_tick w)))) (bump_tick w)) s).
Proof. reflexivity. Qed.

Lemma initialize_tfb_null seed g :
  g_fdb_state (initialize_tfb_globals None seed g) = None ∧
  g_handler_fdb_state (initialize_tfb_globals None seed g) = g_handler_fdb_state g ∧
  g_seed (initialize_tfb_globals None seed g) = seed.
Proof. unfold initialize_tfb_globals. by destruct (g_world_cache_loaded g). Qed.

Lemma main_start_started args config port s :
  unstarted s → parse_options (getopt args) default_config DEFAULT_PORT = Ok (inr (config, port)) →
  0 <= worker_count config <= 2 ^ 16 →
  yields (main_start args) s (λ _, started (Z.to_nat (worker_count config)) port).
Proof.
  intros [E1 E2 E3 E4 E5 E6 E7 E8 E9 _] Hargs Hn. unfold main_start.
  ystep ltac:(by apply lift_eq). cbn iota.
  ystep ltac:(by apply fdb_global_init_Ok). cbn [Z.eqb negb].
  ystep ltac:(reflexivity). ystep ltac:(apply initialize_tfb_Ok). ystep ltac:(reflexivity).
  ystep ltac:(apply initialize_tpcc_Ok). ystep ltac:(reflexivity).
  match goal with |- yields _ ?x _ => set (s1 := x) end.
  destruct (create_listening_socket_Ok port s1) as (fd & Hfd & Hsock).
  ystep ltac:(exact Hsock). rewrite (proj2 (Z.ltb_ge _ _) Hfd). ystep ltac:(apply host_Ok).
  rewrite hcalloc_ok by done. cbn [negb]. ystep ltac:(reflexivity).
  match goal with |- yields _ ?x _ => set (s2 := x) end.
  set (n := Z.to_nat (worker_count config)).
  destruct (start_threads_Ok fd (sv_next s2) 0 n s2) as (nx & tk & Hloop); [done|lia|].
  ystep ltac:(exact Hloop). eexists _, _. split; [reflexivity|].
  cbn in E9. destruct (initialize_tfb_null (Some (u32 (env_time (w_tick (sv_world s)))))
    (w_globals (sv_world s))) as (F1 & F2 & F3).
  split; cbn.
  - exists fd, (sv_next s2). cbn. rewrite E1, E3. split_and!; try done.
    by rewrite union_empty_l_L.
  - done.
  - eexists _, _. split; [|by rewrite E2, union_empty_r_L]. do 2 f_equal. unfold n. lia.
  - done.
  - by rewrite E8.
  - by rewrite F1, F2, E9.
  - by rewrite F3.
Qed.
End startup.

(** ** Runs *)

(** The thread [j] when [k] threads have been joined ([stop]: the flag of the [k]-th is
    cleared); [b] is the first of the threads' ids. *)
Definition thread_ok (b k : nat) (stop : bool) (j : nat) (t : thread_ctx_t) : Prop :=
  st_db (tc_fdb_state t) = Some (S (b + 2 * j)) ∧ is_Some (tc_accept t) ∧ is_Some (tc_loop t) ∧
  if (j <? k)%nat then tc_worker t = WJoined ∧ tc_h2o t = None
  else is_Some (tc_h2o t) ∧ tc_running t = negb (stop && (j =? k)%nat) ∧
    (tc_worker t = WCreated ∨ tc_worker t = WListening ∨
     (tc_worker t = WReturned ∧ tc_running t = false)).

(** The parts of the state no event changes while threads are left. *)
Record fixed (n : nat) (blk : nat) (s : sstate) : Prop := {
  fx_blocks : sv_blocks s = {[blk]};
  fx_main : fg_thread_states (sv_main s) = Some blk ∧ fg_network_started (sv_main s) = true;
  fx_thread : sv_thread s = fdb_global_zero;
  fx_null : g_fdb_state (w_globals (sv_world s)) = None ∧
    g_handler_fdb_state (w_globals (sv_world s)) = None;
  fx_seed : is_Some (g_seed (w_globals (sv_world s)));
}.

Record serving (b : nat) (fd : Z) (n : nat) (port : Z) (blk k : nat) (stop : bool) (s : sstate)
    : Prop := {
  sg_fixed : fixed n blk s;
  sg_threads : ∃ ts, sv_threads s = Some ts ∧ length ts = n ∧
    ∀ j t, ts !! j = Some t → thread_ok b k stop j t;
  sg_dbs : sv_dbs s = list_to_set ((λ j, S (b + 2 * j)) <$> seq k (n - k));
  sg_socks : sv_socks s = {[fd := SockListening (u16 port)]};
}.

Record finished (n blk : nat) (s : sstate) : Prop := {
  fin_fixed : fixed n blk s;
  fin_threads : sv_threads s = None;
  fin_dbs : sv_dbs s = ∅;
  fin_socks : sv_socks s = ∅;
  fin_network : sv_network s = NetReturned;
}.

Inductive process_ok (b : nat) (fd : Z) (n : nat) (port : Z) (blk : nat) (s : sstate) : Prop :=
  | pk_network : sv_pc s = MainNetwork fd n → sv_network s = NetSetUp →
      serving b fd n port blk 0 false s → process_ok b fd n port blk s
  | pk_joining k : sv_pc s = MainJoining fd n k → sv_network s = NetReturned → (k < n)%nat →
      serving b fd n port blk k true s → process_ok b fd n port blk s
  | pk_finished : sv_pc s = MainReturned 0 → finished n blk s → process_ok b fd n port blk s.

Section runs.
Context `{Host} `{Env} `{RandR}.

Lemma started_ok n port s :
  started n port s → ∃ b fd blk, process_ok b fd n port blk s.
Proof.
  intros [(fd & b & Hfd & Hpc & Hso & Hts & Hdb) Hnet (blk & cf & Hm & Hb) Hth _ Hnull Hseed].
  exists b, fd, blk. apply pk_network; [done|done|]. split; [|eexists|by rewrite Nat.sub_0_r|done].
  - split; try done. by rewrite Hm.
  - rewrite Hts. split; [done|]. rewrite length_fmap, length_seq. split; [done|].
    intros j t (i & -> & Hi)%list_lookup_fmap_Some. apply lookup_seq in Hi as [-> Hi].
    unfold thread_ok, thread_at. cbn. split_and!; try done; try by eexists. by left.
Qed.

(** A thread's own step. *)
Lemma serving_put b fd n port blk k stop s ts i t :
  serving b fd n port blk k stop s → sv_threads s = Some ts → thread_ok b k stop i t →
  serving b fd n port blk k stop (set_threads (Some (<[i := t]> ts)) s).
Proof.
  intros [Hf (ts' & E & Hlen & Hall) Hd Hs] Hts Ht. split; [by destruct Hf|..]; try done.
  rewrite E in Hts. injection Hts as ->. eexists. split; [done|].
  rewrite length_insert. split; [done|]. intros j t' Hj.
  apply list_lookup_insert_Some in Hj as [(<- & <- & _)|[_ Hj]]; [done|by apply Hall].
Qed.

Lemma worker_at_Some s i pc :
  worker_at s i = pc → pc ≠ WNone →
  ∃ ts t, sv_threads s = Some ts ∧ ts !! i = Some t ∧ tc_worker t = pc.
Proof.
  unfold worker_at. intros E Hne. destruct (sv_threads s) as [ts|]; [|congruence].
  destruct (ts !! i) as [t|] eqn:Ht; [|congruence]. by exists ts, t.
Qed.

Lemma thread_ok_worker b k stop i t pc :
  thread_ok b k stop i t → tc_worker t = pc → pc ≠ WJoined → (k <= i)%nat ∧
  is_Some (tc_h2o t) ∧ is_Some (tc_accept t) ∧ is_Some (tc_loop t).
Proof.
  intros (_ & Ha & Hl & Hc) Hpc Hne. destruct (Nat.ltb_spec i k); [by destruct Hc; congruence|].
  by destruct Hc as [? _].
Qed.

(** [shutdown_from] once [k] threads are joined. *)
Lemma shutdown_from_ok b fd n port blk k s :
  serving b fd n port blk k false s → (k <= n)%nat → sv_network s = NetReturned →
  ∃ s', shutdown_from fd n k s = Ok ((), s') ∧
    sv_pc s' = (if (k <? n)%nat then MainJoining fd n k else MainReturned 0) ∧
    process_ok b fd n port blk s'.
Proof.
  intros Hsg Hk Hnet. pose proof Hsg as [Hf (ts & Hts & Hlen & Hall) Hd Hs].
  unfold shutdown_from. destruct (Nat.ltb_spec k n) as [Hlt|Hge].
  - destruct (lookup_lt_is_Some_2 ts k) as [t Ht]; [lia|].
    rewrite (M_bind_Ok _ _ _ _ _ (get_thread_Ok k ts t s Hts Ht)).
    rewrite (M_bind_Ok _ _ _ _ _ (put_thread_Ok k ts _ s Hts)).
    eexists. split; [reflexivity|]. split; [done|].
    apply (pk_joining _ _ _ _ _ _ k); [done|done|done|].
    split; [by destruct Hf| |done|done]. eexists. split; [done|].
    rewrite length_insert. split; [done|]. intros j t' Hj.
    apply list_lookup_insert_Some in Hj as [(<- & <- & _)|[Hne Hj]].
    + destruct (Hall _ _ Ht) as (E1 & E2 & E3 & E4). rewrite Nat.ltb_irrefl in E4.
      destruct E4 as (E4 & E5 & E6). unfold thread_ok. cbn -[Nat.ltb Nat.eqb].
      rewrite Nat.ltb_irrefl, Nat.eqb_refl. naive_solver.
    + destruct (Hall _ _ Hj) as (E1 & E2 & E3 & E4). split_and!; try done.
      destruct (j <? k)%nat; [done|]. destruct E4 as (E4 & E5 & E6).
      by rewrite (proj2 (Nat.eqb_neq j k)) by done.
  - assert (k = n) as -> by lia. unfold close, cleanup_tpcc_handlers, cleanup_fdb_global, fdb_global_cleanup.
    pose proof Hf as [F1 F2 F3 F4 F5].
    unfold modify, get_global, gets, mbind, M_bind, mret, M_ret. cbn. rewrite F3. cbn.
    eexists. split; [reflexivity|]. split; [done|]. apply pk_finished; [done|].
    split; cbn; try done; [by rewrite Hd, Nat.sub_diag|].
    rewrite Hs. apply delete_singleton_eq.
Qed.

Lemma dbs_next b n k :
  (k < n)%nat →
  S (b + 2 * k) ∈ (list_to_set ((λ j, S (b + 2 * j)) <$> seq k (n - k)) : gset nat) ∧
  (list_to_set ((λ j, S (b + 2 * j)) <$> seq k (n - k)) : gset nat) ∖ {[S (b + 2 * k)]} =
    list_to_set ((λ j, S (b + 2 * j)) <$> seq (S k) (n - S k)).
Proof.
  intros Hk. replace (n - k)%nat with (S (n - S k)) by lia. cbn [seq fmap list_fmap list_to_set].
  split; [set_solver|]. apply set_eq. intros x.
  assert (S (b + 2 * k) ∉ (λ j, S (b + 2 * j)) <$> seq (S k) (n - S k)) as Hne.
  { rewrite list_elem_of_fmap. intros (j & E & Hj%elem_of_seq). lia. }
  rewrite elem_of_difference, elem_of_union, elem_of_singleton, elem_of_list_to_set. set_solver.
Qed.

Lemma join_ok b fd n port blk k s :
  serving b fd n port blk k true s → sv_pc s = MainJoining fd n k → (k < n)%nat →
  sv_network s = NetReturned → server_enabled s SvJoin = true →
  ∃ s', server_step SvJoin s = Ok ((), s') ∧
    sv_pc s' = (if (S k <? n)%nat then MainJoining fd n (S k) else MainReturned 0) ∧
    process_ok b fd n port blk s'.
Proof.
  intros Hsg Hpc Hk Hnet Hen. pose proof Hsg as [Hf (ts & Hts & Hlen & Hall) Hd Hs].
  destruct (lookup_lt_is_Some_2 ts k) as [t Ht]; [lia|].
  destruct (Hall _ _ Ht) as (E1 & E2 & E3 & E4). rewrite Nat.ltb_irrefl in E4.
  destruct E4 as ([l E4] & E5 & E6).
  cbn [server_enabled] in Hen. unfold worker_at in Hen. rewrite Hpc, Hts, Ht in Hen.
  destruct (dbs_next b n k Hk) as [Hin Hnext]. rewrite <- Hd in Hin, Hnext.
  cbn [server_step]. rewrite (M_bind_Ok (gets sv_pc) _ s (MainJoining fd n k) s)
    by (unfold gets; by rewrite Hpc).
  rewrite (M_bind_Ok _ _ _ _ _ (get_thread_Ok k ts t s Hts Ht)).
  rewrite (M_bind_Ok _ _ _ () s) by (by destruct (tc_worker t); naive_solver).
  unfold joined_thread. rewrite !M_bind_run, (get_thread_Ok k ts t s Hts Ht), M_bind_run.
  change (tc_h2o (tc_set_worker (joined_pc (tc_worker t)) t)) with (tc_h2o t).
  rewrite E4. cbn [from_option_or lift]. rewrite M_bind_run, (put_thread_Ok k ts _ s Hts).
  unfold fdb_thread_cleanup. cbn [tc_fdb_state tc_set_worker].
  rewrite E1, M_bind_run. cbn [gets sv_dbs set_threads].
  rewrite decide_True by done. apply shutdown_from_ok; [|lia|done].
  split; [by destruct Hf| |done|done]. eexists. split; [done|].
  rewrite length_insert. split; [done|]. intros j t' Hj.
  apply list_lookup_insert_Some in Hj as [(<- & <- & _)|[Hne Hj]].
  - unfold thread_ok. cbn -[Nat.ltb]. rewrite (proj2 (Nat.ltb_lt k (S k))) by lia.
    split_and!; try done. destruct (tc_worker t); naive_solver.
  - destruct (Hall _ _ Hj) as (F1 & F2 & F3 & F4). split_and!; try done.
    destruct (Nat.ltb_spec j k), (Nat.ltb_spec j (S k)); try lia; [done|].
    destruct F4 as (F4 & F5 & F6). rewrite (proj2 (Nat.eqb_neq j k)) in F5 by lia.
    by split_and!.
Qed.

Lemma use_h2o_Ok i ts t s :
  sv_threads s = Some ts → ts !! i = Some t → is_Some (tc_h2o t) → use_h2o i s = Ok ((), s).
Proof.
  intros Hts Ht [h Hh]. unfold use_h2o.
  rewrite (M_bind_Ok _ _ _ _ _ (get_thread_Ok i ts t s Hts Ht)). by rewrite Hh.
Qed.

(** A listening thread has its h2o context. *)
Lemma listening_h2o b fd n port blk k stop s i ep path :
  serving b fd n port blk k stop s → worker_at s i = WListening →
  server_step (SvRequest i ep path) s = on_world (step (EvRequest ep path)) s.
Proof.
  intros [_ (ts & Hts & _ & Hall) _ _] Hw.
  destruct (worker_at_Some s i _ Hw) as (ts' & t & Hts' & Ht & Hpc); [done|].
  rewrite Hts in Hts'. injection Hts' as <-.
  destruct (thread_ok_worker _ _ _ _ _ _ (Hall _ _ Ht) Hpc) as (_ & Hh & _); [done|].
  cbn [server_step]. by rewrite (M_bind_Ok _ _ _ _ _ (use_h2o_Ok i ts t s Hts Ht Hh)).
Qed.

Lemma request_listening s i ep path :
  server_enabled s (SvRequest i ep path) = true → worker_at s i = WListening.
Proof. cbn. by destruct (worker_at s i). Qed.

(** The step of a worker thread. *)
Lemma worker_ok b fd n port blk k stop s i ev :
  serving b fd n port blk k stop s → server_enabled s ev = true →
  (ev = SvBegin i ∨ ∃ err conns, ev = SvRound i err conns) →
  ∃ ts t, server_step ev s = Ok ((), set_threads (Some (<[i := t]> ts)) s) ∧
    sv_threads s = Some ts ∧ thread_ok b k stop i t.
Proof.
  intros Hsg Hen Hev. pose proof Hsg as [Hf (ts & Hts & Hlen & Hall) Hd Hs].
  assert (∃ t, ts !! i = Some t ∧ (tc_worker t = WCreated ∧ ev = SvBegin i ∨
    tc_worker t = WListening ∧ ∃ err conns, ev = SvRound i err conns)) as (t & Ht & Hc).
  { destruct Hev as [->|(err & conns & ->)]; cbn in Hen; unfold worker_at in Hen;
      rewrite Hts in Hen; destruct (ts !! i) as [t|] eqn:Ht; try done; exists t;
      (split; [done|]); destruct (tc_worker t); naive_solver. }
  pose proof (Hall _ _ Ht) as Hok.
  destruct (thread_ok_worker _ _ _ _ _ _ Hok eq_refl) as (Hi & _ & [a Ha] & [l Hl]);
    [by destruct Hc as [[-> _]|[-> _]]|].
  destruct Hok as (E1 & E2 & E3 & E4). rewrite (proj2 (Nat.ltb_ge i k)) in E4 by done.
  destruct E4 as (E4 & E5 & E6). exists ts.
  destruct Hc as [[Hw ->]|[Hw (err & conns & ->)]]; cbn [server_step].
  - exists (tc_set_worker WListening t). split; [|split; [done|]].
    + unfold worker_begin. rewrite (M_bind_Ok _ _ _ _ _ (get_thread_Ok i ts t s Hts Ht)).
      rewrite Hl. by apply put_thread_Ok.
    + unfold thread_ok. cbn -[Nat.ltb Nat.eqb]. rewrite (proj2 (Nat.ltb_ge i k)) by done.
      split_and!; try done. by right; left.
  - unfold worker_round. rewrite (M_bind_Ok _ _ _ _ _ (get_thread_Ok i ts t s Hts Ht)).
    destruct (tc_running t) eqn:Hr.
    + unfold on_accept. rewrite (M_bind_Ok _ _ _ _ _ (get_thread_Ok i ts t s Hts Ht)).
      destruct (err || (conns =? 0)%nat) eqn:Hq.
      * exists t. split; [|by unfold thread_ok; rewrite (proj2 (Nat.ltb_ge i k)), Hr by done].
        rewrite list_insert_id, <- Hts by done.
        destruct err, conns; try done; by destruct s.
      * exists (tc_accept_more conns t). destruct err, conns as [|c]; try done. split.
        { rewrite Ha. mstep ltac:(reflexivity).
          rewrite (M_bind_Ok _ _ _ _ _ (use_h2o_Ok i ts t s Hts Ht E4)).
          by apply put_thread_Ok. }
        unfold thread_ok. cbn -[Nat.ltb Nat.eqb]. by rewrite (proj2 (Nat.ltb_ge i k)), Hr by done.
    + exists (tc_set_worker WReturned t). split; [|split; [done|]].
      * by apply put_thread_Ok.
      * unfold thread_ok. cbn -[Nat.ltb Nat.eqb]. rewrite (proj2 (Nat.ltb_ge i k)), Hr by done.
        split_and!; try done. by right; right.
Qed.

Lemma serving_threads b fd n port blk k stop s ts i t :
  serving b fd n port blk k stop s → sv_threads s = Some ts → thread_ok b k stop i t →
  sv_pc (set_threads (Some (<[i := t]> ts)) s) = sv_pc s ∧
  sv_network (set_threads (Some (<[i := t]> ts)) s) = sv_network s ∧
  serving b fd n port blk k stop (set_threads (Some (<[i := t]> ts)) s).
Proof. intros. split_and!; try done. by apply serving_put. Qed.

Lemma fixed_request n blk s w ep path :
  fixed n blk s → step (EvRequest ep path) (sv_world s) = Ok ((), w) →
  fixed n blk (upd_world (λ _, w) s).
Proof.
  intros [F1 F2 F3 [F4 F5] F6] Hstep. destruct (keeps_request ep path _ _ _ Hstep).
  split; cbn; try done; [|naive_solver]. split; congruence.
Qed.

Lemma finished_quiet s ev :
  sv_threads s = None → sv_pc s = MainReturned 0 → server_enabled s ev = true → False.
Proof. intros Hts Hpc. destruct ev; cbn; unfold worker_at; by rewrite ?Hts, ?Hpc. Qed.

(** Every event keeps the process in order; only a request can go wrong. *)
Lemma process_step b fd n port blk s ev :
  process_ok b fd n port blk s → server_enabled s ev = true →
  match server_step ev s with
  | Ok (_, s') => process_ok b fd n port blk s'
  | Ub u => ∃ i ep path, ev = SvRequest i ep path ∧ step (EvRequest ep path) (sv_world s) = Ub u
  end.
Proof.
  intros Hok Hen. destruct Hok as [Hpc Hnet Hsg|k Hpc Hnet Hk Hsg|Hpc Hfin].
  - destruct ev as [i|i err conns|i ep path| |].
    1,2: destruct (worker_ok _ _ _ _ _ _ _ _ i _ Hsg Hen) as (ts & t & -> & Hts & Ht);
      [eauto|]; by apply pk_network; [..|apply serving_put].
    + rewrite (listening_h2o _ _ _ _ _ _ _ s i ep path Hsg (request_listening _ _ _ _ Hen)).
      unfold on_world.
      destruct (step (EvRequest ep path) (sv_world s)) as [[[] w]|u] eqn:E; [|by exists i, ep, path].
      apply pk_network; [done|done|]. destruct Hsg as [Hf Ht Hd Hs].
      split; try done. by eapply fixed_request.
    + cbn [server_step]. rewrite (M_bind_Ok (gets sv_pc) _ s (MainNetwork fd n) s)
        by (unfold gets; by rewrite Hpc).
      rewrite (M_bind_Ok (host host_run_network) _ s _ (bump_call s) eq_refl).
      rewrite (M_bind_Ok (modify (set_network NetReturned)) _ _ () _ eq_refl).
      destruct (shutdown_from_ok b fd n port blk 0 (set_network NetReturned (bump_call s)))
        as (s' & Hrun & _ & Hok'); [|lia|done|].
      { destruct Hsg as [[] Ht Hd Hs]. by split; [split|..]. }
      by rewrite Hrun.
    + cbn in Hen. by rewrite Hpc in Hen.
  - destruct ev as [i|i err conns|i ep path| |].
    1,2: destruct (worker_ok _ _ _ _ _ _ _ _ i _ Hsg Hen) as (ts & t & -> & Hts & Ht);
      [eauto|]; by eapply pk_joining; [..|apply serving_put].
    + rewrite (listening_h2o _ _ _ _ _ _ _ s i ep path Hsg (request_listening _ _ _ _ Hen)).
      unfold on_world.
      destruct (step (EvRequest ep path) (sv_world s)) as [[[] w]|u] eqn:E; [|by exists i, ep, path].
      eapply pk_joining; [done|done|done|]. destruct Hsg as [Hf Ht Hd Hs].
      split; try done. by eapply fixed_request.
    + cbn in Hen. by rewrite Hpc in Hen.
    + destruct (join_ok b fd n port blk k s Hsg Hpc Hk Hnet Hen) as (s' & -> & _ & ?). done.
  - exfalso. by eapply finished_quiet; [apply (fin_threads _ _ _ Hfin)|..].
Qed.

Lemma process_reach b fd n port blk s0 s :
  process_ok b fd n port blk s0 → sreach s0 s → process_ok b fd n port blk s.
Proof.
  intros Hok. induction 1 as [|s ev s' _ IH Hen Hstep]; [done|].
  pose proof (process_step b fd n port blk s ev IH Hen) as Hs. by rewrite Hstep in Hs.
Qed.

Lemma disposed_joined b fd n port blk s ts i t :
  process_ok b fd n port blk s → sv_threads s = Some ts → ts !! i = Some t →
  tc_h2o t = None → tc_worker t = WJoined.
Proof.
  assert (∀ k stop, serving b fd n port blk k stop s → sv_threads s = Some ts →
    ts !! i = Some t → tc_h2o t = None → tc_worker t = WJoined) as Hsv.
  { intros k stop [_ (ts' & E & _ & Hall) _ _] Hts Ht Hh. rewrite E in Hts.
    injection Hts as ->. destruct (Hall _ _ Ht) as (_ & _ & _ & Hc).
    destruct (i <? k)%nat; [by destruct Hc|]. destruct Hc as [[h E1] _]. congruence. }
  intros [_ _ Hsg|k _ _ _ Hsg|_ [_ E]] Hts; [by eapply Hsv..|congruence].
Qed.

(** The thread being joined, moved on by its own steps. *)
Lemma thread_ok_moved b k t pc :
  thread_ok b k true k t → pc = WListening ∨ pc = WReturned →
  thread_ok b k true k (tc_set_worker pc t).
Proof.
  intros (E1 & E2 & E3 & E4) Hpc. unfold thread_ok. cbn -[Nat.ltb Nat.eqb].
  rewrite Nat.ltb_irrefl, Nat.eqb_refl in *. naive_solver.
Qed.

Lemma worker_returned b fd n port blk k s ts t :
  serving b fd n port blk k true s → sv_threads s = Some ts → ts !! k = Some t →
  tc_worker t = WListening →
  ∃ s', sreach s s' ∧ sv_pc s' = sv_pc s ∧ sv_network s' = sv_network s ∧
    serving b fd n port blk k true s' ∧ worker_at s' k = WReturned.
Proof.
  intros Hsg Hts Ht Hw. pose proof Hsg as [_ (ts' & E & _ & Hall) _ _].
  rewrite Hts in E. injection E as <-. pose proof (Hall _ _ Ht) as Hok.
  exists (set_threads (Some (<[k := tc_set_worker WReturned t]> ts)) s). split_and!; try done.
  - eapply (sreach_step _ s (SvRound k true 0)); [apply sreach_refl| |].
    + cbn. unfold worker_at. by rewrite Hts, Ht, Hw.
    + cbn [server_step]. unfold worker_round.
      rewrite (M_bind_Ok _ _ _ _ _ (get_thread_Ok k ts t s Hts Ht)).
      destruct Hok as (_ & _ & _ & Hc). rewrite Nat.ltb_irrefl, Nat.eqb_refl in Hc.
      destruct Hc as (_ & -> & _). by apply put_thread_Ok.
  - apply serving_put; [done|done|]. apply thread_ok_moved; auto.
  - unfold worker_at. cbn. rewrite list_lookup_insert_eq; [done|].
    by eapply lookup_lt_Some.
Qed.

Lemma sreach_trans s1 s2 s3 : sreach s1 s2 → sreach s2 s3 → sreach s1 s3.
Proof. intros H12. induction 1; [done|]. by eapply sreach_step. Qed.

(** The thread whose flag is cleared returns, so its join does. *)
Lemma worker_returns b fd n port blk k s :
  serving b fd n port blk k true s → (k < n)%nat → sv_pc s = MainJoining fd n k →
  ∃ s', sreach s s' ∧ sv_pc s' = sv_pc s ∧ sv_network s' = sv_network s ∧
    serving b fd n port blk k true s' ∧ server_enabled s' SvJoin = true.
Proof.
  intros Hsg Hk Hpc. pose proof Hsg as [_ (ts & Hts & Hlen & Hall) _ _].
  assert (∀ s', sv_pc s' = sv_pc s → worker_at s' k = WReturned →
    server_enabled s' SvJoin = true) as Hen by (intros s' E1 E2; cbn; by rewrite E1, Hpc, E2).
  destruct (lookup_lt_is_Some_2 ts k) as [t Ht]; [lia|].
  pose proof (Hall _ _ Ht) as Hok. pose proof Hok as (_ & _ & [l Hl] & Hc).
  rewrite Nat.ltb_irrefl in Hc. destruct Hc as (_ & _ & [Hw|[Hw|[Hw _]]]).
  - set (s1 := set_threads (Some (<[k := tc_set_worker WListening t]> ts)) s).
    assert (sreach s s1) as Hr.
    { eapply (sreach_step _ s (SvBegin k)); [apply sreach_refl| |].
      - cbn. unfold worker_at. by rewrite Hts, Ht, Hw.
      - cbn [server_step]. unfold worker_begin.
        rewrite (M_bind_Ok _ _ _ _ _ (get_thread_Ok k ts t s Hts Ht)). rewrite Hl.
        by apply put_thread_Ok. }
    assert (serving b fd n port blk k true s1) as Hsg1
      by (apply serving_put; [done|done|]; apply thread_ok_moved; auto).
    destruct (worker_returned b fd n port blk k s1 (<[k := tc_set_worker WListening t]> ts)
      (tc_set_worker WListening t)) as (s2 & Hr2 & E1 & E2 & Hsg2 & Hw2); try done.
    { apply list_lookup_insert_eq. by eapply lookup_lt_Some. }
    exists s2. split; [by eapply sreach_trans|]. split_and!; try done. by apply Hen.
  - destruct (worker_returned b fd n port blk k s ts t) as (s2 & Hr2 & E1 & E2 & Hsg2 & Hw2);
      try done. exists s2. split_and!; try done. by apply Hen.
  - exists s. split; [apply sreach_refl|]. split_and!; try done. apply Hen; [done|].
    unfold worker_at. by rewrite Hts, Ht.
Qed.

(** The joins from the [k]-th on. *)
Lemma shutdown_run b fd n port blk m k s :
  (n - k)%nat = m → (k < n)%nat → sv_pc s = MainJoining fd n k → sv_network s = NetReturned →
  serving b fd n port blk k true s →
  ∃ s', sreach s s' ∧ sv_pc s' = MainReturned 0.
Proof.
  revert k s. induction m as [|m IH]; intros k s Hm Hk Hpc Hnet Hsg; [lia|].
  destruct (worker_returns b fd n port blk k s Hsg Hk Hpc) as (s1 & Hr1 & Hpc1 & Hnet1 & Hsg1 & Hen1).
  rewrite Hpc in Hpc1. rewrite Hnet in Hnet1.
  destruct (join_ok b fd n port blk k s1 Hsg1 Hpc1 Hk Hnet1 Hen1) as (s2 & Hstep & Hpc2 & Hok2).
  assert (sreach s s2) as Hr2 by (by eapply sreach_step).
  destruct (Nat.ltb_spec (S k) n) as [Hlt|Hge]; [|by exists s2].
  destruct Hok2 as [E|k2 E Hnet2 Hk2 Hsg2|E]; rewrite Hpc2 in E; try done. injection E as <-.
  destruct (IH (S k) s2) as (s3 & Hr3 & Hpc3); [lia|done|done|done|done|].
  exists s3. split; [by eapply sreach_trans|done].
Qed.
End runs.

(** ** Failing starts *)

(** *** The command line *)

(** The letters of the option string that take an argument and end nothing. *)
Definition known_options : list Z := [97; 99; 119; 112].
Definition options_ok (opts : list (Z * list Z)) : Prop := Forall (λ r, r.1 ∈ known_options) opts.

(** The argument that counts: the last one given for the letter. *)
Definition last_arg (o : Z) (opts : list (Z * list Z)) : option (list Z) :=
  last (filter (λ r, r.1 = o) opts).*2.

(** [z] is the number in [arg], converted, or [d] when there is none. *)
Definition numeric (conv : Z → Z) (arg : option (list Z)) (d z : Z) : Prop :=
  match arg with
  | None => z = d
  | Some a => ∃ v, atoi_arg a = Ok v ∧ z = conv v
  end.

Record configured_from (config0 : config_t) (port0 : Z) (opts : list (Z * list Z))
    (config : config_t) (port : Z) : Prop := {
  cf_cluster : fdb_cluster_file config = default (fdb_cluster_file config0) (last_arg 99 opts);
  cf_warehouses : numeric u64 (last_arg 119 opts) (warehouses config0) (warehouses config);
  cf_workers : numeric u64 (last_arg 97 opts) (worker_count config0) (worker_count config);
  cf_port : numeric id (last_arg 112 opts) port0 port;
}.

(** What [args] ask for: /etc/foundationdb/fdb.cluster, one warehouse, one thread and port
    8080 where they name no other. *)
Definition configured (args : list (list Z)) (config : config_t) (port : Z) : Prop :=
  options_ok (getopt args) ∧
  configured_from (mk_config (bytes_of_string "/etc/foundationdb/fdb.cluster") 1 1) 8080
    (getopt args) config port.

Lemma last_arg_cons o r opts :
  last_arg o (r :: opts) =
    match last_arg o opts with
    | Some a => Some a
    | None => if decide (r.1 = o) then Some r.2 else None
    end.
Proof.
  unfold last_arg. rewrite filter_cons. destruct (decide (r.1 = o)).
  - cbn [fmap list_fmap]. by rewrite last_cons.
  - by destruct (last _).
Qed.

Lemma numeric_cons conv o r opts d z v :
  atoi_arg r.2 = Ok v →
  numeric conv (last_arg o opts) (if decide (r.1 = o) then conv v else d) z →
  numeric conv (last_arg o (r :: opts)) d z.
Proof.
  intros Hv. rewrite last_arg_cons. destruct (last_arg o opts); [done|].
  destruct (decide (r.1 = o)); cbn; eauto.
Qed.

Lemma parse_configured opts config port :
  options_ok opts →
  ∃ c p, parse_options opts config port = Ok (inr (c, p)) ∧ configured_from config port opts c p.
Proof.
  intros Hok. revert config port. induction Hok as [|[o arg] opts Ho _ IH]; intros config port.
  - exists config, port. done.
  - destruct (atoi_str_Ok arg) as [v Hv]. cbn in Ho. unfold known_options in Ho.
    assert (o = 97 ∨ o = 99 ∨ o = 119 ∨ o = 112) as Hc by set_solver. clear Ho.
    destruct Hc as [->|[->|[->| ->]]]; cbn [parse_options Z.eqb Pos.eqb];
      change (atoi (arg ++ [0])) with (atoi_arg arg) in Hv; rewrite ?Hv; cbn [mbind outcome_bind].
    all: match goal with |- ∃ c p, parse_options _ ?cf ?pt = _ ∧ _ =>
      destruct (IH cf pt) as (c & p & Hp & [F1 F2 F3 F4]) end.
    all: exists c, p; split; [exact Hp|]; split.
    all: try (eapply numeric_cons; [exact Hv|]; cbn; done).
    all: rewrite F1, last_arg_cons; cbn; by destruct (last_arg 99 opts).
Qed.

Lemma parse_usage pre o arg post config port :
  options_ok pre → o ∉ known_options →
  parse_options (pre ++ (o, arg) :: post) config port =
    Ok (inl (if decide (o = 104) then 0 else 1)).
Proof.
  intros Hok Ho. revert config port. induction Hok as [|[o' arg'] pre Ho' _ IH]; intros config port.
  - unfold known_options in Ho. cbn [app parse_options].
    rewrite !(proj2 (Z.eqb_neq o _)) by set_solver.
    destruct (Z.eqb_spec o 104); [by rewrite decide_True|by rewrite decide_False].
  - cbn [app parse_options]. unfold atoi_arg. destruct (atoi_str_Ok arg') as [v ->].
    cbn. cbn in Ho'. unfold known_options in Ho'.
    assert (o' = 97 ∨ o' = 99 ∨ o' = 119 ∨ o' = 112) as Hc by set_solver.
    destruct Hc as [->|[->|[->| ->]]]; cbn; apply IH.
Qed.

(** Either every result is an option with its argument, or there is a first other one. *)
Lemma options_split opts :
  options_ok opts ∨
  ∃ pre o arg post, opts = pre ++ (o, arg) :: post ∧ options_ok pre ∧ o ∉ known_options.
Proof.
  induction opts as [|[o arg] opts IH]; [by left; constructor|].
  destruct (decide (o ∈ known_options)) as [Ho|Ho].
  - destruct IH as [Hok|(pre & o' & arg' & post & -> & Hok & Ho')]; [by left; constructor|].
    right. exists ((o, arg) :: pre), o', arg', post. split_and!; try done. by constructor.
  - right. exists [], o, arg, opts. split_and!; try done. by constructor.
Qed.

(** *** The calls *)

(** Nothing of the server is left. *)
Record nothing_open (s : sstate) : Prop := {
  no_dbs : sv_dbs s = ∅;
  no_socks : sv_socks s = ∅;
  no_threads : sv_threads s = None;
  no_stop : sv_network s ≠ NetStopped;
}.

Section failing.
Context `{Host} `{Env} `{RandR}.

(** The calls of a start, by their numbers after [t], the first one: [calloc] of the thread
    states, [fdb_select_api_version], [fdb_setup_network], [socket], [bind], [listen],
    [calloc] of the threads, then [fdb_create_database] and [pthread_create] in turn. *)
Definition network_fails (t : nat) : Prop :=
  host_select_api (t + 1) ≠ 0 ∨ host_setup_network (t + 2) ≠ 0.
Definition socket_fails (t : nat) : Prop :=
  host_socket (t + 3) < 0 ∨ host_bind (t + 4) < 0 ∨ host_listen (t + 5) < 0.

Lemma wp_host {A} E (f : nat → A) (Q : A → sstate → Prop) s :
  Q (f (sv_tick s)) (bump_call s) → wp E (host f) Q s.
Proof. done. Qed.

Lemma wp_on_world {A} E (m : W A) (Q : A → sstate → Prop) s a w :
  m (sv_world s) = Ok (a, w) → Q a (upd_world (λ _, w) s) → wp E (on_world m) Q s.
Proof. intros Hm HQ. unfold wp, on_world. by rewrite Hm. Qed.

(** Before the threads: [s'] comes from [s] by [k] calls. *)
Record starting (s : sstate) (k : nat) (s' : sstate) : Prop := {
  si_open : nothing_open s';
  si_routes : sv_routes s' = sv_routes s;
  si_tick : sv_tick s' = (sv_tick s + k)%nat;
}.

Lemma wp_global_init E cf n s :
  nothing_open s →
  wp E (fdb_global_init MainGlobal cf n) (λ err s', nothing_open s' ∧
    (err = 0 ∧ ¬ network_fails (sv_tick s) ∧ starting s 3 s' ∧ sv_network s' = NetSetUp ∨
     err ≠ 0 ∧ network_fails (sv_tick s))) s.
Proof.
  intros [E1 E2 E3 E4]. unfold fdb_global_init, host_alloc, new_id, network_fails.
  apply wp_bind, wp_modify. apply wp_bind, wp_bind, wp_host.
  destruct (host_calloc _ _); cbn [negb].
  1: apply wp_bind, wp_bind, wp_gets, wp_bind, wp_modify, wp_ret, wp_bind, wp_modify, wp_ret.
  2: apply wp_ret.
  all: apply wp_bind, wp_modify, wp_bind, wp_host; cbn [sv_tick bump_call upd_global upd_blocks
    bump_id]; rewrite <- (Nat.add_1_r (sv_tick s));
    destruct (Z.eqb_spec (host_select_api (sv_tick s + 1)) 0) as [Hs|Hs]; cbn [negb];
    [|apply wp_ret; split; [done|]; by right; auto]; apply wp_bind, wp_host;
    cbn [sv_tick bump_call upd_global upd_blocks bump_id];
    replace (S (S (sv_tick s))) with (sv_tick s + 2)%nat by lia;
    destruct (Z.eqb_spec (host_setup_network (sv_tick s + 2)) 0) as [Hn|Hn]; cbn [negb];
    [|apply wp_ret; split; [done|]; by right; auto];
    apply wp_bind, wp_modify, wp_bind, wp_modify, wp_ret; split; [done|]; left;
    split_and!; [done|by intros [?|?]| |done]; split; try done; cbn; lia.
Qed.

Lemma wp_listening_socket E port s t :
  nothing_open s → sv_tick s = (t + 3)%nat →
  wp E (create_listening_socket port) (λ fd s', sv_routes s' = sv_routes s ∧
    (fd < 0 ∧ socket_fails t ∧ nothing_open s' ∨
     0 <= fd ∧ fd = host_socket (t + 3) ∧ ¬ socket_fails t ∧ sv_tick s' = (t + 6)%nat ∧
       sv_socks s' = {[fd := SockListening (u16 port)]} ∧ sv_network s' = sv_network s ∧
       sv_dbs s' = ∅ ∧ sv_threads s' = None)) s.
Proof.
  intros [E1 E2 E3 E4] Ht. unfold create_listening_socket, close, socket_fails.
  apply wp_bind, wp_host. rewrite Ht.
  destruct (Z.ltb_spec (host_socket (t + 3)) 0) as [Hlt|Hge].
  { apply wp_ret. split; [done|]. left. by split_and!; auto. }
  apply wp_bind, wp_modify, wp_bind, wp_host. cbn [sv_tick bump_call upd_socks]. rewrite Ht.
  replace (S (t + 3)) with (t + 4)%nat by lia.
  destruct (Z.ltb_spec (host_bind (t + 4)) 0) as [Hb|Hb].
  { apply wp_bind, wp_modify, wp_ret. split; [done|]. left. split_and!; auto; [lia|].
    split; try done. cbn. rewrite E2. apply delete_insert_id, lookup_empty. }
  apply wp_bind, wp_modify, wp_bind, wp_host. cbn [sv_tick bump_call upd_socks]. rewrite Ht.
  replace (S (S (t + 3))) with (t + 5)%nat by lia.
  destruct (Z.ltb_spec (host_listen (t + 5)) 0) as [Hl|Hl].
  { apply wp_bind, wp_modify, wp_ret. split; [done|]. left. split_and!; auto; [lia|].
    split; try done. cbn. rewrite E2, insert_insert_eq. apply delete_insert_id, lookup_empty. }
  apply wp_bind, wp_modify, wp_ret. split; [done|]. right. cbn. rewrite E2, !insert_insert_eq.
  split_and!; try done; lia.
Qed.

(** *** The threads *)

(** A thread as the loop leaves it: running, its loop and h2o context created, and a
    database and an operating system thread when the calls [c] and [S c] gave them. *)
Definition thread_made (fd : Z) (c : nat) (dbs : gset nat) (t : thread_ctx_t) : Prop :=
  tc_listen_fd t = fd ∧ tc_running t = true ∧ is_Some (tc_loop t) ∧ tc_h2o t = tc_loop t ∧
  tc_accept t = tc_h2o t ∧ st_loop (tc_fdb_state t) = tc_loop t ∧
  ((host_create_database c).1 = 0 → ∃ d, st_db (tc_fdb_state t) = Some d ∧ d ∈ dbs) ∧
  tc_worker t = (if host_pthread_create (S c) =? 0 then WCreated else WNone).

(** [main] blocked in [fdb_run_network] after calls from [t] on. *)
Record network_runs (t : nat) (n : nat) (port : Z) (s : sstate) : Prop := {
  ru_pc : sv_pc s = MainNetwork (host_socket (t + 3)) n;
  ru_network : sv_network s = NetSetUp;
  ru_socks : sv_socks s = {[host_socket (t + 3) := SockListening (u16 port)]};
  ru_routes : sv_routes s = tfb_routes ++ tpcc_routes;
  ru_threads : n ≠ O → ∃ ts, sv_threads s = Some ts ∧ length ts = n ∧
    ∀ j th, ts !! j = Some th →
      thread_made (host_socket (t + 3)) (t + 7 + 2 * j) (sv_dbs s) th;
}.

Lemma wp_thread_init E g loop (Q : Z * fdb_state_t → sstate → Prop) s :
  (∀ r nx dbs, st_loop r.2 = loop → sv_dbs s ⊆ dbs →
    ((host_create_database (sv_tick s)).1 = 0 → ∃ d, st_db r.2 = Some d ∧ d ∈ dbs) →
    Q r (mk_sstate (sv_main s) (sv_thread s) (sv_world s) (sv_network s) dbs (sv_blocks s)
      (sv_socks s) (sv_threads s) (sv_routes s) (sv_pc s) nx (S (sv_tick s)))) →
  wp E (fdb_thread_init g loop) Q s.
Proof.
  intros HQ. unfold fdb_thread_init, get_global, new_id.
  apply wp_bind, wp_gets, wp_bind, wp_host.
  destruct (host_create_database _) as [e db]. destruct (Z.eqb_spec e 0) as [He|He];
    [|destruct db; cbn [negb]].
  - apply wp_bind, wp_bind, wp_gets, wp_bind, wp_modify, wp_ret, wp_bind, wp_modify, wp_ret.
    apply HQ; [done|set_solver|]. intros _. eexists. split; [done|set_solver].
  - apply wp_bind, wp_bind, wp_gets, wp_bind, wp_modify, wp_ret, wp_ret. by apply HQ.
  - by apply wp_ret, HQ.
Qed.

(** The loop at index [k]. *)
Record making (t : nat) (n : nat) (port : Z) (k : nat) (s : sstate) : Prop := {
  mk_pc : sv_network s = NetSetUp;
  mk_socks : sv_socks s = {[host_socket (t + 3) := SockListening (u16 port)]};
  mk_routes : sv_routes s = tfb_routes ++ tpcc_routes;
  mk_tick : sv_tick s = (t + 7 + 2 * k)%nat;
  mk_threads : ∃ ts, sv_threads s = Some ts ∧ length ts = n ∧ ∀ j th, ts !! j = Some th →
    if decide (j < k)%nat then thread_made (host_socket (t + 3)) (t + 7 + 2 * j) (sv_dbs s) th
    else th = thread_ctx_zero;
}.

Lemma thread_made_more fd c dbs dbs' th :
  thread_made fd c dbs th → dbs ⊆ dbs' → thread_made fd c dbs' th.
Proof.
  intros (F1 & F2 & F3 & F4 & F5 & F6 & F7 & F8) Hsub. split_and!; try done.
  intros Hd. destruct (F7 Hd) as (d & ? & ?). exists d. set_solver.
Qed.

Lemma wp_start_thread E t n port k s :
  making t n port k s → (k < n)%nat →
  wp E (start_thread (host_socket (t + 3)) k) (λ _, making t n port (S k)) s.
Proof.
  intros [M1 M2 M3 M4 (ts & Hts & Hlen & Hall)] Hk. unfold start_thread, new_id, put_thread.
  destruct (lookup_lt_is_Some_2 ts k) as [th Hth]; [lia|]. pose proof (Hall _ _ Hth) as Hz.
  rewrite decide_False in Hz by lia. subst th.
  apply wp_bind. unfold wp at 1. rewrite (get_thread_Ok k ts _ s Hts Hth).
  apply wp_bind, wp_bind, wp_gets, wp_bind, wp_modify, wp_ret, wp_bind, wp_modify, wp_bind.
  apply wp_thread_init. intros [e st] nx dbs Hst Hsub Hdb. cbn in Hst, Hdb.
  apply wp_bind, wp_modify, wp_bind, wp_host.
  cbn [sv_tick sv_threads set_threads bump_id sv_dbs bump_call] in *. rewrite Hts, M4 in *.
  assert (∀ s' pc, sv_network s' = sv_network s → sv_socks s' = sv_socks s →
    sv_routes s' = sv_routes s → sv_tick s' = (2 + (t + 7 + 2 * k))%nat → sv_dbs s' = dbs →
    pc = (if host_pthread_create (S (t + 7 + 2 * k)) =? 0 then WCreated else WNone) →
    sv_threads s' = Some (<[k := tc_set_worker pc (tc_set_fdb st (mk_thread_ctx
      (host_socket (t + 3)) true (Some (sv_next s)) (Some (sv_next s)) (Some (sv_next s))
      fdb_state_zero WNone 0))]> ts) →
    making t n port (S k) s') as Hdone.
  { intros s' pc N1 N2 N3 N4 N5 Hpc N6. split; try congruence; [lia|]. eexists.
    split; [exact N6|]. rewrite length_insert. split; [done|]. intros j th Hj.
    rewrite N5. apply list_lookup_insert_Some in Hj as [(<- & <- & _)|[Hne Hj]].
    - rewrite decide_True by lia. unfold thread_made. cbn. by split_and!.
    - pose proof (Hall _ _ Hj) as Hm. destruct (decide (j < k)%nat).
      + rewrite decide_True by lia. by eapply thread_made_more.
      + by rewrite decide_False by lia. }
  destruct (host_pthread_create (S (t + 7 + 2 * k)) =? 0) eqn:Hp.
  - apply wp_modify. apply (Hdone _ WCreated); try done.
    cbn. by rewrite !list_insert_insert_eq.
  - apply wp_ret. apply (Hdone _ WNone); try done.
    cbn. by rewrite !list_insert_insert_eq.
Qed.

Lemma wp_start_threads E t n port m k s :
  making t n port k s → (k + m = n)%nat →
  wp E (for_each (seq k m) (start_thread (host_socket (t + 3)))) (λ _, making t n port n) s.
Proof.
  revert k s. induction m as [|m IH]; intros k s Hm Hn.
  - cbn [seq for_each]. apply wp_ret. assert (k = n) as <- by lia. done.
  - cbn [seq for_each]. apply wp_bind.
    eapply wp_mono; [apply wp_start_thread; [exact Hm|lia]|]. intros [] s' Hm'.
    apply IH; [done|lia].
Qed.

(** Without the array the first thread is already too many. *)
Lemma start_threads_missing fd n s :
  sv_threads s = None → (0 < n)%nat → for_each (seq 0 n) (start_thread fd) s = Ub NullDeref.
Proof.
  intros Hts Hn. destruct n as [|n]; [lia|]. cbn [seq for_each].
  unfold start_thread, get_thread, gets, mbind, M_bind. by rewrite Hts.
Qed.

(** How a start from the call [t] on ends, by what is wrong first: the command line (an
    option that is unknown or lacks its argument, or -h), the FDB network, the listening
    socket, or nothing. *)
Inductive start_outcome (args : list (list Z)) (t : nat) (s' : sstate) : Prop :=
  | so_usage pre o arg post :
      getopt args = pre ++ (o, arg) :: post → options_ok pre → o ∉ known_options →
      sv_pc s' = MainReturned (if decide (o = 104) then 0 else 1) → nothing_open s' →
      start_outcome args t s'
  | so_network config port :
      configured args config port → network_fails t →
      sv_pc s' = MainReturned 1 → nothing_open s' → start_outcome args t s'
  | so_socket config port :
      configured args config port → ¬ network_fails t → socket_fails t →
      sv_pc s' = MainReturned 1 → nothing_open s' → start_outcome args t s'
  | so_runs config port :
      configured args config port → ¬ network_fails t → ¬ socket_fails t →
      host_calloc (t + 6) (worker_count config) = true ∨ Z.to_nat (worker_count config) = O →
      network_runs t (Z.to_nat (worker_count config)) port s' → start_outcome args t s'.

(** The one start that is undefined. *)
Definition start_undefined (args : list (list Z)) (t : nat) (u : ub) : Prop :=
  u = NullDeref ∧ ∃ config port, configured args config port ∧ ¬ network_fails t ∧
    ¬ socket_fails t ∧ 0 < worker_count config ∧
    host_calloc (t + 6) (worker_count config) = false.

(** From the array of the threads on. *)
Lemma wp_threads args config port t s :
  configured args config port → ¬ network_fails t → ¬ socket_fails t →
  sv_tick s = (t + 6)%nat → sv_network s = NetSetUp →
  sv_socks s = {[host_socket (t + 3) := SockListening (u16 port)]} →
  sv_routes s = tfb_routes ++ tpcc_routes → sv_threads s = None →
  wp (start_undefined args t)
    (ok ← host (λ t, host_calloc t (worker_count config));
     _ ← modify (set_threads (if negb ok then None
           else Some (replicate (Z.to_nat (worker_count config)) thread_ctx_zero)));
     _ ← for_each (seq 0 (Z.to_nat (worker_count config))) (start_thread (host_socket (t + 3)));
     modify (set_pc (MainNetwork (host_socket (t + 3)) (Z.to_nat (worker_count config)))))
    (λ _, start_outcome args t) s.
Proof.
  intros Hcf Hn Hs Ht Hnet Hsock Hro Hts. apply wp_bind, wp_host, wp_bind, wp_modify. rewrite Ht.
  set (n := Z.to_nat (worker_count config)).
  destruct (host_calloc (t + 6) (worker_count config)) eqn:Hc; cbn [negb].
  - apply wp_bind. eapply wp_mono; [apply (wp_start_threads _ t n port n 0)|].
    + split; cbn; try done; [lia|]. eexists. split; [done|].
      split; [apply length_replicate|]. intros j th [-> _]%lookup_replicate. done.
    + done.
    + intros [] s' [M1 M2 M3 _ (ts & M4 & M5 & M6)]. apply wp_modify.
      eapply so_runs; [exact Hcf|done|done|by left|]. split; try done. intros _. exists ts.
      split_and!; try done. intros j th Hj. pose proof (M6 _ _ Hj) as Hm.
      rewrite decide_True in Hm; [done|]. rewrite <- M5. by eapply lookup_lt_Some.
  - destruct (decide (0 < n)%nat) as [Hp|Hp].
    + apply wp_bind. unfold wp at 1. rewrite start_threads_missing by done.
      split; [done|]. exists config, port. split_and!; try done. lia.
    + assert (n = 0%nat) as E0 by lia. rewrite E0. cbn [seq for_each].
      apply wp_bind, wp_ret, wp_modify. eapply so_runs; [exact Hcf|done|done|by right|].
      fold n. rewrite E0. by split.
Qed.
End failing.

(** [fdb_run_network] returning. *)
Lemma network_returns `{Host} `{Env} `{RandR} n port s0 :
  started (S n) port s0 →
  ∃ s1 fd, sreach s0 s1 ∧ sv_pc s1 = MainJoining fd (S n) 0.
Proof.
  intros Hst. pose proof Hst as [(fd & b & _ & Hpc & _) _ _ _ _ _ _].
  assert (server_enabled s0 SvNetworkReturns = true) as Hen by (cbn; by rewrite Hpc).
  destruct (started_ok (S n) port s0 Hst) as (b' & fd' & blk & Hok).
  destruct Hok as [E _ Hsg|k E|E]; rewrite Hpc in E; try done. injection E as <-.
  destruct (shutdown_from_ok b' fd (S n) port blk 0 (set_network NetReturned (bump_call s0)))
    as (s1 & Hrun & Hpc1 & _); [|lia|done|].
  { destruct Hsg as [[] Ht Hd Hs]. by split; [split|..]. }
  exists s1, fd. split; [|done]. eapply sreach_step; [apply sreach_refl|exact Hen|].
  cbn [server_step]. rewrite (M_bind_Ok (gets sv_pc) _ s0 (MainNetwork fd (S n)) s0)
    by (unfold gets; by rewrite Hpc).
  rewrite (M_bind_Ok (host host_run_network) _ s0 _ (bump_call s0) eq_refl).
  by rewrite (M_bind_Ok (modify (set_network NetReturned)) _ _ () _ eq_refl).
Qed.

(** A thread of a started server, once it listens. *)
Lemma thread_listens `{Host} `{Env} `{RandR} n port s0 i :
  started n port s0 → (i < n)%nat →
  ∃ s1, sreach s0 s1 ∧ ∀ ep path, ep ∈ (tfb_routes ++ tpcc_routes).*2 →
    server_enabled s1 (SvRequest i ep path) = true.
Proof.
  intros [(fd & b & _ & _ & _ & Hts & _) _ _ _ Hro _ _] Hi.
  set (t := thread_at fd b i).
  assert ((thread_at fd b <$> seq 0 n) !! i = Some t) as Ht.
  { by rewrite list_lookup_fmap, lookup_seq_lt by done. }
  exists (set_threads (Some (<[i := tc_set_worker WListening t]> (thread_at fd b <$> seq 0 n))) s0).
  split.
  - eapply (sreach_step _ s0 (SvBegin i)); [apply sreach_refl| |].
    + cbn. unfold worker_at. by rewrite Hts, Ht.
    + cbn [server_step]. unfold worker_begin.
      rewrite (M_bind_Ok _ _ _ _ _ (get_thread_Ok i _ t s0 Hts Ht)). by apply put_thread_Ok.
  - intros ep path Hep. cbn [server_enabled]. unfold worker_at. cbn [sv_threads set_threads].
    rewrite list_lookup_insert_eq by (by eapply lookup_lt_Some). cbn [tc_worker tc_set_worker].
    cbn [andb sv_routes set_threads]. rewrite Hro. apply existsb_exists.
    apply list_elem_of_fmap in Hep as (r & -> & Hr%list_elem_of_In). exists r. split; [done|].
    by apply bool_decide_eq_true.
Qed.

(** ** Properties *)

Section properties.
Context `{Host} `{Env} `{RandR}.

(** C30: when no call fails, [main] ends up in [fdb_run_network] with the FDB network set up,
    the port (its low 16 bits) listened on, one thread per worker with a loop, an h2o
    context and a database of its own, and all routes registered; the handlers have been
    given no FDB state. *)
Theorem main_starts_the_server (args : list (list Z)) (config : config_t) (port : Z)
    (s : sstate) :
  HostOk → unstarted s →
  parse_options (getopt args) default_config DEFAULT_PORT = Ok (inr (config, port)) →
  0 <= worker_count config <= 2 ^ 16 →
  ∃ s', main_start args s = Ok ((), s') ∧ started (Z.to_nat (worker_count config)) port s'.
Proof.
  intros HH Hs Hargs Hn.
  destruct (main_start_started args config port s Hs Hargs Hn) as ([] & s' & ? & ?). by exists s'.
Qed.

(** C31: how a start ends, by what goes wrong first.  An option that is not a, c, w or p
    makes it return before anything is set up, with 0 when it is -h and 1 otherwise; a
    failure of the FDB network or of the listening socket makes it return 1 with nothing
    left open; otherwise [main] blocks in [fdb_run_network], the options' last values in
    force, the socket listening, the routes registered and every thread set up (without an
    operating system thread where [pthread_create] failed).  The one undefined behaviour is
    the unchecked [calloc] of a non-empty thread array. *)
Theorem failing_starts_leave_nothing_open (args : list (list Z)) (s : sstate) :
  unstarted s →
  match main_start args s with
  | Ok (_, s') => start_outcome args (sv_tick s) s'
  | Ub u => start_undefined args (sv_tick s) u
  end.
Proof.
  intros Hs. change (wp (start_undefined args (sv_tick s)) (main_start args)
    (λ _, start_outcome args (sv_tick s)) s).
  assert (nothing_open s) as Hno by (destruct Hs as [E1 E2 E3 E4 E5 E6 E7]; split; congruence).
  unfold main_start. apply wp_bind, wp_lift.
  destruct (options_split (getopt args)) as [Hok|(pre & o & arg & post & E & Hok & Ho)].
  2: { rewrite E, parse_usage by done. apply wp_modify.
       eapply so_usage; [exact E|done|done|done|by destruct Hno]. }
  destruct (parse_configured (getopt args) default_config DEFAULT_PORT Hok)
    as (config & port & -> & Hcf).
  assert (configured args config port) as Hc by (by split).
  apply wp_bind. eapply wp_mono; [by apply wp_global_init|].
  intros err s1 [[E1 E2 E3 E4] [(-> & Hn & [_ Hro Hti] & Hnet)|[Herr Hn]]].
  2: { rewrite (proj2 (Z.eqb_neq err 0) Herr). apply wp_modify.
       by eapply so_network; [exact Hc|..]. }
  apply wp_bind, wp_on_world with (1 := eq_refl), wp_bind.
  apply wp_on_world with (1 := eq_refl), wp_bind, wp_modify, wp_bind.
  apply wp_on_world with (1 := eq_refl), wp_bind, wp_modify, wp_bind.
  eapply wp_mono; [by apply (wp_listening_socket _ port _ (sv_tick s))|].
  intros fd s2 [Hro2 [(Hfd & Hsf & [F1 F2 F3 F4])|(Hfd & -> & Hsf & Ht2 & Hso2 & Hn2 & Hd2 & Hts2)]].
  { cbn beta. rewrite (proj2 (Z.ltb_lt fd 0) Hfd). apply wp_modify.
    by eapply so_socket; [exact Hc|..]. }
  cbn beta. rewrite (proj2 (Z.ltb_ge _ 0) Hfd). apply (wp_threads args config port (sv_tick s)); try done.
  - by rewrite Hn2.
  - rewrite Hro2. cbn. by rewrite Hro, (un_routes _ Hs).
Qed.

(** C17: from there no step of a worker thread or of [main] can go wrong: no thread is
    joined that was not created, no database is destroyed twice, a thread whose h2o context
    has been disposed has returned and been joined, so no callback of a running thread's
    loop finds the context gone; an undefined behaviour can only come from a request's
    handler. *)
Theorem shutdown_is_safe (n : nat) (port : Z) (s0 s : sstate) :
  started n port s0 → sreach s0 s →
  (∀ ts i t, sv_threads s = Some ts → ts !! i = Some t → tc_h2o t = None →
    tc_worker t = WJoined) ∧
  ∀ ev, server_enabled s ev = true →
    match server_step ev s with
    | Ok _ => True
    | Ub u => ∃ i ep path, ev = SvRequest i ep path ∧
        step (EvRequest ep path) (sv_world s) = Ub u
    end.
Proof.
  intros Hst Hr. destruct (started_ok n port s0 Hst) as (b & fd & blk & Hok).
  pose proof (process_reach _ _ _ _ _ _ _ Hok Hr) as Hok'. split.
  - intros ts i t Hts Ht Hh. by eapply disposed_joined.
  - intros ev Hen. pose proof (process_step _ _ _ _ _ _ ev Hok' Hen) as Hs.
    by destruct (server_step ev s) as [[]|].
Qed.

(** C32: once the network has returned, [main] can always be brought to its end by steps of
    the threads it joins; when it has returned, its code is 0, every database is destroyed
    and the socket closed.  [fdb_stop_network] is never called: the network was started
    through the [fdb_global] of main.c, and [cleanup_fdb_global] looks at the one of
    thread.c; the thread states of the former are never freed. *)
Theorem shutdown_completes (n : nat) (port : Z) (s0 s : sstate) :
  started n port s0 → sreach s0 s →
  (∀ fd m k, sv_pc s = MainJoining fd m k → ∃ s', sreach s s' ∧ sv_pc s' = MainReturned 0) ∧
  (∀ code, sv_pc s = MainReturned code →
    code = 0 ∧ sv_threads s = None ∧ sv_dbs s = ∅ ∧ sv_socks s = ∅ ∧
    sv_network s = NetReturned ∧
    ∃ blk, fg_thread_states (sv_main s) = Some blk ∧ blk ∈ sv_blocks s).
Proof.
  intros Hst Hr. destruct (started_ok n port s0 Hst) as (b & fd & blk & Hok).
  pose proof (process_reach _ _ _ _ _ _ _ Hok Hr) as Hok'. split.
  - intros fd' m k Hpc. destruct Hok' as [E|k' E Hnet Hk Hsg|E]; rewrite Hpc in E; try done.
    injection E as -> -> ->. by eapply shutdown_run.
  - intros code Hpc. destruct Hok' as [E|k' E|E [[] ? ? ? ?]]; rewrite Hpc in E; try done.
    injection E as ->. split_and!; try done. exists blk. split; [naive_solver|]. set_solver.
Qed.

(** C33: the server [main] starts cannot serve its database: whatever it has done before, no
    request of an endpoint that opens a transaction is served.  The handlers were given a
    NULL FDB state: a NewOrder divides by its zero warehouses before it would dereference
    it, a Payment may, the others dereference it (/queries and /updates once they have
    found their number in the path). *)
Theorem server_has_no_fdb_state (n : nat) (port : Z) (s0 s : sstate) (i : nat)
    (ep : endpoint) (path : request_path) :
  EnvOk → started n port s0 → sreach s0 s →
  server_enabled s (SvRequest i ep path) = true → opens_transaction ep = true →
  ∃ u, server_step (SvRequest i ep path) s = Ub u ∧ null_state_ub ep path u.
Proof.
  intros HE Hst Hr Hen Hep. destruct (started_ok n port s0 Hst) as (b & fd & blk & Hok).
  pose proof (process_reach _ _ _ _ _ _ _ Hok Hr) as Hok'.
  assert (fixed n blk s) as [_ _ _ [F1 F2] F3].
  { by destruct Hok' as [_ _ []|k _ _ _ []|_ []]. }
  destruct (null_state_requests (sv_world s) ep path HE F2 F1 F3 Hep) as (u & Hu & Hp).
  exists u. split; [|done]. pose proof (request_listening _ _ _ _ Hen) as Hw.
  destruct Hok' as [_ _ Hsg|k _ _ _ Hsg|Hpc [_ E]].
  3: by exfalso; eapply (finished_quiet s (SvRequest i ep path)).
  all: rewrite (listening_h2o _ _ _ _ _ _ _ s i ep path Hsg Hw); unfold on_world; by rewrite Hu.
Qed.
End properties.

(** ** Witnesses *)

Definition host_ok : Host :=
  Build_Host (λ _ n, n <=? 2 ^ 16) (λ t, Z.of_nat t) (λ _, 0) (λ _, 0) (λ _, 0) (λ _, 0)
    (λ _, 0) (λ _, (0, true)) (λ _, 0) (λ _, 0).
Lemma host_ok_ok : @HostOk host_ok.
Proof. split; cbn; intros; lia. Qed.

(** The statics of a process that has just been loaded. *)
Definition main_world : world :=
  mk_world ∅ ∅ ∅ ∅ [] [] ∅ (mk_globals None 0 None None (replicate 10001 0) false) 1 0.
Definition main_state : sstate :=
  mk_sstate fdb_global_zero fdb_global_zero main_world NetDown ∅ ∅ ∅ None [] MainStarting 1 0.
(** [h2o-bench-tpcc -a2 -w 3 -p70000] *)
Definition main_args : list (list Z) :=
  [bytes_of_string "-a2"; bytes_of_string "-w"; bytes_of_string "3";
   bytes_of_string "-p70000"].
Definition main_config : config_t := mk_config FDB_CLUSTER_FILE_DEFAULT 3 2.

Lemma main_state_unstarted : unstarted main_state.
Proof. by split. Qed.

Lemma main_args_parsed :
  parse_options (getopt main_args) default_config DEFAULT_PORT = Ok (inr (main_config, 70000)).
Proof. by vm_compute. Qed.

Lemma main_starts_the_server_witness :
  ∃ s', @main_start host_ok (env_ok 1700000000) rand_r_posix main_args main_state = Ok ((), s') ∧
    started 2 70000 s'.
Proof.
  apply (@main_starts_the_server host_ok (env_ok 1700000000) rand_r_posix main_args main_config
    70000 main_state).
  - exact host_ok_ok.
  - exact main_state_unstarted.
  - exact main_args_parsed.
  - cbn. lia.
Defined.

Lemma some_server :
  ∃ s', @main_start host_ok (env_ok 1700000000) rand_r_posix main_args main_state = Ok ((), s') ∧
    started 2 70000 s'.
Proof.
  destruct (@main_start_started host_ok host_ok_ok (env_ok 1700000000) rand_r_posix main_args
    main_config 70000 main_state main_state_unstarted main_args_parsed)
    as ([] & s' & ? & ?); [cbn; lia|by exists s'].
Qed.

Lemma shutdown_is_safe_witness :
  ∃ s0, started 2 70000 s0 ∧
    match @server_step host_ok (env_ok 1700000000) rand_r_posix SvNetworkReturns s0 with
    | Ok _ => True
    | Ub u => ∃ i ep path, SvNetworkReturns = SvRequest i ep path ∧
        @step (env_ok 1700000000) rand_r_posix (EvRequest ep path) (sv_world s0) = Ub u
    end.
Proof.
  destruct some_server as (s0 & _ & Hst). exists s0. split; [exact Hst|].
  apply (proj2 (@shutdown_is_safe host_ok (env_ok 1700000000) rand_r_posix 2 70000 s0 s0 Hst
    (sreach_refl _))).
  cbn. destruct (go_fd _ _ _ Hst) as (fd & b & _ & Hpc & _). by rewrite Hpc.
Defined.

Lemma shutdown_completes_witness :
  ∃ s0 s1, started 2 70000 s0 ∧ @sreach host_ok (env_ok 1700000000) rand_r_posix s0 s1 ∧
    sv_pc s1 = MainReturned 0 ∧ sv_dbs s1 = ∅ ∧ sv_network s1 = NetReturned.
Proof.
  destruct some_server as (s0 & _ & Hst).
  destruct (@network_returns host_ok (env_ok 1700000000) rand_r_posix 1 70000 s0 Hst)
    as (s & fd & Hr & Hpc).
  destruct (proj1 (@shutdown_completes host_ok (env_ok 1700000000) rand_r_posix 2 70000 s0 s
    Hst Hr) fd 2%nat 0%nat Hpc) as (s1 & Hr1 & Hpc1).
  assert (@sreach host_ok (env_ok 1700000000) rand_r_posix s0 s1) as Hr2
    by (by eapply sreach_trans).
  destruct (proj2 (@shutdown_completes host_ok (env_ok 1700000000) rand_r_posix 2 70000 s0 s1
    Hst Hr2) 0 Hpc1) as (_ & _ & Hdb & _ & Hnet & _).
  exists s0, s1. split_and!; done.
Defined.

Lemma server_has_no_fdb_state_witness :
  ∃ s0 s1, started 2 70000 s0 ∧ @sreach host_ok (env_ok 1700000000) rand_r_posix s0 s1 ∧
    server_enabled s1 (SvRequest 1 EpDb any_path) = true ∧
    ∃ u, @server_step host_ok (env_ok 1700000000) rand_r_posix (SvRequest 1 EpDb any_path) s1 =
      Ub u ∧ null_state_ub EpDb any_path u.
Proof.
  destruct some_server as (s0 & _ & Hst). exists s0.
  destruct (@thread_listens host_ok (env_ok 1700000000) rand_r_posix 2 70000 s0 1 Hst)
    as (s1 & Hr & Hen); [lia|].
  assert (server_enabled s1 (SvRequest 1 EpDb any_path) = true) as He.
  { apply Hen. by apply list_elem_of_In; cbn; auto 20. }
  exists s1. split_and!; [exact Hst|exact Hr|exact He|].
  apply (@server_has_no_fdb_state host_ok (env_ok 1700000000) rand_r_posix 2 70000 s0 s1).
  - apply env_ok_ok.
  - exact Hst.
  - exact Hr.
  - exact He.
  - reflexivity.
Defined.

(** A port that is taken. *)
Definition host_port_taken : Host :=
  Build_Host (λ _ n, n <=? 2 ^ 16) (λ t, Z.of_nat t) (λ _, -1) (λ _, 0) (λ _, 0) (λ _, 0)
    (λ _, 0) (λ _, (0, true)) (λ _, 0) (λ _, 0).

Lemma failing_starts_leave_nothing_open_witness :
  match @main_start host_port_taken (env_ok 1700000000) rand_r_posix main_args main_state with
  | Ok (_, s') => @start_outcome host_port_taken main_args 0 s'
  | Ub u => @start_undefined host_port_taken main_args 0 u
  end.
Proof.
  apply (@failing_starts_leave_nothing_open host_port_taken (env_ok 1700000000) rand_r_posix
    main_args main_state).
  exact main_state_unstarted.
Defined.
